(** * SVE instruction emitters of FEXCore (SVEOps.inl)

    A shallow embedding of the AArch64 SVE/SVE2 emitters found in
    [External/FEXCore/Source/Interface/Core/ArchHelpers/CodeEmitter/SVEOps.inl]
    together with the properties its specification states about them.

    Every emitter is a function in a small state-and-fault monad over the
    code buffer: [dc32] appends one 32-bit word, a failed assertion stops the
    emitter and keeps the buffer as it was at that point. *)

From Stdlib Require Import ZArith List String Ascii Bool Lia.
Import ListNotations.

Local Open Scope string_scope.
Local Open Scope list_scope.
Local Open Scope Z_scope.

(** ** 32-bit unsigned arithmetic *)

(** [bin] reads a C++ binary literal (digits with optional ['] separators),
    so that opcode templates can be compared with the source text. *)
Fixpoint bin_acc (acc : Z) (s : string) : Z :=
  match s with
  | EmptyString => acc
  | String "0"%char r => bin_acc (2 * acc) r
  | String "1"%char r => bin_acc (2 * acc + 1) r
  | String _ r => bin_acc acc r
  end.

Definition bin (s : string) : Z := bin_acc 0 s.

Definition u32 (x : Z) : Z := x mod 2 ^ 32.

(** [x << n] on [uint32_t]. *)
Definition shl (x n : Z) : Z := u32 (Z.shiftl x n).

(** [x >> n] on [uint32_t]. *)
Definition shr (x n : Z) : Z := Z.shiftr (u32 x) n.

(** Bits [lo + len - 1 : lo] of a word. *)
Definition bits (lo len w : Z) : Z := Z.land (Z.shiftr w lo) (Z.ones len).

(** ** Operand model

    The operand types are declared outside SVEOps.inl; they are modelled here
    from the data model of the specification. *)

(** Modelled from the spec: the element size [SubRegSize], a closed
    enumeration over 8, 16, 32, 64 and 128 bits. *)
Inductive SubRegSize : Type :=
| i8Bit | i16Bit | i32Bit | i64Bit | i128Bit.

Definition SubRegSize_eqb (a b : SubRegSize) : bool :=
  match a, b with
  | i8Bit, i8Bit | i16Bit, i16Bit | i32Bit, i32Bit
  | i64Bit, i64Bit | i128Bit, i128Bit => true
  | _, _ => false
  end.

(** Modelled from the spec: the underlying value of a [SubRegSize] is the ISA
    size code, which the spec gives as [0b11] for 64-bit elements; 128-bit is
    the next value up. *)
Definition ToUnderlying (size : SubRegSize) : Z :=
  match size with
  | i8Bit => 0
  | i16Bit => 1
  | i32Bit => 2
  | i64Bit => 3
  | i128Bit => 4
  end.

(** Modelled from the spec: [SubRegSizeInBits] is declared outside SVEOps.inl;
    it is the size-to-bit-width mapping of the operand model. *)
Definition SubRegSizeInBits (size : SubRegSize) : Z :=
  match size with
  | i8Bit => 8
  | i16Bit => 16
  | i32Bit => 32
  | i64Bit => 64
  | i128Bit => 128
  end.

(** Modelled from the spec: the register classes.  A register is identified
    purely by its index, read with [Idx()]: a vector register z0..z31, a
    scalar register, a predicate register p0..p15 and its zeroing and merging
    qualified forms. *)
Class HasIdx (R : Type) : Type := { Idx : R -> Z }.

Record ZRegister : Type := ZReg { ZIndex : Z }.
Record Register : Type := Reg { RIndex : Z }.
Record PRegister : Type := PReg { PIndex : Z }.
Record PRegisterZero : Type := PRegZero { PZIndex : Z }.
Record PRegisterMerge : Type := PRegMerge { PMIndex : Z }.

#[global] Instance ZRegister_Idx : HasIdx ZRegister := {| Idx := ZIndex |}.
#[global] Instance Register_Idx : HasIdx Register := {| Idx := RIndex |}.
#[global] Instance PRegister_Idx : HasIdx PRegister := {| Idx := PIndex |}.
#[global] Instance PRegisterZero_Idx : HasIdx PRegisterZero := {| Idx := PZIndex |}.
#[global] Instance PRegisterMerge_Idx : HasIdx PRegisterMerge := {| Idx := PMIndex |}.

Definition Zeroing (p : PRegister) : PRegisterZero := PRegZero (PIndex p).
Definition Merging (p : PRegister) : PRegisterMerge := PRegMerge (PIndex p).

(** A qualified predicate converts to a plain [PRegister] where a primitive
    takes one. *)
Definition PRegisterZero_to_PRegister (p : PRegisterZero) : PRegister :=
  PReg (PZIndex p).
Definition PRegisterMerge_to_PRegister (p : PRegisterMerge) : PRegister :=
  PReg (PMIndex p).
Coercion PRegisterZero_to_PRegister : PRegisterZero >-> PRegister.
Coercion PRegisterMerge_to_PRegister : PRegisterMerge >-> PRegister.

Definition p7 : PRegister := PReg 7.

(** Modelled from the spec: the comparisons of the operand model ([==] and
    [<=] on registers) go by register index. *)
Definition reg_eqb {R : Type} `{HasIdx R} (a b : R) : bool := Idx a =? Idx b.
Definition reg_leb {R : Type} `{HasIdx R} (a b : R) : bool := Idx a <=? Idx b.

(** Modelled from the spec: the rotation enumeration, 0, 90, 180 and 270
    degrees. *)
Inductive Rotation : Type :=
| ROTATE_0 | ROTATE_90 | ROTATE_180 | ROTATE_270.

Definition Rotation_eqb (a b : Rotation) : bool :=
  match a, b with
  | ROTATE_0, ROTATE_0 | ROTATE_90, ROTATE_90
  | ROTATE_180, ROTATE_180 | ROTATE_270, ROTATE_270 => true
  | _, _ => false
  end.

(** Modelled from the spec: the register field encoders [Encode_rd],
    [Encode_rn] and [Encode_rm] are declared outside SVEOps.inl.  They place a
    register index at bits 4:0, 9:5 and 20:16 of the word, the positions the
    spec gives for zd, zn and zm. *)
Definition Encode_rd {R : Type} `{HasIdx R} (r : R) : Z := Idx r.
Definition Encode_rn {R : Type} `{HasIdx R} (r : R) : Z := shl (Idx r) 5.
Definition Encode_rm {R : Type} `{HasIdx R} (r : R) : Z := shl (Idx r) 16.

(** Modelled from the spec: the memory operand [SVEMemOperand], a base
    register with a tagged addressing mode: scalar plus scalar, scalar plus
    immediate, scalar plus vector, vector plus immediate. *)
Inductive SVEMemType : Type :=
| TYPE_SCALAR_SCALAR (rm : Register)
| TYPE_SCALAR_IMM (Imm : Z)
| TYPE_SCALAR_VECTOR (zm : ZRegister)
| TYPE_VECTOR_IMM (zn : ZRegister) (Imm : Z).

Record SVEMemOperand : Type := MemOperand { rn : Register; MetaType : SVEMemType }.

(** ** The emitter monad *)

Definition CodeBuffer : Type := list Z.

Inductive Fault : Type :=
| AssertFailed (msg : string)
| Unreachable.

Inductive Outcome (A : Type) : Type :=
| Done (a : A) (buf : CodeBuffer)
| Stopped (f : Fault) (buf : CodeBuffer).

Arguments Done {A} a buf.
Arguments Stopped {A} f buf.

Definition Emit (A : Type) : Type := CodeBuffer -> Outcome A.

Definition ret {A : Type} (a : A) : Emit A := fun buf => Done a buf.

Definition bind {A B : Type} (m : Emit A) (k : A -> Emit B) : Emit B :=
  fun buf =>
    match m buf with
    | Done a buf' => k a buf'
    | Stopped f buf' => Stopped f buf'
    end.

Notation "m ;; k" := (bind m (fun _ => k))
  (at level 61, right associativity).
Notation "x <- m ;; k" := (bind m (fun x => k))
  (at level 61, m at next level, right associativity).

(** The single output primitive: append one 32-bit word. *)
Definition dc32 (w : Z) : Emit unit := fun buf => Done tt (buf ++ [u32 w]).

(** Modelled from the spec: the assertion macros [LOGMAN_THROW_A_FMT] and
    [LOGMAN_THROW_AA_FMT] are declared outside SVEOps.inl.  The spec describes
    both as fatal assertions: a violated condition aborts at once with a
    descriptive message, and nothing further is emitted. *)
Definition LOGMAN_THROW_A_FMT (pred : bool) (msg : string) : Emit unit :=
  fun buf => if pred then Done tt buf else Stopped (AssertFailed msg) buf.
Definition LOGMAN_THROW_AA_FMT (pred : bool) (msg : string) : Emit unit :=
  fun buf => if pred then Done tt buf else Stopped (AssertFailed msg) buf.

(** Modelled from the spec: [FEX_UNREACHABLE] is declared outside SVEOps.inl;
    the spec has unreachable states signalled distinctly from validation
    failures. *)
Definition FEX_UNREACHABLE : Emit unit := fun buf => Stopped Unreachable buf.

(** A [static_assert] on a template size rejects the instantiation when the
    program is built; no call with such a size exists.  The model keeps the
    size as an argument and stops the emitter there. *)
Definition static_assert (pred : bool) (msg : string) : Emit unit :=
  fun buf => if pred then Done tt buf else Stopped (AssertFailed msg) buf.

(** ** Private encoders (bit layouts) *)

Definition SVEDup (Op imm2 tsz : Z) (zn zd : ZRegister) : Emit unit :=
  let Instr := Op in
  let Instr := Z.lor Instr (shl imm2 22) in
  let Instr := Z.lor Instr (shl tsz 16) in
  let Instr := Z.lor Instr (Encode_rn zn) in
  let Instr := Z.lor Instr (Encode_rd zd) in
  dc32 Instr.

Definition SVEBitwiseShiftbyVector (R L U : Z) (size : SubRegSize)
    (pg : PRegister) (zd zn zm : ZRegister) : Emit unit :=
  LOGMAN_THROW_AA_FMT (negb (SubRegSize_eqb size i128Bit)) "Can't use 128-bit size" ;;
  LOGMAN_THROW_A_FMT (reg_eqb zd zn) "Dest needs to equal zn" ;;
  LOGMAN_THROW_A_FMT (reg_leb pg p7) "Can only use p0-p7 as a governing predicate" ;;
  let Instr := bin "0000'0100'0001'0000'1000'0000'0000'0000" in
  let Instr := Z.lor Instr (shl (ToUnderlying size) 22) in
  let Instr := Z.lor Instr (shl R 18) in
  let Instr := Z.lor Instr (shl L 17) in
  let Instr := Z.lor Instr (shl U 16) in
  let Instr := Z.lor Instr (shl (Idx pg) 10) in
  let Instr := Z.lor Instr (shl (Idx zm) 5) in
  let Instr := Z.lor Instr (Idx zd) in
  dc32 Instr.

(* SVE integer add/subtract vectors (unpredicated) *)
Definition SVEIntegerAddSubUnpredicated (Op opc : Z) (size : SubRegSize)
    (zm zn zd : ZRegister) : Emit unit :=
  LOGMAN_THROW_AA_FMT (negb (SubRegSize_eqb size i128Bit)) "Can't use 128-bit size" ;;
  let Instr := Op in
  let Instr := Z.lor Instr (shl (ToUnderlying size) 22) in
  let Instr := Z.lor Instr (shl (Idx zm) 16) in
  let Instr := Z.lor Instr (shl opc 10) in
  let Instr := Z.lor Instr (shl (Idx zn) 5) in
  let Instr := Z.lor Instr (Idx zd) in
  dc32 Instr.

Definition SVEContiguousLoadImm (Op dtype Imm : Z) (pg : PRegister)
    (rn : Register) (zt : ZRegister) : Emit unit :=
  let Instr := Op in
  let Instr := Z.lor Instr (shl dtype 21) in
  let Instr := Z.lor Instr (shl (Z.land Imm 0xF) 16) in
  let Instr := Z.lor Instr (shl (Idx pg) 10) in
  let Instr := Z.lor Instr (Encode_rn rn) in
  let Instr := Z.lor Instr (Idx zt) in
  dc32 Instr.

(* zt.b, pg/z, xn, xm *)
Definition SVEContiguousLoadStore (Op dtype : Z) (rm : Register)
    (pg : PRegister) (rn : Register) (zt : ZRegister) : Emit unit :=
  let Instr := Op in
  let Instr := Z.lor Instr (shl dtype 21) in
  let Instr := Z.lor Instr (Encode_rm rm) in
  let Instr := Z.lor Instr (shl (Idx pg) 10) in
  let Instr := Z.lor Instr (Encode_rn rn) in
  let Instr := Z.lor Instr (Idx zt) in
  dc32 Instr.

Definition SVEIntegerCompareImm (lt ne imm7 : Z) (size : SubRegSize)
    (pg : PRegister) (zn : ZRegister) (pd : PRegister) : Emit unit :=
  let Op := shl (bin "0010'0100'0010'0000'0000") 12 in
  let Instr := Op in
  let Instr := Z.lor Instr (shl (ToUnderlying size) 22) in
  let Instr := Z.lor Instr (shl imm7 14) in
  let Instr := Z.lor Instr (shl lt 13) in
  let Instr := Z.lor Instr (shl (Idx pg) 10) in
  let Instr := Z.lor Instr (shl (Idx zn) 5) in
  let Instr := Z.lor Instr (shl ne 4) in
  let Instr := Z.lor Instr (Idx pd) in
  dc32 Instr.

Definition SVEIntegerCompareSignedImm (op o2 ne imm5 : Z) (size : SubRegSize)
    (pg : PRegister) (zn : ZRegister) (pd : PRegister) : Emit unit :=
  let Op := shl (bin "0010'0101'0000'0000'000") 13 in
  let Instr := Op in
  let Instr := Z.lor Instr (shl (ToUnderlying size) 22) in
  let Instr := Z.lor Instr (shl (Z.land imm5 (bin "1'1111")) 16) in
  let Instr := Z.lor Instr (shl op 15) in
  let Instr := Z.lor Instr (shl o2 13) in
  let Instr := Z.lor Instr (shl (Idx pg) 10) in
  let Instr := Z.lor Instr (shl (Idx zn) 5) in
  let Instr := Z.lor Instr (shl ne 4) in
  let Instr := Z.lor Instr (Idx pd) in
  dc32 Instr.

Definition SVEFloatCompareVector (op o2 o3 : Z) (size : SubRegSize)
    (zm : ZRegister) (pg : PRegister) (zn : ZRegister) (pd : PRegister)
    : Emit unit :=
  LOGMAN_THROW_AA_FMT (negb (SubRegSize_eqb size i128Bit)) "Can't use 128-bit size" ;;
  LOGMAN_THROW_AA_FMT (negb (SubRegSize_eqb size i8Bit)) "Can't use 8-bit size" ;;
  LOGMAN_THROW_A_FMT (reg_leb pg p7) "Can only use p0-p7 as a governing predicate" ;;
  let Instr := bin "0110'0101'0000'0000'0100'0000'0000'0000" in
  let Instr := Z.lor Instr (shl (ToUnderlying size) 22) in
  let Instr := Z.lor Instr (shl (Idx zm) 16) in
  let Instr := Z.lor Instr (shl op 15) in
  let Instr := Z.lor Instr (shl o2 13) in
  let Instr := Z.lor Instr (shl (Idx pg) 10) in
  let Instr := Z.lor Instr (shl (Idx zn) 5) in
  let Instr := Z.lor Instr (shl o3 4) in
  let Instr := Z.lor Instr (Idx pd) in
  dc32 Instr.

Definition SVEBitWiseShiftImmediatePred (size : SubRegSize) (opc L U : Z)
    (pg : PRegister) (zd zdn : ZRegister) (Shift : Z) : Emit unit :=
  LOGMAN_THROW_AA_FMT (negb (SubRegSize_eqb size i128Bit)) "Can't use 128-bit element size" ;;
  LOGMAN_THROW_A_FMT (reg_eqb zd zdn) "zd needs to equal zdn" ;;
  LOGMAN_THROW_A_FMT (reg_leb pg p7) "Can only use p0-p7 as a governing predicate" ;;
  let ElementSize := SubRegSizeInBits size in
  let IsLeftShift := negb (L =? 0) in
  (if IsLeftShift
   then LOGMAN_THROW_A_FMT ((Shift >=? 0) && (Shift <? ElementSize)) "Incorrect left shift: {}"
   else LOGMAN_THROW_A_FMT ((Shift >? 0) && (Shift <=? ElementSize)) "Incorrect right shift: {}") ;;
  let InverseShift := if IsLeftShift then Shift
                                     else u32 ((2 * ElementSize) - Shift) in
  f <- (if SubRegSize_eqb size i8Bit then
          ret (bin "00", bin "01", Z.land InverseShift (bin "111"))
        else if SubRegSize_eqb size i16Bit then
          ret (bin "00",
               Z.lor (bin "10") (Z.land (shr InverseShift 3) (bin "1")),
               Z.land InverseShift (bin "111"))
        else if SubRegSize_eqb size i32Bit then
          ret (bin "01",
               Z.land (shr InverseShift 3) (bin "11"),
               Z.land InverseShift (bin "111"))
        else if SubRegSize_eqb size i64Bit then
          ret (Z.lor (bin "10") (Z.land (shr InverseShift 5) 1),
               Z.land (shr InverseShift 3) (bin "11"),
               Z.land InverseShift (bin "111"))
        else
          FEX_UNREACHABLE ;; ret (0, 0, 0)) ;;
  let '(tszh, tszl, imm3) := f in
  let Op := shl (bin "0000'0100'0000'0000'100") 13 in
  let Instr := Op in
  let Instr := Z.lor Instr (shl tszh 22) in
  let Instr := Z.lor Instr (shl opc 18) in
  let Instr := Z.lor Instr (shl L 17) in
  let Instr := Z.lor Instr (shl U 16) in
  let Instr := Z.lor Instr (shl (Idx pg) 10) in
  let Instr := Z.lor Instr (shl tszl 8) in
  let Instr := Z.lor Instr (shl imm3 5) in
  let Instr := Z.lor Instr (Idx zd) in
  dc32 Instr.

Definition SVEBitWiseShiftImmediateUnpred (size : SubRegSize) (opc : Z)
    (zd zn : ZRegister) (Shift : Z) : Emit unit :=
  LOGMAN_THROW_AA_FMT (negb (SubRegSize_eqb size i128Bit)) "Can't use 128-bit element size" ;;
  let ElementSize := SubRegSizeInBits size in
  let IsLeftShift := opc =? bin "11" in
  (if IsLeftShift
   then LOGMAN_THROW_A_FMT ((Shift >=? 0) && (Shift <? ElementSize)) "Incorrect left shift: {}"
   else LOGMAN_THROW_A_FMT ((Shift >? 0) && (Shift <=? ElementSize)) "Incorrect right shift: {}") ;;
  let InverseShift := if IsLeftShift then Shift
                                     else u32 ((2 * ElementSize) - Shift) in
  f <- (if SubRegSize_eqb size i8Bit then
          ret (bin "00", bin "01", Z.land InverseShift (bin "111"))
        else if SubRegSize_eqb size i16Bit then
          ret (bin "00",
               Z.lor (bin "10") (Z.land (shr InverseShift 3) (bin "1")),
               Z.land InverseShift (bin "111"))
        else if SubRegSize_eqb size i32Bit then
          ret (bin "01",
               Z.land (shr InverseShift 3) (bin "11"),
               Z.land InverseShift (bin "111"))
        else if SubRegSize_eqb size i64Bit then
          ret (Z.lor (bin "10") (Z.land (shr InverseShift 5) 1),
               Z.land (shr InverseShift 3) (bin "11"),
               Z.land InverseShift (bin "111"))
        else
          FEX_UNREACHABLE ;; ret (0, 0, 0)) ;;
  let '(tszh, tszl, imm3) := f in
  let Instr := bin "0000'0100'0010'0000'1001'0000'0000'0000" in
  let Instr := Z.lor Instr (shl tszh 22) in
  let Instr := Z.lor Instr (shl tszl 19) in
  let Instr := Z.lor Instr (shl imm3 16) in
  let Instr := Z.lor Instr (shl opc 10) in
  let Instr := Z.lor Instr (shl (Idx zn) 5) in
  let Instr := Z.lor Instr (Idx zd) in
  dc32 Instr.

Definition SVEIntegerCompareVector (op o2 ne : Z) (size : SubRegSize)
    (zm : ZRegister) (pg : PRegister) (zn : ZRegister) (pd : PRegister)
    : Emit unit :=
  LOGMAN_THROW_A_FMT (negb (SubRegSize_eqb size i128Bit)) "Can't use 128-bit element size" ;;
  LOGMAN_THROW_A_FMT (reg_leb pg p7) "Can only use p0-p7 as a governing predicate" ;;
  let Op := shl (bin "0010'0100'0000'0000'000") 13 in
  let Instr := Op in
  let Instr := Z.lor Instr (shl (ToUnderlying size) 22) in
  let Instr := Z.lor Instr (shl (Idx zm) 16) in
  let Instr := Z.lor Instr (shl op 15) in
  let Instr := Z.lor Instr (shl o2 13) in
  let Instr := Z.lor Instr (shl (Idx pg) 10) in
  let Instr := Z.lor Instr (shl (Idx zn) 5) in
  let Instr := Z.lor Instr (shl ne 4) in
  let Instr := Z.lor Instr (Idx pd) in
  dc32 Instr.

Definition SVEIntegerCompareVectorWide (op o2 ne : Z) (size : SubRegSize)
    (pd pg : PRegister) (zn zm : ZRegister) : Emit unit :=
  LOGMAN_THROW_A_FMT (negb (SubRegSize_eqb size i64Bit)) "Can't use 64-bit element size" ;;
  SVEIntegerCompareVector op o2 ne size zm pg zn pd.

(** ** Public mnemonics *)

(** Overloaded C++ mnemonics live in one module per instruction class, named
    after the class comment that heads them in the source. *)

Definition dup (size : SubRegSize) (zd zn : ZRegister) (Index : Z) : Emit unit :=
  let Op := shl (bin "0000'0101'0010'0000'0010'00") 10 in
  (* We can index up to 512-bit registers with dup *)
  f <- (if SubRegSize_eqb size i8Bit then
          LOGMAN_THROW_AA_FMT (Index <? 64) "Index too large" ;;
          ret (shr Index 4,
               Z.lor (bin "00001") (shl (Z.land Index (bin "1111")) 1))
        else if SubRegSize_eqb size i16Bit then
          LOGMAN_THROW_AA_FMT (Index <? 32) "Index too large" ;;
          ret (shr Index 3,
               Z.lor (bin "00010") (shl (Z.land Index (bin "111")) 2))
        else if SubRegSize_eqb size i32Bit then
          LOGMAN_THROW_AA_FMT (Index <? 16) "Index too large" ;;
          ret (shr Index 2,
               Z.lor (bin "00100") (shl (Z.land Index (bin "11")) 3))
        else if SubRegSize_eqb size i64Bit then
          LOGMAN_THROW_AA_FMT (Index <? 8) "Index too large" ;;
          ret (shr Index 1,
               Z.lor (bin "01000") (shl (Z.land Index (bin "1")) 4))
        else if SubRegSize_eqb size i128Bit then
          LOGMAN_THROW_AA_FMT (Index <? 4) "Index too large" ;;
          ret (Index, bin "10000")
        else
          ret (0, 0)) ;;
  let '(imm2, tsz) := f in
  SVEDup Op imm2 tsz zn zd.

Definition histcnt (size : SubRegSize) (zd : ZRegister) (pv : PRegisterZero)
    (zn zm : ZRegister) : Emit unit :=
  LOGMAN_THROW_AA_FMT (SubRegSize_eqb size i32Bit || SubRegSize_eqb size i64Bit)
    "SubRegSize must be 32-bit or 64-bit" ;;
  LOGMAN_THROW_A_FMT (reg_leb pv (Zeroing p7)) "histcnt can only use p0 to p7" ;;
  let Op := bin "0100'0101'0010'0000'1100'0000'0000'0000" in
  let Op := Z.lor Op (shl (ToUnderlying size) 22) in
  let Op := Z.lor Op (shl (Idx zm) 16) in
  let Op := Z.lor Op (shl (Idx pv) 10) in
  let Op := Z.lor Op (shl (Idx zn) 5) in
  let Op := Z.lor Op (Idx zd) in
  dc32 Op.

Definition fcadd (size : SubRegSize) (zd : ZRegister) (pv : PRegisterMerge)
    (zn zm : ZRegister) (rot : Rotation) : Emit unit :=
  LOGMAN_THROW_AA_FMT
    (SubRegSize_eqb size i16Bit || SubRegSize_eqb size i32Bit || SubRegSize_eqb size i64Bit)
    "SubRegSize must be 16-bit, 32-bit, or 64-bit" ;;
  LOGMAN_THROW_A_FMT (reg_leb pv (Merging p7)) "fcadd can only use p0 to p7" ;;
  LOGMAN_THROW_AA_FMT (Rotation_eqb rot ROTATE_90 || Rotation_eqb rot ROTATE_270)
    "fcadd rotation may only be 90 or 270 degrees" ;;
  LOGMAN_THROW_A_FMT (reg_eqb zd zn) "fcadd zd and zn must be the same register" ;;
  let ConvertedRotation := if Rotation_eqb rot ROTATE_90 then 0 else 1 in
  let Op := bin "0110'0100'0000'0000'1000'0000'0000'0000" in
  let Op := Z.lor Op (shl (ToUnderlying size) 22) in
  let Op := Z.lor Op (shl ConvertedRotation 16) in
  let Op := Z.lor Op (shl (Idx pv) 10) in
  let Op := Z.lor Op (shl (Idx zm) 5) in
  let Op := Z.lor Op (Idx zd) in
  dc32 Op.

(* SVE integer add/subtract vectors (unpredicated) *)
Module AddSubUnpredicated.
Definition add (size : SubRegSize) (zd zn zm : ZRegister) : Emit unit :=
  let Op := shl (bin "0000'0100'0010'0000'000") 13 in
  SVEIntegerAddSubUnpredicated Op (bin "000") size zm zn zd.
Definition sub (size : SubRegSize) (zd zn zm : ZRegister) : Emit unit :=
  let Op := shl (bin "0000'0100'0010'0000'000") 13 in
  SVEIntegerAddSubUnpredicated Op (bin "001") size zm zn zd.
Definition sqadd (size : SubRegSize) (zd zn zm : ZRegister) : Emit unit :=
  let Op := shl (bin "0000'0100'0010'0000'000") 13 in
  SVEIntegerAddSubUnpredicated Op (bin "100") size zm zn zd.
Definition uqadd (size : SubRegSize) (zd zn zm : ZRegister) : Emit unit :=
  let Op := shl (bin "0000'0100'0010'0000'000") 13 in
  SVEIntegerAddSubUnpredicated Op (bin "101") size zm zn zd.
Definition sqsub (size : SubRegSize) (zd zn zm : ZRegister) : Emit unit :=
  let Op := shl (bin "0000'0100'0010'0000'000") 13 in
  SVEIntegerAddSubUnpredicated Op (bin "110") size zm zn zd.
Definition uqsub (size : SubRegSize) (zd zn zm : ZRegister) : Emit unit :=
  let Op := shl (bin "0000'0100'0010'0000'000") 13 in
  SVEIntegerAddSubUnpredicated Op (bin "111") size zm zn zd.
End AddSubUnpredicated.

(* SVE integer compare with unsigned immediate *)
Module CompareUnsignedImm.
Definition cmphi (size : SubRegSize) (pd : PRegister) (pg : PRegisterZero)
    (zn : ZRegister) (imm : Z) : Emit unit :=
  LOGMAN_THROW_AA_FMT (negb (SubRegSize_eqb size i128Bit)) "Can't use 128-bit size" ;;
  LOGMAN_THROW_AA_FMT (imm <? 128) "Invalid imm" ;;
  SVEIntegerCompareImm 0 1 imm size pg zn pd.
Definition cmphs (size : SubRegSize) (pd : PRegister) (pg : PRegisterZero)
    (zn : ZRegister) (imm : Z) : Emit unit :=
  LOGMAN_THROW_AA_FMT (negb (SubRegSize_eqb size i128Bit)) "Can't use 128-bit size" ;;
  LOGMAN_THROW_AA_FMT (imm <? 128) "Invalid imm" ;;
  SVEIntegerCompareImm 0 0 imm size pg zn pd.
Definition cmplo (size : SubRegSize) (pd : PRegister) (pg : PRegisterZero)
    (zn : ZRegister) (imm : Z) : Emit unit :=
  LOGMAN_THROW_AA_FMT (negb (SubRegSize_eqb size i128Bit)) "Can't use 128-bit size" ;;
  LOGMAN_THROW_AA_FMT (imm <? 128) "Invalid imm" ;;
  SVEIntegerCompareImm 1 0 imm size pg zn pd.
Definition cmpls (size : SubRegSize) (pd : PRegister) (pg : PRegisterZero)
    (zn : ZRegister) (imm : Z) : Emit unit :=
  LOGMAN_THROW_AA_FMT (negb (SubRegSize_eqb size i128Bit)) "Can't use 128-bit size" ;;
  LOGMAN_THROW_AA_FMT (imm <? 128) "Invalid imm" ;;
  SVEIntegerCompareImm 1 1 imm size pg zn pd.
End CompareUnsignedImm.

(* SVE integer compare with signed immediate *)
Module CompareSignedImm.
(** [imm] is an [int32_t]; passing it to the [uint32_t imm5] parameter of the
    primitive converts it modulo 2^32. *)
Definition cmpeq (size : SubRegSize) (pd : PRegister) (pg : PRegisterZero)
    (zn : ZRegister) (imm : Z) : Emit unit :=
  LOGMAN_THROW_AA_FMT (negb (SubRegSize_eqb size i128Bit)) "Can't use 128-bit size" ;;
  LOGMAN_THROW_AA_FMT ((imm >=? -16) && (imm <=? 15)) "Invalid imm" ;;
  SVEIntegerCompareSignedImm 1 0 0 (u32 imm) size pg zn pd.
Definition cmpgt (size : SubRegSize) (pd : PRegister) (pg : PRegisterZero)
    (zn : ZRegister) (imm : Z) : Emit unit :=
  LOGMAN_THROW_AA_FMT (negb (SubRegSize_eqb size i128Bit)) "Can't use 128-bit size" ;;
  LOGMAN_THROW_AA_FMT ((imm >=? -16) && (imm <=? 15)) "Invalid imm" ;;
  SVEIntegerCompareSignedImm 0 0 1 (u32 imm) size pg zn pd.
Definition cmpge (size : SubRegSize) (pd : PRegister) (pg : PRegisterZero)
    (zn : ZRegister) (imm : Z) : Emit unit :=
  LOGMAN_THROW_AA_FMT (negb (SubRegSize_eqb size i128Bit)) "Can't use 128-bit size" ;;
  LOGMAN_THROW_AA_FMT ((imm >=? -16) && (imm <=? 15)) "Invalid imm" ;;
  SVEIntegerCompareSignedImm 0 0 0 (u32 imm) size pg zn pd.
Definition cmplt (size : SubRegSize) (pd : PRegister) (pg : PRegisterZero)
    (zn : ZRegister) (imm : Z) : Emit unit :=
  LOGMAN_THROW_AA_FMT (negb (SubRegSize_eqb size i128Bit)) "Can't use 128-bit size" ;;
  LOGMAN_THROW_AA_FMT ((imm >=? -16) && (imm <=? 15)) "Invalid imm" ;;
  SVEIntegerCompareSignedImm 0 1 0 (u32 imm) size pg zn pd.
Definition cmple (size : SubRegSize) (pd : PRegister) (pg : PRegisterZero)
    (zn : ZRegister) (imm : Z) : Emit unit :=
  LOGMAN_THROW_AA_FMT (negb (SubRegSize_eqb size i128Bit)) "Can't use 128-bit size" ;;
  LOGMAN_THROW_AA_FMT ((imm >=? -16) && (imm <=? 15)) "Invalid imm" ;;
  SVEIntegerCompareSignedImm 0 1 1 (u32 imm) size pg zn pd.
End CompareSignedImm.

(* SVE floating-point compare vectors *)
Module FloatCompareVectors.
Definition fcmeq (size : SubRegSize) (pd : PRegister) (pg : PRegisterZero)
    (zn zm : ZRegister) : Emit unit :=
  SVEFloatCompareVector 0 1 0 size zm pg zn pd.
Definition fcmgt (size : SubRegSize) (pd : PRegister) (pg : PRegisterZero)
    (zn zm : ZRegister) : Emit unit :=
  SVEFloatCompareVector 0 0 1 size zm pg zn pd.
Definition fcmge (size : SubRegSize) (pd : PRegister) (pg : PRegisterZero)
    (zn zm : ZRegister) : Emit unit :=
  SVEFloatCompareVector 0 0 0 size zm pg zn pd.
Definition fcmne (size : SubRegSize) (pd : PRegister) (pg : PRegisterZero)
    (zn zm : ZRegister) : Emit unit :=
  SVEFloatCompareVector 0 1 1 size zm pg zn pd.
Definition fcmuo (size : SubRegSize) (pd : PRegister) (pg : PRegisterZero)
    (zn zm : ZRegister) : Emit unit :=
  SVEFloatCompareVector 1 0 0 size zm pg zn pd.
Definition facge (size : SubRegSize) (pd : PRegister) (pg : PRegisterZero)
    (zn zm : ZRegister) : Emit unit :=
  SVEFloatCompareVector 1 0 1 size zm pg zn pd.
Definition facgt (size : SubRegSize) (pd : PRegister) (pg : PRegisterZero)
    (zn zm : ZRegister) : Emit unit :=
  SVEFloatCompareVector 1 1 1 size zm pg zn pd.
Definition facle (size : SubRegSize) (pd : PRegister) (pg : PRegisterZero)
    (zm zn : ZRegister) : Emit unit :=
  facge size pd pg zn zm.
Definition faclt (size : SubRegSize) (pd : PRegister) (pg : PRegisterZero)
    (zm zn : ZRegister) : Emit unit :=
  facgt size pd pg zn zm.
End FloatCompareVectors.

(* SVE bitwise shift by immediate (predicated) *)
Module ShiftByImmediatePredicated.
Definition asr (size : SubRegSize) (zd : ZRegister) (pg : PRegisterMerge)
    (zdn : ZRegister) (Shift : Z) : Emit unit :=
  SVEBitWiseShiftImmediatePred size (bin "00") 0 0 pg zd zdn Shift.
Definition lsr (size : SubRegSize) (zd : ZRegister) (pg : PRegisterMerge)
    (zdn : ZRegister) (Shift : Z) : Emit unit :=
  SVEBitWiseShiftImmediatePred size (bin "00") 0 1 pg zd zdn Shift.
Definition lsl (size : SubRegSize) (zd : ZRegister) (pg : PRegisterMerge)
    (zdn : ZRegister) (Shift : Z) : Emit unit :=
  SVEBitWiseShiftImmediatePred size (bin "00") 1 1 pg zd zdn Shift.
Definition asrd (size : SubRegSize) (zd : ZRegister) (pg : PRegisterMerge)
    (zdn : ZRegister) (Shift : Z) : Emit unit :=
  SVEBitWiseShiftImmediatePred size (bin "01") 0 0 pg zd zdn Shift.
Definition sqshl (size : SubRegSize) (zd : ZRegister) (pg : PRegisterMerge)
    (zdn : ZRegister) (Shift : Z) : Emit unit :=
  SVEBitWiseShiftImmediatePred size (bin "01") 1 0 pg zd zdn Shift.
Definition uqshl (size : SubRegSize) (zd : ZRegister) (pg : PRegisterMerge)
    (zdn : ZRegister) (Shift : Z) : Emit unit :=
  SVEBitWiseShiftImmediatePred size (bin "01") 1 1 pg zd zdn Shift.
Definition srshr (size : SubRegSize) (zd : ZRegister) (pg : PRegisterMerge)
    (zdn : ZRegister) (Shift : Z) : Emit unit :=
  SVEBitWiseShiftImmediatePred size (bin "11") 0 0 pg zd zdn Shift.
Definition urshr (size : SubRegSize) (zd : ZRegister) (pg : PRegisterMerge)
    (zdn : ZRegister) (Shift : Z) : Emit unit :=
  SVEBitWiseShiftImmediatePred size (bin "11") 0 1 pg zd zdn Shift.
Definition sqshlu (size : SubRegSize) (zd : ZRegister) (pg : PRegisterMerge)
    (zdn : ZRegister) (Shift : Z) : Emit unit :=
  SVEBitWiseShiftImmediatePred size (bin "11") 1 1 pg zd zdn Shift.
End ShiftByImmediatePredicated.

(* SVE bitwise shift by vector (predicated) *)
Module ShiftByVectorPredicated.
Definition asr (size : SubRegSize) (zd : ZRegister) (pg : PRegisterMerge)
    (zn zm : ZRegister) : Emit unit :=
  SVEBitwiseShiftbyVector 0 0 0 size pg zd zn zm.
Definition lsr (size : SubRegSize) (zd : ZRegister) (pg : PRegisterMerge)
    (zn zm : ZRegister) : Emit unit :=
  SVEBitwiseShiftbyVector 0 0 1 size pg zd zn zm.
Definition lsl (size : SubRegSize) (zd : ZRegister) (pg : PRegisterMerge)
    (zn zm : ZRegister) : Emit unit :=
  SVEBitwiseShiftbyVector 0 1 1 size pg zd zn zm.
Definition asrr (size : SubRegSize) (zd : ZRegister) (pg : PRegisterMerge)
    (zn zm : ZRegister) : Emit unit :=
  SVEBitwiseShiftbyVector 1 0 0 size pg zd zn zm.
Definition lsrr (size : SubRegSize) (zd : ZRegister) (pg : PRegisterMerge)
    (zn zm : ZRegister) : Emit unit :=
  SVEBitwiseShiftbyVector 1 0 1 size pg zd zn zm.
Definition lslr (size : SubRegSize) (zd : ZRegister) (pg : PRegisterMerge)
    (zn zm : ZRegister) : Emit unit :=
  SVEBitwiseShiftbyVector 1 1 1 size pg zd zn zm.
End ShiftByVectorPredicated.

(* SVE bitwise shift by immediate (unpredicated) *)
Module ShiftByImmediateUnpredicated.
Definition asr (size : SubRegSize) (zd zn : ZRegister) (shift : Z) : Emit unit :=
  SVEBitWiseShiftImmediateUnpred size (bin "00") zd zn shift.
Definition lsr (size : SubRegSize) (zd zn : ZRegister) (shift : Z) : Emit unit :=
  SVEBitWiseShiftImmediateUnpred size (bin "01") zd zn shift.
Definition lsl (size : SubRegSize) (zd zn : ZRegister) (shift : Z) : Emit unit :=
  SVEBitWiseShiftImmediateUnpred size (bin "11") zd zn shift.
End ShiftByImmediateUnpredicated.

(* SVE integer compare vectors *)
Module CompareVectors.
Definition cmpeq (size : SubRegSize) (pd : PRegister) (pg : PRegisterZero)
    (zn zm : ZRegister) : Emit unit :=
  SVEIntegerCompareVector 1 1 0 size zm pg zn pd.
Definition cmpge (size : SubRegSize) (pd : PRegister) (pg : PRegisterZero)
    (zn zm : ZRegister) : Emit unit :=
  SVEIntegerCompareVector 1 0 0 size zm pg zn pd.
Definition cmpgt (size : SubRegSize) (pd : PRegister) (pg : PRegisterZero)
    (zn zm : ZRegister) : Emit unit :=
  SVEIntegerCompareVector 1 0 1 size zm pg zn pd.
Definition cmphi (size : SubRegSize) (pd : PRegister) (pg : PRegisterZero)
    (zn zm : ZRegister) : Emit unit :=
  SVEIntegerCompareVector 0 0 1 size zm pg zn pd.
Definition cmphs (size : SubRegSize) (pd : PRegister) (pg : PRegisterZero)
    (zn zm : ZRegister) : Emit unit :=
  SVEIntegerCompareVector 0 0 0 size zm pg zn pd.
Definition cmpne (size : SubRegSize) (pd : PRegister) (pg : PRegisterZero)
    (zn zm : ZRegister) : Emit unit :=
  SVEIntegerCompareVector 1 1 1 size zm pg zn pd.
End CompareVectors.

(* SVE integer compare with wide elements *)
Module CompareWide.
Definition cmpeq_wide (size : SubRegSize) (pd : PRegister) (pg : PRegisterZero)
    (zn zm : ZRegister) : Emit unit :=
  SVEIntegerCompareVectorWide 0 (bin "01") 0 size pd pg zn zm.
Definition cmpgt_wide (size : SubRegSize) (pd : PRegister) (pg : PRegisterZero)
    (zn zm : ZRegister) : Emit unit :=
  SVEIntegerCompareVectorWide 0 (bin "10") 1 size pd pg zn zm.
Definition cmpge_wide (size : SubRegSize) (pd : PRegister) (pg : PRegisterZero)
    (zn zm : ZRegister) : Emit unit :=
  SVEIntegerCompareVectorWide 0 (bin "10") 0 size pd pg zn zm.
Definition cmphi_wide (size : SubRegSize) (pd : PRegister) (pg : PRegisterZero)
    (zn zm : ZRegister) : Emit unit :=
  SVEIntegerCompareVectorWide 1 (bin "10") 1 size pd pg zn zm.
Definition cmphs_wide (size : SubRegSize) (pd : PRegister) (pg : PRegisterZero)
    (zn zm : ZRegister) : Emit unit :=
  SVEIntegerCompareVectorWide 1 (bin "10") 0 size pd pg zn zm.
Definition cmplt_wide (size : SubRegSize) (pd : PRegister) (pg : PRegisterZero)
    (zn zm : ZRegister) : Emit unit :=
  SVEIntegerCompareVectorWide 0 (bin "11") 0 size pd pg zn zm.
Definition cmple_wide (size : SubRegSize) (pd : PRegister) (pg : PRegisterZero)
    (zn zm : ZRegister) : Emit unit :=
  SVEIntegerCompareVectorWide 0 (bin "11") 1 size pd pg zn zm.
Definition cmplo_wide (size : SubRegSize) (pd : PRegister) (pg : PRegisterZero)
    (zn zm : ZRegister) : Emit unit :=
  SVEIntegerCompareVectorWide 1 (bin "11") 0 size pd pg zn zm.
Definition cmpls_wide (size : SubRegSize) (pd : PRegister) (pg : PRegisterZero)
    (zn zm : ZRegister) : Emit unit :=
  SVEIntegerCompareVectorWide 1 (bin "11") 1 size pd pg zn zm.
Definition cmpne_wide (size : SubRegSize) (pd : PRegister) (pg : PRegisterZero)
    (zn zm : ZRegister) : Emit unit :=
  SVEIntegerCompareVectorWide 0 (bin "01") 1 size pd pg zn zm.
End CompareWide.

(* SVE contiguous load (scalar plus immediate) *)
Module ContiguousLoadScalarImm.
Definition ld1b (size : SubRegSize) (zt : ZRegister) (pg : PRegisterZero)
    (rn : Register) (Imm : Z) : Emit unit :=
  LOGMAN_THROW_AA_FMT ((Imm >=? -8) && (Imm <=? 7)) "Invalid sized loadstore offset size" ;;
  let Op := shl (bin "1010'0100'0000'0000'101") 13 in
  SVEContiguousLoadImm Op (Z.lor (bin "0000") (ToUnderlying size)) (u32 Imm) pg rn zt.
Definition ld1sw (zt : ZRegister) (pg : PRegisterZero)
    (rn : Register) (Imm : Z) : Emit unit :=
  LOGMAN_THROW_AA_FMT ((Imm >=? -8) && (Imm <=? 7)) "Invalid sized loadstore offset size" ;;
  let Op := shl (bin "1010'0100'0000'0000'101") 13 in
  SVEContiguousLoadImm Op (bin "0100") (u32 Imm) pg rn zt.
Definition ld1h (size : SubRegSize) (zt : ZRegister) (pg : PRegisterZero)
    (rn : Register) (Imm : Z) : Emit unit :=
  LOGMAN_THROW_AA_FMT ((Imm >=? -8) && (Imm <=? 7)) "Invalid sized loadstore offset size" ;;
  static_assert (negb (SubRegSize_eqb size i8Bit)) "Invalid size" ;;
  let Op := shl (bin "1010'0100'0000'0000'101") 13 in
  SVEContiguousLoadImm Op (Z.lor (bin "0100") (ToUnderlying size)) (u32 Imm) pg rn zt.
Definition ld1sh (size : SubRegSize) (zt : ZRegister) (pg : PRegisterZero)
    (rn : Register) (Imm : Z) : Emit unit :=
  LOGMAN_THROW_AA_FMT ((Imm >=? -8) && (Imm <=? 7)) "Invalid sized loadstore offset size" ;;
  static_assert (SubRegSize_eqb size i32Bit || SubRegSize_eqb size i64Bit) "Invalid size" ;;
  let Op := shl (bin "1010'0100'0000'0000'101") 13 in
  let ConvertedSize :=
    if SubRegSize_eqb size i32Bit then 1 else
    if SubRegSize_eqb size i64Bit then 0 else u32 (-1) in
  SVEContiguousLoadImm Op (Z.lor (bin "1000") ConvertedSize) (u32 Imm) pg rn zt.
Definition ld1w (size : SubRegSize) (zt : ZRegister) (pg : PRegisterZero)
    (rn : Register) (Imm : Z) : Emit unit :=
  LOGMAN_THROW_AA_FMT ((Imm >=? -8) && (Imm <=? 7)) "Invalid sized loadstore offset size" ;;
  static_assert (SubRegSize_eqb size i32Bit || SubRegSize_eqb size i64Bit) "Invalid size" ;;
  let Op := shl (bin "1010'0100'0000'0000'101") 13 in
  let ConvertedSize :=
    if SubRegSize_eqb size i32Bit then 1 else
    if SubRegSize_eqb size i64Bit then 0 else u32 (-1) in
  SVEContiguousLoadImm Op (Z.lor (bin "1010") ConvertedSize) (u32 Imm) pg rn zt.
Definition ld1sb (size : SubRegSize) (zt : ZRegister) (pg : PRegisterZero)
    (rn : Register) (Imm : Z) : Emit unit :=
  LOGMAN_THROW_AA_FMT ((Imm >=? -8) && (Imm <=? 7)) "Invalid sized loadstore offset size" ;;
  static_assert
    (SubRegSize_eqb size i16Bit || SubRegSize_eqb size i32Bit || SubRegSize_eqb size i64Bit)
    "Invalid size" ;;
  let Op := shl (bin "1010'0100'0000'0000'101") 13 in
  let ConvertedSize :=
    if SubRegSize_eqb size i16Bit then bin "10" else
    if SubRegSize_eqb size i32Bit then bin "01" else
    if SubRegSize_eqb size i64Bit then bin "00" else u32 (-1) in
  SVEContiguousLoadImm Op (Z.lor (bin "1100") ConvertedSize) (u32 Imm) pg rn zt.
Definition ld1d (zt : ZRegister) (pg : PRegisterZero)
    (rn : Register) (Imm : Z) : Emit unit :=
  LOGMAN_THROW_AA_FMT ((Imm >=? -8) && (Imm <=? 7)) "Invalid sized loadstore offset size" ;;
  let Op := shl (bin "1010'0100'0000'0000'101") 13 in
  SVEContiguousLoadImm Op (bin "1111") (u32 Imm) pg rn zt.
End ContiguousLoadScalarImm.

(* SVE contiguous load (scalar plus scalar) *)
Module ContiguousLoadScalarScalar.
Definition ld1b (size : SubRegSize) (zt : ZRegister) (pg : PRegisterZero)
    (rn rm : Register) : Emit unit :=
  let Op := shl (bin "1010'0100'0000'0000'010") 13 in
  SVEContiguousLoadStore Op (Z.lor (bin "0000") (ToUnderlying size)) rm pg rn zt.
Definition ld1sw (zt : ZRegister) (pg : PRegisterZero)
    (rn rm : Register) : Emit unit :=
  let Op := shl (bin "1010'0100'0000'0000'010") 13 in
  SVEContiguousLoadStore Op (bin "0100") rm pg rn zt.
Definition ld1h (size : SubRegSize) (zt : ZRegister) (pg : PRegisterZero)
    (rn rm : Register) : Emit unit :=
  static_assert (negb (SubRegSize_eqb size i8Bit)) "Invalid size" ;;
  let Op := shl (bin "1010'0100'0000'0000'010") 13 in
  SVEContiguousLoadStore Op (Z.lor (bin "0100") (ToUnderlying size)) rm pg rn zt.
Definition ld1sh (size : SubRegSize) (zt : ZRegister) (pg : PRegisterZero)
    (rn rm : Register) : Emit unit :=
  static_assert (SubRegSize_eqb size i32Bit || SubRegSize_eqb size i64Bit) "Invalid size" ;;
  let Op := shl (bin "1010'0100'0000'0000'010") 13 in
  let ConvertedSize :=
    if SubRegSize_eqb size i32Bit then 1 else
    if SubRegSize_eqb size i64Bit then 0 else u32 (-1) in
  SVEContiguousLoadStore Op (Z.lor (bin "1000") ConvertedSize) rm pg rn zt.
Definition ld1w (size : SubRegSize) (zt : ZRegister) (pg : PRegisterZero)
    (rn rm : Register) : Emit unit :=
  static_assert (SubRegSize_eqb size i32Bit || SubRegSize_eqb size i64Bit) "Invalid size" ;;
  let Op := shl (bin "1010'0100'0000'0000'010") 13 in
  let ConvertedSize :=
    if SubRegSize_eqb size i32Bit then 0 else
    if SubRegSize_eqb size i64Bit then 1 else u32 (-1) in
  SVEContiguousLoadStore Op (Z.lor (bin "1010") ConvertedSize) rm pg rn zt.
Definition ld1sb (size : SubRegSize) (zt : ZRegister) (pg : PRegisterZero)
    (rn rm : Register) : Emit unit :=
  static_assert
    (SubRegSize_eqb size i16Bit || SubRegSize_eqb size i32Bit || SubRegSize_eqb size i64Bit)
    "Invalid size" ;;
  let Op := shl (bin "1010'0100'0000'0000'010") 13 in
  let ConvertedSize :=
    if SubRegSize_eqb size i16Bit then bin "10" else
    if SubRegSize_eqb size i32Bit then bin "01" else
    if SubRegSize_eqb size i64Bit then bin "00" else u32 (-1) in
  SVEContiguousLoadStore Op (Z.lor (bin "1100") ConvertedSize) rm pg rn zt.
Definition ld1d (zt : ZRegister) (pg : PRegisterZero)
    (rn rm : Register) : Emit unit :=
  let Op := shl (bin "1010'0100'0000'0000'010") 13 in
  SVEContiguousLoadStore Op (bin "1111") rm pg rn zt.
End ContiguousLoadScalarScalar.

(* SVE contiguous store (scalar plus scalar) *)
Module ContiguousStoreScalarScalar.
Definition st1b (size : SubRegSize) (zt : ZRegister) (pg : PRegister)
    (rn rm : Register) : Emit unit :=
  let Op := shl (bin "1110'0100'0000'0000'010") 13 in
  SVEContiguousLoadStore Op (Z.lor (bin "0000") (ToUnderlying size)) rm pg rn zt.
Definition st1h (size : SubRegSize) (zt : ZRegister) (pg : PRegister)
    (rn rm : Register) : Emit unit :=
  static_assert (negb (SubRegSize_eqb size i8Bit)) "Invalid size" ;;
  let Op := shl (bin "1110'0100'0000'0000'010") 13 in
  SVEContiguousLoadStore Op (Z.lor (bin "0100") (ToUnderlying size)) rm pg rn zt.
Definition st1w (size : SubRegSize) (zt : ZRegister) (pg : PRegister)
    (rn rm : Register) : Emit unit :=
  static_assert (SubRegSize_eqb size i32Bit || SubRegSize_eqb size i64Bit) "Invalid size" ;;
  let Op := shl (bin "1110'0100'0000'0000'010") 13 in
  let ConvertedSize :=
    if SubRegSize_eqb size i32Bit then 0 else
    if SubRegSize_eqb size i64Bit then 1 else u32 (-1) in
  SVEContiguousLoadStore Op (Z.lor (bin "1010") ConvertedSize) rm pg rn zt.
Definition st1d (zt : ZRegister) (pg : PRegister)
    (rn rm : Register) : Emit unit :=
  let Op := shl (bin "1110'0100'0000'0000'010") 13 in
  SVEContiguousLoadStore Op (bin "1111") rm pg rn zt.
End ContiguousStoreScalarScalar.

(* SVE contiguous store (scalar plus immediate) *)
Module ContiguousStoreScalarImm.
Definition st1b (size : SubRegSize) (zt : ZRegister) (pg : PRegister)
    (rn : Register) (Imm : Z) : Emit unit :=
  LOGMAN_THROW_AA_FMT ((Imm >=? -8) && (Imm <=? 7)) "Invalid sized loadstore offset size" ;;
  let Op := shl (bin "1110'0100'0000'0000'111") 13 in
  SVEContiguousLoadImm Op (Z.lor (bin "0000") (ToUnderlying size)) (u32 Imm) pg rn zt.
Definition st1h (size : SubRegSize) (zt : ZRegister) (pg : PRegister)
    (rn : Register) (Imm : Z) : Emit unit :=
  LOGMAN_THROW_AA_FMT ((Imm >=? -8) && (Imm <=? 7)) "Invalid sized loadstore offset size" ;;
  static_assert (negb (SubRegSize_eqb size i8Bit)) "Invalid size" ;;
  let Op := shl (bin "1110'0100'0000'0000'111") 13 in
  SVEContiguousLoadImm Op (Z.lor (bin "0100") (ToUnderlying size)) (u32 Imm) pg rn zt.
Definition st1w (size : SubRegSize) (zt : ZRegister) (pg : PRegister)
    (rn : Register) (Imm : Z) : Emit unit :=
  LOGMAN_THROW_AA_FMT ((Imm >=? -8) && (Imm <=? 7)) "Invalid sized loadstore offset size" ;;
  static_assert (SubRegSize_eqb size i32Bit || SubRegSize_eqb size i64Bit) "Invalid size" ;;
  let Op := shl (bin "1110'0100'0000'0000'111") 13 in
  let ConvertedSize :=
    if SubRegSize_eqb size i32Bit then 0 else
    if SubRegSize_eqb size i64Bit then 1 else u32 (-1) in
  SVEContiguousLoadImm Op (Z.lor (bin "1010") ConvertedSize) (u32 Imm) pg rn zt.
Definition st1d (zt : ZRegister) (pg : PRegister)
    (rn : Register) (Imm : Z) : Emit unit :=
  LOGMAN_THROW_AA_FMT ((Imm >=? -8) && (Imm <=? 7)) "Invalid sized loadstore offset size" ;;
  let Op := shl (bin "1110'0100'0000'0000'111") 13 in
  SVEContiguousLoadImm Op (bin "1111") (u32 Imm) pg rn zt.
End ContiguousStoreScalarImm.

(* SVE helper implementations *)
(** Each helper tests the tag of its [SVEMemOperand] in an if-else chain whose
    last branch is [FEX_UNREACHABLE]; the tag being a closed enumeration of
    four values, that branch has no case here. *)
Module MemOperandHelpers.
Definition ld1b (size : SubRegSize) (zt : ZRegister) (pg : PRegisterZero)
    (Src : SVEMemOperand) : Emit unit :=
  match MetaType Src with
  | TYPE_SCALAR_SCALAR rm => ContiguousLoadScalarScalar.ld1b size zt pg (rn Src) rm
  | TYPE_SCALAR_IMM Imm => ContiguousLoadScalarImm.ld1b size zt pg (rn Src) Imm
  | TYPE_SCALAR_VECTOR _ => LOGMAN_THROW_A_FMT false "Not yet implemented"
  | TYPE_VECTOR_IMM _ _ => LOGMAN_THROW_A_FMT false "Not yet implemented"
  end.
Definition ld1sw (zt : ZRegister) (pg : PRegisterZero)
    (Src : SVEMemOperand) : Emit unit :=
  match MetaType Src with
  | TYPE_SCALAR_SCALAR rm => ContiguousLoadScalarScalar.ld1sw zt pg (rn Src) rm
  | TYPE_SCALAR_IMM Imm => ContiguousLoadScalarImm.ld1sw zt pg (rn Src) Imm
  | TYPE_SCALAR_VECTOR _ => LOGMAN_THROW_A_FMT false "Not yet implemented"
  | TYPE_VECTOR_IMM _ _ => LOGMAN_THROW_A_FMT false "Not yet implemented"
  end.
Definition ld1h (size : SubRegSize) (zt : ZRegister) (pg : PRegisterZero)
    (Src : SVEMemOperand) : Emit unit :=
  match MetaType Src with
  | TYPE_SCALAR_SCALAR rm => ContiguousLoadScalarScalar.ld1h size zt pg (rn Src) rm
  | TYPE_SCALAR_IMM Imm => ContiguousLoadScalarImm.ld1h size zt pg (rn Src) Imm
  | TYPE_SCALAR_VECTOR _ => LOGMAN_THROW_A_FMT false "Not yet implemented"
  | TYPE_VECTOR_IMM _ _ => LOGMAN_THROW_A_FMT false "Not yet implemented"
  end.
Definition ld1sh (size : SubRegSize) (zt : ZRegister) (pg : PRegisterZero)
    (Src : SVEMemOperand) : Emit unit :=
  match MetaType Src with
  | TYPE_SCALAR_SCALAR rm => ContiguousLoadScalarScalar.ld1sh size zt pg (rn Src) rm
  | TYPE_SCALAR_IMM Imm => ContiguousLoadScalarImm.ld1sh size zt pg (rn Src) Imm
  | TYPE_SCALAR_VECTOR _ => LOGMAN_THROW_A_FMT false "Not yet implemented"
  | TYPE_VECTOR_IMM _ _ => LOGMAN_THROW_A_FMT false "Not yet implemented"
  end.
Definition ld1w (size : SubRegSize) (zt : ZRegister) (pg : PRegisterZero)
    (Src : SVEMemOperand) : Emit unit :=
  match MetaType Src with
  | TYPE_SCALAR_SCALAR rm => ContiguousLoadScalarScalar.ld1w size zt pg (rn Src) rm
  | TYPE_SCALAR_IMM Imm => ContiguousLoadScalarImm.ld1w size zt pg (rn Src) Imm
  | TYPE_SCALAR_VECTOR _ => LOGMAN_THROW_A_FMT false "Not yet implemented"
  | TYPE_VECTOR_IMM _ _ => LOGMAN_THROW_A_FMT false "Not yet implemented"
  end.
Definition ld1sb (size : SubRegSize) (zt : ZRegister) (pg : PRegisterZero)
    (Src : SVEMemOperand) : Emit unit :=
  match MetaType Src with
  | TYPE_SCALAR_SCALAR rm => ContiguousLoadScalarScalar.ld1sb size zt pg (rn Src) rm
  | TYPE_SCALAR_IMM Imm => ContiguousLoadScalarImm.ld1sb size zt pg (rn Src) Imm
  | TYPE_SCALAR_VECTOR _ => LOGMAN_THROW_A_FMT false "Not yet implemented"
  | TYPE_VECTOR_IMM _ _ => LOGMAN_THROW_A_FMT false "Not yet implemented"
  end.
Definition ld1d (zt : ZRegister) (pg : PRegisterZero)
    (Src : SVEMemOperand) : Emit unit :=
  match MetaType Src with
  | TYPE_SCALAR_SCALAR rm => ContiguousLoadScalarScalar.ld1d zt pg (rn Src) rm
  | TYPE_SCALAR_IMM Imm => ContiguousLoadScalarImm.ld1d zt pg (rn Src) Imm
  | TYPE_SCALAR_VECTOR _ => LOGMAN_THROW_A_FMT false "Not yet implemented"
  | TYPE_VECTOR_IMM _ _ => LOGMAN_THROW_A_FMT false "Not yet implemented"
  end.
Definition st1b (size : SubRegSize) (zt : ZRegister) (pg : PRegister)
    (Src : SVEMemOperand) : Emit unit :=
  match MetaType Src with
  | TYPE_SCALAR_SCALAR rm => ContiguousStoreScalarScalar.st1b size zt pg (rn Src) rm
  | TYPE_SCALAR_IMM Imm => ContiguousStoreScalarImm.st1b size zt pg (rn Src) Imm
  | TYPE_SCALAR_VECTOR _ => LOGMAN_THROW_A_FMT false "Not yet implemented"
  | TYPE_VECTOR_IMM _ _ => LOGMAN_THROW_A_FMT false "Not yet implemented"
  end.
Definition st1h (size : SubRegSize) (zt : ZRegister) (pg : PRegister)
    (Src : SVEMemOperand) : Emit unit :=
  match MetaType Src with
  | TYPE_SCALAR_SCALAR rm => ContiguousStoreScalarScalar.st1h size zt pg (rn Src) rm
  | TYPE_SCALAR_IMM Imm => ContiguousStoreScalarImm.st1h size zt pg (rn Src) Imm
  | TYPE_SCALAR_VECTOR _ => LOGMAN_THROW_A_FMT false "Not yet implemented"
  | TYPE_VECTOR_IMM _ _ => LOGMAN_THROW_A_FMT false "Not yet implemented"
  end.
Definition st1w (size : SubRegSize) (zt : ZRegister) (pg : PRegister)
    (Src : SVEMemOperand) : Emit unit :=
  match MetaType Src with
  | TYPE_SCALAR_SCALAR rm => ContiguousStoreScalarScalar.st1w size zt pg (rn Src) rm
  | TYPE_SCALAR_IMM Imm => ContiguousStoreScalarImm.st1w size zt pg (rn Src) Imm
  | TYPE_SCALAR_VECTOR _ => LOGMAN_THROW_A_FMT false "Not yet implemented"
  | TYPE_VECTOR_IMM _ _ => LOGMAN_THROW_A_FMT false "Not yet implemented"
  end.
Definition st1d (zt : ZRegister) (pg : PRegister)
    (Src : SVEMemOperand) : Emit unit :=
  match MetaType Src with
  | TYPE_SCALAR_SCALAR rm => ContiguousStoreScalarScalar.st1d zt pg (rn Src) rm
  | TYPE_SCALAR_IMM Imm => ContiguousStoreScalarImm.st1d zt pg (rn Src) Imm
  | TYPE_SCALAR_VECTOR _ => LOGMAN_THROW_A_FMT false "Not yet implemented"
  | TYPE_VECTOR_IMM _ _ => LOGMAN_THROW_A_FMT false "Not yet implemented"
  end.
End MemOperandHelpers.

(** ** Instruction families

    The families the properties below range over, each with the function that
    runs one of its mnemonics. *)

Inductive ShiftImmPredMnemonic : Type :=
| ASR | LSR | LSL | ASRD | SQSHL | UQSHL | SRSHR | URSHR | SQSHLU.

Definition shift_imm_pred (m : ShiftImmPredMnemonic)
    : SubRegSize -> ZRegister -> PRegisterMerge -> ZRegister -> Z -> Emit unit :=
  match m with
  | ASR => ShiftByImmediatePredicated.asr
  | LSR => ShiftByImmediatePredicated.lsr
  | LSL => ShiftByImmediatePredicated.lsl
  | ASRD => ShiftByImmediatePredicated.asrd
  | SQSHL => ShiftByImmediatePredicated.sqshl
  | UQSHL => ShiftByImmediatePredicated.uqshl
  | SRSHR => ShiftByImmediatePredicated.srshr
  | URSHR => ShiftByImmediatePredicated.urshr
  | SQSHLU => ShiftByImmediatePredicated.sqshlu
  end.

Inductive ShiftImmUnpredMnemonic : Type :=
| ASR_U | LSR_U | LSL_U.

Definition shift_imm_unpred (m : ShiftImmUnpredMnemonic)
    : SubRegSize -> ZRegister -> ZRegister -> Z -> Emit unit :=
  match m with
  | ASR_U => ShiftByImmediateUnpredicated.asr
  | LSR_U => ShiftByImmediateUnpredicated.lsr
  | LSL_U => ShiftByImmediateUnpredicated.lsl
  end.

Inductive ShiftVecPredMnemonic : Type :=
| ASR_V | LSR_V | LSL_V | ASRR | LSRR | LSLR.

Definition shift_vec_pred (m : ShiftVecPredMnemonic)
    : SubRegSize -> ZRegister -> PRegisterMerge -> ZRegister -> ZRegister -> Emit unit :=
  match m with
  | ASR_V => ShiftByVectorPredicated.asr
  | LSR_V => ShiftByVectorPredicated.lsr
  | LSL_V => ShiftByVectorPredicated.lsl
  | ASRR => ShiftByVectorPredicated.asrr
  | LSRR => ShiftByVectorPredicated.lsrr
  | LSLR => ShiftByVectorPredicated.lslr
  end.

(** Mnemonics whose governing predicate is checked against p0-p7: integer
    compare vectors (plain and wide), floating-point compare vectors, and
    histcnt. *)
Inductive GovernedMnemonic : Type :=
| CMPEQ | CMPGE | CMPGT | CMPHI | CMPHS | CMPNE
| CMPEQ_WIDE | CMPGT_WIDE | CMPGE_WIDE | CMPHI_WIDE | CMPHS_WIDE
| CMPLT_WIDE | CMPLE_WIDE | CMPLO_WIDE | CMPLS_WIDE | CMPNE_WIDE
| FCMEQ | FCMGT | FCMGE | FCMNE | FCMUO | FACGE | FACGT | FACLE | FACLT
| HISTCNT.

(** Every member takes a size, a governing predicate, two vectors and a
    destination: a predicate for the compares, a vector for histcnt. *)
Definition governed (m : GovernedMnemonic) (size : SubRegSize)
    (pd : PRegister) (zd : ZRegister) (pg : PRegisterZero) (zn zm : ZRegister)
    : Emit unit :=
  match m with
  | CMPEQ => CompareVectors.cmpeq size pd pg zn zm
  | CMPGE => CompareVectors.cmpge size pd pg zn zm
  | CMPGT => CompareVectors.cmpgt size pd pg zn zm
  | CMPHI => CompareVectors.cmphi size pd pg zn zm
  | CMPHS => CompareVectors.cmphs size pd pg zn zm
  | CMPNE => CompareVectors.cmpne size pd pg zn zm
  | CMPEQ_WIDE => CompareWide.cmpeq_wide size pd pg zn zm
  | CMPGT_WIDE => CompareWide.cmpgt_wide size pd pg zn zm
  | CMPGE_WIDE => CompareWide.cmpge_wide size pd pg zn zm
  | CMPHI_WIDE => CompareWide.cmphi_wide size pd pg zn zm
  | CMPHS_WIDE => CompareWide.cmphs_wide size pd pg zn zm
  | CMPLT_WIDE => CompareWide.cmplt_wide size pd pg zn zm
  | CMPLE_WIDE => CompareWide.cmple_wide size pd pg zn zm
  | CMPLO_WIDE => CompareWide.cmplo_wide size pd pg zn zm
  | CMPLS_WIDE => CompareWide.cmpls_wide size pd pg zn zm
  | CMPNE_WIDE => CompareWide.cmpne_wide size pd pg zn zm
  | FCMEQ => FloatCompareVectors.fcmeq size pd pg zn zm
  | FCMGT => FloatCompareVectors.fcmgt size pd pg zn zm
  | FCMGE => FloatCompareVectors.fcmge size pd pg zn zm
  | FCMNE => FloatCompareVectors.fcmne size pd pg zn zm
  | FCMUO => FloatCompareVectors.fcmuo size pd pg zn zm
  | FACGE => FloatCompareVectors.facge size pd pg zn zm
  | FACGT => FloatCompareVectors.facgt size pd pg zn zm
  | FACLE => FloatCompareVectors.facle size pd pg zn zm
  | FACLT => FloatCompareVectors.faclt size pd pg zn zm
  | HISTCNT => histcnt size zd pg zn zm
  end.

(** The element sizes each of these mnemonics accepts. *)
Definition governed_size_ok (m : GovernedMnemonic) (size : SubRegSize) : bool :=
  match m with
  | CMPEQ | CMPGE | CMPGT | CMPHI | CMPHS | CMPNE =>
      negb (SubRegSize_eqb size i128Bit)
  | CMPEQ_WIDE | CMPGT_WIDE | CMPGE_WIDE | CMPHI_WIDE | CMPHS_WIDE
  | CMPLT_WIDE | CMPLE_WIDE | CMPLO_WIDE | CMPLS_WIDE | CMPNE_WIDE =>
      negb (SubRegSize_eqb size i128Bit) && negb (SubRegSize_eqb size i64Bit)
  | FCMEQ | FCMGT | FCMGE | FCMNE | FCMUO | FACGE | FACGT | FACLE | FACLT =>
      negb (SubRegSize_eqb size i128Bit) && negb (SubRegSize_eqb size i8Bit)
  | HISTCNT =>
      SubRegSize_eqb size i32Bit || SubRegSize_eqb size i64Bit
  end.

Inductive SignedCompareImmMnemonic : Type :=
| CMPEQ_I | CMPGT_I | CMPGE_I | CMPLT_I | CMPLE_I.

Definition signed_compare_imm (m : SignedCompareImmMnemonic)
    : SubRegSize -> PRegister -> PRegisterZero -> ZRegister -> Z -> Emit unit :=
  match m with
  | CMPEQ_I => CompareSignedImm.cmpeq
  | CMPGT_I => CompareSignedImm.cmpgt
  | CMPGE_I => CompareSignedImm.cmpge
  | CMPLT_I => CompareSignedImm.cmplt
  | CMPLE_I => CompareSignedImm.cmple
  end.

(** The load and store helpers that take an [SVEMemOperand]. *)
Inductive MemHelper : Type :=
| LD1B | LD1SW | LD1H | LD1SH | LD1W | LD1SB | LD1D
| ST1B | ST1H | ST1W | ST1D.

(** Loads take a zeroing predicate, stores a plain one. *)
Definition mem_helper (h : MemHelper) (size : SubRegSize) (zt : ZRegister)
    (pg : PRegister) (Src : SVEMemOperand) : Emit unit :=
  match h with
  | LD1B => MemOperandHelpers.ld1b size zt (Zeroing pg) Src
  | LD1SW => MemOperandHelpers.ld1sw zt (Zeroing pg) Src
  | LD1H => MemOperandHelpers.ld1h size zt (Zeroing pg) Src
  | LD1SH => MemOperandHelpers.ld1sh size zt (Zeroing pg) Src
  | LD1W => MemOperandHelpers.ld1w size zt (Zeroing pg) Src
  | LD1SB => MemOperandHelpers.ld1sb size zt (Zeroing pg) Src
  | LD1D => MemOperandHelpers.ld1d zt (Zeroing pg) Src
  | ST1B => MemOperandHelpers.st1b size zt pg Src
  | ST1H => MemOperandHelpers.st1h size zt pg Src
  | ST1W => MemOperandHelpers.st1w size zt pg Src
  | ST1D => MemOperandHelpers.st1d zt pg Src
  end.

(** The scalar-plus-scalar and scalar-plus-immediate primitive a helper
    dispatches to. *)
Definition mem_scalar_scalar (h : MemHelper) (size : SubRegSize)
    (zt : ZRegister) (pg : PRegister) (rn rm : Register) : Emit unit :=
  match h with
  | LD1B => ContiguousLoadScalarScalar.ld1b size zt (Zeroing pg) rn rm
  | LD1SW => ContiguousLoadScalarScalar.ld1sw zt (Zeroing pg) rn rm
  | LD1H => ContiguousLoadScalarScalar.ld1h size zt (Zeroing pg) rn rm
  | LD1SH => ContiguousLoadScalarScalar.ld1sh size zt (Zeroing pg) rn rm
  | LD1W => ContiguousLoadScalarScalar.ld1w size zt (Zeroing pg) rn rm
  | LD1SB => ContiguousLoadScalarScalar.ld1sb size zt (Zeroing pg) rn rm
  | LD1D => ContiguousLoadScalarScalar.ld1d zt (Zeroing pg) rn rm
  | ST1B => ContiguousStoreScalarScalar.st1b size zt pg rn rm
  | ST1H => ContiguousStoreScalarScalar.st1h size zt pg rn rm
  | ST1W => ContiguousStoreScalarScalar.st1w size zt pg rn rm
  | ST1D => ContiguousStoreScalarScalar.st1d zt pg rn rm
  end.

Definition mem_scalar_imm (h : MemHelper) (size : SubRegSize)
    (zt : ZRegister) (pg : PRegister) (rn : Register) (Imm : Z) : Emit unit :=
  match h with
  | LD1B => ContiguousLoadScalarImm.ld1b size zt (Zeroing pg) rn Imm
  | LD1SW => ContiguousLoadScalarImm.ld1sw zt (Zeroing pg) rn Imm
  | LD1H => ContiguousLoadScalarImm.ld1h size zt (Zeroing pg) rn Imm
  | LD1SH => ContiguousLoadScalarImm.ld1sh size zt (Zeroing pg) rn Imm
  | LD1W => ContiguousLoadScalarImm.ld1w size zt (Zeroing pg) rn Imm
  | LD1SB => ContiguousLoadScalarImm.ld1sb size zt (Zeroing pg) rn Imm
  | LD1D => ContiguousLoadScalarImm.ld1d zt (Zeroing pg) rn Imm
  | ST1B => ContiguousStoreScalarImm.st1b size zt pg rn Imm
  | ST1H => ContiguousStoreScalarImm.st1h size zt pg rn Imm
  | ST1W => ContiguousStoreScalarImm.st1w size zt pg rn Imm
  | ST1D => ContiguousStoreScalarImm.st1d zt pg rn Imm
  end.

(** The template sizes a helper compiles for (its [static_assert]s). *)
Definition mem_size_ok (h : MemHelper) (size : SubRegSize) : bool :=
  match h with
  | LD1B | LD1SW | LD1D | ST1B | ST1D => true
  | LD1H | ST1H => negb (SubRegSize_eqb size i8Bit)
  | LD1SH | LD1W | ST1W => SubRegSize_eqb size i32Bit || SubRegSize_eqb size i64Bit
  | LD1SB =>
      SubRegSize_eqb size i16Bit || SubRegSize_eqb size i32Bit || SubRegSize_eqb size i64Bit
  end.

(** ** Outcomes of one call *)

(** The call returned after appending exactly the word [w]. *)
Definition emits (o : Outcome unit) (buf : CodeBuffer) (w : Z) : Prop :=
  o = Done tt (buf ++ [w]).

(** The call returned after appending exactly one word. *)
Definition emits_one_word (o : Outcome unit) (buf : CodeBuffer) : Prop :=
  exists w, 0 <= w < 2 ^ 32 /\ emits o buf w.

(** The call aborted on a failed assertion, the buffer still as it was. *)
Definition aborts (o : Outcome unit) (buf : CodeBuffer) : Prop :=
  exists msg, o = Stopped (AssertFailed msg) buf.

(** ** The size/shift split as the specification words it *)

Inductive ShiftDirection : Type := ShiftLeft | ShiftRight.

(** Direction of each predicated shift-by-immediate mnemonic, by its name. *)
Definition direction_of (m : ShiftImmPredMnemonic) : ShiftDirection :=
  match m with
  | ASR | LSR | ASRD | SRSHR | URSHR => ShiftRight
  | LSL | SQSHL | UQSHL | SQSHLU => ShiftLeft
  end.

Definition direction_of_unpred (m : ShiftImmUnpredMnemonic) : ShiftDirection :=
  match m with
  | ASR_U | LSR_U => ShiftRight
  | LSL_U => ShiftLeft
  end.

(** Precondition on the shift amount. *)
Definition legal_shift (d : ShiftDirection) (size : SubRegSize) (shift : Z) : Prop :=
  match d with
  | ShiftRight => 1 <= shift <= SubRegSizeInBits size
  | ShiftLeft => 0 <= shift < SubRegSizeInBits size
  end.

Definition spec_InverseShift (d : ShiftDirection) (size : SubRegSize) (shift : Z) : Z :=
  match d with
  | ShiftRight => 2 * SubRegSizeInBits size - shift
  | ShiftLeft => shift
  end.

(** Bit [n] of [x], as 0 or 1. *)
Definition bit (n x : Z) : Z := Z.b2z (Z.testbit x n).

(** The per-size table: [(tszh, tszl, imm3)]. *)
Definition spec_split (size : SubRegSize) (InverseShift : Z) : option (Z * Z * Z) :=
  match size with
  | i8Bit => Some (bin "00", bin "01", Z.land InverseShift (bin "111"))
  | i16Bit => Some (bin "00", Z.lor (bin "10") (bit 3 InverseShift),
                    Z.land InverseShift (bin "111"))
  | i32Bit => Some (bin "01", bits 3 2 InverseShift,
                    Z.land InverseShift (bin "111"))
  | i64Bit => Some (Z.lor (bin "10") (bit 5 InverseShift), bits 3 2 InverseShift,
                    Z.land InverseShift (bin "111"))
  | i128Bit => None
  end.

(** Inverse of the table.  The highest set bit of [tszh:tszl] selects the
    element size; [tszh:tszl:imm3], read as one 7-bit number, is the element
    width plus a left shift, or twice the element width minus a right shift. *)
Definition decode_size (tszh tszl : Z) : option SubRegSize :=
  let tsz := Z.lor (Z.shiftl tszh 2) tszl in
  if Z.testbit tsz 3 then Some i64Bit
  else if Z.testbit tsz 2 then Some i32Bit
  else if Z.testbit tsz 1 then Some i16Bit
  else if Z.testbit tsz 0 then Some i8Bit
  else None.

Definition decode_shift (d : ShiftDirection) (f : Z * Z * Z)
    : option (SubRegSize * Z) :=
  let '(tszh, tszl, imm3) := f in
  match decode_size tszh tszl with
  | None => None
  | Some size =>
      let v := Z.lor (Z.shiftl tszh 5) (Z.lor (Z.shiftl tszl 3) imm3) in
      Some (size,
            match d with
            | ShiftLeft => v - SubRegSizeInBits size
            | ShiftRight => 2 * SubRegSizeInBits size - v
            end)
  end.

(** Where the three fields sit in an emitted word. *)
Definition pred_shift_fields (w : Z) : Z * Z * Z :=
  (bits 22 2 w, bits 8 2 w, bits 5 3 w).
Definition unpred_shift_fields (w : Z) : Z * Z * Z :=
  (bits 22 2 w, bits 19 2 w, bits 16 3 w).

(** Direction selected by the [L] argument of the predicated primitive and by
    the [opc] argument of the unpredicated one. *)
Definition direction_of_L (L : Z) : ShiftDirection :=
  if L =? 0 then ShiftRight else ShiftLeft.

Definition direction_of_opc (opc : Z) : ShiftDirection :=
  if opc =? 3 then ShiftLeft else ShiftRight.

(** ** Indexed [dup] as the specification words it *)

(** First index that is out of range, per element size. *)
Definition dup_index_limit (size : SubRegSize) : Z :=
  match size with
  | i8Bit => 64 | i16Bit => 32 | i32Bit => 16 | i64Bit => 8 | i128Bit => 4
  end.

(** Base-2 logarithm of the element width in bytes: the position of the size
    marker bit inside [imm2:tsz]. *)
Definition log2_bytes (size : SubRegSize) : Z :=
  match size with
  | i8Bit => 0 | i16Bit => 1 | i32Bit => 2 | i64Bit => 3 | i128Bit => 4
  end.

(** ** Destructive forms with a governing predicate

    A call of a predicated shift by immediate, of a predicated shift by
    vector, or of fcadd. *)
Inductive DestructiveCall : Type :=
| ShiftImmCall (m : ShiftImmPredMnemonic) (size : SubRegSize) (zd : ZRegister)
    (pg : PRegisterMerge) (zdn : ZRegister) (Shift : Z)
| ShiftVecCall (m : ShiftVecPredMnemonic) (size : SubRegSize) (zd : ZRegister)
    (pg : PRegisterMerge) (zn zm : ZRegister)
| FcaddCall (size : SubRegSize) (zd : ZRegister) (pv : PRegisterMerge)
    (zn zm : ZRegister) (rot : Rotation).

Definition run_destructive (c : DestructiveCall) : Emit unit :=
  match c with
  | ShiftImmCall m size zd pg zdn Shift => shift_imm_pred m size zd pg zdn Shift
  | ShiftVecCall m size zd pg zn zm => shift_vec_pred m size zd pg zn zm
  | FcaddCall size zd pv zn zm rot => fcadd size zd pv zn zm rot
  end.

(** The governing predicate of such a call; each of them is checked against
    p0-p7. *)
Definition governing_of (c : DestructiveCall) : PRegisterMerge :=
  match c with
  | ShiftImmCall _ _ _ pg _ _ => pg
  | ShiftVecCall _ _ _ pg _ _ => pg
  | FcaddCall _ _ pv _ _ _ => pv
  end.

(** * Further emitters *)

(** ** Further encoders: SVE2 shifts by immediate *)

(** Modelled from the spec: a [SubRegSize] obtained from an underlying value
    with [static_cast]; only the values 0 to 3 reach it in the code below. *)
Definition FromUnderlying (u : Z) : SubRegSize :=
  if u =? 0 then i8Bit
  else if u =? 1 then i16Bit
  else if u =? 2 then i32Bit
  else if u =? 3 then i64Bit
  else i128Bit.

Definition SVE2BitwiseShiftRightAndAccumulate (size : SubRegSize) (opc : Z)
    (zda zn : ZRegister) (shift : Z) : Emit unit :=
  LOGMAN_THROW_A_FMT (negb (SubRegSize_eqb size i128Bit)) "Element size cannot be 128-bit" ;;
  let ElementSize := SubRegSizeInBits size in
  LOGMAN_THROW_A_FMT ((shift >? 0) && (shift <=? ElementSize)) "Incorrect right shift: {}" ;;
  let InverseShift := u32 ((2 * ElementSize) - shift) in
  f <- (if SubRegSize_eqb size i8Bit then
          ret (bin "00", bin "01", Z.land InverseShift (bin "111"))
        else if SubRegSize_eqb size i16Bit then
          ret (bin "00",
               Z.lor (bin "10") (Z.land (shr InverseShift 3) (bin "1")),
               Z.land InverseShift (bin "111"))
        else if SubRegSize_eqb size i32Bit then
          ret (bin "01",
               Z.land (shr InverseShift 3) (bin "11"),
               Z.land InverseShift (bin "111"))
        else if SubRegSize_eqb size i64Bit then
          ret (Z.lor (bin "10") (Z.land (shr InverseShift 5) 1),
               Z.land (shr InverseShift 3) (bin "11"),
               Z.land InverseShift (bin "111"))
        else
          FEX_UNREACHABLE ;; ret (0, 0, 0)) ;;
  let '(tszh, tszl, imm3) := f in
  let Instr := bin "0100'0101'0000'0000'1110'0000'0000'0000" in
  let Instr := Z.lor Instr (shl tszh 22) in
  let Instr := Z.lor Instr (shl tszl 19) in
  let Instr := Z.lor Instr (shl imm3 16) in
  let Instr := Z.lor Instr (shl opc 10) in
  let Instr := Z.lor Instr (shl (Idx zn) 5) in
  let Instr := Z.lor Instr (Idx zda) in
  dc32 Instr.

Definition SVE2BitwiseShiftAndInsert (size : SubRegSize) (opc : Z)
    (zd zn : ZRegister) (shift : Z) : Emit unit :=
  LOGMAN_THROW_A_FMT (negb (SubRegSize_eqb size i128Bit)) "Element size cannot be 128-bit" ;;
  let ElementSize := SubRegSizeInBits size in
  let IsLeftShift := negb (opc =? 0) in
  (if IsLeftShift
   then LOGMAN_THROW_A_FMT ((shift >=? 0) && (shift <? ElementSize)) "Incorrect left shift: {}"
   else LOGMAN_THROW_A_FMT ((shift >? 0) && (shift <=? ElementSize)) "Incorrect right shift: {}") ;;
  let InverseShift := if IsLeftShift then shift
                                     else u32 ((2 * ElementSize) - shift) in
  f <- (if SubRegSize_eqb size i8Bit then
          ret (bin "00", bin "01", Z.land InverseShift (bin "111"))
        else if SubRegSize_eqb size i16Bit then
          ret (bin "00",
               Z.lor (bin "10") (Z.land (shr InverseShift 3) (bin "1")),
               Z.land InverseShift (bin "111"))
        else if SubRegSize_eqb size i32Bit then
          ret (bin "01",
               Z.land (shr InverseShift 3) (bin "11"),
               Z.land InverseShift (bin "111"))
        else if SubRegSize_eqb size i64Bit then
          ret (Z.lor (bin "10") (Z.land (shr InverseShift 5) 1),
               Z.land (shr InverseShift 3) (bin "11"),
               Z.land InverseShift (bin "111"))
        else
          FEX_UNREACHABLE ;; ret (0, 0, 0)) ;;
  let '(tszh, tszl, imm3) := f in
  let Instr := bin "0100'0101'0000'0000'1111'0000'0000'0000" in
  let Instr := Z.lor Instr (shl tszh 22) in
  let Instr := Z.lor Instr (shl tszl 19) in
  let Instr := Z.lor Instr (shl imm3 16) in
  let Instr := Z.lor Instr (shl opc 10) in
  let Instr := Z.lor Instr (shl (Idx zn) 5) in
  let Instr := Z.lor Instr (Idx zd) in
  dc32 Instr.

Definition SVE2BitwiseShiftLeftLong (size : SubRegSize) (opc : Z)
    (zd zn : ZRegister) (shift : Z) : Emit unit :=
  LOGMAN_THROW_A_FMT
    (negb (SubRegSize_eqb size i8Bit) && negb (SubRegSize_eqb size i128Bit))
    "Can't use 8-bit or 128-bit element size" ;;
  let Underlying := ToUnderlying size in
  let ElementSize := SubRegSizeInBits (FromUnderlying (Underlying - 1)) in
  LOGMAN_THROW_A_FMT ((shift >=? 0) && (shift <? ElementSize)) "Shift must be within 0-{}" ;;
  let Instr := bin "0100'0101'0000'0000'1010'0000'0000'0000" in
  let Instr := Z.lor Instr (shl shift 16) in
  let Instr := Z.lor Instr (shl opc 10) in
  let Instr := Z.lor Instr (shl (Idx zn) 5) in
  let Instr := Z.lor Instr (Idx zd) in
  let Instr := if SubRegSize_eqb size i64Bit
               then Z.lor Instr (shl 1 22)
               else Z.lor Instr (shl (shl 1 19) (Underlying - 1)) in
  dc32 Instr.

Definition SVE2SaturatingExtractNarrow (size : SubRegSize) (opc T : Z)
    (zn zd : ZRegister) : Emit unit :=
  LOGMAN_THROW_AA_FMT
    (negb (SubRegSize_eqb size i128Bit) && negb (SubRegSize_eqb size i64Bit))
    "Can't use 64/128-bit size" ;;
  f <- (if SubRegSize_eqb size i8Bit then ret (0, bin "01")
        else if SubRegSize_eqb size i16Bit then ret (0, bin "10")
        else if SubRegSize_eqb size i32Bit then ret (1, bin "00")
        else FEX_UNREACHABLE ;; ret (0, 0)) ;;
  let '(tszh, tszl) := f in
  let Op := shl (bin "0100'0101'0010'0000'010") 13 in
  let Instr := Op in
  let Instr := Z.lor Instr (shl tszh 22) in
  let Instr := Z.lor Instr (shl tszl 19) in
  let Instr := Z.lor Instr (shl opc 11) in
  let Instr := Z.lor Instr (shl T 10) in
  let Instr := Z.lor Instr (shl (Idx zn) 5) in
  let Instr := Z.lor Instr (Idx zd) in
  dc32 Instr.

Definition SVE2BitwiseShiftRightNarrow (size : SubRegSize) (shift opc U R T : Z)
    (zn zd : ZRegister) : Emit unit :=
  LOGMAN_THROW_AA_FMT
    (negb (SubRegSize_eqb size i128Bit) && negb (SubRegSize_eqb size i64Bit))
    "Can't use 64/128-bit element size" ;;
  let InverseShift := u32 ((2 * SubRegSizeInBits size) - shift) in
  f <- (if SubRegSize_eqb size i8Bit then
          LOGMAN_THROW_AA_FMT ((shift >? 0) && (shift <=? 8)) "Incorrect shift" ;;
          ret (0, bin "01", Z.land InverseShift (bin "111"))
        else if SubRegSize_eqb size i16Bit then
          LOGMAN_THROW_AA_FMT ((shift >? 0) && (shift <=? 16)) "Incorrect shift" ;;
          ret (0,
               Z.lor (bin "10") (Z.land (shr InverseShift 3) (bin "1")),
               Z.land InverseShift (bin "111"))
        else if SubRegSize_eqb size i32Bit then
          LOGMAN_THROW_AA_FMT ((shift >? 0) && (shift <=? 32)) "Incorrect shift" ;;
          ret (1,
               Z.land (shr InverseShift 3) (bin "11"),
               Z.land InverseShift (bin "111"))
        else
          FEX_UNREACHABLE ;; ret (0, 0, 0)) ;;
  let '(tszh, tszl, imm3) := f in
  let Op := shl (bin "0100'0101'0010'0000'00") 14 in
  let Instr := Op in
  let Instr := Z.lor Instr (shl tszh 22) in
  let Instr := Z.lor Instr (shl tszl 19) in
  let Instr := Z.lor Instr (shl imm3 16) in
  let Instr := Z.lor Instr (shl opc 13) in
  let Instr := Z.lor Instr (shl U 12) in
  let Instr := Z.lor Instr (shl R 11) in
  let Instr := Z.lor Instr (shl T 10) in
  let Instr := Z.lor Instr (shl (Idx zn) 5) in
  let Instr := Z.lor Instr (Idx zd) in
  dc32 Instr.

(* SVE2 bitwise shift left long *)
Definition sshllb (size : SubRegSize) (zd zn : ZRegister) (shift : Z) : Emit unit :=
  SVE2BitwiseShiftLeftLong size (bin "00") zd zn shift.
Definition sshllt (size : SubRegSize) (zd zn : ZRegister) (shift : Z) : Emit unit :=
  SVE2BitwiseShiftLeftLong size (bin "01") zd zn shift.
Definition ushllb (size : SubRegSize) (zd zn : ZRegister) (shift : Z) : Emit unit :=
  SVE2BitwiseShiftLeftLong size (bin "10") zd zn shift.
Definition ushllt (size : SubRegSize) (zd zn : ZRegister) (shift : Z) : Emit unit :=
  SVE2BitwiseShiftLeftLong size (bin "11") zd zn shift.

(* SVE2 bitwise shift right and accumulate *)
Definition ssra (size : SubRegSize) (zda zn : ZRegister) (shift : Z) : Emit unit :=
  SVE2BitwiseShiftRightAndAccumulate size (bin "00") zda zn shift.
Definition usra (size : SubRegSize) (zda zn : ZRegister) (shift : Z) : Emit unit :=
  SVE2BitwiseShiftRightAndAccumulate size (bin "01") zda zn shift.
Definition srsra (size : SubRegSize) (zda zn : ZRegister) (shift : Z) : Emit unit :=
  SVE2BitwiseShiftRightAndAccumulate size (bin "10") zda zn shift.
Definition ursra (size : SubRegSize) (zda zn : ZRegister) (shift : Z) : Emit unit :=
  SVE2BitwiseShiftRightAndAccumulate size (bin "11") zda zn shift.

(* SVE2 bitwise shift and insert *)
Definition sri (size : SubRegSize) (zda zn : ZRegister) (shift : Z) : Emit unit :=
  SVE2BitwiseShiftAndInsert size (bin "0") zda zn shift.
Definition sli (size : SubRegSize) (zda zn : ZRegister) (shift : Z) : Emit unit :=
  SVE2BitwiseShiftAndInsert size (bin "1") zda zn shift.

(* SVE2 saturating extract narrow *)
Definition sqxtnb (size : SubRegSize) (zd zn : ZRegister) : Emit unit :=
  SVE2SaturatingExtractNarrow size (bin "00") 0 zn zd.
Definition sqxtnt (size : SubRegSize) (zd zn : ZRegister) : Emit unit :=
  SVE2SaturatingExtractNarrow size (bin "00") 1 zn zd.
Definition uqxtnb (size : SubRegSize) (zd zn : ZRegister) : Emit unit :=
  SVE2SaturatingExtractNarrow size (bin "01") 0 zn zd.
Definition uqxtnt (size : SubRegSize) (zd zn : ZRegister) : Emit unit :=
  SVE2SaturatingExtractNarrow size (bin "01") 1 zn zd.
Definition sqxtunb (size : SubRegSize) (zd zn : ZRegister) : Emit unit :=
  SVE2SaturatingExtractNarrow size (bin "10") 0 zn zd.
Definition sqxtunt (size : SubRegSize) (zd zn : ZRegister) : Emit unit :=
  SVE2SaturatingExtractNarrow size (bin "10") 1 zn zd.

(* SVE2 bitwise shift right narrow *)
Definition sqshrunb (size : SubRegSize) (zd zn : ZRegister) (Shift : Z) : Emit unit :=
  SVE2BitwiseShiftRightNarrow size Shift 0 0 0 0 zn zd.
Definition sqshrunt (size : SubRegSize) (zd zn : ZRegister) (Shift : Z) : Emit unit :=
  SVE2BitwiseShiftRightNarrow size Shift 0 0 0 1 zn zd.
Definition sqrshrunb (size : SubRegSize) (zd zn : ZRegister) (Shift : Z) : Emit unit :=
  SVE2BitwiseShiftRightNarrow size Shift 0 0 1 0 zn zd.
Definition sqrshrunt (size : SubRegSize) (zd zn : ZRegister) (Shift : Z) : Emit unit :=
  SVE2BitwiseShiftRightNarrow size Shift 0 0 1 1 zn zd.
Definition shrnb (size : SubRegSize) (zd zn : ZRegister) (Shift : Z) : Emit unit :=
  SVE2BitwiseShiftRightNarrow size Shift 0 1 0 0 zn zd.
Definition shrnt (size : SubRegSize) (zd zn : ZRegister) (Shift : Z) : Emit unit :=
  SVE2BitwiseShiftRightNarrow size Shift 0 1 0 1 zn zd.
Definition rshrnb (size : SubRegSize) (zd zn : ZRegister) (Shift : Z) : Emit unit :=
  SVE2BitwiseShiftRightNarrow size Shift 0 1 1 0 zn zd.
Definition rshrnt (size : SubRegSize) (zd zn : ZRegister) (Shift : Z) : Emit unit :=
  SVE2BitwiseShiftRightNarrow size Shift 0 1 1 1 zn zd.
Definition sqshrnb (size : SubRegSize) (zd zn : ZRegister) (Shift : Z) : Emit unit :=
  SVE2BitwiseShiftRightNarrow size Shift 1 0 0 0 zn zd.
Definition sqshrnt (size : SubRegSize) (zd zn : ZRegister) (Shift : Z) : Emit unit :=
  SVE2BitwiseShiftRightNarrow size Shift 1 0 0 1 zn zd.
Definition sqrshrnb (size : SubRegSize) (zd zn : ZRegister) (Shift : Z) : Emit unit :=
  SVE2BitwiseShiftRightNarrow size Shift 1 0 1 0 zn zd.
Definition sqrshrnt (size : SubRegSize) (zd zn : ZRegister) (Shift : Z) : Emit unit :=
  SVE2BitwiseShiftRightNarrow size Shift 1 0 1 1 zn zd.
Definition uqshrnb (size : SubRegSize) (zd zn : ZRegister) (Shift : Z) : Emit unit :=
  SVE2BitwiseShiftRightNarrow size Shift 1 1 0 0 zn zd.
Definition uqshrnt (size : SubRegSize) (zd zn : ZRegister) (Shift : Z) : Emit unit :=
  SVE2BitwiseShiftRightNarrow size Shift 1 1 0 1 zn zd.
Definition uqrshrnb (size : SubRegSize) (zd zn : ZRegister) (Shift : Z) : Emit unit :=
  SVE2BitwiseShiftRightNarrow size Shift 1 1 1 0 zn zd.
Definition uqrshrnt (size : SubRegSize) (zd zn : ZRegister) (Shift : Z) : Emit unit :=
  SVE2BitwiseShiftRightNarrow size Shift 1 1 1 1 zn zd.

(** The sixteen narrowing right shifts. *)
Inductive NarrowShiftMnemonic : Type :=
| SQSHRUNB | SQSHRUNT | SQRSHRUNB | SQRSHRUNT | SHRNB | SHRNT | RSHRNB | RSHRNT
| SQSHRNB | SQSHRNT | SQRSHRNB | SQRSHRNT | UQSHRNB | UQSHRNT | UQRSHRNB | UQRSHRNT.

Definition narrow_shift (m : NarrowShiftMnemonic)
    : SubRegSize -> ZRegister -> ZRegister -> Z -> Emit unit :=
  match m with
  | SQSHRUNB => sqshrunb | SQSHRUNT => sqshrunt
  | SQRSHRUNB => sqrshrunb | SQRSHRUNT => sqrshrunt
  | SHRNB => shrnb | SHRNT => shrnt | RSHRNB => rshrnb | RSHRNT => rshrnt
  | SQSHRNB => sqshrnb | SQSHRNT => sqshrnt
  | SQRSHRNB => sqrshrnb | SQRSHRNT => sqrshrnt
  | UQSHRNB => uqshrnb | UQSHRNT => uqshrnt
  | UQRSHRNB => uqrshrnb | UQRSHRNT => uqrshrnt
  end.

(** The selector bits 13:10 of a narrowing right shift, read back as its
    mnemonic. *)
Definition narrow_shift_of_bits (b : Z) : option NarrowShiftMnemonic :=
  nth_error
    [SQSHRUNB; SQSHRUNT; SQRSHRUNB; SQRSHRUNT; SHRNB; SHRNT; RSHRNB; RSHRNT;
     SQSHRNB; SQSHRNT; SQRSHRNB; SQRSHRNT; UQSHRNB; UQSHRNT; UQRSHRNB; UQRSHRNT]
    (Z.to_nat b).

Inductive AccumulateShiftMnemonic : Type := SSRA | USRA | SRSRA | URSRA.

Definition accumulate_shift (m : AccumulateShiftMnemonic)
    : SubRegSize -> ZRegister -> ZRegister -> Z -> Emit unit :=
  match m with
  | SSRA => ssra | USRA => usra | SRSRA => srsra | URSRA => ursra
  end.

Inductive InsertShiftMnemonic : Type := SRI | SLI.

Definition insert_shift (m : InsertShiftMnemonic)
    : SubRegSize -> ZRegister -> ZRegister -> Z -> Emit unit :=
  match m with
  | SRI => sri | SLI => sli
  end.

Definition direction_of_insert (m : InsertShiftMnemonic) : ShiftDirection :=
  match m with
  | SRI => ShiftRight | SLI => ShiftLeft
  end.

Inductive LongShiftMnemonic : Type := SSHLLB | SSHLLT | USHLLB | USHLLT.

Definition long_shift (m : LongShiftMnemonic)
    : SubRegSize -> ZRegister -> ZRegister -> Z -> Emit unit :=
  match m with
  | SSHLLB => sshllb | SSHLLT => sshllt | USHLLB => ushllb | USHLLT => ushllt
  end.

(** The element size half as wide: the source elements of a widening shift. *)
Definition half_size (size : SubRegSize) : option SubRegSize :=
  match size with
  | i16Bit => Some i8Bit
  | i32Bit => Some i16Bit
  | i64Bit => Some i32Bit
  | _ => None
  end.

Inductive ExtractNarrowMnemonic : Type :=
| SQXTNB | SQXTNT | UQXTNB | UQXTNT | SQXTUNB | SQXTUNT.

Definition extract_narrow (m : ExtractNarrowMnemonic)
    : SubRegSize -> ZRegister -> ZRegister -> Emit unit :=
  match m with
  | SQXTNB => sqxtnb | SQXTNT => sqxtnt | UQXTNB => uqxtnb | UQXTNT => uqxtnt
  | SQXTUNB => sqxtunb | SQXTUNT => sqxtunt
  end.


(** Selector fields read back as mnemonics: bits 11:10 of an accumulating or
    a widening shift, bit 10 of an inserting shift, bits 12:10 of a
    saturating extract narrow. *)
Definition accumulate_shift_of_bits (b : Z) : option AccumulateShiftMnemonic :=
  nth_error [SSRA; USRA; SRSRA; URSRA] (Z.to_nat b).

Definition insert_shift_of_bits (b : Z) : option InsertShiftMnemonic :=
  nth_error [SRI; SLI] (Z.to_nat b).

Definition long_shift_of_bits (b : Z) : option LongShiftMnemonic :=
  nth_error [SSHLLB; SSHLLT; USHLLB; USHLLT] (Z.to_nat b).

Definition extract_narrow_of_bits (b : Z) : option ExtractNarrowMnemonic :=
  nth_error [SQXTNB; SQXTNT; UQXTNB; UQXTNT; SQXTUNB; SQXTUNT] (Z.to_nat b).

(** ** Further encoders: immediates, permutes, structured memory, conversions *)

(** [static_cast<int32_t>] of an unsigned 32-bit value. *)
Definition s32 (x : Z) : Z :=
  let y := u32 x in if y <? 2 ^ 31 then y else y - 2 ^ 32.

(** Modelled from the spec: a 64-bit view of a scalar register; like every
    register it is identified by its index and converts to a plain
    [Register] with the same index. *)
Record XRegister : Type := XReg { XIndex : Z }.
#[global] Instance XRegister_Idx : HasIdx XRegister := {| Idx := XIndex |}.
Definition XRegister_to_Register (r : XRegister) : Register := Reg (XIndex r).
Coercion XRegister_to_Register : XRegister >-> Register.

Definition SVEIndexGeneration (op : Z) (size : SubRegSize) (zd : ZRegister)
    (imm5 imm5b : Z) : Emit unit :=
  LOGMAN_THROW_A_FMT (negb (SubRegSize_eqb size i128Bit))
    "INDEX cannot use 128-bit element sizes" ;;
  let Instr := bin "0000'0100'0010'0000'0100'0000'0000'0000" in
  let Instr := Z.lor Instr (shl op 10) in
  let Instr := Z.lor Instr (shl (ToUnderlying size) 22) in
  let Instr := Z.lor Instr (shl (Z.land (u32 imm5b) (bin "11111")) 16) in
  let Instr := Z.lor Instr (shl (Z.land (u32 imm5) (bin "11111")) 5) in
  let Instr := Z.lor Instr (Idx zd) in
  dc32 Instr.

Definition SVEStackFrameOperation (opc : Z) (rd rn : XRegister) (imm : Z)
    : Emit unit :=
  LOGMAN_THROW_AA_FMT ((imm >=? -32) && (imm <=? 31))
    "Stack frame operation immediate must be within -32 to 31" ;;
  let Instr := bin "0000'0100'0010'0000'0101'0000'0000'0000" in
  let Instr := Z.lor Instr (shl opc 22) in
  let Instr := Z.lor Instr (shl (Idx rn) 16) in
  let Instr := Z.lor Instr (shl (Z.land (u32 imm) (bin "111111")) 5) in
  let Instr := Z.lor Instr (Idx rd) in
  dc32 Instr.

Definition SVEPermuteVector (op0 : Z) (zd zm : ZRegister) (Imm : Z) : Emit unit :=
  let Op := shl (bin "0000'0101'0010'0000'000") 13 in
  let Instr := Op in
  let Instr := Z.lor Instr (shl op0 22) in
  let Instr := Z.lor Instr (shl (shr Imm 3) 16) in
  let Instr := Z.lor Instr (shl (Z.land Imm (bin "111")) 10) in
  let Instr := Z.lor Instr (shl (Idx zm) 5) in
  let Instr := Z.lor Instr (Idx zd) in
  dc32 Instr.

Definition SVEBroadcastImm (opc sh imm : Z) (size : SubRegSize) (zd : ZRegister)
    : Emit unit :=
  let Op := shl (bin "0010'0101'0011'1000'110") 13 in
  let Instr := Op in
  let Instr := Z.lor Instr (shl (ToUnderlying size) 22) in
  let Instr := Z.lor Instr (shl opc 17) in
  let Instr := Z.lor Instr (shl sh 13) in
  let Instr := Z.lor Instr (shl (Z.land imm 0xFF) 5) in
  let Instr := Z.lor Instr (Idx zd) in
  dc32 Instr.

Definition SVESel (Op : Z) (size : SubRegSize) (zm : ZRegister) (pv : PRegister)
    (zn zd : ZRegister) : Emit unit :=
  let Instr := Op in
  let Instr := Z.lor Instr (shl (ToUnderlying size) 22) in
  let Instr := Z.lor Instr (shl (Idx zm) 16) in
  let Instr := Z.lor Instr (shl (Idx pv) 10) in
  let Instr := Z.lor Instr (Encode_rn zn) in
  let Instr := Z.lor Instr (Encode_rd zd) in
  dc32 Instr.

Definition SVEFloatConvertToInt (Op opc opc2 U : Z) (pg : PRegister)
    (zn zd : ZRegister) : Emit unit :=
  let Instr := Op in
  let Instr := Z.lor Instr (shl opc 22) in
  let Instr := Z.lor Instr (shl opc2 17) in
  let Instr := Z.lor Instr (shl U 16) in
  let Instr := Z.lor Instr (shl (Idx pg) 10) in
  let Instr := Z.lor Instr (shl (Idx zn) 5) in
  let Instr := Z.lor Instr (Idx zd) in
  dc32 Instr.

Definition SVEGatherAndUnsizedContiguous (op0 op2 imm9 : Z) (pt : PRegister)
    (rn : Register) : Emit unit :=
  let Instr := bin "1000'0100'0000'0000'0000'0000'0000'0000" in
  let Instr := Z.lor Instr (shl op0 23) in
  let Instr := Z.lor Instr (shl (shr imm9 3) 16) in
  let Instr := Z.lor Instr (shl op2 13) in
  let Instr := Z.lor Instr (shl (Z.land imm9 (bin "111")) 10) in
  let Instr := Z.lor Instr (shl (Idx rn) 5) in
  let Instr := Z.lor Instr (Idx pt) in
  dc32 Instr.

Definition SVEContiguousMultipleStructures (Op msz opc imm4 : Z) (zt : ZRegister)
    (pg : PRegister) (rn : Register) : Emit unit :=
  let Instr := Op in
  let Instr := Z.lor Instr (shl msz 23) in
  let Instr := Z.lor Instr (shl opc 21) in
  let Instr := Z.lor Instr (shl (Z.land imm4 0xF) 16) in
  let Instr := Z.lor Instr (shl (Idx pg) 10) in
  let Instr := Z.lor Instr (Encode_rn rn) in
  let Instr := Z.lor Instr (Idx zt) in
  dc32 Instr.

Definition sel (size : SubRegSize) (zd : ZRegister) (pv : PRegister)
    (zn zm : ZRegister) : Emit unit :=
  LOGMAN_THROW_AA_FMT (negb (SubRegSize_eqb size i128Bit)) "Can't use 128-bit size" ;;
  let Op := shl (bin "0000'0101'0010'0000'11") 14 in
  SVESel Op size zm pv zn zd.

Definition mov (size : SubRegSize) (zd : ZRegister) (pv : PRegisterMerge)
    (zn : ZRegister) : Emit unit :=
  LOGMAN_THROW_AA_FMT (negb (SubRegSize_eqb size i128Bit)) "Can't use 128-bit size" ;;
  let Op := shl (bin "0000'0101'0010'0000'11") 14 in
  SVESel Op size zd pv zn zd.

(** [ToUnderlying] of a [Rotation] is declared outside SVEOps.inl; the two
    forms of fcmla take it as the parameter [RotationToUnderlying]. *)
Module FcmlaIndexed.
Definition fcmla (RotationToUnderlying : Rotation -> Z) (size : SubRegSize)
    (zda zn zm : ZRegister) (index : Z) (rot : Rotation) : Emit unit :=
  LOGMAN_THROW_AA_FMT (SubRegSize_eqb size i16Bit || SubRegSize_eqb size i32Bit)
    "SubRegSize must be 16-bit or 32-bit" ;;
  let IsHalfPrecision := SubRegSize_eqb size i16Bit in
  (if IsHalfPrecision then
     LOGMAN_THROW_AA_FMT (index <=? 3)
       "Index for half-precision fcmla must be within 0-3. Index={}" ;;
     LOGMAN_THROW_A_FMT (Idx zm <=? 7) "zm must be within z0-z7. zm=z{}"
   else
     LOGMAN_THROW_AA_FMT (index <=? 1)
       "Index for single-precision fcmla must be within 0-1. Index={}" ;;
     LOGMAN_THROW_A_FMT (Idx zm <=? 15) "zm must be within z0-z15. zm=z{}") ;;
  let Op := bin "0110'0100'1010'0000'0001'0000'0000'0000" in
  let Op := Z.lor Op (shl (if IsHalfPrecision then 0 else 1) 22) in
  let Op := Z.lor Op (shl index (19 + Z.b2z (negb IsHalfPrecision))) in
  let Op := Z.lor Op (shl (Idx zm) 16) in
  let Op := Z.lor Op (shl (RotationToUnderlying rot) 10) in
  let Op := Z.lor Op (shl (Idx zn) 5) in
  let Op := Z.lor Op (Idx zda) in
  dc32 Op.
End FcmlaIndexed.

Module FcmlaPredicated.
Definition fcmla (RotationToUnderlying : Rotation -> Z) (size : SubRegSize)
    (zda : ZRegister) (pv : PRegisterMerge) (zn zm : ZRegister) (rot : Rotation)
    : Emit unit :=
  LOGMAN_THROW_AA_FMT
    (SubRegSize_eqb size i16Bit || SubRegSize_eqb size i32Bit
     || SubRegSize_eqb size i64Bit)
    "SubRegSize must be 16-bit, 32-bit, or 64-bit" ;;
  LOGMAN_THROW_A_FMT (reg_leb pv (Merging p7)) "fcmla can only use p0 to p7" ;;
  let Op := bin "0110'0100'0000'0000'0000'0000'0000'0000" in
  let Op := Z.lor Op (shl (ToUnderlying size) 22) in
  let Op := Z.lor Op (shl (Idx zm) 16) in
  let Op := Z.lor Op (shl (RotationToUnderlying rot) 13) in
  let Op := Z.lor Op (shl (Idx pv) 10) in
  let Op := Z.lor Op (shl (Idx zn) 5) in
  let Op := Z.lor Op (Idx zda) in
  dc32 Op.
End FcmlaPredicated.

(* SVE Index Generation *)
Module IndexImmImm.
Definition index (size : SubRegSize) (zd : ZRegister) (initial increment : Z)
    : Emit unit :=
  LOGMAN_THROW_A_FMT ((initial >=? -16) && (initial <=? 15))
    "initial value must be within -16-15. initial: {}" ;;
  LOGMAN_THROW_A_FMT ((increment >=? -16) && (increment <=? 15))
    "increment value must be within -16-15. increment: {}" ;;
  SVEIndexGeneration (bin "00") size zd initial increment.
End IndexImmImm.

Module IndexRegImm.
Definition index (size : SubRegSize) (zd : ZRegister) (initial : Register)
    (increment : Z) : Emit unit :=
  LOGMAN_THROW_A_FMT ((increment >=? -16) && (increment <=? 15))
    "increment value must be within -16-15. increment: {}" ;;
  SVEIndexGeneration (bin "01") size zd (s32 (Idx initial)) increment.
End IndexRegImm.

Module IndexImmReg.
Definition index (size : SubRegSize) (zd : ZRegister) (initial : Z)
    (increment : Register) : Emit unit :=
  LOGMAN_THROW_A_FMT ((initial >=? -16) && (initial <=? 15))
    "initial value must be within -16-15. initial: {}" ;;
  SVEIndexGeneration (bin "10") size zd initial (s32 (Idx increment)).
End IndexImmReg.

Module IndexRegReg.
Definition index (size : SubRegSize) (zd : ZRegister)
    (initial increment : Register) : Emit unit :=
  SVEIndexGeneration (bin "11") size zd (s32 (Idx initial)) (s32 (Idx increment)).
End IndexRegReg.

(** An operand of [index]: an immediate or a scalar register.  The overload
    is chosen by the kinds of the two operands. *)
Inductive IndexOperand : Type :=
| IndexImm (v : Z)
| IndexReg (r : Register).

Definition index (size : SubRegSize) (zd : ZRegister)
    (initial increment : IndexOperand) : Emit unit :=
  match initial, increment with
  | IndexImm i, IndexImm j => IndexImmImm.index size zd i j
  | IndexReg r, IndexImm j => IndexRegImm.index size zd r j
  | IndexImm i, IndexReg s => IndexImmReg.index size zd i s
  | IndexReg r, IndexReg s => IndexRegReg.index size zd r s
  end.

(* SVE stack frame adjustment *)
Definition addvl (rd rn : XRegister) (imm : Z) : Emit unit :=
  SVEStackFrameOperation (bin "00") rd rn imm.
Definition addpl (rd rn : XRegister) (imm : Z) : Emit unit :=
  SVEStackFrameOperation (bin "01") rd rn imm.

(* SVE stack frame size *)
(** [rsp] stands for [XReg::rsp], declared outside SVEOps.inl. *)
Definition rdvl (rsp : XRegister) (rd : XRegister) (imm : Z) : Emit unit :=
  SVEStackFrameOperation (bin "10") rd rsp imm.

(* SVE Permute Vector - Extract *)
(** [AreVectorsSequential] is declared outside SVEOps.inl and is taken as a
    parameter; [Imm] is a [uint8_t]. *)
Module ExtConstructive.
Definition ext (AreVectorsSequential : list ZRegister -> bool)
    (zd zn zn2 : ZRegister) (Imm : Z) : Emit unit :=
  LOGMAN_THROW_A_FMT (AreVectorsSequential [zn; zn2])
    "zn and zn2 must be sequential registers" ;;
  SVEPermuteVector 1 zd zn Imm.
End ExtConstructive.

Module ExtDestructive.
Definition ext (zd zdn zm : ZRegister) (Imm : Z) : Emit unit :=
  LOGMAN_THROW_A_FMT (reg_eqb zd zdn) "Dest needs to equal zdn" ;;
  SVEPermuteVector 0 zd zm Imm.
End ExtDestructive.

(* SVE broadcast integer immediate (unpredicated) *)
(** [Value] is an [int32_t]; passing it to the [uint32_t imm] parameter of
    the primitive converts it modulo 2^32, and [LSL8] converts to 0 or 1. *)
Definition dup_imm (size : SubRegSize) (zd : ZRegister) (Value : Z) (LSL8 : bool)
    : Emit unit :=
  LOGMAN_THROW_AA_FMT (negb (SubRegSize_eqb size i128Bit)) "Can't use 128-bit size" ;;
  LOGMAN_THROW_AA_FMT ((Value >=? -128) && (Value <=? 127)) "Immediate out of range" ;;
  (if SubRegSize_eqb size i8Bit
   then LOGMAN_THROW_AA_FMT (Bool.eqb LSL8 false)
          "Can't shift immediate with 8-bit elements"
   else ret tt) ;;
  SVEBroadcastImm (bin "00") (Z.b2z LSL8) (u32 Value) size zd.

Definition mov_imm (size : SubRegSize) (zd : ZRegister) (Value : Z) (LSL8 : bool)
    : Emit unit :=
  dup_imm size zd Value LSL8.

(* SVE Memory - 32-bit Gather and Unsized Contiguous *)
(** [Imm] is an [int32_t]; the mask to nine bits is taken on the signed value
    and is never negative. *)
Module LdrPredicate.
Definition ldr (pt : PRegister) (rn : XRegister) (Imm : Z) : Emit unit :=
  LOGMAN_THROW_AA_FMT ((Imm >=? -256) && (Imm <=? 255)) "Immediate offset too large" ;;
  SVEGatherAndUnsizedContiguous (bin "11") (bin "000")
    (Z.land Imm (bin "1'1111'1111")) pt rn.
End LdrPredicate.

Module LdrVector.
Definition ldr (zt : ZRegister) (rn : XRegister) (Imm : Z) : Emit unit :=
  LOGMAN_THROW_AA_FMT ((Imm >=? -256) && (Imm <=? 255)) "Immediate offset too large" ;;
  SVEGatherAndUnsizedContiguous (bin "11") (bin "010")
    (Z.land Imm (bin "1'1111'1111")) (PReg (Idx zt)) rn.
End LdrVector.


(** ** Structured loads and stores *)

(** [AreVectorsSequential] is declared outside SVEOps.inl and is taken as a
    parameter.  [Imm] is an [int32_t]: [%] and [/] truncate toward zero, and
    the quotient converts modulo 2^32 where the primitive takes a
    [uint32_t]. *)
Section StructuredLoadStore.
Variable AreVectorsSequential : list ZRegister -> bool.

(* SVE load multiple structures (scalar plus immediate) *)
Definition ld2b (zt1 zt2 : ZRegister) (pg : PRegisterZero) (rn : Register)
    (Imm : Z) : Emit unit :=
  LOGMAN_THROW_AA_FMT
    ((Imm >=? -16) && (Imm <=? 14) && (Z.rem Imm 2 =? 0))
    "Invalid sized loadstore offset size" ;;
  LOGMAN_THROW_A_FMT (AreVectorsSequential [zt1; zt2])
    "Registers need to be contiguous" ;;
  let Op := shl (bin "1010'0100'0000'0000'111") 13 in
  SVEContiguousMultipleStructures Op (bin "00") (bin "01") (u32 (Z.quot Imm 2))
    zt1 pg rn.
Definition ld3b (zt1 zt2 zt3 : ZRegister) (pg : PRegisterZero) (rn : Register)
    (Imm : Z) : Emit unit :=
  LOGMAN_THROW_AA_FMT
    ((Imm >=? -24) && (Imm <=? 21) && (Z.rem Imm 3 =? 0))
    "Invalid sized loadstore offset size" ;;
  LOGMAN_THROW_A_FMT (AreVectorsSequential [zt1; zt2; zt3])
    "Registers need to be contiguous" ;;
  let Op := shl (bin "1010'0100'0000'0000'111") 13 in
  SVEContiguousMultipleStructures Op (bin "00") (bin "10") (u32 (Z.quot Imm 3))
    zt1 pg rn.
Definition ld4b (zt1 zt2 zt3 zt4 : ZRegister) (pg : PRegisterZero) (rn : Register)
    (Imm : Z) : Emit unit :=
  LOGMAN_THROW_AA_FMT
    ((Imm >=? -32) && (Imm <=? 28) && (Z.rem Imm 4 =? 0))
    "Invalid sized loadstore offset size" ;;
  LOGMAN_THROW_A_FMT (AreVectorsSequential [zt1; zt2; zt3; zt4])
    "Registers need to be contiguous" ;;
  let Op := shl (bin "1010'0100'0000'0000'111") 13 in
  SVEContiguousMultipleStructures Op (bin "00") (bin "11") (u32 (Z.quot Imm 4))
    zt1 pg rn.
Definition ld2h (zt1 zt2 : ZRegister) (pg : PRegisterZero) (rn : Register)
    (Imm : Z) : Emit unit :=
  LOGMAN_THROW_AA_FMT
    ((Imm >=? -16) && (Imm <=? 14) && (Z.rem Imm 2 =? 0))
    "Invalid sized loadstore offset size" ;;
  LOGMAN_THROW_A_FMT (AreVectorsSequential [zt1; zt2])
    "Registers need to be contiguous" ;;
  let Op := shl (bin "1010'0100'0000'0000'111") 13 in
  SVEContiguousMultipleStructures Op (bin "01") (bin "01") (u32 (Z.quot Imm 2))
    zt1 pg rn.
Definition ld3h (zt1 zt2 zt3 : ZRegister) (pg : PRegisterZero) (rn : Register)
    (Imm : Z) : Emit unit :=
  LOGMAN_THROW_AA_FMT
    ((Imm >=? -24) && (Imm <=? 21) && (Z.rem Imm 3 =? 0))
    "Invalid sized loadstore offset size" ;;
  LOGMAN_THROW_A_FMT (AreVectorsSequential [zt1; zt2; zt3])
    "Registers need to be contiguous" ;;
  let Op := shl (bin "1010'0100'0000'0000'111") 13 in
  SVEContiguousMultipleStructures Op (bin "01") (bin "10") (u32 (Z.quot Imm 3))
    zt1 pg rn.
Definition ld4h (zt1 zt2 zt3 zt4 : ZRegister) (pg : PRegisterZero) (rn : Register)
    (Imm : Z) : Emit unit :=
  LOGMAN_THROW_AA_FMT
    ((Imm >=? -32) && (Imm <=? 28) && (Z.rem Imm 4 =? 0))
    "Invalid sized loadstore offset size" ;;
  LOGMAN_THROW_A_FMT (AreVectorsSequential [zt1; zt2; zt3; zt4])
    "Registers need to be contiguous" ;;
  let Op := shl (bin "1010'0100'0000'0000'111") 13 in
  SVEContiguousMultipleStructures Op (bin "01") (bin "11") (u32 (Z.quot Imm 4))
    zt1 pg rn.
Definition ld2w (zt1 zt2 : ZRegister) (pg : PRegisterZero) (rn : Register)
    (Imm : Z) : Emit unit :=
  LOGMAN_THROW_AA_FMT
    ((Imm >=? -16) && (Imm <=? 14) && (Z.rem Imm 2 =? 0))
    "Invalid sized loadstore offset size" ;;
  LOGMAN_THROW_A_FMT (AreVectorsSequential [zt1; zt2])
    "Registers need to be contiguous" ;;
  let Op := shl (bin "1010'0100'0000'0000'111") 13 in
  SVEContiguousMultipleStructures Op (bin "10") (bin "01") (u32 (Z.quot Imm 2))
    zt1 pg rn.
Definition ld3w (zt1 zt2 zt3 : ZRegister) (pg : PRegisterZero) (rn : Register)
    (Imm : Z) : Emit unit :=
  LOGMAN_THROW_AA_FMT
    ((Imm >=? -24) && (Imm <=? 21) && (Z.rem Imm 3 =? 0))
    "Invalid sized loadstore offset size" ;;
  LOGMAN_THROW_A_FMT (AreVectorsSequential [zt1; zt2; zt3])
    "Registers need to be contiguous" ;;
  let Op := shl (bin "1010'0100'0000'0000'111") 13 in
  SVEContiguousMultipleStructures Op (bin "10") (bin "10") (u32 (Z.quot Imm 3))
    zt1 pg rn.
Definition ld4w (zt1 zt2 zt3 zt4 : ZRegister) (pg : PRegisterZero) (rn : Register)
    (Imm : Z) : Emit unit :=
  LOGMAN_THROW_AA_FMT
    ((Imm >=? -32) && (Imm <=? 28) && (Z.rem Imm 4 =? 0))
    "Invalid sized loadstore offset size" ;;
  LOGMAN_THROW_A_FMT (AreVectorsSequential [zt1; zt2; zt3; zt4])
    "Registers need to be contiguous" ;;
  let Op := shl (bin "1010'0100'0000'0000'111") 13 in
  SVEContiguousMultipleStructures Op (bin "10") (bin "11") (u32 (Z.quot Imm 4))
    zt1 pg rn.
Definition ld2d (zt1 zt2 : ZRegister) (pg : PRegisterZero) (rn : Register)
    (Imm : Z) : Emit unit :=
  LOGMAN_THROW_AA_FMT
    ((Imm >=? -16) && (Imm <=? 14) && (Z.rem Imm 2 =? 0))
    "Invalid sized loadstore offset size" ;;
  LOGMAN_THROW_A_FMT (AreVectorsSequential [zt1; zt2])
    "Registers need to be contiguous" ;;
  let Op := shl (bin "1010'0100'0000'0000'111") 13 in
  SVEContiguousMultipleStructures Op (bin "11") (bin "01") (u32 (Z.quot Imm 2))
    zt1 pg rn.
Definition ld3d (zt1 zt2 zt3 : ZRegister) (pg : PRegisterZero) (rn : Register)
    (Imm : Z) : Emit unit :=
  LOGMAN_THROW_AA_FMT
    ((Imm >=? -24) && (Imm <=? 21) && (Z.rem Imm 3 =? 0))
    "Invalid sized loadstore offset size" ;;
  LOGMAN_THROW_A_FMT (AreVectorsSequential [zt1; zt2; zt3])
    "Registers need to be contiguous" ;;
  let Op := shl (bin "1010'0100'0000'0000'111") 13 in
  SVEContiguousMultipleStructures Op (bin "11") (bin "10") (u32 (Z.quot Imm 3))
    zt1 pg rn.
Definition ld4d (zt1 zt2 zt3 zt4 : ZRegister) (pg : PRegisterZero) (rn : Register)
    (Imm : Z) : Emit unit :=
  LOGMAN_THROW_AA_FMT
    ((Imm >=? -32) && (Imm <=? 28) && (Z.rem Imm 4 =? 0))
    "Invalid sized loadstore offset size" ;;
  LOGMAN_THROW_A_FMT (AreVectorsSequential [zt1; zt2; zt3; zt4])
    "Registers need to be contiguous" ;;
  let Op := shl (bin "1010'0100'0000'0000'111") 13 in
  SVEContiguousMultipleStructures Op (bin "11") (bin "11") (u32 (Z.quot Imm 4))
    zt1 pg rn.

(* SVE store multiple structures (scalar plus immediate) *)
Definition st2b (zt1 zt2 : ZRegister) (pg : PRegister) (rn : Register)
    (Imm : Z) : Emit unit :=
  LOGMAN_THROW_AA_FMT
    ((Imm >=? -16) && (Imm <=? 14) && (Z.rem Imm 2 =? 0))
    "Invalid sized loadstore offset size" ;;
  LOGMAN_THROW_A_FMT (AreVectorsSequential [zt1; zt2])
    "Registers need to be contiguous" ;;
  let Op := shl (bin "1110'0100'0001'0000'111") 13 in
  SVEContiguousMultipleStructures Op (bin "00") (bin "01") (u32 (Z.quot Imm 2))
    zt1 pg rn.
Definition st3b (zt1 zt2 zt3 : ZRegister) (pg : PRegister) (rn : Register)
    (Imm : Z) : Emit unit :=
  LOGMAN_THROW_AA_FMT
    ((Imm >=? -24) && (Imm <=? 21) && (Z.rem Imm 3 =? 0))
    "Invalid sized loadstore offset size" ;;
  LOGMAN_THROW_A_FMT (AreVectorsSequential [zt1; zt2; zt3])
    "Registers need to be contiguous" ;;
  let Op := shl (bin "1110'0100'0001'0000'111") 13 in
  SVEContiguousMultipleStructures Op (bin "00") (bin "10") (u32 (Z.quot Imm 3))
    zt1 pg rn.
Definition st4b (zt1 zt2 zt3 zt4 : ZRegister) (pg : PRegister) (rn : Register)
    (Imm : Z) : Emit unit :=
  LOGMAN_THROW_AA_FMT
    ((Imm >=? -32) && (Imm <=? 28) && (Z.rem Imm 4 =? 0))
    "Invalid sized loadstore offset size" ;;
  LOGMAN_THROW_A_FMT (AreVectorsSequential [zt1; zt2; zt3; zt4])
    "Registers need to be contiguous" ;;
  let Op := shl (bin "1110'0100'0001'0000'111") 13 in
  SVEContiguousMultipleStructures Op (bin "00") (bin "11") (u32 (Z.quot Imm 4))
    zt1 pg rn.
Definition st2h (zt1 zt2 : ZRegister) (pg : PRegister) (rn : Register)
    (Imm : Z) : Emit unit :=
  LOGMAN_THROW_AA_FMT
    ((Imm >=? -16) && (Imm <=? 14) && (Z.rem Imm 2 =? 0))
    "Invalid sized loadstore offset size" ;;
  LOGMAN_THROW_A_FMT (AreVectorsSequential [zt1; zt2])
    "Registers need to be contiguous" ;;
  let Op := shl (bin "1110'0100'0001'0000'111") 13 in
  SVEContiguousMultipleStructures Op (bin "01") (bin "01") (u32 (Z.quot Imm 2))
    zt1 pg rn.
Definition st3h (zt1 zt2 zt3 : ZRegister) (pg : PRegister) (rn : Register)
    (Imm : Z) : Emit unit :=
  LOGMAN_THROW_AA_FMT
    ((Imm >=? -24) && (Imm <=? 21) && (Z.rem Imm 3 =? 0))
    "Invalid sized loadstore offset size" ;;
  LOGMAN_THROW_A_FMT (AreVectorsSequential [zt1; zt2; zt3])
    "Registers need to be contiguous" ;;
  let Op := shl (bin "1110'0100'0001'0000'111") 13 in
  SVEContiguousMultipleStructures Op (bin "01") (bin "10") (u32 (Z.quot Imm 3))
    zt1 pg rn.
Definition st4h (zt1 zt2 zt3 zt4 : ZRegister) (pg : PRegister) (rn : Register)
    (Imm : Z) : Emit unit :=
  LOGMAN_THROW_AA_FMT
    ((Imm >=? -32) && (Imm <=? 28) && (Z.rem Imm 4 =? 0))
    "Invalid sized loadstore offset size" ;;
  LOGMAN_THROW_A_FMT (AreVectorsSequential [zt1; zt2; zt3; zt4])
    "Registers need to be contiguous" ;;
  let Op := shl (bin "1110'0100'0001'0000'111") 13 in
  SVEContiguousMultipleStructures Op (bin "01") (bin "11") (u32 (Z.quot Imm 4))
    zt1 pg rn.
Definition st2w (zt1 zt2 : ZRegister) (pg : PRegister) (rn : Register)
    (Imm : Z) : Emit unit :=
  LOGMAN_THROW_AA_FMT
    ((Imm >=? -16) && (Imm <=? 14) && (Z.rem Imm 2 =? 0))
    "Invalid sized loadstore offset size" ;;
  LOGMAN_THROW_A_FMT (AreVectorsSequential [zt1; zt2])
    "Registers need to be contiguous" ;;
  let Op := shl (bin "1110'0100'0001'0000'111") 13 in
  SVEContiguousMultipleStructures Op (bin "10") (bin "01") (u32 (Z.quot Imm 2))
    zt1 pg rn.
Definition st3w (zt1 zt2 zt3 : ZRegister) (pg : PRegister) (rn : Register)
    (Imm : Z) : Emit unit :=
  LOGMAN_THROW_AA_FMT
    ((Imm >=? -24) && (Imm <=? 21) && (Z.rem Imm 3 =? 0))
    "Invalid sized loadstore offset size" ;;
  LOGMAN_THROW_A_FMT (AreVectorsSequential [zt1; zt2; zt3])
    "Registers need to be contiguous" ;;
  let Op := shl (bin "1110'0100'0001'0000'111") 13 in
  SVEContiguousMultipleStructures Op (bin "10") (bin "10") (u32 (Z.quot Imm 3))
    zt1 pg rn.
Definition st4w (zt1 zt2 zt3 zt4 : ZRegister) (pg : PRegister) (rn : Register)
    (Imm : Z) : Emit unit :=
  LOGMAN_THROW_AA_FMT
    ((Imm >=? -32) && (Imm <=? 28) && (Z.rem Imm 4 =? 0))
    "Invalid sized loadstore offset size" ;;
  LOGMAN_THROW_A_FMT (AreVectorsSequential [zt1; zt2; zt3; zt4])
    "Registers need to be contiguous" ;;
  let Op := shl (bin "1110'0100'0001'0000'111") 13 in
  SVEContiguousMultipleStructures Op (bin "10") (bin "11") (u32 (Z.quot Imm 4))
    zt1 pg rn.
Definition st2d (zt1 zt2 : ZRegister) (pg : PRegister) (rn : Register)
    (Imm : Z) : Emit unit :=
  LOGMAN_THROW_AA_FMT
    ((Imm >=? -16) && (Imm <=? 14) && (Z.rem Imm 2 =? 0))
    "Invalid sized loadstore offset size" ;;
  LOGMAN_THROW_A_FMT (AreVectorsSequential [zt1; zt2])
    "Registers need to be contiguous" ;;
  let Op := shl (bin "1110'0100'0001'0000'111") 13 in
  SVEContiguousMultipleStructures Op (bin "11") (bin "01") (u32 (Z.quot Imm 2))
    zt1 pg rn.
Definition st3d (zt1 zt2 zt3 : ZRegister) (pg : PRegister) (rn : Register)
    (Imm : Z) : Emit unit :=
  LOGMAN_THROW_AA_FMT
    ((Imm >=? -24) && (Imm <=? 21) && (Z.rem Imm 3 =? 0))
    "Invalid sized loadstore offset size" ;;
  LOGMAN_THROW_A_FMT (AreVectorsSequential [zt1; zt2; zt3])
    "Registers need to be contiguous" ;;
  let Op := shl (bin "1110'0100'0001'0000'111") 13 in
  SVEContiguousMultipleStructures Op (bin "11") (bin "10") (u32 (Z.quot Imm 3))
    zt1 pg rn.
Definition st4d (zt1 zt2 zt3 zt4 : ZRegister) (pg : PRegister) (rn : Register)
    (Imm : Z) : Emit unit :=
  LOGMAN_THROW_AA_FMT
    ((Imm >=? -32) && (Imm <=? 28) && (Z.rem Imm 4 =? 0))
    "Invalid sized loadstore offset size" ;;
  LOGMAN_THROW_A_FMT (AreVectorsSequential [zt1; zt2; zt3; zt4])
    "Registers need to be contiguous" ;;
  let Op := shl (bin "1110'0100'0001'0000'111") 13 in
  SVEContiguousMultipleStructures Op (bin "11") (bin "11") (u32 (Z.quot Imm 4))
    zt1 pg rn.

(** The structured loads and stores, one register group each. *)
Inductive StructMnemonic : Type :=
| LD2B | LD3B | LD4B | LD2H | LD3H | LD4H
| LD2W | LD3W | LD4W | LD2D | LD3D | LD4D
| ST2B | ST3B | ST4B | ST2H | ST3H | ST4H
| ST2W | ST3W | ST4W | ST2D | ST3D | ST4D.

(** A call of a structured load or store: the mnemonic takes the first two,
    three or four of the registers. *)
Definition struct_mem (m : StructMnemonic) (zt1 zt2 zt3 zt4 : ZRegister)
    (pg : PRegister) (rn : Register) (Imm : Z) : Emit unit :=
  match m with
  | LD2B => ld2b zt1 zt2 (Zeroing pg) rn Imm
  | LD3B => ld3b zt1 zt2 zt3 (Zeroing pg) rn Imm
  | LD4B => ld4b zt1 zt2 zt3 zt4 (Zeroing pg) rn Imm
  | LD2H => ld2h zt1 zt2 (Zeroing pg) rn Imm
  | LD3H => ld3h zt1 zt2 zt3 (Zeroing pg) rn Imm
  | LD4H => ld4h zt1 zt2 zt3 zt4 (Zeroing pg) rn Imm
  | LD2W => ld2w zt1 zt2 (Zeroing pg) rn Imm
  | LD3W => ld3w zt1 zt2 zt3 (Zeroing pg) rn Imm
  | LD4W => ld4w zt1 zt2 zt3 zt4 (Zeroing pg) rn Imm
  | LD2D => ld2d zt1 zt2 (Zeroing pg) rn Imm
  | LD3D => ld3d zt1 zt2 zt3 (Zeroing pg) rn Imm
  | LD4D => ld4d zt1 zt2 zt3 zt4 (Zeroing pg) rn Imm
  | ST2B => st2b zt1 zt2 pg rn Imm
  | ST3B => st3b zt1 zt2 zt3 pg rn Imm
  | ST4B => st4b zt1 zt2 zt3 zt4 pg rn Imm
  | ST2H => st2h zt1 zt2 pg rn Imm
  | ST3H => st3h zt1 zt2 zt3 pg rn Imm
  | ST4H => st4h zt1 zt2 zt3 zt4 pg rn Imm
  | ST2W => st2w zt1 zt2 pg rn Imm
  | ST3W => st3w zt1 zt2 zt3 pg rn Imm
  | ST4W => st4w zt1 zt2 zt3 zt4 pg rn Imm
  | ST2D => st2d zt1 zt2 pg rn Imm
  | ST3D => st3d zt1 zt2 zt3 pg rn Imm
  | ST4D => st4d zt1 zt2 zt3 zt4 pg rn Imm
  end.
End StructuredLoadStore.

(** Registers in the group of a mnemonic, its element size code and whether
    it stores, each as the name says. *)
Definition struct_count (m : StructMnemonic) : Z :=
  match m with
  | LD2B | LD2H | LD2W | LD2D | ST2B | ST2H | ST2W | ST2D => 2
  | LD3B | LD3H | LD3W | LD3D | ST3B | ST3H | ST3W | ST3D => 3
  | LD4B | LD4H | LD4W | LD4D | ST4B | ST4H | ST4W | ST4D => 4
  end.

Definition struct_msz (m : StructMnemonic) : Z :=
  match m with
  | LD2B | LD3B | LD4B | ST2B | ST3B | ST4B => 0
  | LD2H | LD3H | LD4H | ST2H | ST3H | ST4H => 1
  | LD2W | LD3W | LD4W | ST2W | ST3W | ST4W => 2
  | LD2D | LD3D | LD4D | ST2D | ST3D | ST4D => 3
  end.

Definition struct_is_store (m : StructMnemonic) : bool :=
  match m with
  | ST2B | ST3B | ST4B | ST2H | ST3H | ST4H | ST2W | ST3W | ST4W | ST2D | ST3D | ST4D => true
  | _ => false
  end.

Definition struct_group (m : StructMnemonic) (zt1 zt2 zt3 zt4 : ZRegister)
    : list ZRegister :=
  firstn (Z.to_nat (struct_count m)) [zt1; zt2; zt3; zt4].

(** ** Reading immediates back *)

(** The value of a [k]-bit two's complement field. *)
Definition sext (k x : Z) : Z := if x <? 2 ^ (k - 1) then x else x - 2 ^ k.

(** An operand of [index] read back from its five-bit field: a register when
    the selector bit is set, a signed immediate otherwise. *)
Definition decode_index_operand (is_reg : bool) (field : Z) : IndexOperand :=
  if is_reg then IndexReg (Reg field) else IndexImm (sext 5 field).

Definition index_operand_ok (o : IndexOperand) : Prop :=
  match o with
  | IndexImm v => -16 <= v <= 15
  | IndexReg r => 0 <= Idx r < 32
  end.

Definition index_imm_rejected (o : IndexOperand) : Prop :=
  match o with
  | IndexImm v => ~ (-16 <= v <= 15)
  | IndexReg _ => False
  end.

(** ** Conversions between integer and floating point *)

(* SVE integer convert to floating-point / floating-point convert to integer *)
Definition scvtf (zd : ZRegister) (dstsize : SubRegSize) (pg : PRegisterMerge)
    (zn : ZRegister) (srcsize : SubRegSize) : Emit unit :=
  LOGMAN_THROW_AA_FMT
    (SubRegSize_eqb dstsize i64Bit || SubRegSize_eqb dstsize i32Bit
     || SubRegSize_eqb dstsize i16Bit) "Unsupported size in {}" ;;
  LOGMAN_THROW_AA_FMT
    (SubRegSize_eqb srcsize i64Bit || SubRegSize_eqb srcsize i32Bit
     || SubRegSize_eqb srcsize i16Bit) "Unsupported size in {}" ;;
  let Op := shl (bin "0110'0101'0001'0000'101") 13 in
  f <- (if SubRegSize_eqb srcsize i16Bit then
          (* Srcsize = fp16, opc2 encodes dst size *)
          LOGMAN_THROW_AA_FMT (SubRegSize_eqb dstsize i16Bit) "Unsupported size in {}" ;;
          ret (bin "01", bin "01")
        else if SubRegSize_eqb srcsize i32Bit then
          (* Srcsize = fp32, opc1 encodes dst size *)
          ret (if SubRegSize_eqb dstsize i64Bit then bin "11"
               else if SubRegSize_eqb dstsize i32Bit then bin "10"
               else if SubRegSize_eqb dstsize i16Bit then bin "01" else bin "00",
               if SubRegSize_eqb dstsize i64Bit then bin "00"
               else if SubRegSize_eqb dstsize i32Bit then bin "10"
               else if SubRegSize_eqb dstsize i16Bit then bin "10" else bin "00")
        else if SubRegSize_eqb srcsize i64Bit then
          (* SrcSize = fp64, opc2 encodes dst size *)
          ret (if SubRegSize_eqb dstsize i64Bit then bin "11"
               else if SubRegSize_eqb dstsize i32Bit then bin "11"
               else if SubRegSize_eqb dstsize i16Bit then bin "01" else bin "00",
               if SubRegSize_eqb dstsize i64Bit then bin "11"
               else if SubRegSize_eqb dstsize i32Bit then bin "10"
               else if SubRegSize_eqb dstsize i16Bit then bin "11" else bin "00")
        else
          FEX_UNREACHABLE ;; ret (0, 0)) ;;
  let '(opc1, opc2) := f in
  SVEFloatConvertToInt Op opc1 opc2 0 pg zn zd.

Definition ucvtf (zd : ZRegister) (dstsize : SubRegSize) (pg : PRegisterMerge)
    (zn : ZRegister) (srcsize : SubRegSize) : Emit unit :=
  LOGMAN_THROW_AA_FMT
    (SubRegSize_eqb dstsize i64Bit || SubRegSize_eqb dstsize i32Bit
     || SubRegSize_eqb dstsize i16Bit) "Unsupported size in {}" ;;
  LOGMAN_THROW_AA_FMT
    (SubRegSize_eqb srcsize i64Bit || SubRegSize_eqb srcsize i32Bit
     || SubRegSize_eqb srcsize i16Bit) "Unsupported size in {}" ;;
  let Op := shl (bin "0110'0101'0001'0000'101") 13 in
  f <- (if SubRegSize_eqb srcsize i16Bit then
          (* Srcsize = fp16, opc2 encodes dst size *)
          LOGMAN_THROW_AA_FMT (SubRegSize_eqb dstsize i16Bit) "Unsupported size in {}" ;;
          ret (bin "01", bin "01")
        else if SubRegSize_eqb srcsize i32Bit then
          (* Srcsize = fp32, opc1 encodes dst size *)
          ret (if SubRegSize_eqb dstsize i64Bit then bin "11"
               else if SubRegSize_eqb dstsize i32Bit then bin "10"
               else if SubRegSize_eqb dstsize i16Bit then bin "01" else bin "00",
               if SubRegSize_eqb dstsize i64Bit then bin "00"
               else if SubRegSize_eqb dstsize i32Bit then bin "10"
               else if SubRegSize_eqb dstsize i16Bit then bin "10" else bin "00")
        else if SubRegSize_eqb srcsize i64Bit then
          (* SrcSize = fp64, opc2 encodes dst size *)
          ret (if SubRegSize_eqb dstsize i64Bit then bin "11"
               else if SubRegSize_eqb dstsize i32Bit then bin "11"
               else if SubRegSize_eqb dstsize i16Bit then bin "01" else bin "00",
               if SubRegSize_eqb dstsize i64Bit then bin "11"
               else if SubRegSize_eqb dstsize i32Bit then bin "10"
               else if SubRegSize_eqb dstsize i16Bit then bin "11" else bin "00")
        else
          FEX_UNREACHABLE ;; ret (0, 0)) ;;
  let '(opc1, opc2) := f in
  SVEFloatConvertToInt Op opc1 opc2 1 pg zn zd.

Definition fcvtzs (zd : ZRegister) (dstsize : SubRegSize) (pg : PRegisterMerge)
    (zn : ZRegister) (srcsize : SubRegSize) : Emit unit :=
  LOGMAN_THROW_AA_FMT
    (SubRegSize_eqb dstsize i64Bit || SubRegSize_eqb dstsize i32Bit
     || SubRegSize_eqb dstsize i16Bit) "Unsupported size in {}" ;;
  LOGMAN_THROW_AA_FMT
    (SubRegSize_eqb srcsize i64Bit || SubRegSize_eqb srcsize i32Bit
     || SubRegSize_eqb srcsize i16Bit) "Unsupported size in {}" ;;
  let Op := shl (bin "0110'0101'0001'1000'101") 13 in
  f <- (if SubRegSize_eqb srcsize i16Bit then
          (* Srcsize = fp16, opc2 encodes dst size *)
          ret (bin "01",
               if SubRegSize_eqb dstsize i64Bit then bin "11"
               else if SubRegSize_eqb dstsize i32Bit then bin "10"
               else if SubRegSize_eqb dstsize i16Bit then bin "01" else bin "00")
        else if SubRegSize_eqb srcsize i32Bit then
          (* Srcsize = fp32, opc1 encodes dst size *)
          LOGMAN_THROW_AA_FMT (negb (SubRegSize_eqb dstsize i16Bit))
            "Unsupported size in {}" ;;
          ret (if SubRegSize_eqb dstsize i64Bit then bin "11"
               else if SubRegSize_eqb dstsize i32Bit then bin "10" else bin "00",
               bin "10")
        else if SubRegSize_eqb srcsize i64Bit then
          LOGMAN_THROW_AA_FMT (negb (SubRegSize_eqb dstsize i16Bit))
            "Unsupported size in {}" ;;
          (* SrcSize = fp64, opc2 encodes dst size *)
          ret (bin "11",
               if SubRegSize_eqb dstsize i64Bit then bin "11"
               else if SubRegSize_eqb dstsize i32Bit then bin "00" else bin "00")
        else
          FEX_UNREACHABLE ;; ret (0, 0)) ;;
  let '(opc1, opc2) := f in
  SVEFloatConvertToInt Op opc1 opc2 0 pg zn zd.

Definition fcvtzu (zd : ZRegister) (dstsize : SubRegSize) (pg : PRegisterMerge)
    (zn : ZRegister) (srcsize : SubRegSize) : Emit unit :=
  LOGMAN_THROW_AA_FMT
    (SubRegSize_eqb dstsize i64Bit || SubRegSize_eqb dstsize i32Bit
     || SubRegSize_eqb dstsize i16Bit) "Unsupported size in {}" ;;
  LOGMAN_THROW_AA_FMT
    (SubRegSize_eqb srcsize i64Bit || SubRegSize_eqb srcsize i32Bit
     || SubRegSize_eqb srcsize i16Bit) "Unsupported size in {}" ;;
  let Op := shl (bin "0110'0101'0001'1000'101") 13 in
  f <- (if SubRegSize_eqb srcsize i16Bit then
          (* Srcsize = fp16, opc2 encodes dst size *)
          ret (bin "01",
               if SubRegSize_eqb dstsize i64Bit then bin "11"
               else if SubRegSize_eqb dstsize i32Bit then bin "10"
               else if SubRegSize_eqb dstsize i16Bit then bin "01" else bin "00")
        else if SubRegSize_eqb srcsize i32Bit then
          (* Srcsize = fp32, opc1 encodes dst size *)
          LOGMAN_THROW_AA_FMT (negb (SubRegSize_eqb dstsize i16Bit))
            "Unsupported size in {}" ;;
          ret (if SubRegSize_eqb dstsize i64Bit then bin "11"
               else if SubRegSize_eqb dstsize i32Bit then bin "10" else bin "00",
               bin "10")
        else if SubRegSize_eqb srcsize i64Bit then
          LOGMAN_THROW_AA_FMT (negb (SubRegSize_eqb dstsize i16Bit))
            "Unsupported size in {}" ;;
          (* SrcSize = fp64, opc2 encodes dst size *)
          ret (bin "11",
               if SubRegSize_eqb dstsize i64Bit then bin "11"
               else if SubRegSize_eqb dstsize i32Bit then bin "00" else bin "00")
        else
          FEX_UNREACHABLE ;; ret (0, 0)) ;;
  let '(opc1, opc2) := f in
  SVEFloatConvertToInt Op opc1 opc2 1 pg zn zd.

Inductive ConvertMnemonic : Type := SCVTF | UCVTF | FCVTZS | FCVTZU.

Definition convert (m : ConvertMnemonic)
    : ZRegister -> SubRegSize -> PRegisterMerge -> ZRegister -> SubRegSize
      -> Emit unit :=
  match m with
  | SCVTF => scvtf | UCVTF => ucvtf | FCVTZS => fcvtzs | FCVTZU => fcvtzu
  end.

(** The size pairs a conversion takes: both sizes 16, 32 or 64 bits; a
    conversion to floating point from 16-bit integers only to half
    precision, a conversion to 16-bit integers only from half precision. *)
Definition float_or_int_size (size : SubRegSize) : bool :=
  SubRegSize_eqb size i16Bit || SubRegSize_eqb size i32Bit
  || SubRegSize_eqb size i64Bit.

Definition convert_accepts (m : ConvertMnemonic) (dstsize srcsize : SubRegSize)
    : bool :=
  float_or_int_size dstsize && float_or_int_size srcsize
  && match m with
     | SCVTF | UCVTF =>
         implb (SubRegSize_eqb srcsize i16Bit) (SubRegSize_eqb dstsize i16Bit)
     | FCVTZS | FCVTZU =>
         implb (SubRegSize_eqb dstsize i16Bit) (SubRegSize_eqb srcsize i16Bit)
     end.

(** Bits 23:16 of the word a conversion emits, computed on registers 0. *)
Definition convert_code (m : ConvertMnemonic) (dstsize srcsize : SubRegSize) : Z :=
  match convert m (ZReg 0) dstsize (PRegMerge 0) (ZReg 0) srcsize [] with
  | Done _ [w] => bits 16 8 w
  | _ => -1
  end.

Definition convert_table : list (ConvertMnemonic * SubRegSize * SubRegSize) :=
  filter (fun t => let '(m, d, s) := t in convert_accepts m d s)
    (list_prod (list_prod [SCVTF; UCVTF; FCVTZS; FCVTZU]
                  [i8Bit; i16Bit; i32Bit; i64Bit; i128Bit])
       [i8Bit; i16Bit; i32Bit; i64Bit; i128Bit]).

Definition convert_of_code (c : Z)
    : option (ConvertMnemonic * SubRegSize * SubRegSize) :=
  find (fun t => let '(m, d, s) := t in convert_code m d s =? c) convert_table.

(** ** Mnemonic families read back from a word *)

Inductive AddSubMnemonic : Type := ADD | SUB | SQADD | UQADD | SQSUB | UQSUB.

Definition add_sub (m : AddSubMnemonic)
    : SubRegSize -> ZRegister -> ZRegister -> ZRegister -> Emit unit :=
  match m with
  | ADD => AddSubUnpredicated.add | SUB => AddSubUnpredicated.sub
  | SQADD => AddSubUnpredicated.sqadd | UQADD => AddSubUnpredicated.uqadd
  | SQSUB => AddSubUnpredicated.sqsub | UQSUB => AddSubUnpredicated.uqsub
  end.

(** Bits 12:10 of an unpredicated add or subtract; two values name no
    mnemonic of this file. *)
Definition add_sub_of_bits (b : Z) : option AddSubMnemonic :=
  match nth_error [Some ADD; Some SUB; None; None;
                   Some SQADD; Some UQADD; Some SQSUB; Some UQSUB] (Z.to_nat b) with
  | Some o => o
  | None => None
  end.

(** The sixteen integer compares of two vectors, plain and wide. *)
Definition is_integer_compare (m : GovernedMnemonic) : bool :=
  match m with
  | CMPEQ | CMPGE | CMPGT | CMPHI | CMPHS | CMPNE
  | CMPEQ_WIDE | CMPGT_WIDE | CMPGE_WIDE | CMPHI_WIDE | CMPHS_WIDE
  | CMPLT_WIDE | CMPLE_WIDE | CMPLO_WIDE | CMPLS_WIDE | CMPNE_WIDE => true
  | _ => false
  end.

(** Bits 15:13 and bit 4 of an integer compare of two vectors. *)
Definition integer_compare_of_bits (sel ne : Z) : option GovernedMnemonic :=
  nth_error
    [CMPHS; CMPHI; CMPEQ_WIDE; CMPNE_WIDE;
     CMPGE_WIDE; CMPGT_WIDE; CMPLT_WIDE; CMPLE_WIDE;
     CMPGE; CMPGT; CMPEQ; CMPNE;
     CMPHS_WIDE; CMPHI_WIDE; CMPLO_WIDE; CMPLS_WIDE]
    (Z.to_nat (2 * sel + ne)).

Definition is_float_compare (m : GovernedMnemonic) : bool :=
  match m with
  | FCMEQ | FCMGT | FCMGE | FCMNE | FCMUO | FACGE | FACGT | FACLE | FACLT => true
  | _ => false
  end.

(** facle and faclt have no encoding of their own. *)
Definition float_compare_swapped (m : GovernedMnemonic) : bool :=
  match m with
  | FACLE | FACLT => true
  | _ => false
  end.

Definition float_compare_encoded (m : GovernedMnemonic) : GovernedMnemonic :=
  match m with
  | FACLE => FACGE
  | FACLT => FACGT
  | _ => m
  end.

(** Bit 15, bit 13 and bit 4 of a floating-point compare of two vectors. *)
Definition float_compare_of_bits (op o2 o3 : Z) : option GovernedMnemonic :=
  match nth_error [Some FCMGE; Some FCMGT; Some FCMEQ; Some FCMNE;
                   Some FCMUO; Some FACGE; None; Some FACGT]
          (Z.to_nat (4 * op + 2 * o2 + o3)) with
  | Some o => o
  | None => None
  end.

Inductive UnsignedCompareImmMnemonic : Type :=
| CMPHI_I | CMPHS_I | CMPLO_I | CMPLS_I.

Definition unsigned_compare_imm (m : UnsignedCompareImmMnemonic)
    : SubRegSize -> PRegister -> PRegisterZero -> ZRegister -> Z -> Emit unit :=
  match m with
  | CMPHI_I => CompareUnsignedImm.cmphi
  | CMPHS_I => CompareUnsignedImm.cmphs
  | CMPLO_I => CompareUnsignedImm.cmplo
  | CMPLS_I => CompareUnsignedImm.cmpls
  end.

(** Bit 13 and bit 4 of an integer compare with unsigned immediate. *)
Definition unsigned_compare_imm_of_bits (lt ne : Z)
    : option UnsignedCompareImmMnemonic :=
  nth_error [CMPHS_I; CMPHI_I; CMPLO_I; CMPLS_I] (Z.to_nat (2 * lt + ne)).

(** The mnemonic with bit 13 set in place of [m]. *)
Definition with_lt (m : UnsignedCompareImmMnemonic) : UnsignedCompareImmMnemonic :=
  match m with
  | CMPHI_I | CMPLS_I => CMPLS_I
  | CMPHS_I | CMPLO_I => CMPLO_I
  end.

Definition mem_is_store (h : MemHelper) : bool :=
  match h with
  | ST1B | ST1H | ST1W | ST1D => true
  | _ => false
  end.

(** ** Further SVE2 encoders *)

Definition SVE2IntegerAddSubNarrowHighPart (size : SubRegSize) (opc : Z)
    (zd zn zm : ZRegister) : Emit unit :=
  LOGMAN_THROW_A_FMT
    (negb (SubRegSize_eqb size i64Bit) && negb (SubRegSize_eqb size i128Bit))
    "Can't use 64-bit or 128-bit element size" ;;
  let Instr := bin "0100'0101'0010'0000'0110'0000'0000'0000" in
  let Instr := Z.lor Instr (shl (ToUnderlying size + 1) 22) in
  let Instr := Z.lor Instr (shl (Idx zm) 16) in
  let Instr := Z.lor Instr (shl opc 10) in
  let Instr := Z.lor Instr (shl (Idx zn) 5) in
  let Instr := Z.lor Instr (Idx zd) in
  dc32 Instr.

Definition SVE2IntegerAddSubLongWithCarry (size : SubRegSize) (sizep1 T : Z)
    (zda zn zm : ZRegister) : Emit unit :=
  LOGMAN_THROW_A_FMT (SubRegSize_eqb size i32Bit || SubRegSize_eqb size i64Bit)
    "Element size must be 32-bit or 64-bit" ;;
  let NewSize := if SubRegSize_eqb size i32Bit then 0 else 1 in
  let Instr := bin "0100'0101'0000'0000'1101'0000'0000'0000" in
  let Instr := Z.lor Instr (shl sizep1 23) in
  let Instr := Z.lor Instr (shl NewSize 22) in
  let Instr := Z.lor Instr (shl (Idx zm) 16) in
  let Instr := Z.lor Instr (shl T 10) in
  let Instr := Z.lor Instr (shl (Idx zn) 5) in
  let Instr := Z.lor Instr (Idx zda) in
  dc32 Instr.

Definition SVE2ComplexIntAdd (size : SubRegSize) (opc : Z) (rot : Rotation)
    (zd zn zm : ZRegister) : Emit unit :=
  LOGMAN_THROW_A_FMT (negb (SubRegSize_eqb size i128Bit))
    "Complex add cannot use 128-bit element size" ;;
  LOGMAN_THROW_A_FMT (reg_eqb zd zn) "zd and zn must be the same register" ;;
  LOGMAN_THROW_A_FMT (Rotation_eqb rot ROTATE_90 || Rotation_eqb rot ROTATE_270)
    "Rotation must be 90 or 270 degrees" ;;
  let SanitizedRot := if Rotation_eqb rot ROTATE_90 then 0 else 1 in
  let Instr := bin "0100'0101'0000'0000'1101'1000'0000'0000" in
  let Instr := Z.lor Instr (shl (ToUnderlying size) 22) in
  let Instr := Z.lor Instr (shl opc 16) in
  let Instr := Z.lor Instr (shl SanitizedRot 10) in
  let Instr := Z.lor Instr (shl (Idx zm) 5) in
  let Instr := Z.lor Instr (Idx zd) in
  dc32 Instr.

(* SVE2 complex integer add *)
Definition cadd (size : SubRegSize) (zd zn zm : ZRegister) (rot : Rotation)
    : Emit unit :=
  SVE2ComplexIntAdd size (bin "0") rot zd zn zm.
Definition sqcadd (size : SubRegSize) (zd zn zm : ZRegister) (rot : Rotation)
    : Emit unit :=
  SVE2ComplexIntAdd size (bin "1") rot zd zn zm.

(* SVE2 integer add/subtract long with carry *)
Definition adclb (size : SubRegSize) (zda zn zm : ZRegister) : Emit unit :=
  SVE2IntegerAddSubLongWithCarry size 0 0 zda zn zm.
Definition adclt (size : SubRegSize) (zda zn zm : ZRegister) : Emit unit :=
  SVE2IntegerAddSubLongWithCarry size 0 1 zda zn zm.
Definition sbclb (size : SubRegSize) (zda zn zm : ZRegister) : Emit unit :=
  SVE2IntegerAddSubLongWithCarry size 1 0 zda zn zm.
Definition sbclt (size : SubRegSize) (zda zn zm : ZRegister) : Emit unit :=
  SVE2IntegerAddSubLongWithCarry size 1 1 zda zn zm.

(* SVE2 integer add/subtract narrow high part *)
Definition addhnb (size : SubRegSize) (zd zn zm : ZRegister) : Emit unit :=
  SVE2IntegerAddSubNarrowHighPart size (bin "000") zd zn zm.
Definition addhnt (size : SubRegSize) (zd zn zm : ZRegister) : Emit unit :=
  SVE2IntegerAddSubNarrowHighPart size (bin "001") zd zn zm.
Definition raddhnb (size : SubRegSize) (zd zn zm : ZRegister) : Emit unit :=
  SVE2IntegerAddSubNarrowHighPart size (bin "010") zd zn zm.
Definition raddhnt (size : SubRegSize) (zd zn zm : ZRegister) : Emit unit :=
  SVE2IntegerAddSubNarrowHighPart size (bin "011") zd zn zm.
Definition subhnb (size : SubRegSize) (zd zn zm : ZRegister) : Emit unit :=
  SVE2IntegerAddSubNarrowHighPart size (bin "100") zd zn zm.
Definition subhnt (size : SubRegSize) (zd zn zm : ZRegister) : Emit unit :=
  SVE2IntegerAddSubNarrowHighPart size (bin "101") zd zn zm.
Definition rsubhnb (size : SubRegSize) (zd zn zm : ZRegister) : Emit unit :=
  SVE2IntegerAddSubNarrowHighPart size (bin "110") zd zn zm.
Definition rsubhnt (size : SubRegSize) (zd zn zm : ZRegister) : Emit unit :=
  SVE2IntegerAddSubNarrowHighPart size (bin "111") zd zn zm.

Inductive ComplexAddMnemonic : Type := CADD | SQCADD.

Definition complex_add (m : ComplexAddMnemonic)
    : SubRegSize -> ZRegister -> ZRegister -> ZRegister -> Rotation -> Emit unit :=
  match m with
  | CADD => cadd | SQCADD => sqcadd
  end.

Definition complex_add_of_bits (b : Z) : option ComplexAddMnemonic :=
  nth_error [CADD; SQCADD] (Z.to_nat b).

(** The rotation bit of a complex add: 0 for 90 degrees, 1 for 270. *)
Definition rotation_of_bit (b : Z) : Rotation :=
  if b =? 0 then ROTATE_90 else ROTATE_270.

Inductive CarryLongMnemonic : Type := ADCLB | ADCLT | SBCLB | SBCLT.

Definition carry_long (m : CarryLongMnemonic)
    : SubRegSize -> ZRegister -> ZRegister -> ZRegister -> Emit unit :=
  match m with
  | ADCLB => adclb | ADCLT => adclt | SBCLB => sbclb | SBCLT => sbclt
  end.

(** Bit 23 and bit 10 of an add or subtract long with carry. *)
Definition carry_long_of_bits (sizep1 T : Z) : option CarryLongMnemonic :=
  nth_error [ADCLB; ADCLT; SBCLB; SBCLT] (Z.to_nat (2 * sizep1 + T)).

Inductive NarrowHighMnemonic : Type :=
| ADDHNB | ADDHNT | RADDHNB | RADDHNT | SUBHNB | SUBHNT | RSUBHNB | RSUBHNT.

Definition narrow_high (m : NarrowHighMnemonic)
    : SubRegSize -> ZRegister -> ZRegister -> ZRegister -> Emit unit :=
  match m with
  | ADDHNB => addhnb | ADDHNT => addhnt
  | RADDHNB => raddhnb | RADDHNT => raddhnt
  | SUBHNB => subhnb | SUBHNT => subhnt
  | RSUBHNB => rsubhnb | RSUBHNT => rsubhnt
  end.

Definition narrow_high_of_bits (b : Z) : option NarrowHighMnemonic :=
  nth_error [ADDHNB; ADDHNT; RADDHNB; RADDHNT; SUBHNB; SUBHNT; RSUBHNB; RSUBHNT]
    (Z.to_nat b).

(** ** Accepted operands and opcode templates *)

(** The operands dup_imm takes. *)
Definition dup_imm_accepts (size : SubRegSize) (Value : Z) (LSL8 : bool) : Prop :=
  size <> i128Bit /\ -128 <= Value <= 127 /\ (size = i8Bit -> LSL8 = false).

(** The operands the indexed fcmla takes. *)
Definition fcmla_indexed_accepts (size : SubRegSize) (index : Z) (zm : ZRegister)
    : Prop :=
  (size = i16Bit /\ index <= 3 /\ Idx zm <= 7)
  \/ (size = i32Bit /\ index <= 1 /\ Idx zm <= 15).

(** The opcode templates of the structured loads and stores, and of the
    contiguous loads and stores of one register in their two addressing
    forms. *)
Definition struct_template (st : bool) : Z :=
  if st then shl (bin "1110'0100'0001'0000'111") 13
  else shl (bin "1010'0100'0000'0000'111") 13.

Definition mem_imm_template (st : bool) : Z :=
  if st then shl (bin "1110'0100'0000'0000'111") 13
  else shl (bin "1010'0100'0000'0000'101") 13.

Definition mem_scalar_template (st : bool) : Z :=
  if st then shl (bin "1110'0100'0000'0000'010") 13
  else shl (bin "1010'0100'0000'0000'010") 13.

(** ** Destructive forms

    The mnemonics that take their destination a second time, as the operand
    the instruction overwrites, and assert that the two name one register. *)

(** Modelled from the spec: the SIMD&FP scalar register class, identified by
    its index like the other classes. *)
Record VRegister : Type := VReg { VIndex : Z }.
#[global] Instance VRegister_Idx : HasIdx VRegister := {| Idx := VIndex |}.

(** [ZRegister{rd.Idx()}]: a vector register made from the index of another
    register. *)
Definition ZRegister_of {R : Type} `{HasIdx R} (r : R) : ZRegister := ZReg (Idx r).

Definition p0 : PRegister := PReg 0.
Definition p8 : PRegister := PReg 8.

(** *** Further encoders *)

(* SVE2 floating-point pairwise operations *)
Definition SVEFloatPairwiseArithmetic (opc : Z) (size : SubRegSize)
    (pg : PRegister) (zd zn zm : ZRegister) : Emit unit :=
  LOGMAN_THROW_A_FMT (reg_eqb zd zn) "zd needs to equal zn" ;;
  LOGMAN_THROW_A_FMT
    (SubRegSize_eqb size i16Bit || SubRegSize_eqb size i32Bit || SubRegSize_eqb size i64Bit)
    "Invalid float size" ;;
  LOGMAN_THROW_A_FMT (reg_leb pg p7) "Can only use p0-p7 as a governing predicate" ;;
  let Instr := bin "0110'0100'0001'0000'1000'0000'0000'0000" in
  let Instr := Z.lor Instr (shl (ToUnderlying size) 22) in
  let Instr := Z.lor Instr (shl opc 16) in
  let Instr := Z.lor Instr (shl (Idx pg) 10) in
  let Instr := Z.lor Instr (shl (Idx zm) 5) in
  let Instr := Z.lor Instr (Idx zd) in
  dc32 Instr.

(* SVE bitwise logical operations (predicated) *)
Definition SVEBitwiseLogicalPredicated (Op opc : Z) (size : SubRegSize)
    (pg : PRegister) (zm zd : ZRegister) : Emit unit :=
  let Instr := Op in
  let Instr := Z.lor Instr (shl (ToUnderlying size) 22) in
  let Instr := Z.lor Instr (shl opc 16) in
  let Instr := Z.lor Instr (shl (Idx pg) 10) in
  let Instr := Z.lor Instr (shl (Idx zm) 5) in
  let Instr := Z.lor Instr (Idx zd) in
  dc32 Instr.

(* SVE2 integer halving add/subtract (predicated) *)
Definition SVE2IntegerHalvingPredicated (R S U : Z) (size : SubRegSize)
    (pg : PRegister) (zd zn zm : ZRegister) : Emit unit :=
  LOGMAN_THROW_AA_FMT (negb (SubRegSize_eqb size i128Bit)) "Can't use 128-bit size" ;;
  LOGMAN_THROW_A_FMT (reg_eqb zd zn) "zd needs to equal zn" ;;
  LOGMAN_THROW_A_FMT (reg_leb pg p7) "Can only use p0-p7 as a governing predicate" ;;
  let Instr := bin "0100'0100'0001'0000'1000'0000'0000'0000" in
  let Instr := Z.lor Instr (shl (ToUnderlying size) 22) in
  let Instr := Z.lor Instr (shl R 18) in
  let Instr := Z.lor Instr (shl S 17) in
  let Instr := Z.lor Instr (shl U 16) in
  let Instr := Z.lor Instr (shl (Idx pg) 10) in
  let Instr := Z.lor Instr (shl (Idx zm) 5) in
  let Instr := Z.lor Instr (Idx zd) in
  dc32 Instr.

(* SVE2 integer pairwise arithmetic *)
Definition SVEIntegerPairwiseArithmetic (opc U : Z) (size : SubRegSize)
    (pg : PRegister) (zd zn zm : ZRegister) : Emit unit :=
  LOGMAN_THROW_AA_FMT (negb (SubRegSize_eqb size i128Bit)) "Can't use 128-bit size" ;;
  LOGMAN_THROW_A_FMT (reg_eqb zd zn) "zd needs to equal zn" ;;
  LOGMAN_THROW_A_FMT (reg_leb pg p7) "Can only use p0-p7 as a governing predicate" ;;
  let Instr := bin "0100'0100'0001'0000'1010'0000'0000'0000" in
  let Instr := Z.lor Instr (shl (ToUnderlying size) 22) in
  let Instr := Z.lor Instr (shl opc 17) in
  let Instr := Z.lor Instr (shl U 16) in
  let Instr := Z.lor Instr (shl (Idx pg) 10) in
  let Instr := Z.lor Instr (shl (Idx zm) 5) in
  let Instr := Z.lor Instr (Idx zd) in
  dc32 Instr.

(* SVE floating-point arithmetic (predicated) *)
Definition SVEFloatArithmeticPredicated (opc : Z) (size : SubRegSize)
    (pg : PRegister) (zd zn zm : ZRegister) : Emit unit :=
  LOGMAN_THROW_A_FMT (reg_eqb zd zn) "zn needs to equal zd" ;;
  LOGMAN_THROW_A_FMT
    (SubRegSize_eqb size i16Bit || SubRegSize_eqb size i32Bit || SubRegSize_eqb size i64Bit)
    "Invalid float size" ;;
  LOGMAN_THROW_A_FMT (reg_leb pg p7) "Can only use p0-p7 as a governing predicate" ;;
  let Instr := bin "0110'0101'0000'0000'1000'0000'0000'0000" in
  let Instr := Z.lor Instr (shl (ToUnderlying size) 22) in
  let Instr := Z.lor Instr (shl opc 16) in
  let Instr := Z.lor Instr (shl (Idx pg) 10) in
  let Instr := Z.lor Instr (shl (Idx zm) 5) in
  let Instr := Z.lor Instr (Idx zd) in
  dc32 Instr.

Definition SVEAddSubVectorsPredicated (op opc : Z) (size : SubRegSize)
    (zd : ZRegister) (pg : PRegisterMerge) (zn zm : ZRegister) : Emit unit :=
  LOGMAN_THROW_A_FMT (reg_eqb zd zn) "zd and zn must be the same register" ;;
  LOGMAN_THROW_A_FMT (reg_leb pg (Merging p7))
    "Add/Sub operation can only use p0-p7 as a governing predicate" ;;
  let Instr := op in
  let Instr := Z.lor Instr (shl (ToUnderlying size) 22) in
  let Instr := Z.lor Instr (shl opc 16) in
  let Instr := Z.lor Instr (shl (Idx pg) 10) in
  let Instr := Z.lor Instr (shl (Idx zm) 5) in
  let Instr := Z.lor Instr (Idx zd) in
  dc32 Instr.

Definition SVEIntegerMulDivVectorsPredicated (op opc : Z) (size : SubRegSize)
    (zd : ZRegister) (pg : PRegisterMerge) (zn zm : ZRegister) : Emit unit :=
  LOGMAN_THROW_A_FMT (reg_eqb zd zn) "zd and zn must be the same register" ;;
  LOGMAN_THROW_A_FMT (reg_leb pg (Merging p7))
    "Mul/Div operation can only use p0-p7 as a governing predicate" ;;
  let Instr := op in
  let Instr := Z.lor Instr (shl (ToUnderlying size) 22) in
  let Instr := Z.lor Instr (shl opc 16) in
  let Instr := Z.lor Instr (shl (Idx pg) 10) in
  let Instr := Z.lor Instr (shl (Idx zm) 5) in
  let Instr := Z.lor Instr (Idx zd) in
  dc32 Instr.

Definition SVE2IntegerSaturatingAddSub (size : SubRegSize) (opc : Z)
    (zd : ZRegister) (pg : PRegisterMerge) (zn zm : ZRegister) : Emit unit :=
  LOGMAN_THROW_A_FMT (negb (SubRegSize_eqb size i128Bit)) "Can't use 128-bit element size" ;;
  LOGMAN_THROW_A_FMT (reg_eqb zd zn) "zd and zn must be the same register" ;;
  LOGMAN_THROW_A_FMT (reg_leb pg (Merging p7))
    "Saturing add/subtract can only use p0-p7 as a governing predicate" ;;
  let Instr := bin "0100'0100'0001'1000'1000'0000'0000'0000" in
  let Instr := Z.lor Instr (shl (ToUnderlying size) 22) in
  let Instr := Z.lor Instr (shl opc 16) in
  let Instr := Z.lor Instr (shl (Idx pg) 10) in
  let Instr := Z.lor Instr (shl (Idx zm) 5) in
  let Instr := Z.lor Instr (Idx zd) in
  dc32 Instr.

Definition SVEBitwiseShiftByWideElementPredicated (size : SubRegSize) (opc : Z)
    (zd : ZRegister) (pg : PRegisterMerge) (zn zm : ZRegister) : Emit unit :=
  LOGMAN_THROW_A_FMT
    (negb (SubRegSize_eqb size i64Bit) && negb (SubRegSize_eqb size i128Bit))
    "Can't use 64-bit or 128-bit element size" ;;
  LOGMAN_THROW_A_FMT (reg_eqb zd zn) "zd and zn must be the same register" ;;
  LOGMAN_THROW_A_FMT (reg_leb pg (Merging p7))
    "Wide shift can only use p0-p7 as a governing predicate" ;;
  let Instr := bin "0000'0100'0001'1000'1000'0000'0000'0000" in
  let Instr := Z.lor Instr (shl (ToUnderlying size) 22) in
  let Instr := Z.lor Instr (shl opc 16) in
  let Instr := Z.lor Instr (shl (Idx pg) 10) in
  let Instr := Z.lor Instr (shl (Idx zm) 5) in
  let Instr := Z.lor Instr (Idx zd) in
  dc32 Instr.

Definition SVEIntegerMinMaxDifferencePredicated (opc U : Z) (size : SubRegSize)
    (pg : PRegister) (zm zd : ZRegister) : Emit unit :=
  let Op := shl (bin "0000'0100'0000'1000'000") 13 in
  let Instr := Op in
  let Instr := Z.lor Instr (shl (ToUnderlying size) 22) in
  let Instr := Z.lor Instr (shl opc 17) in
  let Instr := Z.lor Instr (shl U 16) in
  let Instr := Z.lor Instr (shl (Idx pg) 10) in
  let Instr := Z.lor Instr (shl (Idx zm) 5) in
  let Instr := Z.lor Instr (Idx zd) in
  dc32 Instr.

Definition SVE2BitwiseTernary (opc o2 : Z) (zm zk zdn : ZRegister) : Emit unit :=
  let Op := shl (bin "0000'0100'0010'0000'0011'1") 11 in
  let Instr := Op in
  let Instr := Z.lor Instr (shl opc 22) in
  let Instr := Z.lor Instr (shl (Idx zm) 16) in
  let Instr := Z.lor Instr (shl o2 10) in
  let Instr := Z.lor Instr (shl (Idx zk) 5) in
  let Instr := Z.lor Instr (Idx zdn) in
  dc32 Instr.

Definition SVEPermuteVectorPredicated (opc1 opc2 : Z) (size : SubRegSize)
    (zd : ZRegister) (pg : PRegister) (zn : ZRegister) : Emit unit :=
  LOGMAN_THROW_A_FMT (negb (SubRegSize_eqb size i128Bit)) "Can't use 128-bit size" ;;
  LOGMAN_THROW_A_FMT (reg_leb pg p7) "Can only use p0-p7 as a governing predicate" ;;
  let Instr := bin "0000'0101'0010'0000'1000'0000'0000'0000" in
  let Instr := Z.lor Instr (shl (ToUnderlying size) 22) in
  let Instr := Z.lor Instr (shl opc1 16) in
  let Instr := Z.lor Instr (shl opc2 13) in
  let Instr := Z.lor Instr (shl (Idx pg) 10) in
  let Instr := Z.lor Instr (shl (Idx zn) 5) in
  let Instr := Z.lor Instr (Idx zd) in
  dc32 Instr.

Definition SVEPropagateBreak (opc op2 op3 : Z) (pd pg pn pm : PRegister)
    : Emit unit :=
  let Instr := bin "0010'0101'0000'0000'0000'0000'0000'0000" in
  let Instr := Z.lor Instr (shl opc 20) in
  let Instr := Z.lor Instr (shl op2 14) in
  let Instr := Z.lor Instr (shl op3 4) in
  let Instr := Z.lor Instr (shl (Idx pm) 16) in
  let Instr := Z.lor Instr (shl (Idx pg) 10) in
  let Instr := Z.lor Instr (shl (Idx pn) 5) in
  let Instr := Z.lor Instr (Idx pd) in
  dc32 Instr.

Definition SVEPredicateMisc (op0 op2 op3 : Z) (size : SubRegSize) (pd : PRegister)
    : Emit unit :=
  (* Note: op2 combines op1 like [op1:op2], since they're adjacent. *)
  LOGMAN_THROW_A_FMT (negb (SubRegSize_eqb size i128Bit)) "Can't use 128-bit size" ;;
  let Instr := bin "0010'0101'0001'0000'1100'0000'0000'0000" in
  let Instr := Z.lor Instr (shl (ToUnderlying size) 22) in
  let Instr := Z.lor Instr (shl op0 16) in
  let Instr := Z.lor Instr (shl op2 9) in
  let Instr := Z.lor Instr (shl op3 5) in
  let Instr := Z.lor Instr (Idx pd) in
  dc32 Instr.

Definition SVEFPSerialReductionPredicated (opc : Z) (size : SubRegSize)
    (vd : VRegister) (pg : PRegister) (vn : VRegister) (zm : ZRegister) : Emit unit :=
  LOGMAN_THROW_AA_FMT
    (SubRegSize_eqb size i16Bit || SubRegSize_eqb size i32Bit || SubRegSize_eqb size i64Bit)
    "SubRegSize must be 16-bit, 32-bit, or 64-bit" ;;
  LOGMAN_THROW_A_FMT (reg_leb pg p7) "Can only use p0-p7 as a governing predicate" ;;
  LOGMAN_THROW_A_FMT (reg_eqb vd vn) "vn must be the same as vd" ;;
  let Instr := bin "0110'0101'0001'1000'0010'0000'0000'0000" in
  let Instr := Z.lor Instr (shl (ToUnderlying size) 22) in
  let Instr := Z.lor Instr (shl opc 16) in
  let Instr := Z.lor Instr (shl (Idx pg) 10) in
  let Instr := Z.lor Instr (shl (Idx zm) 5) in
  let Instr := Z.lor Instr (Idx vd) in
  dc32 Instr.

(** *** The mnemonics *)

(* SVE integer add/subtract vectors (predicated) *)
Module AddSubPredicated.
Definition add (size : SubRegSize) (zd : ZRegister)
    (pg : PRegisterMerge) (zn zm : ZRegister) : Emit unit :=
  let Op := bin "0000'0100'0000'0000'0000'0000'0000'0000" in
  SVEAddSubVectorsPredicated Op (bin "000") size zd pg zn zm.
Definition sub (size : SubRegSize) (zd : ZRegister)
    (pg : PRegisterMerge) (zn zm : ZRegister) : Emit unit :=
  let Op := bin "0000'0100'0000'0000'0000'0000'0000'0000" in
  SVEAddSubVectorsPredicated Op (bin "001") size zd pg zn zm.
Definition subr (size : SubRegSize) (zd : ZRegister)
    (pg : PRegisterMerge) (zn zm : ZRegister) : Emit unit :=
  let Op := bin "0000'0100'0000'0000'0000'0000'0000'0000" in
  SVEAddSubVectorsPredicated Op (bin "011") size zd pg zn zm.

Inductive Mnemonic : Type := ADD | SUB | SUBR.

Definition run (m : Mnemonic)
    : SubRegSize -> ZRegister -> PRegisterMerge -> ZRegister -> ZRegister -> Emit unit :=
  match m with
  | ADD => add
  | SUB => sub
  | SUBR => subr
  end.
End AddSubPredicated.

(* SVE integer min/max/difference (predicated) *)
Module MinMaxDifferencePredicated.
Definition smax (size : SubRegSize) (zd : ZRegister)
    (pg : PRegisterMerge) (zdn zm : ZRegister) : Emit unit :=
  LOGMAN_THROW_AA_FMT (negb (SubRegSize_eqb size i128Bit)) "Can't use 128-bit size" ;;
  LOGMAN_THROW_A_FMT (reg_eqb zd zdn) "Dest needs to equal zdn" ;;
  SVEIntegerMinMaxDifferencePredicated (bin "00") 0 size pg zm zd.
Definition umax (size : SubRegSize) (zd : ZRegister)
    (pg : PRegisterMerge) (zdn zm : ZRegister) : Emit unit :=
  LOGMAN_THROW_AA_FMT (negb (SubRegSize_eqb size i128Bit)) "Can't use 128-bit size" ;;
  LOGMAN_THROW_A_FMT (reg_eqb zd zdn) "Dest needs to equal zdn" ;;
  SVEIntegerMinMaxDifferencePredicated (bin "00") 1 size pg zm zd.
Definition smin (size : SubRegSize) (zd : ZRegister)
    (pg : PRegisterMerge) (zdn zm : ZRegister) : Emit unit :=
  LOGMAN_THROW_AA_FMT (negb (SubRegSize_eqb size i128Bit)) "Can't use 128-bit size" ;;
  LOGMAN_THROW_A_FMT (reg_eqb zd zdn) "Dest needs to equal zdn" ;;
  SVEIntegerMinMaxDifferencePredicated (bin "01") 0 size pg zm zd.
Definition umin (size : SubRegSize) (zd : ZRegister)
    (pg : PRegisterMerge) (zdn zm : ZRegister) : Emit unit :=
  LOGMAN_THROW_AA_FMT (negb (SubRegSize_eqb size i128Bit)) "Can't use 128-bit size" ;;
  LOGMAN_THROW_A_FMT (reg_eqb zd zdn) "Dest needs to equal zdn" ;;
  SVEIntegerMinMaxDifferencePredicated (bin "01") 1 size pg zm zd.
Definition sabd (size : SubRegSize) (zd : ZRegister)
    (pg : PRegisterMerge) (zdn zm : ZRegister) : Emit unit :=
  LOGMAN_THROW_AA_FMT (negb (SubRegSize_eqb size i128Bit)) "Can't use 128-bit size" ;;
  LOGMAN_THROW_A_FMT (reg_eqb zd zdn) "Dest needs to equal zdn" ;;
  SVEIntegerMinMaxDifferencePredicated (bin "10") 0 size pg zm zd.
Definition uabd (size : SubRegSize) (zd : ZRegister)
    (pg : PRegisterMerge) (zdn zm : ZRegister) : Emit unit :=
  LOGMAN_THROW_AA_FMT (negb (SubRegSize_eqb size i128Bit)) "Can't use 128-bit size" ;;
  LOGMAN_THROW_A_FMT (reg_eqb zd zdn) "Dest needs to equal zdn" ;;
  SVEIntegerMinMaxDifferencePredicated (bin "10") 1 size pg zm zd.

Inductive Mnemonic : Type := SMAX | UMAX | SMIN | UMIN | SABD | UABD.

Definition run (m : Mnemonic)
    : SubRegSize -> ZRegister -> PRegisterMerge -> ZRegister -> ZRegister -> Emit unit :=
  match m with
  | SMAX => smax
  | UMAX => umax
  | SMIN => smin
  | UMIN => umin
  | SABD => sabd
  | UABD => uabd
  end.
End MinMaxDifferencePredicated.

(* SVE integer multiply vectors (predicated), SVE integer divide vectors (predicated) *)
Module MulDivPredicated.
Definition mul (size : SubRegSize) (zd : ZRegister)
    (pg : PRegisterMerge) (zn zm : ZRegister) : Emit unit :=
  let Op := bin "0000'0100'0001'0000'0000'0000'0000'0000" in
  SVEIntegerMulDivVectorsPredicated Op (bin "00") size zd pg zn zm.
Definition smulh (size : SubRegSize) (zd : ZRegister)
    (pg : PRegisterMerge) (zn zm : ZRegister) : Emit unit :=
  let Op := bin "0000'0100'0001'0000'0000'0000'0000'0000" in
  SVEIntegerMulDivVectorsPredicated Op (bin "10") size zd pg zn zm.
Definition umulh (size : SubRegSize) (zd : ZRegister)
    (pg : PRegisterMerge) (zn zm : ZRegister) : Emit unit :=
  let Op := bin "0000'0100'0001'0000'0000'0000'0000'0000" in
  SVEIntegerMulDivVectorsPredicated Op (bin "11") size zd pg zn zm.
Definition sdiv (size : SubRegSize) (zd : ZRegister)
    (pg : PRegisterMerge) (zn zm : ZRegister) : Emit unit :=
  LOGMAN_THROW_AA_FMT (SubRegSize_eqb size i32Bit || SubRegSize_eqb size i64Bit)
    "Predicated divide only handles 32-bit or 64-bit elements" ;;
  let Op := bin "0000'0100'0001'0100'0000'0000'0000'0000" in
  SVEIntegerMulDivVectorsPredicated Op (bin "00") size zd pg zn zm.
Definition udiv (size : SubRegSize) (zd : ZRegister)
    (pg : PRegisterMerge) (zn zm : ZRegister) : Emit unit :=
  LOGMAN_THROW_AA_FMT (SubRegSize_eqb size i32Bit || SubRegSize_eqb size i64Bit)
    "Predicated divide only handles 32-bit or 64-bit elements" ;;
  let Op := bin "0000'0100'0001'0100'0000'0000'0000'0000" in
  SVEIntegerMulDivVectorsPredicated Op (bin "01") size zd pg zn zm.
Definition sdivr (size : SubRegSize) (zd : ZRegister)
    (pg : PRegisterMerge) (zn zm : ZRegister) : Emit unit :=
  LOGMAN_THROW_AA_FMT (SubRegSize_eqb size i32Bit || SubRegSize_eqb size i64Bit)
    "Predicated divide only handles 32-bit or 64-bit elements" ;;
  let Op := bin "0000'0100'0001'0100'0000'0000'0000'0000" in
  SVEIntegerMulDivVectorsPredicated Op (bin "10") size zd pg zn zm.
Definition udivr (size : SubRegSize) (zd : ZRegister)
    (pg : PRegisterMerge) (zn zm : ZRegister) : Emit unit :=
  LOGMAN_THROW_AA_FMT (SubRegSize_eqb size i32Bit || SubRegSize_eqb size i64Bit)
    "Predicated divide only handles 32-bit or 64-bit elements" ;;
  let Op := bin "0000'0100'0001'0100'0000'0000'0000'0000" in
  SVEIntegerMulDivVectorsPredicated Op (bin "11") size zd pg zn zm.

Inductive Mnemonic : Type :=
| MUL | SMULH | UMULH | SDIV | UDIV | SDIVR | UDIVR.

Definition run (m : Mnemonic)
    : SubRegSize -> ZRegister -> PRegisterMerge -> ZRegister -> ZRegister -> Emit unit :=
  match m with
  | MUL => mul
  | SMULH => smulh
  | UMULH => umulh
  | SDIV => sdiv
  | UDIV => udiv
  | SDIVR => sdivr
  | UDIVR => udivr
  end.
End MulDivPredicated.

(* SVE bitwise logical operations (predicated) *)
Module LogicalPredicated.
Definition orr (size : SubRegSize) (zd : ZRegister)
    (pg : PRegisterMerge) (zdn zm : ZRegister) : Emit unit :=
  LOGMAN_THROW_AA_FMT (negb (SubRegSize_eqb size i128Bit)) "Can't use 128-bit size" ;;
  LOGMAN_THROW_A_FMT (reg_eqb zd zdn) "Dest needs to equal zdn" ;;
  let Op := shl (bin "0000'0100'0001'1000'000") 13 in
  SVEBitwiseLogicalPredicated Op (bin "000") size pg zm zd.
Definition eor (size : SubRegSize) (zd : ZRegister)
    (pg : PRegisterMerge) (zdn zm : ZRegister) : Emit unit :=
  LOGMAN_THROW_AA_FMT (negb (SubRegSize_eqb size i128Bit)) "Can't use 128-bit size" ;;
  LOGMAN_THROW_A_FMT (reg_eqb zd zdn) "Dest needs to equal zdn" ;;
  let Op := shl (bin "0000'0100'0001'1000'000") 13 in
  SVEBitwiseLogicalPredicated Op (bin "001") size pg zm zd.
Definition and_ (size : SubRegSize) (zd : ZRegister)
    (pg : PRegisterMerge) (zdn zm : ZRegister) : Emit unit :=
  LOGMAN_THROW_AA_FMT (negb (SubRegSize_eqb size i128Bit)) "Can't use 128-bit size" ;;
  LOGMAN_THROW_A_FMT (reg_eqb zd zdn) "Dest needs to equal zdn" ;;
  let Op := shl (bin "0000'0100'0001'1000'000") 13 in
  SVEBitwiseLogicalPredicated Op (bin "010") size pg zm zd.
Definition bic (size : SubRegSize) (zd : ZRegister)
    (pg : PRegisterMerge) (zdn zm : ZRegister) : Emit unit :=
  LOGMAN_THROW_AA_FMT (negb (SubRegSize_eqb size i128Bit)) "Can't use 128-bit size" ;;
  LOGMAN_THROW_A_FMT (reg_eqb zd zdn) "Dest needs to equal zdn" ;;
  let Op := shl (bin "0000'0100'0001'1000'000") 13 in
  SVEBitwiseLogicalPredicated Op (bin "011") size pg zm zd.

Inductive Mnemonic : Type := ORR | EOR | AND | BIC.

Definition run (m : Mnemonic)
    : SubRegSize -> ZRegister -> PRegisterMerge -> ZRegister -> ZRegister -> Emit unit :=
  match m with
  | ORR => orr
  | EOR => eor
  | AND => and_
  | BIC => bic
  end.
End LogicalPredicated.

(* SVE bitwise shift by wide elements (predicated) *)
Module ShiftByWidePredicated.
Definition asr_wide (size : SubRegSize) (zd : ZRegister)
    (pg : PRegisterMerge) (zn zm : ZRegister) : Emit unit :=
  SVEBitwiseShiftByWideElementPredicated size (bin "000") zd pg zn zm.
Definition lsr_wide (size : SubRegSize) (zd : ZRegister)
    (pg : PRegisterMerge) (zn zm : ZRegister) : Emit unit :=
  SVEBitwiseShiftByWideElementPredicated size (bin "001") zd pg zn zm.
Definition lsl_wide (size : SubRegSize) (zd : ZRegister)
    (pg : PRegisterMerge) (zn zm : ZRegister) : Emit unit :=
  SVEBitwiseShiftByWideElementPredicated size (bin "011") zd pg zn zm.

Inductive Mnemonic : Type := ASR_WIDE | LSR_WIDE | LSL_WIDE.

Definition run (m : Mnemonic)
    : SubRegSize -> ZRegister -> PRegisterMerge -> ZRegister -> ZRegister -> Emit unit :=
  match m with
  | ASR_WIDE => asr_wide
  | LSR_WIDE => lsr_wide
  | LSL_WIDE => lsl_wide
  end.
End ShiftByWidePredicated.

(* SVE2 bitwise ternary operations *)
Module BitwiseTernary.
Definition eor3 (zd zdn zm zk : ZRegister) : Emit unit :=
  LOGMAN_THROW_A_FMT (reg_eqb zd zdn) "Dest needs to equal zdn" ;;
  SVE2BitwiseTernary (bin "00") 0 zm zk zd.
Definition bsl (zd zdn zm zk : ZRegister) : Emit unit :=
  LOGMAN_THROW_A_FMT (reg_eqb zd zdn) "Dest needs to equal zdn" ;;
  SVE2BitwiseTernary (bin "00") 1 zm zk zd.
Definition bcax (zd zdn zm zk : ZRegister) : Emit unit :=
  LOGMAN_THROW_A_FMT (reg_eqb zd zdn) "Dest needs to equal zdn" ;;
  SVE2BitwiseTernary (bin "01") 0 zm zk zd.
Definition bsl1n (zd zdn zm zk : ZRegister) : Emit unit :=
  LOGMAN_THROW_A_FMT (reg_eqb zd zdn) "Dest needs to equal zdn" ;;
  SVE2BitwiseTernary (bin "01") 1 zm zk zd.
Definition bsl2n (zd zdn zm zk : ZRegister) : Emit unit :=
  LOGMAN_THROW_A_FMT (reg_eqb zd zdn) "Dest needs to equal zdn" ;;
  SVE2BitwiseTernary (bin "10") 1 zm zk zd.
Definition nbsl (zd zdn zm zk : ZRegister) : Emit unit :=
  LOGMAN_THROW_A_FMT (reg_eqb zd zdn) "Dest needs to equal zdn" ;;
  SVE2BitwiseTernary (bin "11") 1 zm zk zd.

Inductive Mnemonic : Type := EOR3 | BSL | BCAX | BSL1N | BSL2N | NBSL.

Definition run (m : Mnemonic)
    : ZRegister -> ZRegister -> ZRegister -> ZRegister -> Emit unit :=
  match m with
  | EOR3 => eor3
  | BSL => bsl
  | BCAX => bcax
  | BSL1N => bsl1n
  | BSL2N => bsl2n
  | NBSL => nbsl
  end.
End BitwiseTernary.

(* SVE2 floating-point pairwise operations *)
Module FloatPairwise.
Definition faddp (size : SubRegSize) (zd : ZRegister)
    (pg : PRegisterMerge) (zn zm : ZRegister) : Emit unit :=
  SVEFloatPairwiseArithmetic (bin "000") size pg zd zn zm.
Definition fmaxnmp (size : SubRegSize) (zd : ZRegister)
    (pg : PRegisterMerge) (zn zm : ZRegister) : Emit unit :=
  SVEFloatPairwiseArithmetic (bin "100") size pg zd zn zm.
Definition fminnmp (size : SubRegSize) (zd : ZRegister)
    (pg : PRegisterMerge) (zn zm : ZRegister) : Emit unit :=
  SVEFloatPairwiseArithmetic (bin "101") size pg zd zn zm.
Definition fmaxp (size : SubRegSize) (zd : ZRegister)
    (pg : PRegisterMerge) (zn zm : ZRegister) : Emit unit :=
  SVEFloatPairwiseArithmetic (bin "110") size pg zd zn zm.
Definition fminp (size : SubRegSize) (zd : ZRegister)
    (pg : PRegisterMerge) (zn zm : ZRegister) : Emit unit :=
  SVEFloatPairwiseArithmetic (bin "111") size pg zd zn zm.

Inductive Mnemonic : Type := FADDP | FMAXNMP | FMINNMP | FMAXP | FMINP.

Definition run (m : Mnemonic)
    : SubRegSize -> ZRegister -> PRegisterMerge -> ZRegister -> ZRegister -> Emit unit :=
  match m with
  | FADDP => faddp
  | FMAXNMP => fmaxnmp
  | FMINNMP => fminnmp
  | FMAXP => fmaxp
  | FMINP => fminp
  end.
End FloatPairwise.

(* SVE2 integer halving add/subtract (predicated) *)
Module HalvingPredicated.
Definition shadd (size : SubRegSize) (zd : ZRegister)
    (pg : PRegisterMerge) (zn zm : ZRegister) : Emit unit :=
  SVE2IntegerHalvingPredicated 0 0 0 size pg zd zn zm.
Definition uhadd (size : SubRegSize) (zd : ZRegister)
    (pg : PRegisterMerge) (zn zm : ZRegister) : Emit unit :=
  SVE2IntegerHalvingPredicated 0 0 1 size pg zd zn zm.
Definition shsub (size : SubRegSize) (zd : ZRegister)
    (pg : PRegisterMerge) (zn zm : ZRegister) : Emit unit :=
  SVE2IntegerHalvingPredicated 0 1 0 size pg zd zn zm.
Definition uhsub (size : SubRegSize) (zd : ZRegister)
    (pg : PRegisterMerge) (zn zm : ZRegister) : Emit unit :=
  SVE2IntegerHalvingPredicated 0 1 1 size pg zd zn zm.
Definition srhadd (size : SubRegSize) (zd : ZRegister)
    (pg : PRegisterMerge) (zn zm : ZRegister) : Emit unit :=
  SVE2IntegerHalvingPredicated 1 0 0 size pg zd zn zm.
Definition urhadd (size : SubRegSize) (zd : ZRegister)
    (pg : PRegisterMerge) (zn zm : ZRegister) : Emit unit :=
  SVE2IntegerHalvingPredicated 1 0 1 size pg zd zn zm.
Definition shsubr (size : SubRegSize) (zd : ZRegister)
    (pg : PRegisterMerge) (zn zm : ZRegister) : Emit unit :=
  SVE2IntegerHalvingPredicated 1 1 0 size pg zd zn zm.
Definition uhsubr (size : SubRegSize) (zd : ZRegister)
    (pg : PRegisterMerge) (zn zm : ZRegister) : Emit unit :=
  SVE2IntegerHalvingPredicated 1 1 1 size pg zd zn zm.

Inductive Mnemonic : Type :=
| SHADD | UHADD | SHSUB | UHSUB | SRHADD | URHADD | SHSUBR | UHSUBR.

Definition run (m : Mnemonic)
    : SubRegSize -> ZRegister -> PRegisterMerge -> ZRegister -> ZRegister -> Emit unit :=
  match m with
  | SHADD => shadd
  | UHADD => uhadd
  | SHSUB => shsub
  | UHSUB => uhsub
  | SRHADD => srhadd
  | URHADD => urhadd
  | SHSUBR => shsubr
  | UHSUBR => uhsubr
  end.
End HalvingPredicated.

(* SVE2 integer pairwise arithmetic *)
Module IntegerPairwise.
Definition addp (size : SubRegSize) (zd : ZRegister)
    (pg : PRegisterMerge) (zn zm : ZRegister) : Emit unit :=
  SVEIntegerPairwiseArithmetic (bin "00") 1 size pg zd zn zm.
Definition smaxp (size : SubRegSize) (zd : ZRegister)
    (pg : PRegisterMerge) (zn zm : ZRegister) : Emit unit :=
  SVEIntegerPairwiseArithmetic (bin "10") 0 size pg zd zn zm.
Definition umaxp (size : SubRegSize) (zd : ZRegister)
    (pg : PRegisterMerge) (zn zm : ZRegister) : Emit unit :=
  SVEIntegerPairwiseArithmetic (bin "10") 1 size pg zd zn zm.
Definition sminp (size : SubRegSize) (zd : ZRegister)
    (pg : PRegisterMerge) (zn zm : ZRegister) : Emit unit :=
  SVEIntegerPairwiseArithmetic (bin "11") 0 size pg zd zn zm.
Definition uminp (size : SubRegSize) (zd : ZRegister)
    (pg : PRegisterMerge) (zn zm : ZRegister) : Emit unit :=
  SVEIntegerPairwiseArithmetic (bin "11") 1 size pg zd zn zm.

Inductive Mnemonic : Type := ADDP | SMAXP | UMAXP | SMINP | UMINP.

Definition run (m : Mnemonic)
    : SubRegSize -> ZRegister -> PRegisterMerge -> ZRegister -> ZRegister -> Emit unit :=
  match m with
  | ADDP => addp
  | SMAXP => smaxp
  | UMAXP => umaxp
  | SMINP => sminp
  | UMINP => uminp
  end.
End IntegerPairwise.

(* SVE2 saturating add/subtract *)
Module SaturatingAddSubPredicated.
Definition sqadd (size : SubRegSize) (zd : ZRegister)
    (pg : PRegisterMerge) (zn zm : ZRegister) : Emit unit :=
  SVE2IntegerSaturatingAddSub size (bin "000") zd pg zn zm.
Definition uqadd (size : SubRegSize) (zd : ZRegister)
    (pg : PRegisterMerge) (zn zm : ZRegister) : Emit unit :=
  SVE2IntegerSaturatingAddSub size (bin "001") zd pg zn zm.
Definition sqsub (size : SubRegSize) (zd : ZRegister)
    (pg : PRegisterMerge) (zn zm : ZRegister) : Emit unit :=
  SVE2IntegerSaturatingAddSub size (bin "010") zd pg zn zm.
Definition uqsub (size : SubRegSize) (zd : ZRegister)
    (pg : PRegisterMerge) (zn zm : ZRegister) : Emit unit :=
  SVE2IntegerSaturatingAddSub size (bin "011") zd pg zn zm.
Definition suqadd (size : SubRegSize) (zd : ZRegister)
    (pg : PRegisterMerge) (zn zm : ZRegister) : Emit unit :=
  SVE2IntegerSaturatingAddSub size (bin "100") zd pg zn zm.
Definition usqadd (size : SubRegSize) (zd : ZRegister)
    (pg : PRegisterMerge) (zn zm : ZRegister) : Emit unit :=
  SVE2IntegerSaturatingAddSub size (bin "101") zd pg zn zm.
Definition sqsubr (size : SubRegSize) (zd : ZRegister)
    (pg : PRegisterMerge) (zn zm : ZRegister) : Emit unit :=
  SVE2IntegerSaturatingAddSub size (bin "110") zd pg zn zm.
Definition uqsubr (size : SubRegSize) (zd : ZRegister)
    (pg : PRegisterMerge) (zn zm : ZRegister) : Emit unit :=
  SVE2IntegerSaturatingAddSub size (bin "111") zd pg zn zm.

Inductive Mnemonic : Type :=
| SQADD | UQADD | SQSUB | UQSUB | SUQADD | USQADD | SQSUBR | UQSUBR.

Definition run (m : Mnemonic)
    : SubRegSize -> ZRegister -> PRegisterMerge -> ZRegister -> ZRegister -> Emit unit :=
  match m with
  | SQADD => sqadd
  | UQADD => uqadd
  | SQSUB => sqsub
  | UQSUB => uqsub
  | SUQADD => suqadd
  | USQADD => usqadd
  | SQSUBR => sqsubr
  | UQSUBR => uqsubr
  end.
End SaturatingAddSubPredicated.

(* SVE floating-point arithmetic (predicated) *)
Module FloatArithmeticPredicated.
Definition fadd (size : SubRegSize) (zd : ZRegister)
    (pg : PRegisterMerge) (zn zm : ZRegister) : Emit unit :=
  SVEFloatArithmeticPredicated (bin "0000") size pg zd zn zm.
Definition fsub (size : SubRegSize) (zd : ZRegister)
    (pg : PRegisterMerge) (zn zm : ZRegister) : Emit unit :=
  SVEFloatArithmeticPredicated (bin "0001") size pg zd zn zm.
Definition fmul (size : SubRegSize) (zd : ZRegister)
    (pg : PRegisterMerge) (zn zm : ZRegister) : Emit unit :=
  SVEFloatArithmeticPredicated (bin "0010") size pg zd zn zm.
Definition fsubr (size : SubRegSize) (zd : ZRegister)
    (pg : PRegisterMerge) (zn zm : ZRegister) : Emit unit :=
  SVEFloatArithmeticPredicated (bin "0011") size pg zd zn zm.
Definition fmaxnm (size : SubRegSize) (zd : ZRegister)
    (pg : PRegisterMerge) (zn zm : ZRegister) : Emit unit :=
  SVEFloatArithmeticPredicated (bin "0100") size pg zd zn zm.
Definition fminnm (size : SubRegSize) (zd : ZRegister)
    (pg : PRegisterMerge) (zn zm : ZRegister) : Emit unit :=
  SVEFloatArithmeticPredicated (bin "0101") size pg zd zn zm.
Definition fmax (size : SubRegSize) (zd : ZRegister)
    (pg : PRegisterMerge) (zn zm : ZRegister) : Emit unit :=
  SVEFloatArithmeticPredicated (bin "0110") size pg zd zn zm.
Definition fmin (size : SubRegSize) (zd : ZRegister)
    (pg : PRegisterMerge) (zn zm : ZRegister) : Emit unit :=
  SVEFloatArithmeticPredicated (bin "0111") size pg zd zn zm.
Definition fabd (size : SubRegSize) (zd : ZRegister)
    (pg : PRegisterMerge) (zn zm : ZRegister) : Emit unit :=
  SVEFloatArithmeticPredicated (bin "1000") size pg zd zn zm.
Definition fscale (size : SubRegSize) (zd : ZRegister)
    (pg : PRegisterMerge) (zn zm : ZRegister) : Emit unit :=
  SVEFloatArithmeticPredicated (bin "1001") size pg zd zn zm.
Definition fmulx (size : SubRegSize) (zd : ZRegister)
    (pg : PRegisterMerge) (zn zm : ZRegister) : Emit unit :=
  SVEFloatArithmeticPredicated (bin "1010") size pg zd zn zm.
Definition fdivr (size : SubRegSize) (zd : ZRegister)
    (pg : PRegisterMerge) (zn zm : ZRegister) : Emit unit :=
  SVEFloatArithmeticPredicated (bin "1100") size pg zd zn zm.
Definition fdiv (size : SubRegSize) (zd : ZRegister)
    (pg : PRegisterMerge) (zn zm : ZRegister) : Emit unit :=
  SVEFloatArithmeticPredicated (bin "1101") size pg zd zn zm.

Inductive Mnemonic : Type :=
| FADD | FSUB | FMUL | FSUBR | FMAXNM | FMINNM | FMAX | FMIN | FABD | FSCALE
| FMULX | FDIVR | FDIV.

Definition run (m : Mnemonic)
    : SubRegSize -> ZRegister -> PRegisterMerge -> ZRegister -> ZRegister -> Emit unit :=
  match m with
  | FADD => fadd
  | FSUB => fsub
  | FMUL => fmul
  | FSUBR => fsubr
  | FMAXNM => fmaxnm
  | FMINNM => fminnm
  | FMAX => fmax
  | FMIN => fmin
  | FABD => fabd
  | FSCALE => fscale
  | FMULX => fmulx
  | FDIVR => fdivr
  | FDIV => fdiv
  end.
End FloatArithmeticPredicated.

(* SVE Floating Point Arithmetic - Predicated *)
Definition ftmad (size : SubRegSize) (zd zn zm : ZRegister) (imm : Z) : Emit unit :=
  LOGMAN_THROW_AA_FMT (imm <=? 7) "ftmad immediate must be within 0-7" ;;
  SVEFloatArithmeticPredicated (Z.lor (bin "10000") imm) size p0 zd zn zm.

(* SVE floating-point serial reduction (predicated) *)
Definition fadda (size : SubRegSize) (vd : VRegister) (pg : PRegister)
    (vn : VRegister) (zm : ZRegister) : Emit unit :=
  SVEFPSerialReductionPredicated (bin "00") size vd pg vn zm.

(* SVE Permute Vector - Predicated *)
Module SpliceDestructive.
Definition splice (size : SubRegSize) (zd : ZRegister) (pv : PRegister)
    (zn zm : ZRegister) : Emit unit :=
  LOGMAN_THROW_A_FMT (reg_eqb zd zn) "zd needs to equal zn" ;;
  SVEPermuteVectorPredicated (bin "01100") (bin "0") size zd pv zm.
End SpliceDestructive.

(* SVE conditionally broadcast element to vector *)
Module ConditionalBroadcast.
Definition clasta (size : SubRegSize) (zd : ZRegister) (pg : PRegister)
    (zn zm : ZRegister) : Emit unit :=
  LOGMAN_THROW_A_FMT (reg_eqb zd zn) "zd must be the same as zn" ;;
  SVEPermuteVectorPredicated (bin "01000") (bin "0") size zd pg zm.
Definition clastb (size : SubRegSize) (zd : ZRegister) (pg : PRegister)
    (zn zm : ZRegister) : Emit unit :=
  LOGMAN_THROW_A_FMT (reg_eqb zd zn) "zd must be the same as zn" ;;
  SVEPermuteVectorPredicated (bin "01001") (bin "0") size zd pg zm.
End ConditionalBroadcast.

(* SVE conditionally extract element to SIMD&FP scalar *)
Module ConditionalExtractSimd.
Definition clasta (size : SubRegSize) (vd : VRegister) (pg : PRegister)
    (vn : VRegister) (zm : ZRegister) : Emit unit :=
  LOGMAN_THROW_A_FMT (reg_eqb vd vn) "vd must be the same as vn" ;;
  SVEPermuteVectorPredicated (bin "01010") (bin "0") size (ZRegister_of vd) pg zm.
Definition clastb (size : SubRegSize) (vd : VRegister) (pg : PRegister)
    (vn : VRegister) (zm : ZRegister) : Emit unit :=
  LOGMAN_THROW_A_FMT (reg_eqb vd vn) "vd must be the same as vn" ;;
  SVEPermuteVectorPredicated (bin "01011") (bin "0") size (ZRegister_of vd) pg zm.
End ConditionalExtractSimd.

(* SVE conditionally extract element to general register *)
Module ConditionalExtractGeneral.
Definition clasta (size : SubRegSize) (rd : Register) (pg : PRegister)
    (rn : Register) (zm : ZRegister) : Emit unit :=
  LOGMAN_THROW_A_FMT (reg_eqb rd rn) "rd must be the same as rn" ;;
  SVEPermuteVectorPredicated (bin "10000") (bin "1") size (ZRegister_of rd) pg zm.
Definition clastb (size : SubRegSize) (rd : Register) (pg : PRegister)
    (rn : Register) (zm : ZRegister) : Emit unit :=
  LOGMAN_THROW_A_FMT (reg_eqb rd rn) "rd must be the same as rn" ;;
  SVEPermuteVectorPredicated (bin "10001") (bin "1") size (ZRegister_of rd) pg zm.
End ConditionalExtractGeneral.

(* SVE propagate break to next partition *)
Definition brkn (pd : PRegister) (pg : PRegisterZero) (pn pm : PRegister)
    : Emit unit :=
  LOGMAN_THROW_A_FMT (reg_eqb pd pm) "pd and pm need to be the same" ;;
  SVEPropagateBreak (bin "0001") (bin "01") 0 pd pg pn p8.
Definition brkns (pd : PRegister) (pg : PRegisterZero) (pn pm : PRegister)
    : Emit unit :=
  LOGMAN_THROW_A_FMT (reg_eqb pd pm) "pd and pm need to be the same" ;;
  SVEPropagateBreak (bin "0101") (bin "01") 0 pd pg pn p8.

(* SVE Predicate Misc *)
Definition pnext (size : SubRegSize) (pd pv pn : PRegister) : Emit unit :=
  LOGMAN_THROW_A_FMT (reg_eqb pd pn) "pd and pn need to be the same" ;;
  SVEPredicateMisc (bin "1001") (bin "00010") (Idx pv) size pd.

(* SVE predicate first active *)
Definition pfirst (pd pg pn : PRegister) : Emit unit :=
  LOGMAN_THROW_A_FMT (reg_eqb pd pn) "pd and pn need to be the same" ;;
  SVEPredicateMisc (bin "1000") (bin "00000") (Idx pg) i16Bit pd.

(** *** The family of destructive forms *)

(** The mnemonics with the operands [size, zd, pg/m, zn, zm] whose [zd] and
    [zn] (or [zdn]) have to name one register. *)
Inductive MergingMnemonic : Type :=
| AddSub (m : AddSubPredicated.Mnemonic)
| MinMaxDifference (m : MinMaxDifferencePredicated.Mnemonic)
| MulDiv (m : MulDivPredicated.Mnemonic)
| Logical (m : LogicalPredicated.Mnemonic)
| ShiftByVector (m : ShiftVecPredMnemonic)
| ShiftByWide (m : ShiftByWidePredicated.Mnemonic)
| FloatPairwiseOp (m : FloatPairwise.Mnemonic)
| Halving (m : HalvingPredicated.Mnemonic)
| IntegerPairwiseOp (m : IntegerPairwise.Mnemonic)
| SaturatingAddSub (m : SaturatingAddSubPredicated.Mnemonic)
| FloatArithmetic (m : FloatArithmeticPredicated.Mnemonic).

Definition merging (m : MergingMnemonic)
    : SubRegSize -> ZRegister -> PRegisterMerge -> ZRegister -> ZRegister -> Emit unit :=
  match m with
  | AddSub m => AddSubPredicated.run m
  | MinMaxDifference m => MinMaxDifferencePredicated.run m
  | MulDiv m => MulDivPredicated.run m
  | Logical m => LogicalPredicated.run m
  | ShiftByVector m => shift_vec_pred m
  | ShiftByWide m => ShiftByWidePredicated.run m
  | FloatPairwiseOp m => FloatPairwise.run m
  | Halving m => HalvingPredicated.run m
  | IntegerPairwiseOp m => IntegerPairwise.run m
  | SaturatingAddSub m => SaturatingAddSubPredicated.run m
  | FloatArithmetic m => FloatArithmeticPredicated.run m
  end.

Inductive ClastMnemonic : Type := CLASTA | CLASTB.

Definition clast_vector (m : ClastMnemonic)
    : SubRegSize -> ZRegister -> PRegister -> ZRegister -> ZRegister -> Emit unit :=
  match m with
  | CLASTA => ConditionalBroadcast.clasta
  | CLASTB => ConditionalBroadcast.clastb
  end.

Definition clast_simd (m : ClastMnemonic)
    : SubRegSize -> VRegister -> PRegister -> VRegister -> ZRegister -> Emit unit :=
  match m with
  | CLASTA => ConditionalExtractSimd.clasta
  | CLASTB => ConditionalExtractSimd.clastb
  end.

Definition clast_general (m : ClastMnemonic)
    : SubRegSize -> Register -> PRegister -> Register -> ZRegister -> Emit unit :=
  match m with
  | CLASTA => ConditionalExtractGeneral.clasta
  | CLASTB => ConditionalExtractGeneral.clastb
  end.

Inductive BreakNextMnemonic : Type := BRKN | BRKNS.

Definition break_next (m : BreakNextMnemonic)
    : PRegister -> PRegisterZero -> PRegister -> PRegister -> Emit unit :=
  match m with
  | BRKN => brkn
  | BRKNS => brkns
  end.

(** One call of a destructive form: every mnemonic of SVEOps.inl that is given
    its destination a second time. *)
Inductive DestructiveForm : Type :=
| MergingForm (m : MergingMnemonic) (size : SubRegSize) (zd : ZRegister)
    (pg : PRegisterMerge) (zn zm : ZRegister)
| ShiftImmediateForm (m : ShiftImmPredMnemonic) (size : SubRegSize) (zd : ZRegister)
    (pg : PRegisterMerge) (zdn : ZRegister) (Shift : Z)
| FcaddForm (size : SubRegSize) (zd : ZRegister) (pv : PRegisterMerge)
    (zn zm : ZRegister) (rot : Rotation)
| FtmadForm (size : SubRegSize) (zd zn zm : ZRegister) (imm : Z)
| ComplexAddForm (m : ComplexAddMnemonic) (size : SubRegSize) (zd zn zm : ZRegister)
    (rot : Rotation)
| TernaryForm (m : BitwiseTernary.Mnemonic) (zd zdn zm zk : ZRegister)
| ExtForm (zd zdn zm : ZRegister) (Imm : Z)
| SpliceForm (size : SubRegSize) (zd : ZRegister) (pv : PRegister) (zn zm : ZRegister)
| ClastVectorForm (m : ClastMnemonic) (size : SubRegSize) (zd : ZRegister)
    (pg : PRegister) (zn zm : ZRegister)
| ClastSimdForm (m : ClastMnemonic) (size : SubRegSize) (vd : VRegister)
    (pg : PRegister) (vn : VRegister) (zm : ZRegister)
| ClastGeneralForm (m : ClastMnemonic) (size : SubRegSize) (rd : Register)
    (pg : PRegister) (rn : Register) (zm : ZRegister)
| FaddaForm (size : SubRegSize) (vd : VRegister) (pg : PRegister) (vn : VRegister)
    (zm : ZRegister)
| BreakNextForm (m : BreakNextMnemonic) (pd : PRegister) (pg : PRegisterZero)
    (pn pm : PRegister)
| PnextForm (size : SubRegSize) (pd pv pn : PRegister)
| PfirstForm (pd pg pn : PRegister).

Definition run_form (c : DestructiveForm) : Emit unit :=
  match c with
  | MergingForm m size zd pg zn zm => merging m size zd pg zn zm
  | ShiftImmediateForm m size zd pg zdn Shift => shift_imm_pred m size zd pg zdn Shift
  | FcaddForm size zd pv zn zm rot => fcadd size zd pv zn zm rot
  | FtmadForm size zd zn zm imm => ftmad size zd zn zm imm
  | ComplexAddForm m size zd zn zm rot => complex_add m size zd zn zm rot
  | TernaryForm m zd zdn zm zk => BitwiseTernary.run m zd zdn zm zk
  | ExtForm zd zdn zm Imm => ExtDestructive.ext zd zdn zm Imm
  | SpliceForm size zd pv zn zm => SpliceDestructive.splice size zd pv zn zm
  | ClastVectorForm m size zd pg zn zm => clast_vector m size zd pg zn zm
  | ClastSimdForm m size vd pg vn zm => clast_simd m size vd pg vn zm
  | ClastGeneralForm m size rd pg rn zm => clast_general m size rd pg rn zm
  | FaddaForm size vd pg vn zm => fadda size vd pg vn zm
  | BreakNextForm m pd pg pn pm => break_next m pd pg pn pm
  | PnextForm size pd pv pn => pnext size pd pv pn
  | PfirstForm pd pg pn => pfirst pd pg pn
  end.

(** The indices of the two operands of a call that have to name one register:
    the destination, and the operand given in its place. *)
Definition aliased_operands (c : DestructiveForm) : Z * Z :=
  match c with
  | MergingForm _ _ zd _ zn _ => (Idx zd, Idx zn)
  | ShiftImmediateForm _ _ zd _ zdn _ => (Idx zd, Idx zdn)
  | FcaddForm _ zd _ zn _ _ => (Idx zd, Idx zn)
  | FtmadForm _ zd zn _ _ => (Idx zd, Idx zn)
  | ComplexAddForm _ _ zd zn _ _ => (Idx zd, Idx zn)
  | TernaryForm _ zd zdn _ _ => (Idx zd, Idx zdn)
  | ExtForm zd zdn _ _ => (Idx zd, Idx zdn)
  | SpliceForm _ zd _ zn _ => (Idx zd, Idx zn)
  | ClastVectorForm _ _ zd _ zn _ => (Idx zd, Idx zn)
  | ClastSimdForm _ _ vd _ vn _ => (Idx vd, Idx vn)
  | ClastGeneralForm _ _ rd _ rn _ => (Idx rd, Idx rn)
  | FaddaForm _ vd _ vn _ => (Idx vd, Idx vn)
  | BreakNextForm _ pd _ _ pm => (Idx pd, Idx pm)
  | PnextForm _ pd _ pn => (Idx pd, Idx pn)
  | PfirstForm pd _ pn => (Idx pd, Idx pn)
  end.

(** * Properties *)

(** ** Bit fields of a word *)

Lemma testbit_bits (lo len w i : Z) :
  0 <= lo -> 0 <= len -> 0 <= i ->
  Z.testbit (bits lo len w) i = Z.testbit w (i + lo) && (i <? len).
Proof.
  intros Hlo Hlen Hi. unfold bits.
  rewrite Z.land_spec, Z.shiftr_spec, Z.testbit_ones_nonneg by lia.
  reflexivity.
Qed.

Lemma testbit_above (k x i : Z) :
  0 <= x < 2 ^ k -> k <= i -> Z.testbit x i = false.
Proof.
  intros Hx Hi.
  destruct (Z.ltb_spec k 0) as [Hk|Hk].
  - rewrite Z.pow_neg_r in Hx by lia. lia.
  - rewrite <- (Z.mod_small x (2 ^ k)) by lia.
    apply Z.mod_pow2_bits_high. lia.
Qed.

Lemma bits_lor (lo len a b : Z) :
  bits lo len (Z.lor a b) = Z.lor (bits lo len a) (bits lo len b).
Proof.
  unfold bits. rewrite Z.shiftr_lor. apply Z.land_lor_distr_l.
Qed.

(** Truncation to 32 bits is invisible to a field inside the word. *)
Lemma bits_u32 (lo len w : Z) :
  0 <= lo -> 0 <= len -> lo + len <= 32 ->
  bits lo len (u32 w) = bits lo len w.
Proof.
  intros Hlo Hlen Hfit. apply Z.bits_inj'. intros i Hi.
  rewrite !testbit_bits by lia. unfold u32.
  destruct (Z.ltb_spec i len) as [Hlt|Hge].
  - rewrite Z.mod_pow2_bits_low by lia. reflexivity.
  - rewrite !andb_false_r. reflexivity.
Qed.

(** A value shifted to the field's position and fitting its width is read
    back unchanged. *)
Lemma bits_shiftl_hit (lo len x : Z) :
  0 <= lo -> 0 <= x < 2 ^ len -> bits lo len (Z.shiftl x lo) = x.
Proof.
  intros Hlo Hx.
  assert (Hlen : 0 <= len).
  { destruct (Z.ltb_spec len 0); [rewrite Z.pow_neg_r in Hx by lia; lia | lia]. }
  apply Z.bits_inj'. intros i Hi.
  rewrite testbit_bits, Z.shiftl_spec by lia.
  replace (i + lo - lo) with i by lia.
  destruct (Z.ltb_spec i len) as [Hlt|Hge].
  - apply andb_true_r.
  - rewrite andb_false_r. symmetry. apply (testbit_above len); lia.
Qed.

(** A [k]-bit value shifted by [s] leaves alone every field that lies wholly
    above or wholly below it. *)
Lemma bits_shiftl_miss (lo len k s x : Z) :
  0 <= lo -> 0 <= len -> 0 <= s -> 0 <= x < 2 ^ k ->
  s + k <= lo \/ lo + len <= s ->
  bits lo len (Z.shiftl x s) = 0.
Proof.
  intros Hlo Hlen Hs Hx Hsep. apply Z.bits_inj'. intros i Hi.
  rewrite testbit_bits, Z.shiftl_spec, Z.bits_0 by lia.
  destruct (Z.ltb_spec i len) as [Hlt|Hge]; [|apply andb_false_r].
  rewrite andb_true_r.
  destruct Hsep as [Hbelow|Habove].
  - apply (testbit_above k); lia.
  - apply Z.testbit_neg_r. lia.
Qed.

Lemma bits_low_hit (len x : Z) :
  0 <= x < 2 ^ len -> bits 0 len x = x.
Proof.
  intros Hx. rewrite <- (Z.shiftl_0_r x) at 1.
  apply bits_shiftl_hit; lia.
Qed.

Lemma bits_low_miss (lo len k x : Z) :
  0 <= lo -> 0 <= len -> 0 <= x < 2 ^ k -> k <= lo ->
  bits lo len x = 0.
Proof.
  intros Hlo Hlen Hx Hk. rewrite <- (Z.shiftl_0_r x).
  apply (bits_shiftl_miss lo len k 0); lia.
Qed.

Lemma bits_shl_hit (lo len x : Z) :
  0 <= lo -> lo + len <= 32 -> 0 <= x < 2 ^ len -> bits lo len (shl x lo) = x.
Proof.
  intros Hlo Hfit Hx.
  assert (Hlen : 0 <= len).
  { destruct (Z.ltb_spec len 0); [rewrite Z.pow_neg_r in Hx by lia; lia | lia]. }
  unfold shl. rewrite bits_u32 by lia. apply bits_shiftl_hit; lia.
Qed.

Lemma bits_shl_miss (lo len k s x : Z) :
  0 <= lo -> 0 <= len -> lo + len <= 32 -> 0 <= s -> 0 <= x < 2 ^ k ->
  s + k <= lo \/ lo + len <= s ->
  bits lo len (shl x s) = 0.
Proof.
  intros Hlo Hlen Hfit Hs Hx Hsep.
  unfold shl. rewrite bits_u32 by lia. apply (bits_shiftl_miss lo len k s); lia.
Qed.

(** ** Bounds of the 32-bit operations *)

Lemma u32_range (x : Z) : 0 <= u32 x < 2 ^ 32.
Proof. unfold u32. apply Z.mod_pos_bound. lia. Qed.

Lemma u32_small (x : Z) : 0 <= x < 2 ^ 32 -> u32 x = x.
Proof. intros Hx. unfold u32. apply Z.mod_small. exact Hx. Qed.

Lemma shr_small (x n : Z) : 0 <= x < 2 ^ 32 -> shr x n = Z.shiftr x n.
Proof. intros Hx. unfold shr. rewrite u32_small by exact Hx. reflexivity. Qed.

Lemma land_le (a b : Z) : 0 <= b -> 0 <= Z.land a b <= b.
Proof.
  intros Hb. split; [apply Z.land_nonneg; lia|].
  pose proof (Z.lor_ldiff_and b a) as Hsplit.
  assert (Hdisj : Z.land (Z.ldiff b a) (Z.land b a) = 0).
  { apply Z.bits_inj'. intros i Hi.
    rewrite !Z.land_spec, Z.ldiff_spec, Z.bits_0.
    destruct (Z.testbit b i), (Z.testbit a i); reflexivity. }
  rewrite <- Z.lxor_lor, <- Z.add_nocarry_lxor in Hsplit by exact Hdisj.
  assert (0 <= Z.ldiff b a) by (apply Z.ldiff_nonneg; lia).
  rewrite (Z.land_comm a b). lia.
Qed.

Lemma land_lt (a b k : Z) : 0 <= b < 2 ^ k -> 0 <= Z.land a b < 2 ^ k.
Proof. intros Hb. pose proof (land_le a b). lia. Qed.

Lemma lor_bound (a b k : Z) :
  0 <= a < 2 ^ k -> 0 <= b < 2 ^ k -> 0 <= Z.lor a b < 2 ^ k.
Proof.
  intros Ha Hb.
  assert (Hk : 0 <= k).
  { destruct (Z.ltb_spec k 0); [rewrite Z.pow_neg_r in Ha by lia; lia | lia]. }
  assert (Hnn : 0 <= Z.lor a b) by (apply Z.lor_nonneg; lia).
  split; [exact Hnn|].
  destruct (Z.eq_dec (Z.lor a b) 0) as [->|Hnz]; [lia|].
  apply Z.log2_lt_pow2; [lia|].
  rewrite Z.log2_lor by lia.
  destruct (Z.eq_dec a 0) as [->|Ha0], (Z.eq_dec b 0) as [->|Hb0];
    try (simpl in Hnz; lia).
  - rewrite Z.max_r by (apply Z.log2_nonneg). apply Z.log2_lt_pow2; lia.
  - rewrite Z.max_l by (apply Z.log2_nonneg). apply Z.log2_lt_pow2; lia.
  - apply Z.max_lub_lt; apply Z.log2_lt_pow2; lia.
Qed.

Lemma shl_bound (x s k : Z) :
  0 <= s <= k -> k <= 32 -> 0 <= x < 2 ^ (k - s) -> 0 <= shl x s < 2 ^ k.
Proof.
  intros Hs Hk Hx. unfold shl.
  assert (Hpow : 2 ^ k = 2 ^ (k - s) * 2 ^ s).
  { rewrite <- Z.pow_add_r by lia. f_equal. lia. }
  assert (Hps : 0 < 2 ^ s) by (apply Z.pow_pos_nonneg; lia).
  assert (Hle : 2 ^ k <= 2 ^ 32) by (apply Z.pow_le_mono_r; lia).
  rewrite Z.shiftl_mul_pow2 by lia.
  rewrite u32_small; nia.
Qed.

Lemma shr_bound (x s k : Z) :
  0 <= s -> 0 <= k -> k + s <= 32 -> 0 <= x < 2 ^ (k + s) -> 0 <= shr x s < 2 ^ k.
Proof.
  intros Hs Hk Hfit Hx. unfold shr.
  assert (Hle : 2 ^ (k + s) <= 2 ^ 32) by (apply Z.pow_le_mono_r; lia).
  rewrite u32_small by lia.
  rewrite Z.shiftr_div_pow2 by lia.
  assert (Hps : 0 < 2 ^ s) by (apply Z.pow_pos_nonneg; lia).
  rewrite Z.pow_add_r in Hx by lia.
  split; [apply Z.div_pos; lia|].
  apply Z.div_lt_upper_bound; lia.
Qed.

(** The low bits of an [int32_t] survive its conversion to [uint32_t]. *)
Lemma land_u32_low (x k : Z) :
  0 <= k <= 32 -> Z.land (u32 x) (Z.ones k) = Z.land x (Z.ones k).
Proof.
  intros Hk. pose proof (bits_u32 0 k x) as Hb. unfold bits in Hb.
  rewrite !Z.shiftr_0_r in Hb. apply Hb; lia.
Qed.

Lemma land_1_bit (x n : Z) :
  0 <= n -> Z.land (Z.shiftr x n) 1 = bit n x.
Proof.
  intros Hn. unfold bit. change 1 with (Z.ones 1).
  rewrite Z.land_ones, Z.shiftr_div_pow2 by lia.
  symmetry. apply Z.testbit_spec'. exact Hn.
Qed.

Lemma ToUnderlying_range (size : SubRegSize) :
  size <> i128Bit -> 0 <= ToUnderlying size < 4.
Proof. destruct size; simpl; intros; try lia; contradiction. Qed.

(** ** Proof automation for fields *)

(** Replaces binary literals by their values. *)
Ltac eval_bin :=
  repeat match goal with
  | |- context [shl (bin ?s) ?n] =>
      let v := eval vm_compute in (shl (bin s) n) in
      change (shl (bin s) n) with v
  | |- context [bin ?s] =>
      let v := eval vm_compute in (bin s) in change (bin s) with v
  end.

(** Proves [0 <= e < n] for [e] built from bounded pieces. *)
Ltac bound :=
  first
    [ lia
    | match goal with
      | |- 0 <= Z.lor ?a ?b < ?n =>
          let k := eval cbv in (Z.log2_up n) in apply (lor_bound a b k); bound
      | |- 0 <= Z.land ?a ?b < ?n =>
          let k := eval cbv in (Z.log2_up n) in apply (land_lt a b k); bound
      | |- 0 <= shl ?x ?s < ?n =>
          let k := eval cbv in (Z.log2_up n) in apply (shl_bound x s k); bound
      | |- 0 <= shr ?x ?s < ?n =>
          let k := eval cbv in (Z.log2_up n) in apply (shr_bound x s k); bound
      end ].

Ltac try_widths tac :=
  first [ tac 1 | tac 2 | tac 3 | tac 4 | tac 5 | tac 6 | tac 7 | tac 8 ].

Ltac field_step :=
  match goal with
  | |- context [bits ?lo ?len (u32 ?w)] =>
      rewrite (bits_u32 lo len w) by lia
  | |- context [bits ?lo ?len (Z.lor ?a ?b)] =>
      rewrite (bits_lor lo len a b)
  | |- context [bits ?lo ?len (shl ?x ?lo)] =>
      rewrite (bits_shl_hit lo len x) by bound
  | |- context [bits ?lo ?len (shl ?x ?s)] =>
      try_widths ltac:(fun k => rewrite (bits_shl_miss lo len k s x) by bound)
  end.

Ltac field_var :=
  match goal with
  | |- context [bits 0 ?len ?x] =>
      rewrite (bits_low_hit len x) by bound
  | |- context [bits ?lo ?len ?x] =>
      try_widths ltac:(fun k => rewrite (bits_low_miss lo len k x) by bound)
  end.

Ltac field_const :=
  repeat match goal with
  | |- context [bits ?lo ?len ?c] =>
      let v := eval vm_compute in (bits lo len c) in
      match v with
      | Z0 => idtac | Zpos _ => idtac
      end;
      change (bits lo len c) with v
  end.

(** Reads one field out of a word given as an or of shifted pieces. *)
Ltac fields :=
  eval_bin; repeat field_step; field_const; repeat field_var;
  rewrite ?Z.lor_0_l, ?Z.lor_0_r; try reflexivity.

Lemma Z_range_cases (x : Z) (n : nat) :
  0 <= x < Z.of_nat n -> In x (map Z.of_nat (seq 0 n)).
Proof.
  intros Hx. apply in_map_iff. exists (Z.to_nat x).
  split; [lia|]. apply in_seq. lia.
Qed.

(** Splits the goal on every value of [x] below the literal [n]. *)
Ltac enumerate x n :=
  let Hin := fresh "Hin" in
  assert (Hin : In x (map Z.of_nat (seq 0 n))) by (apply Z_range_cases; lia);
  cbv [seq map Z.of_nat Pos.of_succ_nat Pos.succ] in Hin;
  repeat (destruct Hin as [Hin | Hin]; [subst x|]);
  [..|contradiction Hin].

(** ** Running an emitter *)

Lemma assert_A_pass (pred : bool) (msg : string) (k : Emit unit) (buf : CodeBuffer) :
  pred = true -> (LOGMAN_THROW_A_FMT pred msg ;; k) buf = k buf.
Proof. intros ->. reflexivity. Qed.

Lemma assert_A_fail (pred : bool) (msg : string) (k : Emit unit) (buf : CodeBuffer) :
  pred = false ->
  (LOGMAN_THROW_A_FMT pred msg ;; k) buf = Stopped (AssertFailed msg) buf.
Proof. intros ->. reflexivity. Qed.

Lemma assert_AA_pass (pred : bool) (msg : string) (k : Emit unit) (buf : CodeBuffer) :
  pred = true -> (LOGMAN_THROW_AA_FMT pred msg ;; k) buf = k buf.
Proof. intros ->. reflexivity. Qed.

Lemma assert_AA_fail (pred : bool) (msg : string) (k : Emit unit) (buf : CodeBuffer) :
  pred = false ->
  (LOGMAN_THROW_AA_FMT pred msg ;; k) buf = Stopped (AssertFailed msg) buf.
Proof. intros ->. reflexivity. Qed.

Lemma static_assert_pass (pred : bool) (msg : string) (k : Emit unit) (buf : CodeBuffer) :
  pred = true -> (static_assert pred msg ;; k) buf = k buf.
Proof. intros ->. reflexivity. Qed.

Lemma aborts_intro (msg : string) (buf : CodeBuffer) :
  aborts (Stopped (AssertFailed msg) buf) buf.
Proof. exists msg. reflexivity. Qed.

Lemma dc32_emits_one_word (w : Z) (buf : CodeBuffer) :
  emits_one_word (dc32 w buf) buf.
Proof. exists (u32 w). split; [apply u32_range | reflexivity]. Qed.

(** A call emits at most one thing: the appended word is determined. *)
Lemma emits_functional (o : Outcome unit) (buf : CodeBuffer) (w1 w2 : Z) :
  emits o buf w1 -> emits o buf w2 -> w1 = w2.
Proof.
  unfold emits. intros H1 H2. rewrite H1 in H2.
  injection H2 as Happ. apply app_inv_head in Happ.
  injection Happ as Heq. exact Heq.
Qed.

Lemma reg_eqb_false {R : Type} `{HasIdx R} (a b : R) :
  Idx a <> Idx b -> reg_eqb a b = false.
Proof. intros Hne. unfold reg_eqb. apply Z.eqb_neq. exact Hne. Qed.

Lemma reg_eqb_true {R : Type} `{HasIdx R} (a b : R) :
  Idx a = Idx b -> reg_eqb a b = true.
Proof. intros Heq. unfold reg_eqb. apply Z.eqb_eq. exact Heq. Qed.

Lemma reg_leb_p7_false (pg : PRegister) :
  7 < Idx pg -> reg_leb pg p7 = false.
Proof. intros Hgt. unfold reg_leb. apply Z.leb_gt. exact Hgt. Qed.

Lemma reg_leb_p7_true (pg : PRegister) :
  Idx pg <= 7 -> reg_leb pg p7 = true.
Proof. intros Hle. unfold reg_leb. apply Z.leb_le. exact Hle. Qed.

(** Case split on the element size: each leading assertion on the size alone
    is passed, or fails and ends the goal. *)
Ltac size_check size :=
  destruct size; cbn [SubRegSize_eqb negb orb andb];
  repeat first [ rewrite assert_AA_pass by reflexivity
               | rewrite assert_A_pass by reflexivity ];
  try (first [ rewrite assert_AA_fail by reflexivity
             | rewrite assert_A_fail by reflexivity ];
       apply aborts_intro).

Ltac run_emit :=
  unfold bind, ret, LOGMAN_THROW_A_FMT, LOGMAN_THROW_AA_FMT, static_assert;
  cbn beta iota.

(** ** Unpredicated integer add *)

(** C1: [add] with 64-bit elements and zd=z0, zn=z1, zm=z2 appends exactly one
    word, 0x04E20020: the opcode template with the size field (bits 23:22)
    0b11, zm=2 in bits 20:16, zn=1 in bits 9:5 and zd=0 in bits 4:0. *)
Theorem add_i64_z0_z1_z2 (buf : CodeBuffer) :
  AddSubUnpredicated.add i64Bit (ZReg 0) (ZReg 1) (ZReg 2) buf
    = Done tt (buf ++ [0x04E20020])
  /\ bits 22 2 0x04E20020 = bin "11"
  /\ bits 16 5 0x04E20020 = 2
  /\ bits 5 5 0x04E20020 = 1
  /\ bits 0 5 0x04E20020 = 0
  /\ 0x04E20020 =
       Z.lor (shl (bin "0000'0100'0010'0000'000") 13)
         (Z.lor (shl (bin "11") 22) (Z.lor (shl 2 16) (Z.lor (shl 1 5) 0))).
Proof.
  repeat split; reflexivity.
Qed.

(** For any legal size and registers, [add] keeps every template bit and
    places each operand in its own field. *)
Lemma add_word_layout size zd zn zm buf :
  size <> i128Bit ->
  0 <= Idx zd < 32 -> 0 <= Idx zn < 32 -> 0 <= Idx zm < 32 ->
  exists w, emits (AddSubUnpredicated.add size zd zn zm buf) buf w
    /\ bits 24 8 w = bits 24 8 0x04200000
    /\ bits 21 1 w = bits 21 1 0x04200000
    /\ bits 10 6 w = bits 10 6 0x04200000
    /\ bits 22 2 w = ToUnderlying size
    /\ bits 16 5 w = Idx zm
    /\ bits 5 5 w = Idx zn
    /\ bits 0 5 w = Idx zd.
Proof.
  intros Hsize Hzd Hzn Hzm.
  pose proof (ToUnderlying_range size Hsize) as Hsz.
  unfold AddSubUnpredicated.add, SVEIntegerAddSubUnpredicated.
  rewrite assert_AA_pass by (destruct size; try reflexivity; contradiction).
  eexists. split; [reflexivity|].
  repeat split; fields.
Qed.

(** ** Shift by immediate: the size/shift split *)

Lemma pred_shift_layout (tszh opc L U pg tszl imm3 zd : Z) :
  0 <= tszh < 4 -> 0 <= opc < 4 -> 0 <= L < 2 -> 0 <= U < 2 ->
  0 <= pg < 8 -> 0 <= tszl < 4 -> 0 <= imm3 < 8 -> 0 <= zd < 32 ->
  pred_shift_fields
    (u32 (Z.lor (Z.lor (Z.lor (Z.lor (Z.lor (Z.lor (Z.lor (Z.lor
       (shl (bin "0000'0100'0000'0000'100") 13)
       (shl tszh 22)) (shl opc 18)) (shl L 17)) (shl U 16))
       (shl pg 10)) (shl tszl 8)) (shl imm3 5)) zd))
  = (tszh, tszl, imm3).
Proof.
  intros. unfold pred_shift_fields.
  repeat f_equal; fields.
Qed.

Lemma unpred_shift_layout (tszh tszl imm3 opc zn zd : Z) :
  0 <= tszh < 4 -> 0 <= tszl < 4 -> 0 <= imm3 < 8 -> 0 <= opc < 4 ->
  0 <= zn < 32 -> 0 <= zd < 32 ->
  unpred_shift_fields
    (u32 (Z.lor (Z.lor (Z.lor (Z.lor (Z.lor (Z.lor
       (bin "0000'0100'0010'0000'1001'0000'0000'0000")
       (shl tszh 22)) (shl tszl 19)) (shl imm3 16)) (shl opc 10))
       (shl zn 5)) zd))
  = (tszh, tszl, imm3).
Proof.
  intros. unfold unpred_shift_fields.
  repeat f_equal; fields.
Qed.

Lemma legal_shift_check (d : ShiftDirection) (size : SubRegSize) (Shift : Z) :
  legal_shift d size Shift ->
  match d with
  | ShiftLeft => (Shift >=? 0) && (Shift <? SubRegSizeInBits size)
  | ShiftRight => (Shift >? 0) && (Shift <=? SubRegSizeInBits size)
  end = true.
Proof.
  destruct d; cbn [legal_shift]; intros Hl; apply andb_true_iff; split; lia.
Qed.

(** Closes the comparison of the inlined split with the table once the size
    is known. *)
Ltac split_arith :=
  cbn [spec_split spec_InverseShift SubRegSizeInBits];
  rewrite ?u32_small by lia;
  rewrite ?shr_small by lia;
  change (bin "1") with 1; rewrite ?land_1_bit by lia;
  reflexivity.

Lemma SVEBitWiseShiftImmediatePred_split size opc L U (pg : PRegister)
    zd zdn Shift buf :
  size <> i128Bit -> Idx zd = Idx zdn ->
  0 <= Idx pg <= 7 -> 0 <= Idx zd < 32 ->
  0 <= opc < 4 -> 0 <= L < 2 -> 0 <= U < 2 ->
  legal_shift (direction_of_L L) size Shift ->
  exists w,
    emits (SVEBitWiseShiftImmediatePred size opc L U pg zd zdn Shift buf) buf w
    /\ Some (pred_shift_fields w)
       = spec_split size (spec_InverseShift (direction_of_L L) size Shift).
Proof.
  intros Hsize Halias Hpg Hzd Hopc HL HU Hlegal.
  pose proof (legal_shift_check _ _ _ Hlegal) as Hchk.
  unfold SVEBitWiseShiftImmediatePred.
  rewrite assert_AA_pass by (destruct size; try reflexivity; contradiction).
  rewrite assert_A_pass by (apply reg_eqb_true; exact Halias).
  rewrite assert_A_pass by (apply reg_leb_p7_true; lia).
  assert (HLcases : L = 0 \/ L = 1) by lia.
  destruct HLcases as [-> | ->];
    unfold direction_of_L in *; cbn [Z.eqb negb] in *;
    rewrite assert_A_pass by exact Hchk;
    (destruct size; try contradiction);
    cbn [SubRegSize_eqb SubRegSizeInBits legal_shift] in *;
    run_emit; unfold emits, dc32;
    eexists; (split; [reflexivity|]);
    rewrite pred_shift_layout by (eval_bin; bound);
    split_arith.
Qed.

Lemma SVEBitWiseShiftImmediateUnpred_split size opc zd zn Shift buf :
  size <> i128Bit -> 0 <= Idx zd < 32 -> 0 <= Idx zn < 32 ->
  0 <= opc < 4 ->
  legal_shift (direction_of_opc opc) size Shift ->
  exists w,
    emits (SVEBitWiseShiftImmediateUnpred size opc zd zn Shift buf) buf w
    /\ Some (unpred_shift_fields w)
       = spec_split size (spec_InverseShift (direction_of_opc opc) size Shift).
Proof.
  intros Hsize Hzd Hzn Hopc Hlegal.
  pose proof (legal_shift_check _ _ _ Hlegal) as Hchk.
  unfold SVEBitWiseShiftImmediateUnpred.
  rewrite assert_AA_pass by (destruct size; try reflexivity; contradiction).
  change (bin "11") with 3.
  unfold direction_of_opc in *.
  destruct (opc =? 3);
    rewrite assert_A_pass by exact Hchk;
    (destruct size; try contradiction);
    cbn [SubRegSize_eqb SubRegSizeInBits legal_shift] in *;
    run_emit; unfold emits, dc32;
    eexists; (split; [reflexivity|]);
    rewrite unpred_shift_layout by (eval_bin; bound);
    split_arith.
Qed.

(** Each mnemonic passes the primitive the direction its name says. *)
Lemma shift_imm_pred_split m size zd (pg : PRegisterMerge) zdn Shift buf :
  size <> i128Bit -> Idx zd = Idx zdn ->
  0 <= Idx pg <= 7 -> 0 <= Idx zd < 32 ->
  legal_shift (direction_of m) size Shift ->
  exists w,
    emits (shift_imm_pred m size zd pg zdn Shift buf) buf w
    /\ Some (pred_shift_fields w)
       = spec_split size (spec_InverseShift (direction_of m) size Shift).
Proof.
  intros Hsize Halias Hpg Hzd Hlegal.
  destruct m; cbn [shift_imm_pred direction_of] in *;
    unfold ShiftByImmediatePredicated.asr, ShiftByImmediatePredicated.lsr,
      ShiftByImmediatePredicated.lsl, ShiftByImmediatePredicated.asrd,
      ShiftByImmediatePredicated.sqshl, ShiftByImmediatePredicated.uqshl,
      ShiftByImmediatePredicated.srshr, ShiftByImmediatePredicated.urshr,
      ShiftByImmediatePredicated.sqshlu;
    match goal with
    | |- context [SVEBitWiseShiftImmediatePred size ?opc ?L ?U] =>
        apply (SVEBitWiseShiftImmediatePred_split size opc L U);
          try assumption; eval_bin; lia
    end.
Qed.

Lemma shift_imm_unpred_split m size zd zn Shift buf :
  size <> i128Bit -> 0 <= Idx zd < 32 -> 0 <= Idx zn < 32 ->
  legal_shift (direction_of_unpred m) size Shift ->
  exists w,
    emits (shift_imm_unpred m size zd zn Shift buf) buf w
    /\ Some (unpred_shift_fields w)
       = spec_split size (spec_InverseShift (direction_of_unpred m) size Shift).
Proof.
  intros Hsize Hzd Hzn Hlegal.
  destruct m; cbn [shift_imm_unpred direction_of_unpred] in *;
    unfold ShiftByImmediateUnpredicated.asr, ShiftByImmediateUnpredicated.lsr,
      ShiftByImmediateUnpredicated.lsl;
    match goal with
    | |- context [SVEBitWiseShiftImmediateUnpred size ?opc] =>
        apply (SVEBitWiseShiftImmediateUnpred_split size opc);
          try assumption; eval_bin; lia
    end.
Qed.

(** C2: for every element size of 8 to 64 bits and every legal shift, each
    predicated shift-by-immediate mnemonic emits one word whose tszh (bits
    23:22), tszl (bits 9:8) and imm3 (bits 7:5) are those of the table, taken
    at InverseShift = 2 * width - shift for the right shifts and at
    InverseShift = shift for the left shifts.  In particular lsr with 32-bit
    elements and shift 17 has InverseShift 47, tszh = 0b01, tszl = bits 4:3 of
    47 and imm3 = 47 & 0b111. *)
Theorem pred_shift_imm_fields m size zd (pg : PRegisterMerge) zdn Shift buf :
  size <> i128Bit -> Idx zd = Idx zdn ->
  0 <= Idx pg <= 7 -> 0 <= Idx zd < 32 ->
  legal_shift (direction_of m) size Shift ->
  (exists w,
      emits (shift_imm_pred m size zd pg zdn Shift buf) buf w
      /\ Some (pred_shift_fields w)
         = spec_split size (spec_InverseShift (direction_of m) size Shift))
  /\ spec_InverseShift (direction_of LSR) i32Bit 17 = 47
  /\ (exists w,
      emits (ShiftByImmediatePredicated.lsr i32Bit zd pg zdn 17 buf) buf w
      /\ pred_shift_fields w = (bin "01", bits 3 2 47, Z.land 47 (bin "111"))
      /\ pred_shift_fields w = (bin "01", bin "01", bin "111")).
Proof.
  intros Hsize Halias Hpg Hzd Hlegal.
  split; [|split].
  - apply shift_imm_pred_split; assumption.
  - reflexivity.
  - destruct (shift_imm_pred_split LSR i32Bit zd pg zdn 17 buf)
      as (w & Hw & Hfields);
      try assumption; [discriminate | cbn [direction_of legal_shift SubRegSizeInBits]; lia |].
    exists w. split; [exact Hw|].
    injection Hfields as Htszh Htszl Himm3.
    unfold pred_shift_fields. rewrite Htszh, Htszl, Himm3.
    split; reflexivity.
Qed.

Lemma pred_shift_imm_fields_witness :
  (i32Bit <> i128Bit /\ Idx (ZReg 3) = Idx (ZReg 3)
   /\ 0 <= Idx (PRegMerge 2) <= 7 /\ 0 <= Idx (ZReg 3) < 32
   /\ legal_shift (direction_of LSR) i32Bit 17)
  /\ exists w,
      emits (shift_imm_pred LSR i32Bit (ZReg 3) (PRegMerge 2) (ZReg 3) 17 []) [] w
      /\ Some (pred_shift_fields w)
         = spec_split i32Bit (spec_InverseShift (direction_of LSR) i32Bit 17).
Proof.
  assert (H1 : i32Bit <> i128Bit) by discriminate.
  assert (H2 : Idx (ZReg 3) = Idx (ZReg 3)) by reflexivity.
  assert (H3 : 0 <= Idx (PRegMerge 2) <= 7) by (simpl; lia).
  assert (H4 : 0 <= Idx (ZReg 3) < 32) by (simpl; lia).
  assert (H5 : legal_shift (direction_of LSR) i32Bit 17) by (simpl; lia).
  split; [exact (conj H1 (conj H2 (conj H3 (conj H4 H5))))|].
  exact (proj1 (pred_shift_imm_fields LSR i32Bit (ZReg 3) (PRegMerge 2) (ZReg 3)
                  17 [] H1 H2 H3 H4 H5)).
Defined.

(** The table is inverted by [decode_shift] on every legal shift. *)
Lemma spec_split_round_trip (d : ShiftDirection) (size : SubRegSize) (Shift : Z) :
  size <> i128Bit -> legal_shift d size Shift ->
  exists f, spec_split size (spec_InverseShift d size Shift) = Some f
            /\ decode_shift d f = Some (size, Shift).
Proof.
  intros Hsize Hlegal.
  destruct d, size; try contradiction;
    cbn [legal_shift SubRegSizeInBits] in Hlegal.
  - enumerate Shift 8%nat; eexists; split; reflexivity.
  - enumerate Shift 16%nat; eexists; split; reflexivity.
  - enumerate Shift 32%nat; eexists; split; reflexivity.
  - enumerate Shift 64%nat; eexists; split; reflexivity.
  - enumerate Shift 9%nat; try lia; eexists; split; reflexivity.
  - enumerate Shift 17%nat; try lia; eexists; split; reflexivity.
  - enumerate Shift 33%nat; try lia; eexists; split; reflexivity.
  - enumerate Shift 65%nat; try lia; eexists; split; reflexivity.
Qed.

Lemma decode_of_split (d : ShiftDirection) (size : SubRegSize) (Shift : Z)
    (f : Z * Z * Z) :
  size <> i128Bit -> legal_shift d size Shift ->
  Some f = spec_split size (spec_InverseShift d size Shift) ->
  decode_shift d f = Some (size, Shift).
Proof.
  intros Hsize Hlegal Hf.
  destruct (spec_split_round_trip d size Shift Hsize Hlegal) as (f' & Hsplit & Hdec).
  rewrite Hsplit in Hf. injection Hf as ->. exact Hdec.
Qed.

(** C3: for every element size of 8 to 64 bits, both directions and every
    legal shift, decoding the (tszh, tszl, imm3) triple of the emitted word
    gives back the size and the shift that were passed in, for the predicated
    and for the unpredicated shift-by-immediate encoders; hence two calls
    whose words carry the same triple had the same size and shift. *)
Theorem shift_split_round_trip :
  (forall m size zd (pg : PRegisterMerge) zdn Shift buf,
      size <> i128Bit -> Idx zd = Idx zdn ->
      0 <= Idx pg <= 7 -> 0 <= Idx zd < 32 ->
      legal_shift (direction_of m) size Shift ->
      exists w,
        emits (shift_imm_pred m size zd pg zdn Shift buf) buf w
        /\ decode_shift (direction_of m) (pred_shift_fields w) = Some (size, Shift))
  /\ (forall m size zd zn Shift buf,
      size <> i128Bit -> 0 <= Idx zd < 32 -> 0 <= Idx zn < 32 ->
      legal_shift (direction_of_unpred m) size Shift ->
      exists w,
        emits (shift_imm_unpred m size zd zn Shift buf) buf w
        /\ decode_shift (direction_of_unpred m) (unpred_shift_fields w)
           = Some (size, Shift))
  /\ (forall m size1 size2 zd (pg : PRegisterMerge) Shift1 Shift2 buf w1 w2,
      size1 <> i128Bit -> size2 <> i128Bit ->
      0 <= Idx pg <= 7 -> 0 <= Idx zd < 32 ->
      legal_shift (direction_of m) size1 Shift1 ->
      legal_shift (direction_of m) size2 Shift2 ->
      emits (shift_imm_pred m size1 zd pg zd Shift1 buf) buf w1 ->
      emits (shift_imm_pred m size2 zd pg zd Shift2 buf) buf w2 ->
      pred_shift_fields w1 = pred_shift_fields w2 ->
      size1 = size2 /\ Shift1 = Shift2)
  /\ (forall m size1 size2 zd zn Shift1 Shift2 buf w1 w2,
      size1 <> i128Bit -> size2 <> i128Bit ->
      0 <= Idx zd < 32 -> 0 <= Idx zn < 32 ->
      legal_shift (direction_of_unpred m) size1 Shift1 ->
      legal_shift (direction_of_unpred m) size2 Shift2 ->
      emits (shift_imm_unpred m size1 zd zn Shift1 buf) buf w1 ->
      emits (shift_imm_unpred m size2 zd zn Shift2 buf) buf w2 ->
      unpred_shift_fields w1 = unpred_shift_fields w2 ->
      size1 = size2 /\ Shift1 = Shift2).
Proof.
  assert (Hpred : forall m size zd (pg : PRegisterMerge) zdn Shift buf,
      size <> i128Bit -> Idx zd = Idx zdn ->
      0 <= Idx pg <= 7 -> 0 <= Idx zd < 32 ->
      legal_shift (direction_of m) size Shift ->
      exists w,
        emits (shift_imm_pred m size zd pg zdn Shift buf) buf w
        /\ decode_shift (direction_of m) (pred_shift_fields w) = Some (size, Shift)).
  { intros m size zd pg zdn Shift buf Hsize Halias Hpg Hzd Hlegal.
    destruct (shift_imm_pred_split m size zd pg zdn Shift buf)
      as (w & Hw & Hfields); try assumption.
    exists w. split; [exact Hw|].
    apply (decode_of_split _ size Shift); assumption. }
  assert (Hunpred : forall m size zd zn Shift buf,
      size <> i128Bit -> 0 <= Idx zd < 32 -> 0 <= Idx zn < 32 ->
      legal_shift (direction_of_unpred m) size Shift ->
      exists w,
        emits (shift_imm_unpred m size zd zn Shift buf) buf w
        /\ decode_shift (direction_of_unpred m) (unpred_shift_fields w)
           = Some (size, Shift)).
  { intros m size zd zn Shift buf Hsize Hzd Hzn Hlegal.
    destruct (shift_imm_unpred_split m size zd zn Shift buf)
      as (w & Hw & Hfields); try assumption.
    exists w. split; [exact Hw|].
    apply (decode_of_split _ size Shift); assumption. }
  split; [exact Hpred|]. split; [exact Hunpred|]. split.
  - intros m size1 size2 zd pg Shift1 Shift2 buf w1 w2
      Hs1 Hs2 Hpg Hzd Hl1 Hl2 Hw1 Hw2 Hsame.
    destruct (Hpred m size1 zd pg zd Shift1 buf Hs1 eq_refl Hpg Hzd Hl1)
      as (v1 & Hv1 & Hd1).
    destruct (Hpred m size2 zd pg zd Shift2 buf Hs2 eq_refl Hpg Hzd Hl2)
      as (v2 & Hv2 & Hd2).
    rewrite (emits_functional _ _ _ _ Hv1 Hw1) in Hd1.
    rewrite (emits_functional _ _ _ _ Hv2 Hw2) in Hd2.
    rewrite Hsame, Hd2 in Hd1. injection Hd1 as -> ->. split; reflexivity.
  - intros m size1 size2 zd zn Shift1 Shift2 buf w1 w2
      Hs1 Hs2 Hzd Hzn Hl1 Hl2 Hw1 Hw2 Hsame.
    destruct (Hunpred m size1 zd zn Shift1 buf Hs1 Hzd Hzn Hl1)
      as (v1 & Hv1 & Hd1).
    destruct (Hunpred m size2 zd zn Shift2 buf Hs2 Hzd Hzn Hl2)
      as (v2 & Hv2 & Hd2).
    rewrite (emits_functional _ _ _ _ Hv1 Hw1) in Hd1.
    rewrite (emits_functional _ _ _ _ Hv2 Hw2) in Hd2.
    rewrite Hsame, Hd2 in Hd1. injection Hd1 as -> ->. split; reflexivity.
Qed.

Lemma shift_split_round_trip_witness :
  (i64Bit <> i128Bit /\ Idx (ZReg 1) = Idx (ZReg 1)
   /\ 0 <= Idx (PRegMerge 7) <= 7 /\ 0 <= Idx (ZReg 1) < 32
   /\ legal_shift (direction_of ASR) i64Bit 64)
  /\ (exists w,
      emits (shift_imm_pred ASR i64Bit (ZReg 1) (PRegMerge 7) (ZReg 1) 64 []) [] w
      /\ decode_shift (direction_of ASR) (pred_shift_fields w) = Some (i64Bit, 64))
  /\ (i8Bit <> i128Bit /\ 0 <= Idx (ZReg 4) < 32 /\ 0 <= Idx (ZReg 5) < 32
      /\ legal_shift (direction_of_unpred LSL_U) i8Bit 7)
  /\ (exists w,
      emits (shift_imm_unpred LSL_U i8Bit (ZReg 4) (ZReg 5) 7 []) [] w
      /\ decode_shift (direction_of_unpred LSL_U) (unpred_shift_fields w)
         = Some (i8Bit, 7)).
Proof.
  assert (H1 : i64Bit <> i128Bit) by discriminate.
  assert (H2 : Idx (ZReg 1) = Idx (ZReg 1)) by reflexivity.
  assert (H3 : 0 <= Idx (PRegMerge 7) <= 7) by (simpl; lia).
  assert (H4 : 0 <= Idx (ZReg 1) < 32) by (simpl; lia).
  assert (H5 : legal_shift (direction_of ASR) i64Bit 64) by (simpl; lia).
  assert (G1 : i8Bit <> i128Bit) by discriminate.
  assert (G2 : 0 <= Idx (ZReg 4) < 32) by (simpl; lia).
  assert (G3 : 0 <= Idx (ZReg 5) < 32) by (simpl; lia).
  assert (G4 : legal_shift (direction_of_unpred LSL_U) i8Bit 7) by (simpl; lia).
  split; [exact (conj H1 (conj H2 (conj H3 (conj H4 H5))))|].
  split; [exact (proj1 shift_split_round_trip ASR i64Bit (ZReg 1) (PRegMerge 7)
                   (ZReg 1) 64 [] H1 H2 H3 H4 H5)|].
  split; [exact (conj G1 (conj G2 (conj G3 G4)))|].
  exact (proj1 (proj2 shift_split_round_trip) LSL_U i8Bit (ZReg 4) (ZReg 5) 7 []
           G1 G2 G3 G4).
Defined.

(** ** Indexed dup *)

Lemma SVEDup_fields Op imm2 tsz zn zd buf :
  bits 22 2 Op = 0 -> bits 16 5 Op = 0 ->
  0 <= imm2 < 4 -> 0 <= tsz < 32 -> 0 <= Idx zn < 32 -> 0 <= Idx zd < 32 ->
  exists w, emits (SVEDup Op imm2 tsz zn zd buf) buf w
            /\ bits 22 2 w = imm2 /\ bits 16 5 w = tsz.
Proof.
  intros Hop1 Hop2 Himm2 Htsz Hzn Hzd. unfold SVEDup, Encode_rn, Encode_rd.
  eexists. split; [reflexivity|].
  split.
  - repeat field_step. rewrite Hop1. repeat field_var.
    rewrite ?Z.lor_0_l, ?Z.lor_0_r. reflexivity.
  - repeat field_step. rewrite Hop2. repeat field_var.
    rewrite ?Z.lor_0_l, ?Z.lor_0_r. reflexivity.
Qed.

Lemma dup_rejects size zd zn Index buf :
  dup_index_limit size <= Index -> aborts (dup size zd zn Index buf) buf.
Proof.
  intros Hbig. unfold dup.
  destruct size; cbn [SubRegSize_eqb dup_index_limit] in *; run_emit;
    match goal with
    | |- context [Index <? ?n] =>
        replace (Index <? n) with false by (symmetry; apply Z.ltb_ge; lia)
    end;
    apply aborts_intro.
Qed.

(** Read as one 7-bit number, [imm2:tsz] is the index followed by the size
    marker bit and zeros. *)
Lemma dup_fields size zd zn Index buf :
  0 <= Index < dup_index_limit size ->
  0 <= Idx zn < 32 -> 0 <= Idx zd < 32 ->
  exists w, emits (dup size zd zn Index buf) buf w
    /\ Z.lor (Z.shiftl (bits 22 2 w) 5) (bits 16 5 w)
       = Index * 2 ^ (log2_bytes size + 1) + 2 ^ log2_bytes size.
Proof.
  intros HIndex Hzn Hzd. unfold dup.
  destruct size; cbn [SubRegSize_eqb dup_index_limit log2_bytes] in *; run_emit;
    match goal with
    | |- context [Index <? ?n] =>
        replace (Index <? n) with true by (symmetry; apply Z.ltb_lt; lia)
    end;
    match goal with
    | |- context [SVEDup ?Op ?imm2 ?tsz] =>
        destruct (SVEDup_fields Op imm2 tsz zn zd buf)
          as (w & Hw & Himm2 & Htsz);
        [ reflexivity | reflexivity | eval_bin; bound | eval_bin; bound
        | exact Hzn | exact Hzd
        | exists w; (split; [exact Hw|]); rewrite Himm2, Htsz;
          clear Hw Himm2 Htsz ]
    end.
  - enumerate Index 64%nat; reflexivity.
  - enumerate Index 32%nat; reflexivity.
  - enumerate Index 16%nat; reflexivity.
  - enumerate Index 8%nat; reflexivity.
  - enumerate Index 4%nat; reflexivity.
Qed.

(** C4: [dup] aborts for an index of 64, 32, 16, 8 or 4 and more (8-, 16-,
    32-, 64- and 128-bit elements) and accepts every smaller one, emitting one
    word in which the index is split over imm2 (bits 23:22) and tsz (bits
    20:16); with 16-bit elements and index 9,
    tsz = 0b00010 | ((9 & 0b111) << 2) and imm2 = 9 >> 3. *)
Theorem dup_index_split size zd zn Index buf :
  0 <= Index -> 0 <= Idx zn < 32 -> 0 <= Idx zd < 32 ->
  (dup_index_limit size <= Index -> aborts (dup size zd zn Index buf) buf)
  /\ (Index < dup_index_limit size ->
      exists w, emits (dup size zd zn Index buf) buf w
        /\ Z.lor (Z.shiftl (bits 22 2 w) 5) (bits 16 5 w)
           = Index * 2 ^ (log2_bytes size + 1) + 2 ^ log2_bytes size)
  /\ (exists w, emits (dup i16Bit zd zn 9 buf) buf w
        /\ bits 16 5 w = Z.lor (bin "00010") (Z.shiftl (Z.land 9 (bin "111")) 2)
        /\ bits 22 2 w = Z.shiftr 9 3).
Proof.
  intros HIndex Hzn Hzd. split; [|split].
  - apply dup_rejects.
  - intros Hlt. apply dup_fields; try assumption. lia.
  - unfold dup. cbn [SubRegSize_eqb]. run_emit.
    change (9 <? 32) with true. cbn iota.
    match goal with
    | |- context [SVEDup ?Op ?imm2 ?tsz] =>
        destruct (SVEDup_fields Op imm2 tsz zn zd buf)
          as (w & Hw & Himm2 & Htsz);
        [ reflexivity | reflexivity | eval_bin; bound | eval_bin; bound
        | exact Hzn | exact Hzd | ]
    end.
    exists w. split; [exact Hw|]. rewrite Himm2, Htsz. split; reflexivity.
Qed.

Lemma dup_index_split_witness :
  (0 <= 9 /\ 0 <= Idx (ZReg 1) < 32 /\ 0 <= Idx (ZReg 0) < 32
   /\ 9 < dup_index_limit i16Bit /\ dup_index_limit i16Bit <= 32)
  /\ (exists w, emits (dup i16Bit (ZReg 0) (ZReg 1) 9 []) [] w
        /\ Z.lor (Z.shiftl (bits 22 2 w) 5) (bits 16 5 w)
           = 9 * 2 ^ (log2_bytes i16Bit + 1) + 2 ^ log2_bytes i16Bit)
  /\ aborts (dup i16Bit (ZReg 0) (ZReg 1) 32 []) [].
Proof.
  assert (H1 : 0 <= 9) by lia.
  assert (H1' : 0 <= 32) by lia.
  assert (H2 : 0 <= Idx (ZReg 1) < 32) by (simpl; lia).
  assert (H3 : 0 <= Idx (ZReg 0) < 32) by (simpl; lia).
  assert (H4 : 9 < dup_index_limit i16Bit) by (simpl; lia).
  assert (H5 : dup_index_limit i16Bit <= 32) by (simpl; lia).
  split; [exact (conj H1 (conj H2 (conj H3 (conj H4 H5))))|].
  split.
  - exact (proj1 (proj2 (dup_index_split i16Bit (ZReg 0) (ZReg 1) 9 [] H1 H2 H3)) H4).
  - exact (proj1 (dup_index_split i16Bit (ZReg 0) (ZReg 1) 32 [] H1' H2 H3) H5).
Defined.

(** ** Compare with immediate: the governing predicate field *)

(** C5: with governing predicate p8 the unsigned compare-with-immediate [cmphi]
    is accepted, and the predicate index runs over its three bits 12:10 into
    bit 13, the lt field: the word emitted for cmphi with p8 is the word of
    cmpls with p0.  The compare-vectors form of cmphi aborts on the same
    predicate. *)
Theorem cmphi_p8_overwrites_lt :
  emits (CompareUnsignedImm.cmphi i8Bit (PReg 0) (PRegZero 8) (ZReg 0) 0 [])
        [] 0x24202010
  /\ bits 13 1 0x24202010 = 1
  /\ emits (CompareUnsignedImm.cmphi i8Bit (PReg 0) (PRegZero 0) (ZReg 0) 0 [])
           [] 0x24200010
  /\ bits 13 1 0x24200010 = 0
  /\ emits (CompareUnsignedImm.cmpls i8Bit (PReg 0) (PRegZero 0) (ZReg 0) 0 [])
           [] 0x24202010
  /\ aborts (CompareVectors.cmphi i8Bit (PReg 0) (PRegZero 8) (ZReg 0) (ZReg 0) []) [].
Proof.
  repeat split; try reflexivity.
  eexists. reflexivity.
Qed.

(** ** fcadd and the destructive forms *)

Lemma fcadd_bad_rotation size zd pv zn zm rot buf :
  rot = ROTATE_0 \/ rot = ROTATE_180 ->
  aborts (fcadd size zd pv zn zm rot buf) buf.
Proof.
  intros Hrot. unfold fcadd.
  size_check size.
  all: destruct (reg_leb pv (Merging p7));
    [rewrite assert_A_pass by reflexivity
    |rewrite assert_A_fail by reflexivity; apply aborts_intro].
  all: destruct Hrot as [-> | ->]; cbn [Rotation_eqb orb];
    rewrite assert_AA_fail by reflexivity; apply aborts_intro.
Qed.

Lemma fcadd_legal_rotation_bit size zd (pv : PRegisterMerge) zn zm rot buf :
  size = i16Bit \/ size = i32Bit \/ size = i64Bit ->
  0 <= Idx pv <= 7 -> Idx zd = Idx zn ->
  0 <= Idx zd < 32 -> 0 <= Idx zm < 32 ->
  rot = ROTATE_90 \/ rot = ROTATE_270 ->
  exists w, emits (fcadd size zd pv zn zm rot buf) buf w
            /\ bits 16 1 w = match rot with ROTATE_270 => 1 | _ => 0 end.
Proof.
  intros Hsize Hpv Halias Hzd Hzm Hrot. unfold fcadd.
  assert (Hsz : 0 <= ToUnderlying size < 4).
  { apply ToUnderlying_range. destruct Hsize as [-> | [-> | ->]]; discriminate. }
  rewrite assert_AA_pass
    by (destruct Hsize as [-> | [-> | ->]]; reflexivity).
  rewrite assert_A_pass
    by (unfold reg_leb; apply Z.leb_le; change (Idx (Merging p7)) with 7; lia).
  rewrite assert_AA_pass by (destruct Hrot as [-> | ->]; reflexivity).
  rewrite assert_A_pass by (apply reg_eqb_true; exact Halias).
  eexists. split; [reflexivity|].
  destruct Hrot as [-> | ->]; cbn [Rotation_eqb]; fields.
Qed.

(** C6: [fcadd] aborts on a rotation of 0 or 180 degrees whatever its other
    operands; with legal operands a rotation of 90 degrees is emitted with bit
    16 clear and one of 270 degrees with bit 16 set. *)
Theorem fcadd_rotation size zd (pv : PRegisterMerge) zn zm rot buf :
  (rot = ROTATE_0 \/ rot = ROTATE_180 ->
   aborts (fcadd size zd pv zn zm rot buf) buf)
  /\ (size = i16Bit \/ size = i32Bit \/ size = i64Bit ->
      0 <= Idx pv <= 7 -> Idx zd = Idx zn ->
      0 <= Idx zd < 32 -> 0 <= Idx zm < 32 ->
      (rot = ROTATE_90 ->
       exists w, emits (fcadd size zd pv zn zm rot buf) buf w /\ bits 16 1 w = 0)
      /\ (rot = ROTATE_270 ->
          exists w, emits (fcadd size zd pv zn zm rot buf) buf w /\ bits 16 1 w = 1)).
Proof.
  split.
  - apply fcadd_bad_rotation.
  - intros Hsize Hpv Halias Hzd Hzm. split; intros ->.
    + apply (fcadd_legal_rotation_bit size zd pv zn zm ROTATE_90); auto.
    + apply (fcadd_legal_rotation_bit size zd pv zn zm ROTATE_270); auto.
Qed.

Lemma fcadd_rotation_witness :
  aborts (fcadd i32Bit (ZReg 2) (PRegMerge 1) (ZReg 2) (ZReg 3) ROTATE_0 []) []
  /\ aborts (fcadd i32Bit (ZReg 2) (PRegMerge 1) (ZReg 2) (ZReg 3) ROTATE_180 []) []
  /\ (exists w,
        emits (fcadd i32Bit (ZReg 2) (PRegMerge 1) (ZReg 2) (ZReg 3) ROTATE_90 []) [] w
        /\ bits 16 1 w = 0)
  /\ (exists w,
        emits (fcadd i32Bit (ZReg 2) (PRegMerge 1) (ZReg 2) (ZReg 3) ROTATE_270 []) [] w
        /\ bits 16 1 w = 1).
Proof.
  assert (Hsize : i32Bit = i16Bit \/ i32Bit = i32Bit \/ i32Bit = i64Bit)
    by (right; left; reflexivity).
  assert (Hpv : 0 <= Idx (PRegMerge 1) <= 7) by (simpl; lia).
  assert (Halias : Idx (ZReg 2) = Idx (ZReg 2)) by reflexivity.
  assert (Hzd : 0 <= Idx (ZReg 2) < 32) by (simpl; lia).
  assert (Hzm : 0 <= Idx (ZReg 3) < 32) by (simpl; lia).
  split; [|split; [|split]].
  - exact (proj1 (fcadd_rotation i32Bit (ZReg 2) (PRegMerge 1) (ZReg 2) (ZReg 3)
                    ROTATE_0 []) (or_introl eq_refl)).
  - exact (proj1 (fcadd_rotation i32Bit (ZReg 2) (PRegMerge 1) (ZReg 2) (ZReg 3)
                    ROTATE_180 []) (or_intror eq_refl)).
  - exact (proj1 (proj2 (fcadd_rotation i32Bit (ZReg 2) (PRegMerge 1) (ZReg 2)
                           (ZReg 3) ROTATE_90 []) Hsize Hpv Halias Hzd Hzm) eq_refl).
  - exact (proj2 (proj2 (fcadd_rotation i32Bit (ZReg 2) (PRegMerge 1) (ZReg 2)
                           (ZReg 3) ROTATE_270 []) Hsize Hpv Halias Hzd Hzm) eq_refl).
Defined.

Lemma SVEBitWiseShiftImmediatePred_alias size opc L U pg zd zdn Shift buf :
  Idx zd <> Idx zdn ->
  aborts (SVEBitWiseShiftImmediatePred size opc L U pg zd zdn Shift buf) buf.
Proof.
  intros Hne. unfold SVEBitWiseShiftImmediatePred.
  size_check size;
    rewrite assert_A_fail by (apply reg_eqb_false; exact Hne);
    apply aborts_intro.
Qed.

Lemma SVEBitwiseShiftbyVector_alias R L U size pg zd zn zm buf :
  Idx zd <> Idx zn ->
  aborts (SVEBitwiseShiftbyVector R L U size pg zd zn zm buf) buf.
Proof.
  intros Hne. unfold SVEBitwiseShiftbyVector.
  size_check size;
    rewrite assert_A_fail by (apply reg_eqb_false; exact Hne);
    apply aborts_intro.
Qed.

Lemma fcadd_alias size zd pv zn zm rot buf :
  Idx zd <> Idx zn -> aborts (fcadd size zd pv zn zm rot buf) buf.
Proof.
  intros Hne. unfold fcadd.
  size_check size.
  all: destruct (reg_leb pv (Merging p7));
    [rewrite assert_A_pass by reflexivity
    |rewrite assert_A_fail by reflexivity; apply aborts_intro].
  all: destruct rot; cbn [Rotation_eqb orb];
    try (rewrite assert_AA_fail by reflexivity; apply aborts_intro);
    rewrite assert_AA_pass by reflexivity;
    rewrite assert_A_fail by (apply reg_eqb_false; exact Hne);
    apply aborts_intro.
Qed.

(** ** Governing predicates restricted to p0-p7 *)

Lemma SVEIntegerCompareVector_p8 op o2 ne size zm (pg : PRegister) zn pd buf :
  7 < Idx pg ->
  aborts (SVEIntegerCompareVector op o2 ne size zm pg zn pd buf) buf.
Proof.
  intros Hgt. unfold SVEIntegerCompareVector.
  size_check size;
    rewrite assert_A_fail by (apply reg_leb_p7_false; exact Hgt);
    apply aborts_intro.
Qed.

Lemma SVEIntegerCompareVectorWide_p8 op o2 ne size pd (pg : PRegister) zn zm buf :
  7 < Idx pg ->
  aborts (SVEIntegerCompareVectorWide op o2 ne size pd pg zn zm buf) buf.
Proof.
  intros Hgt. unfold SVEIntegerCompareVectorWide.
  destruct (SubRegSize_eqb size i64Bit).
  - rewrite assert_A_fail by reflexivity. apply aborts_intro.
  - rewrite assert_A_pass by reflexivity.
    apply SVEIntegerCompareVector_p8. exact Hgt.
Qed.

Lemma SVEFloatCompareVector_p8 op o2 o3 size zm (pg : PRegister) zn pd buf :
  7 < Idx pg ->
  aborts (SVEFloatCompareVector op o2 o3 size zm pg zn pd buf) buf.
Proof.
  intros Hgt. unfold SVEFloatCompareVector.
  size_check size;
    rewrite assert_A_fail by (apply reg_leb_p7_false; exact Hgt);
    apply aborts_intro.
Qed.

Lemma histcnt_p8 size zd (pv : PRegisterZero) zn zm buf :
  7 < Idx pv -> aborts (histcnt size zd pv zn zm buf) buf.
Proof.
  intros Hgt. unfold histcnt.
  size_check size;
    rewrite assert_A_fail by (unfold reg_leb; apply Z.leb_gt; exact Hgt);
    apply aborts_intro.
Qed.

Lemma SVEIntegerCompareVector_accepts op o2 ne size zm (pg : PRegister) zn pd buf :
  size <> i128Bit -> Idx pg <= 7 ->
  emits_one_word (SVEIntegerCompareVector op o2 ne size zm pg zn pd buf) buf.
Proof.
  intros Hsize Hle. unfold SVEIntegerCompareVector.
  destruct size; try contradiction; cbn [SubRegSize_eqb negb];
    rewrite assert_A_pass by reflexivity;
    rewrite assert_A_pass by (apply reg_leb_p7_true; exact Hle);
    apply dc32_emits_one_word.
Qed.

Lemma SVEIntegerCompareVectorWide_accepts op o2 ne size pd (pg : PRegister)
    zn zm buf :
  size <> i128Bit -> size <> i64Bit -> Idx pg <= 7 ->
  emits_one_word (SVEIntegerCompareVectorWide op o2 ne size pd pg zn zm buf) buf.
Proof.
  intros H128 H64 Hle. unfold SVEIntegerCompareVectorWide.
  rewrite assert_A_pass by (destruct size; try reflexivity; contradiction).
  apply SVEIntegerCompareVector_accepts; assumption.
Qed.

Lemma SVEFloatCompareVector_accepts op o2 o3 size zm (pg : PRegister) zn pd buf :
  size <> i128Bit -> size <> i8Bit -> Idx pg <= 7 ->
  emits_one_word (SVEFloatCompareVector op o2 o3 size zm pg zn pd buf) buf.
Proof.
  intros H128 H8 Hle. unfold SVEFloatCompareVector.
  destruct size; try contradiction; cbn [SubRegSize_eqb negb];
    rewrite !assert_AA_pass by reflexivity;
    rewrite assert_A_pass by (apply reg_leb_p7_true; exact Hle);
    apply dc32_emits_one_word.
Qed.

Lemma histcnt_accepts size zd (pv : PRegisterZero) zn zm buf :
  size = i32Bit \/ size = i64Bit -> Idx pv <= 7 ->
  emits_one_word (histcnt size zd pv zn zm buf) buf.
Proof.
  intros Hsize Hle. unfold histcnt.
  rewrite assert_AA_pass by (destruct Hsize as [-> | ->]; reflexivity).
  rewrite assert_A_pass by (unfold reg_leb; apply Z.leb_le; exact Hle).
  apply dc32_emits_one_word.
Qed.

Lemma SVEBitWiseShiftImmediatePred_p8 size opc L U (pg : PRegister)
    zd zdn Shift buf :
  7 < Idx pg ->
  aborts (SVEBitWiseShiftImmediatePred size opc L U pg zd zdn Shift buf) buf.
Proof.
  intros Hgt. unfold SVEBitWiseShiftImmediatePred.
  size_check size.
  all: destruct (reg_eqb zd zdn);
    [rewrite assert_A_pass by reflexivity
    |rewrite assert_A_fail by reflexivity; apply aborts_intro].
  all: rewrite assert_A_fail by (apply reg_leb_p7_false; exact Hgt);
    apply aborts_intro.
Qed.

Lemma SVEBitwiseShiftbyVector_p8 R L U size (pg : PRegister) zd zn zm buf :
  7 < Idx pg ->
  aborts (SVEBitwiseShiftbyVector R L U size pg zd zn zm buf) buf.
Proof.
  intros Hgt. unfold SVEBitwiseShiftbyVector.
  size_check size.
  all: destruct (reg_eqb zd zn);
    [rewrite assert_A_pass by reflexivity
    |rewrite assert_A_fail by reflexivity; apply aborts_intro].
  all: rewrite assert_A_fail by (apply reg_leb_p7_false; exact Hgt);
    apply aborts_intro.
Qed.

Lemma fcadd_p8 size zd (pv : PRegisterMerge) zn zm rot buf :
  7 < Idx pv -> aborts (fcadd size zd pv zn zm rot buf) buf.
Proof.
  intros Hgt. unfold fcadd.
  size_check size;
    rewrite assert_A_fail by (unfold reg_leb; apply Z.leb_gt; exact Hgt);
    apply aborts_intro.
Qed.

(** Where the range of the governing predicate is asserted: the integer
    compare-vectors mnemonics (plain and wide), the floating-point
    compare-vectors mnemonics and histcnt abort, with no word emitted, on a
    governing predicate above p7; on p0 to p7, with an element size the
    mnemonic allows, they emit one word.  The predicated shifts by immediate
    and by vector and fcadd abort above p7 in the same way. *)
Theorem governing_predicate_p0_p7 m size pd zd (pg : PRegisterZero) zn zm buf :
  (7 < Idx pg -> aborts (governed m size pd zd pg zn zm buf) buf)
  /\ (Idx pg <= 7 -> governed_size_ok m size = true ->
      emits_one_word (governed m size pd zd pg zn zm buf) buf)
  /\ (forall c : DestructiveCall,
      7 < Idx (governing_of c) -> aborts (run_destructive c buf) buf).
Proof.
  split; [|split].
  - intros Hgt.
    destruct m;
      first [ apply SVEIntegerCompareVector_p8
            | apply SVEIntegerCompareVectorWide_p8
            | apply SVEFloatCompareVector_p8
            | apply histcnt_p8 ];
      exact Hgt.
  - intros Hle Hsize.
    destruct m, size; try discriminate Hsize; cbn [governed];
      first
        [ apply SVEIntegerCompareVector_accepts; [discriminate | exact Hle]
        | apply SVEIntegerCompareVectorWide_accepts;
            [discriminate | discriminate | exact Hle]
        | apply SVEFloatCompareVector_accepts;
            [discriminate | discriminate | exact Hle]
        | apply histcnt_accepts; [auto | exact Hle] ].
  - intros c Hgt.
    destruct c as [k sz rd rg rdn Shift | k sz rd rg rn rm | sz rd rv rn rm rot];
      cbn [governing_of run_destructive] in *.
    + destruct k; apply SVEBitWiseShiftImmediatePred_p8; exact Hgt.
    + destruct k; apply SVEBitwiseShiftbyVector_p8; exact Hgt.
    + apply fcadd_p8. exact Hgt.
Qed.

Lemma governing_predicate_p0_p7_witness :
  (7 < Idx (PRegZero 8) /\ Idx (PRegZero 7) <= 7
   /\ governed_size_ok FCMGT i16Bit = true
   /\ 7 < Idx (governing_of
                 (ShiftVecCall LSL_V i8Bit (ZReg 0) (PRegMerge 15) (ZReg 0) (ZReg 1))))
  /\ aborts (governed FCMGT i16Bit (PReg 0) (ZReg 0) (PRegZero 8) (ZReg 1) (ZReg 2) [])
            []
  /\ emits_one_word
       (governed FCMGT i16Bit (PReg 0) (ZReg 0) (PRegZero 7) (ZReg 1) (ZReg 2) [])
       []
  /\ aborts
       (run_destructive
          (ShiftVecCall LSL_V i8Bit (ZReg 0) (PRegMerge 15) (ZReg 0) (ZReg 1)) [])
       [].
Proof.
  assert (H1 : 7 < Idx (PRegZero 8)) by (simpl; lia).
  assert (H2 : Idx (PRegZero 7) <= 7) by (simpl; lia).
  assert (H3 : governed_size_ok FCMGT i16Bit = true) by reflexivity.
  assert (H4 : 7 < Idx (governing_of
                   (ShiftVecCall LSL_V i8Bit (ZReg 0) (PRegMerge 15) (ZReg 0) (ZReg 1))))
    by (simpl; lia).
  split; [exact (conj H1 (conj H2 (conj H3 H4)))|].
  split; [|split].
  - exact (proj1 (governing_predicate_p0_p7 FCMGT i16Bit (PReg 0) (ZReg 0)
                    (PRegZero 8) (ZReg 1) (ZReg 2) []) H1).
  - exact (proj1 (proj2 (governing_predicate_p0_p7 FCMGT i16Bit (PReg 0) (ZReg 0)
                    (PRegZero 7) (ZReg 1) (ZReg 2) [])) H2 H3).
  - exact (proj2 (proj2 (governing_predicate_p0_p7 FCMGT i16Bit (PReg 0) (ZReg 0)
                    (PRegZero 7) (ZReg 1) (ZReg 2) [])) _ H4).
Defined.

(** C8: the compare-with-immediate forms make no check of their governing
    predicate, which has the three bits 12:10 of the word like that of the
    compare-vectors forms.  Called with p8, [cmphi] with an unsigned immediate
    and [cmpeq] with a signed immediate return after emitting a word, where the
    compare-vectors forms of the same mnemonics abort on the same predicate. *)
Theorem compare_imm_p8_not_rejected :
  emits (CompareUnsignedImm.cmphi i8Bit (PReg 0) (PRegZero 8) (ZReg 0) 0 [])
        [] 0x24202010
  /\ ~ aborts (CompareUnsignedImm.cmphi i8Bit (PReg 0) (PRegZero 8) (ZReg 0) 0 []) []
  /\ emits (CompareSignedImm.cmpeq i8Bit (PReg 0) (PRegZero 8) (ZReg 0) 0 [])
           [] 0x2500A000
  /\ ~ aborts (CompareSignedImm.cmpeq i8Bit (PReg 0) (PRegZero 8) (ZReg 0) 0 []) []
  /\ aborts (CompareVectors.cmphi i8Bit (PReg 0) (PRegZero 8) (ZReg 0) (ZReg 0) []) []
  /\ aborts (CompareVectors.cmpeq i8Bit (PReg 0) (PRegZero 8) (ZReg 0) (ZReg 0) []) [].
Proof.
  split; [reflexivity|]. split; [intros [msg Hmsg]; discriminate Hmsg|].
  split; [reflexivity|]. split; [intros [msg Hmsg]; discriminate Hmsg|].
  split; eexists; reflexivity.
Qed.

(** ** Load and store helpers on a memory operand *)

Ltac unfold_mem :=
  unfold
    ContiguousLoadScalarScalar.ld1b, ContiguousLoadScalarScalar.ld1sw,
    ContiguousLoadScalarScalar.ld1h, ContiguousLoadScalarScalar.ld1sh,
    ContiguousLoadScalarScalar.ld1w, ContiguousLoadScalarScalar.ld1sb,
    ContiguousLoadScalarScalar.ld1d,
    ContiguousStoreScalarScalar.st1b, ContiguousStoreScalarScalar.st1h,
    ContiguousStoreScalarScalar.st1w, ContiguousStoreScalarScalar.st1d,
    ContiguousLoadScalarImm.ld1b, ContiguousLoadScalarImm.ld1sw,
    ContiguousLoadScalarImm.ld1h, ContiguousLoadScalarImm.ld1sh,
    ContiguousLoadScalarImm.ld1w, ContiguousLoadScalarImm.ld1sb,
    ContiguousLoadScalarImm.ld1d,
    ContiguousStoreScalarImm.st1b, ContiguousStoreScalarImm.st1h,
    ContiguousStoreScalarImm.st1w, ContiguousStoreScalarImm.st1d.

Lemma mem_scalar_scalar_one_word h size zt pg rn rm buf :
  mem_size_ok h size = true ->
  emits_one_word (mem_scalar_scalar h size zt pg rn rm buf) buf.
Proof.
  intros Hsize.
  destruct h; cbn [mem_scalar_scalar mem_size_ok] in *; unfold_mem;
    rewrite ?static_assert_pass by exact Hsize;
    apply dc32_emits_one_word.
Qed.

Lemma mem_scalar_imm_one_word h size zt pg rn Imm buf :
  mem_size_ok h size = true -> -8 <= Imm <= 7 ->
  emits_one_word (mem_scalar_imm h size zt pg rn Imm buf) buf.
Proof.
  intros Hsize HImm.
  assert (Hchk : (Imm >=? -8) && (Imm <=? 7) = true)
    by (apply andb_true_iff; split; lia).
  destruct h; cbn [mem_scalar_imm mem_size_ok] in *; unfold_mem;
    rewrite assert_AA_pass by exact Hchk;
    rewrite ?static_assert_pass by exact Hsize;
    apply dc32_emits_one_word.
Qed.

Lemma mem_scalar_imm_out_of_range h size zt pg rn Imm buf :
  Imm < -8 \/ 7 < Imm ->
  aborts (mem_scalar_imm h size zt pg rn Imm buf) buf.
Proof.
  intros HImm.
  assert (Hchk : (Imm >=? -8) && (Imm <=? 7) = false)
    by (apply andb_false_iff; destruct HImm; [left | right]; lia).
  destruct h; cbn [mem_scalar_imm]; unfold_mem;
    rewrite assert_AA_fail by exact Hchk; apply aborts_intro.
Qed.

(** C9 as stated fails: ld1d on a scalar-plus-immediate operand with
    immediate 8 emits no word. *)
Lemma ld1d_scalar_imm_8_emits_nothing :
  ~ emits_one_word
      (mem_helper LD1D i64Bit (ZReg 0) (PReg 0)
         (MemOperand (Reg 0) (TYPE_SCALAR_IMM 8)) [])
      [].
Proof.
  intros (w & _ & Hw). unfold emits in Hw. discriminate Hw.
Qed.

(** C9, amended: every load/store helper hands a scalar-plus-scalar operand
    and a scalar-plus-immediate operand to the matching primitive; at an
    element size the helper compiles for, the call emits exactly one word for
    scalar-plus-scalar and for an immediate within -8..7; it aborts in the
    primitive's range check for an immediate outside -8..7; scalar-plus-vector
    and vector-plus-immediate operands abort with no word emitted. *)
Theorem mem_operand_dispatch h size zt pg Src buf :
  match MetaType Src with
  | TYPE_SCALAR_SCALAR rm =>
      mem_helper h size zt pg Src buf = mem_scalar_scalar h size zt pg (rn Src) rm buf
      /\ (mem_size_ok h size = true ->
          emits_one_word (mem_helper h size zt pg Src buf) buf)
  | TYPE_SCALAR_IMM Imm =>
      mem_helper h size zt pg Src buf = mem_scalar_imm h size zt pg (rn Src) Imm buf
      /\ (mem_size_ok h size = true -> -8 <= Imm <= 7 ->
          emits_one_word (mem_helper h size zt pg Src buf) buf)
      /\ (Imm < -8 \/ 7 < Imm -> aborts (mem_helper h size zt pg Src buf) buf)
  | TYPE_SCALAR_VECTOR _ | TYPE_VECTOR_IMM _ _ =>
      aborts (mem_helper h size zt pg Src buf) buf
  end.
Proof.
  destruct Src as [base [rm | Imm | zm | zn Imm]]; cbn [MetaType rn].
  - assert (Heq : mem_helper h size zt pg (MemOperand base (TYPE_SCALAR_SCALAR rm)) buf
                  = mem_scalar_scalar h size zt pg base rm buf)
      by (destruct h; reflexivity).
    split; [exact Heq|]. rewrite Heq.
    apply mem_scalar_scalar_one_word.
  - assert (Heq : mem_helper h size zt pg (MemOperand base (TYPE_SCALAR_IMM Imm)) buf
                  = mem_scalar_imm h size zt pg base Imm buf)
      by (destruct h; reflexivity).
    split; [exact Heq|]. rewrite Heq. split.
    + apply mem_scalar_imm_one_word.
    + apply mem_scalar_imm_out_of_range.
  - destruct h; apply aborts_intro.
  - destruct h; apply aborts_intro.
Qed.

Lemma mem_operand_dispatch_witness :
  (mem_size_ok LD1H i16Bit = true /\ -8 <= -8 <= 7 /\ (8 < -8 \/ 7 < 8))
  /\ emits_one_word
       (mem_helper LD1H i16Bit (ZReg 0) (PReg 1)
          (MemOperand (Reg 2) (TYPE_SCALAR_SCALAR (Reg 3))) []) []
  /\ emits_one_word
       (mem_helper LD1H i16Bit (ZReg 0) (PReg 1)
          (MemOperand (Reg 2) (TYPE_SCALAR_IMM (-8))) []) []
  /\ aborts
       (mem_helper LD1H i16Bit (ZReg 0) (PReg 1)
          (MemOperand (Reg 2) (TYPE_SCALAR_IMM 8)) []) []
  /\ aborts
       (mem_helper LD1H i16Bit (ZReg 0) (PReg 1)
          (MemOperand (Reg 2) (TYPE_SCALAR_VECTOR (ZReg 4))) []) []
  /\ aborts
       (mem_helper LD1H i16Bit (ZReg 0) (PReg 1)
          (MemOperand (Reg 2) (TYPE_VECTOR_IMM (ZReg 4) 0)) []) [].
Proof.
  assert (H1 : mem_size_ok LD1H i16Bit = true) by reflexivity.
  assert (H2 : -8 <= -8 <= 7) by lia.
  assert (H3 : 8 < -8 \/ 7 < 8) by lia.
  split; [exact (conj H1 (conj H2 H3))|].
  split; [|split; [|split; [|split]]].
  - exact (proj2 (mem_operand_dispatch LD1H i16Bit (ZReg 0) (PReg 1)
                    (MemOperand (Reg 2) (TYPE_SCALAR_SCALAR (Reg 3))) []) H1).
  - exact (proj1 (proj2 (mem_operand_dispatch LD1H i16Bit (ZReg 0) (PReg 1)
                    (MemOperand (Reg 2) (TYPE_SCALAR_IMM (-8))) [])) H1 H2).
  - exact (proj2 (proj2 (mem_operand_dispatch LD1H i16Bit (ZReg 0) (PReg 1)
                    (MemOperand (Reg 2) (TYPE_SCALAR_IMM 8)) [])) H3).
  - exact (mem_operand_dispatch LD1H i16Bit (ZReg 0) (PReg 1)
             (MemOperand (Reg 2) (TYPE_SCALAR_VECTOR (ZReg 4))) []).
  - exact (mem_operand_dispatch LD1H i16Bit (ZReg 0) (PReg 1)
             (MemOperand (Reg 2) (TYPE_VECTOR_IMM (ZReg 4) 0)) []).
Defined.

(** ** Compare with signed immediate *)

Lemma SVEIntegerCompareSignedImm_imm5 op o2 ne imm5 size
    (pg : PRegister) zn (pd : PRegister) buf :
  0 <= op < 2 -> 0 <= o2 < 4 -> 0 <= ne < 2 -> size <> i128Bit ->
  0 <= Idx pg < 16 -> 0 <= Idx zn < 32 -> 0 <= Idx pd < 16 ->
  exists w,
    emits (SVEIntegerCompareSignedImm op o2 ne imm5 size pg zn pd buf) buf w
    /\ bits 16 5 w = Z.land imm5 (bin "1'1111").
Proof.
  intros Hop Ho2 Hne Hsize Hpg Hzn Hpd.
  pose proof (ToUnderlying_range size Hsize) as Hsz.
  unfold SVEIntegerCompareSignedImm.
  eexists. split; [reflexivity|].
  fields.
Qed.

Ltac unfold_signed_imm :=
  unfold CompareSignedImm.cmpeq, CompareSignedImm.cmpgt, CompareSignedImm.cmpge,
    CompareSignedImm.cmplt, CompareSignedImm.cmple.

Lemma signed_imm_rejected m size pd pg zn imm buf :
  imm < -16 \/ 15 < imm ->
  aborts (signed_compare_imm m size pd pg zn imm buf) buf.
Proof.
  intros Hout.
  assert (Hchk : (imm >=? -16) && (imm <=? 15) = false).
  { apply andb_false_iff. destruct Hout; [left | right]; lia. }
  destruct m; cbn [signed_compare_imm]; unfold_signed_imm;
    size_check size;
    rewrite assert_AA_fail by exact Hchk; apply aborts_intro.
Qed.

Lemma signed_imm_field m size (pd : PRegister) (pg : PRegisterZero) zn imm buf :
  size <> i128Bit -> -16 <= imm <= 15 ->
  0 <= Idx pg < 16 -> 0 <= Idx zn < 32 -> 0 <= Idx pd < 16 ->
  exists w, emits (signed_compare_imm m size pd pg zn imm buf) buf w
            /\ bits 16 5 w = Z.land imm (bin "11111").
Proof.
  intros Hsize Himm Hpg Hzn Hpd.
  assert (Hchk : (imm >=? -16) && (imm <=? 15) = true).
  { apply andb_true_iff. split; lia. }
  assert (Hs : negb (SubRegSize_eqb size i128Bit) = true)
    by (destruct size; try reflexivity; contradiction).
  change (bin "11111") with (Z.ones 5).
  rewrite <- (land_u32_low imm 5) by lia.
  destruct m; cbn [signed_compare_imm]; unfold_signed_imm;
    rewrite assert_AA_pass by exact Hs;
    rewrite assert_AA_pass by exact Hchk;
    apply SVEIntegerCompareSignedImm_imm5; try lia; assumption.
Qed.

(** C10: cmpeq, cmpgt, cmpge, cmplt and cmple with a signed immediate abort
    on an immediate outside -16..15; a legal immediate, negative ones
    included, is stored in bits 20:16 as its low five two's complement bits,
    so -1 is stored as 0b11111. *)
Theorem signed_compare_imm_encoding m size (pd : PRegister) (pg : PRegisterZero)
    zn imm buf :
  (imm < -16 \/ 15 < imm ->
   aborts (signed_compare_imm m size pd pg zn imm buf) buf)
  /\ (size <> i128Bit -> -16 <= imm <= 15 ->
      0 <= Idx pg < 16 -> 0 <= Idx zn < 32 -> 0 <= Idx pd < 16 ->
      exists w, emits (signed_compare_imm m size pd pg zn imm buf) buf w
                /\ bits 16 5 w = Z.land imm (bin "11111"))
  /\ (size <> i128Bit ->
      0 <= Idx pg < 16 -> 0 <= Idx zn < 32 -> 0 <= Idx pd < 16 ->
      exists w, emits (signed_compare_imm m size pd pg zn (-1) buf) buf w
                /\ bits 16 5 w = bin "11111").
Proof.
  split; [|split].
  - apply signed_imm_rejected.
  - apply signed_imm_field.
  - intros Hsize Hpg Hzn Hpd.
    apply (signed_imm_field m size pd pg zn (-1) buf); try assumption. lia.
Qed.

Lemma signed_compare_imm_encoding_witness :
  ((-17 < -16 \/ 15 < -17) /\ i8Bit <> i128Bit /\ -16 <= -16 <= 15
   /\ 0 <= Idx (PRegZero 15) < 16 /\ 0 <= Idx (ZReg 31) < 32
   /\ 0 <= Idx (PReg 15) < 16)
  /\ aborts (signed_compare_imm CMPLT_I i8Bit (PReg 15) (PRegZero 15) (ZReg 31)
               (-17) []) []
  /\ (exists w,
        emits (signed_compare_imm CMPLT_I i8Bit (PReg 15) (PRegZero 15) (ZReg 31)
                 (-16) []) [] w
        /\ bits 16 5 w = Z.land (-16) (bin "11111"))
  /\ (exists w,
        emits (signed_compare_imm CMPLT_I i8Bit (PReg 15) (PRegZero 15) (ZReg 31)
                 (-1) []) [] w
        /\ bits 16 5 w = bin "11111").
Proof.
  assert (H0 : -17 < -16 \/ 15 < -17) by lia.
  assert (H1 : i8Bit <> i128Bit) by discriminate.
  assert (H2 : -16 <= -16 <= 15) by lia.
  assert (H3 : 0 <= Idx (PRegZero 15) < 16) by (simpl; lia).
  assert (H4 : 0 <= Idx (ZReg 31) < 32) by (simpl; lia).
  assert (H5 : 0 <= Idx (PReg 15) < 16) by (simpl; lia).
  split; [exact (conj H0 (conj H1 (conj H2 (conj H3 (conj H4 H5)))))|].
  split; [|split].
  - exact (proj1 (signed_compare_imm_encoding CMPLT_I i8Bit (PReg 15) (PRegZero 15)
                    (ZReg 31) (-17) []) H0).
  - exact (proj1 (proj2 (signed_compare_imm_encoding CMPLT_I i8Bit (PReg 15)
                           (PRegZero 15) (ZReg 31) (-16) [])) H1 H2 H3 H4 H5).
  - exact (proj2 (proj2 (signed_compare_imm_encoding CMPLT_I i8Bit (PReg 15)
                           (PRegZero 15) (ZReg 31) (-16) [])) H1 H3 H4 H5).
Defined.

(** * Properties of the further emitters *)

(** ** Shifts by immediate: rejected shift amounts *)

Lemma legal_shift_check_false (d : ShiftDirection) (size : SubRegSize) (Shift : Z) :
  ~ legal_shift d size Shift ->
  match d with
  | ShiftLeft => (Shift >=? 0) && (Shift <? SubRegSizeInBits size)
  | ShiftRight => (Shift >? 0) && (Shift <=? SubRegSizeInBits size)
  end = false.
Proof.
  destruct d; cbn [legal_shift]; intros Hl; apply andb_false_iff; lia.
Qed.

Lemma SVEBitWiseShiftImmediatePred_illegal size opc L U (pg : PRegister)
    zd zdn Shift buf :
  ~ legal_shift (direction_of_L L) size Shift ->
  aborts (SVEBitWiseShiftImmediatePred size opc L U pg zd zdn Shift buf) buf.
Proof.
  intros Hbad. pose proof (legal_shift_check_false _ _ _ Hbad) as Hchk.
  unfold SVEBitWiseShiftImmediatePred.
  rewrite <- (negb_involutive (SubRegSize_eqb size i128Bit)).
  destruct (negb (SubRegSize_eqb size i128Bit)); cbn [negb];
    [rewrite assert_AA_pass by reflexivity
    |rewrite assert_AA_fail by reflexivity; apply aborts_intro].
  destruct (reg_eqb zd zdn);
    [rewrite assert_A_pass by reflexivity
    |rewrite assert_A_fail by reflexivity; apply aborts_intro].
  destruct (reg_leb pg p7);
    [rewrite assert_A_pass by reflexivity
    |rewrite assert_A_fail by reflexivity; apply aborts_intro].
  unfold direction_of_L in Hchk.
  destruct (L =? 0); cbn [negb];
    rewrite assert_A_fail by exact Hchk; apply aborts_intro.
Qed.

Lemma SVEBitWiseShiftImmediateUnpred_illegal size opc zd zn Shift buf :
  ~ legal_shift (direction_of_opc opc) size Shift ->
  aborts (SVEBitWiseShiftImmediateUnpred size opc zd zn Shift buf) buf.
Proof.
  intros Hbad. pose proof (legal_shift_check_false _ _ _ Hbad) as Hchk.
  unfold SVEBitWiseShiftImmediateUnpred.
  rewrite <- (negb_involutive (SubRegSize_eqb size i128Bit)).
  destruct (negb (SubRegSize_eqb size i128Bit)); cbn [negb];
    [rewrite assert_AA_pass by reflexivity
    |rewrite assert_AA_fail by reflexivity; apply aborts_intro].
  unfold direction_of_opc in Hchk. change (bin "11") with 3.
  destruct (opc =? 3);
    rewrite assert_A_fail by exact Hchk; apply aborts_intro.
Qed.

Lemma direction_of_L_mnemonic m :
  match m with
  | ASR | LSR | ASRD | SRSHR | URSHR => direction_of_L 0
  | LSL | SQSHL | UQSHL | SQSHLU => direction_of_L 1
  end = direction_of m.
Proof. destruct m; reflexivity. Qed.

Ltac unfold_shift_imm_pred :=
  unfold ShiftByImmediatePredicated.asr, ShiftByImmediatePredicated.lsr,
    ShiftByImmediatePredicated.lsl, ShiftByImmediatePredicated.asrd,
    ShiftByImmediatePredicated.sqshl, ShiftByImmediatePredicated.uqshl,
    ShiftByImmediatePredicated.srshr, ShiftByImmediatePredicated.urshr,
    ShiftByImmediatePredicated.sqshlu.

Ltac unfold_shift_imm_unpred :=
  unfold ShiftByImmediateUnpredicated.asr, ShiftByImmediateUnpredicated.lsr,
    ShiftByImmediateUnpredicated.lsl.

(** X1: a shift by immediate, predicated or not, aborts on a shift amount outside
    the legal range of its direction, whatever its other operands: a right
    shift of 0 or of more than the element width, a left shift of the element
    width or more. *)
Theorem shift_imm_rejects_illegal_shift :
  (forall m size zd (pg : PRegisterMerge) zdn Shift buf,
      ~ legal_shift (direction_of m) size Shift ->
      aborts (shift_imm_pred m size zd pg zdn Shift buf) buf)
  /\ (forall m size zd zn Shift buf,
      ~ legal_shift (direction_of_unpred m) size Shift ->
      aborts (shift_imm_unpred m size zd zn Shift buf) buf).
Proof.
  split.
  - intros m size zd pg zdn Shift buf Hbad.
    destruct m; cbn [shift_imm_pred direction_of] in *; unfold_shift_imm_pred;
      apply SVEBitWiseShiftImmediatePred_illegal; exact Hbad.
  - intros m size zd zn Shift buf Hbad.
    destruct m; cbn [shift_imm_unpred direction_of_unpred] in *;
      unfold_shift_imm_unpred;
      apply SVEBitWiseShiftImmediateUnpred_illegal; exact Hbad.
Qed.

Lemma shift_imm_rejects_illegal_shift_witness :
  (~ legal_shift (direction_of LSR) i8Bit 0
   /\ ~ legal_shift (direction_of_unpred LSL_U) i8Bit 8)
  /\ aborts (shift_imm_pred LSR i8Bit (ZReg 0) (PRegMerge 0) (ZReg 0) 0 []) []
  /\ aborts (shift_imm_unpred LSL_U i8Bit (ZReg 0) (ZReg 1) 8 []) [].
Proof.
  assert (H1 : ~ legal_shift (direction_of LSR) i8Bit 0) by (simpl; lia).
  assert (H2 : ~ legal_shift (direction_of_unpred LSL_U) i8Bit 8) by (simpl; lia).
  split; [exact (conj H1 H2)|]. split.
  - exact (proj1 shift_imm_rejects_illegal_shift LSR i8Bit (ZReg 0) (PRegMerge 0)
             (ZReg 0) 0 [] H1).
  - exact (proj2 shift_imm_rejects_illegal_shift LSL_U i8Bit (ZReg 0) (ZReg 1)
             8 [] H2).
Defined.

(** ** SVE2 shifts by immediate *)

Lemma accumulate_layout (tszh tszl imm3 opc zn zd : Z) :
  0 <= tszh < 4 -> 0 <= tszl < 4 -> 0 <= imm3 < 8 -> 0 <= opc < 4 ->
  0 <= zn < 32 -> 0 <= zd < 32 ->
  let w := u32 (Z.lor (Z.lor (Z.lor (Z.lor (Z.lor (Z.lor
             (bin "0100'0101'0000'0000'1110'0000'0000'0000")
             (shl tszh 22)) (shl tszl 19)) (shl imm3 16)) (shl opc 10))
             (shl zn 5)) zd) in
  unpred_shift_fields w = (tszh, tszl, imm3)
  /\ bits 10 2 w = opc /\ bits 5 5 w = zn /\ bits 0 5 w = zd.
Proof.
  intros. subst w. unfold unpred_shift_fields.
  repeat split; repeat f_equal; fields.
Qed.

Lemma insert_layout (tszh tszl imm3 opc zn zd : Z) :
  0 <= tszh < 4 -> 0 <= tszl < 4 -> 0 <= imm3 < 8 -> 0 <= opc < 2 ->
  0 <= zn < 32 -> 0 <= zd < 32 ->
  let w := u32 (Z.lor (Z.lor (Z.lor (Z.lor (Z.lor (Z.lor
             (bin "0100'0101'0000'0000'1111'0000'0000'0000")
             (shl tszh 22)) (shl tszl 19)) (shl imm3 16)) (shl opc 10))
             (shl zn 5)) zd) in
  unpred_shift_fields w = (tszh, tszl, imm3)
  /\ bits 10 1 w = opc /\ bits 5 5 w = zn /\ bits 0 5 w = zd.
Proof.
  intros. subst w. unfold unpred_shift_fields.
  repeat split; repeat f_equal; fields.
Qed.

Lemma narrow_layout (tszh tszl imm3 opc U R T zn zd : Z) :
  0 <= tszh < 2 -> 0 <= tszl < 4 -> 0 <= imm3 < 8 ->
  0 <= opc < 2 -> 0 <= U < 2 -> 0 <= R < 2 -> 0 <= T < 2 ->
  0 <= zn < 32 -> 0 <= zd < 32 ->
  let w := u32 (Z.lor (Z.lor (Z.lor (Z.lor (Z.lor (Z.lor (Z.lor (Z.lor (Z.lor
             (shl (bin "0100'0101'0010'0000'00") 14)
             (shl tszh 22)) (shl tszl 19)) (shl imm3 16)) (shl opc 13))
             (shl U 12)) (shl R 11)) (shl T 10)) (shl zn 5)) zd) in
  unpred_shift_fields w = (tszh, tszl, imm3)
  /\ bits 10 4 w = 8 * opc + 4 * U + 2 * R + T
  /\ bits 5 5 w = zn /\ bits 0 5 w = zd.
Proof.
  intros Htszh Htszl Himm3 Hopc HU HR HT Hzn Hzd w. subst w.
  unfold unpred_shift_fields.
  split; [repeat f_equal; fields|].
  split; [|split; fields].
  assert (Eopc : opc = 0 \/ opc = 1) by lia.
  assert (EU : U = 0 \/ U = 1) by lia.
  assert (ER : R = 0 \/ R = 1) by lia.
  assert (ET : T = 0 \/ T = 1) by lia.
  destruct Eopc as [-> | ->], EU as [-> | ->], ER as [-> | ->], ET as [-> | ->];
    fields.
Qed.

Lemma SVE2BitwiseShiftRightAndAccumulate_decode size opc zda zn shift buf :
  size <> i128Bit -> 0 <= Idx zda < 32 -> 0 <= Idx zn < 32 -> 0 <= opc < 4 ->
  legal_shift ShiftRight size shift ->
  exists w,
    emits (SVE2BitwiseShiftRightAndAccumulate size opc zda zn shift buf) buf w
    /\ decode_shift ShiftRight (unpred_shift_fields w) = Some (size, shift)
    /\ bits 10 2 w = opc /\ bits 5 5 w = Idx zn /\ bits 0 5 w = Idx zda.
Proof.
  intros Hsize Hzda Hzn Hopc Hlegal.
  pose proof (legal_shift_check _ _ _ Hlegal) as Hchk.
  unfold SVE2BitwiseShiftRightAndAccumulate.
  rewrite assert_A_pass by (destruct size; try reflexivity; contradiction).
  rewrite assert_A_pass by exact Hchk.
  destruct size; try contradiction;
    cbn [SubRegSize_eqb SubRegSizeInBits legal_shift] in *;
    run_emit; unfold emits, dc32;
    eexists; (split; [reflexivity|]);
    match goal with
    | |- context [u32 (Z.lor (Z.lor (Z.lor (Z.lor (Z.lor (Z.lor _
                    (shl ?tszh 22)) (shl ?tszl 19)) (shl ?imm3 16)) _) _) _)] =>
        destruct (accumulate_layout tszh tszl imm3 opc (Idx zn) (Idx zda))
          as (Hf & Ho & Hn & Hd);
        [(eval_bin; bound) ..|]
    end;
    (split; [|exact (conj Ho (conj Hn Hd))]);
    rewrite Hf;
    (apply decode_of_split; [discriminate | exact Hlegal | split_arith]).
Qed.

Lemma SVE2BitwiseShiftRightAndAccumulate_rejects size opc zda zn shift buf :
  size = i128Bit \/ ~ legal_shift ShiftRight size shift ->
  aborts (SVE2BitwiseShiftRightAndAccumulate size opc zda zn shift buf) buf.
Proof.
  intros Hbad. unfold SVE2BitwiseShiftRightAndAccumulate.
  destruct (SubRegSize_eqb size i128Bit) eqn:E; cbn [negb].
  - rewrite assert_A_fail by reflexivity. apply aborts_intro.
  - rewrite assert_A_pass by reflexivity.
    destruct Hbad as [-> | Hbad]; [discriminate E|].
    rewrite assert_A_fail by exact (legal_shift_check_false _ _ _ Hbad).
    apply aborts_intro.
Qed.

Lemma SVE2BitwiseShiftAndInsert_decode size opc zd zn shift buf :
  size <> i128Bit -> 0 <= Idx zd < 32 -> 0 <= Idx zn < 32 -> 0 <= opc < 2 ->
  legal_shift (direction_of_L opc) size shift ->
  exists w,
    emits (SVE2BitwiseShiftAndInsert size opc zd zn shift buf) buf w
    /\ decode_shift (direction_of_L opc) (unpred_shift_fields w)
       = Some (size, shift)
    /\ bits 10 1 w = opc /\ bits 5 5 w = Idx zn /\ bits 0 5 w = Idx zd.
Proof.
  intros Hsize Hzd Hzn Hopc Hlegal.
  pose proof (legal_shift_check _ _ _ Hlegal) as Hchk.
  unfold SVE2BitwiseShiftAndInsert.
  rewrite assert_A_pass by (destruct size; try reflexivity; contradiction).
  assert (Hcases : opc = 0 \/ opc = 1) by lia.
  destruct Hcases as [-> | ->];
    unfold direction_of_L in *; cbn [Z.eqb negb] in *;
    rewrite assert_A_pass by exact Hchk;
    (destruct size; try contradiction);
    cbn [SubRegSize_eqb SubRegSizeInBits legal_shift] in *;
    run_emit; unfold emits, dc32;
    eexists; (split; [reflexivity|]);
    match goal with
    | |- context [u32 (Z.lor (Z.lor (Z.lor (Z.lor (Z.lor (Z.lor _
                    (shl ?tszh 22)) (shl ?tszl 19)) (shl ?imm3 16))
                    (shl ?o 10)) _) _)] =>
        destruct (insert_layout tszh tszl imm3 o (Idx zn) (Idx zd))
          as (Hf & Ho & Hn & Hd);
        [(eval_bin; bound) ..|]
    end;
    (split; [|exact (conj Ho (conj Hn Hd))]);
    rewrite Hf;
    (apply decode_of_split; [discriminate | exact Hlegal | split_arith]).
Qed.

Lemma SVE2BitwiseShiftAndInsert_rejects size opc zd zn shift buf :
  size = i128Bit \/ ~ legal_shift (direction_of_L opc) size shift ->
  aborts (SVE2BitwiseShiftAndInsert size opc zd zn shift buf) buf.
Proof.
  intros Hbad. unfold SVE2BitwiseShiftAndInsert.
  destruct (SubRegSize_eqb size i128Bit) eqn:E; cbn [negb].
  - rewrite assert_A_fail by reflexivity. apply aborts_intro.
  - rewrite assert_A_pass by reflexivity.
    destruct Hbad as [-> | Hbad]; [discriminate E|].
    pose proof (legal_shift_check_false _ _ _ Hbad) as Hchk.
    unfold direction_of_L in Hchk.
    destruct (opc =? 0); cbn [negb];
      rewrite assert_A_fail by exact Hchk; apply aborts_intro.
Qed.

Lemma SVE2BitwiseShiftRightNarrow_decode size shift opc U R T zn zd buf :
  size <> i128Bit -> size <> i64Bit ->
  0 <= Idx zd < 32 -> 0 <= Idx zn < 32 ->
  0 <= opc < 2 -> 0 <= U < 2 -> 0 <= R < 2 -> 0 <= T < 2 ->
  legal_shift ShiftRight size shift ->
  exists w,
    emits (SVE2BitwiseShiftRightNarrow size shift opc U R T zn zd buf) buf w
    /\ decode_shift ShiftRight (unpred_shift_fields w) = Some (size, shift)
    /\ bits 10 4 w = 8 * opc + 4 * U + 2 * R + T
    /\ bits 5 5 w = Idx zn /\ bits 0 5 w = Idx zd.
Proof.
  intros Hsize Hsize' Hzd Hzn Hopc HU HR HT Hlegal.
  pose proof (legal_shift_check _ _ _ Hlegal) as Hchk.
  unfold SVE2BitwiseShiftRightNarrow.
  rewrite assert_AA_pass by (destruct size; try reflexivity; contradiction).
  destruct size; try contradiction;
    cbn [SubRegSize_eqb SubRegSizeInBits legal_shift] in *;
    run_emit; rewrite Hchk; cbn beta iota; unfold emits, dc32;
    eexists; (split; [reflexivity|]);
    match goal with
    | |- context [u32 (Z.lor (Z.lor (Z.lor (Z.lor (Z.lor (Z.lor (Z.lor
                    (Z.lor (Z.lor _
                    (shl ?tszh 22)) (shl ?tszl 19)) (shl ?imm3 16))
                    _) _) _) _) _) _)] =>
        destruct (narrow_layout tszh tszl imm3 opc U R T (Idx zn) (Idx zd))
          as (Hf & Ho & Hn & Hd);
        [(eval_bin; bound) ..|]
    end;
    (split; [|exact (conj Ho (conj Hn Hd))]);
    rewrite Hf;
    (apply decode_of_split; [discriminate | exact Hlegal | split_arith]).
Qed.

Lemma SVE2BitwiseShiftRightNarrow_rejects size shift opc U R T zn zd buf :
  size = i128Bit \/ size = i64Bit \/ ~ legal_shift ShiftRight size shift ->
  aborts (SVE2BitwiseShiftRightNarrow size shift opc U R T zn zd buf) buf.
Proof.
  intros Hbad. unfold SVE2BitwiseShiftRightNarrow.
  destruct size; cbn [SubRegSize_eqb negb andb];
    try (rewrite assert_AA_fail by reflexivity; apply aborts_intro);
    rewrite assert_AA_pass by reflexivity;
    (destruct Hbad as [Hbad | [Hbad | Hbad]]; try discriminate Hbad);
    pose proof (legal_shift_check_false _ _ _ Hbad) as Hchk;
    cbn [SubRegSizeInBits] in Hchk;
    run_emit; rewrite Hchk; apply aborts_intro.
Qed.

Lemma SVE2BitwiseShiftLeftLong_decode size h opc zd zn shift buf :
  half_size size = Some h -> 0 <= Idx zd < 32 -> 0 <= Idx zn < 32 ->
  0 <= opc < 4 -> legal_shift ShiftLeft h shift ->
  exists w,
    emits (SVE2BitwiseShiftLeftLong size opc zd zn shift buf) buf w
    /\ decode_shift ShiftLeft (unpred_shift_fields w) = Some (h, shift)
    /\ bits 10 2 w = opc /\ bits 5 5 w = Idx zn /\ bits 0 5 w = Idx zd.
Proof.
  intros Hhalf Hzd Hzn Hopc Hlegal.
  pose proof (legal_shift_check _ _ _ Hlegal) as Hchk.
  unfold SVE2BitwiseShiftLeftLong.
  destruct size; try discriminate Hhalf; injection Hhalf as <-;
    cbn [SubRegSize_eqb negb andb ToUnderlying];
    rewrite assert_A_pass by reflexivity;
    match goal with
    | |- context [FromUnderlying ?u] =>
        let v := eval vm_compute in (FromUnderlying u) in
        change (FromUnderlying u) with v
    end;
    rewrite assert_A_pass by exact Hchk;
    unfold emits, dc32; eexists; (split; [reflexivity|]);
    try match goal with
    | |- context [shl (shl 1 19) ?u] =>
        let v := eval vm_compute in (shl (shl 1 19) u) in
        change (shl (shl 1 19) u) with v
    end;
    try change (shl 1 22) with 4194304;
    cbn [legal_shift SubRegSizeInBits] in Hlegal; clear Hchk;
    unfold unpred_shift_fields;
    (split; [eval_bin; repeat field_step|repeat split; fields]).
  - enumerate shift 8%nat; fields.
  - enumerate shift 16%nat; fields.
  - enumerate shift 32%nat; fields.
Qed.

Lemma SVE2BitwiseShiftLeftLong_rejects size opc zd zn shift buf :
  half_size size = None
  \/ (exists h, half_size size = Some h /\ ~ legal_shift ShiftLeft h shift) ->
  aborts (SVE2BitwiseShiftLeftLong size opc zd zn shift buf) buf.
Proof.
  intros Hbad. unfold SVE2BitwiseShiftLeftLong.
  destruct size; cbn [SubRegSize_eqb negb andb ToUnderlying half_size] in *;
    try (rewrite assert_A_fail by reflexivity; apply aborts_intro);
    rewrite assert_A_pass by reflexivity;
    (destruct Hbad as [Hbad | (h & Hh & Hbad)]; [discriminate Hbad|]);
    injection Hh as <-;
    pose proof (legal_shift_check_false _ _ _ Hbad) as Hchk;
    rewrite assert_A_fail by exact Hchk; apply aborts_intro.
Qed.

Lemma SVE2SaturatingExtractNarrow_decode size opc T zn zd buf :
  size <> i128Bit -> size <> i64Bit ->
  0 <= Idx zd < 32 -> 0 <= Idx zn < 32 -> 0 <= opc < 4 -> 0 <= T < 2 ->
  exists w,
    emits (SVE2SaturatingExtractNarrow size opc T zn zd buf) buf w
    /\ decode_size (bits 22 2 w) (bits 19 2 w) = Some size
    /\ bits 16 3 w = 0
    /\ bits 10 3 w = 2 * opc + T
    /\ bits 5 5 w = Idx zn /\ bits 0 5 w = Idx zd.
Proof.
  intros Hsize Hsize' Hzd Hzn Hopc HT.
  unfold SVE2SaturatingExtractNarrow.
  rewrite assert_AA_pass by (destruct size; try reflexivity; contradiction).
  assert (Eopc : opc = 0 \/ opc = 1 \/ opc = 2 \/ opc = 3) by lia.
  assert (ET : T = 0 \/ T = 1) by lia.
  destruct size; try contradiction;
    cbn [SubRegSize_eqb]; run_emit; unfold emits, dc32;
    eexists; (split; [reflexivity|]);
    (split; [fields|]); (split; [fields|]); (split; [|split; fields]);
    destruct Eopc as [-> | [-> | [-> | ->]]], ET as [-> | ->]; fields.
Qed.

Lemma SVE2SaturatingExtractNarrow_rejects size opc T zn zd buf :
  size = i128Bit \/ size = i64Bit ->
  aborts (SVE2SaturatingExtractNarrow size opc T zn zd buf) buf.
Proof.
  intros [-> | ->]; unfold SVE2SaturatingExtractNarrow;
    cbn [SubRegSize_eqb negb andb];
    rewrite assert_AA_fail by reflexivity; apply aborts_intro.
Qed.

(** X2: the four accumulating right shifts (ssra, usra, srsra, ursra) emit one
    word from which the element size, the shift amount, the mnemonic and both
    registers are read back, for element sizes of 8 to 64 bits and a shift of
    1 up to the element width; with a 128-bit size or any other shift amount
    they abort and emit nothing. *)
Theorem accumulate_shift_round_trip m size zda zn shift buf :
  0 <= Idx zda < 32 -> 0 <= Idx zn < 32 ->
  (size <> i128Bit /\ legal_shift ShiftRight size shift ->
   exists w,
     emits (accumulate_shift m size zda zn shift buf) buf w
     /\ decode_shift ShiftRight (unpred_shift_fields w) = Some (size, shift)
     /\ accumulate_shift_of_bits (bits 10 2 w) = Some m
     /\ bits 5 5 w = Idx zn /\ bits 0 5 w = Idx zda)
  /\ (size = i128Bit \/ ~ legal_shift ShiftRight size shift ->
      aborts (accumulate_shift m size zda zn shift buf) buf).
Proof.
  intros Hzda Hzn. split.
  - intros [Hsize Hlegal].
    destruct m; cbn [accumulate_shift]; unfold ssra, usra, srsra, ursra;
      match goal with
      | |- context [SVE2BitwiseShiftRightAndAccumulate size ?opc] =>
          destruct (SVE2BitwiseShiftRightAndAccumulate_decode
                      size opc zda zn shift buf)
            as (w & Hw & Hdec & Hopc & Hn & Hd);
          [assumption | assumption | assumption | eval_bin; lia | assumption |]
      end;
      exists w; repeat split; try assumption;
      rewrite Hopc; reflexivity.
  - intros Hbad.
    destruct m; cbn [accumulate_shift]; unfold ssra, usra, srsra, ursra;
      apply SVE2BitwiseShiftRightAndAccumulate_rejects; exact Hbad.
Qed.

Lemma accumulate_shift_round_trip_witness :
  (0 <= Idx (ZReg 1) < 32 /\ 0 <= Idx (ZReg 2) < 32
   /\ i16Bit <> i128Bit /\ legal_shift ShiftRight i16Bit 5)
  /\ exists w,
      emits (accumulate_shift USRA i16Bit (ZReg 1) (ZReg 2) 5 []) [] w
      /\ decode_shift ShiftRight (unpred_shift_fields w) = Some (i16Bit, 5)
      /\ accumulate_shift_of_bits (bits 10 2 w) = Some USRA
      /\ bits 5 5 w = Idx (ZReg 2) /\ bits 0 5 w = Idx (ZReg 1).
Proof.
  assert (H1 : 0 <= Idx (ZReg 1) < 32) by (simpl; lia).
  assert (H2 : 0 <= Idx (ZReg 2) < 32) by (simpl; lia).
  assert (H3 : i16Bit <> i128Bit) by discriminate.
  assert (H4 : legal_shift ShiftRight i16Bit 5) by (simpl; lia).
  split; [exact (conj H1 (conj H2 (conj H3 H4)))|].
  exact (proj1 (accumulate_shift_round_trip USRA i16Bit (ZReg 1) (ZReg 2) 5 []
                  H1 H2) (conj H3 H4)).
Defined.

(** X3: sri and sli emit one word from which the element size, the shift
    amount, the mnemonic and both registers are read back; sri takes a shift
    of 1 up to the element width, sli a shift of 0 up to the element width
    minus 1, and either aborts on a 128-bit size or on a shift outside its
    range. *)
Theorem insert_shift_round_trip m size zda zn shift buf :
  0 <= Idx zda < 32 -> 0 <= Idx zn < 32 ->
  (size <> i128Bit /\ legal_shift (direction_of_insert m) size shift ->
   exists w,
     emits (insert_shift m size zda zn shift buf) buf w
     /\ decode_shift (direction_of_insert m) (unpred_shift_fields w)
        = Some (size, shift)
     /\ insert_shift_of_bits (bits 10 1 w) = Some m
     /\ bits 5 5 w = Idx zn /\ bits 0 5 w = Idx zda)
  /\ (size = i128Bit \/ ~ legal_shift (direction_of_insert m) size shift ->
      aborts (insert_shift m size zda zn shift buf) buf).
Proof.
  intros Hzda Hzn. split.
  - intros [Hsize Hlegal].
    destruct m; cbn [insert_shift direction_of_insert] in *; unfold sri, sli;
      match goal with
      | |- context [SVE2BitwiseShiftAndInsert size ?opc] =>
          destruct (SVE2BitwiseShiftAndInsert_decode size opc zda zn shift buf)
            as (w & Hw & Hdec & Hopc & Hn & Hd);
          [assumption | assumption | assumption | eval_bin; lia | assumption |]
      end;
      exists w; repeat split; try assumption;
      rewrite Hopc; reflexivity.
  - intros Hbad.
    destruct m; cbn [insert_shift direction_of_insert] in *; unfold sri, sli;
      apply SVE2BitwiseShiftAndInsert_rejects; exact Hbad.
Qed.

Lemma insert_shift_round_trip_witness :
  (0 <= Idx (ZReg 3) < 32 /\ 0 <= Idx (ZReg 4) < 32
   /\ i32Bit <> i128Bit /\ legal_shift (direction_of_insert SLI) i32Bit 0)
  /\ exists w,
      emits (insert_shift SLI i32Bit (ZReg 3) (ZReg 4) 0 []) [] w
      /\ decode_shift (direction_of_insert SLI) (unpred_shift_fields w)
         = Some (i32Bit, 0)
      /\ insert_shift_of_bits (bits 10 1 w) = Some SLI
      /\ bits 5 5 w = Idx (ZReg 4) /\ bits 0 5 w = Idx (ZReg 3).
Proof.
  assert (H1 : 0 <= Idx (ZReg 3) < 32) by (simpl; lia).
  assert (H2 : 0 <= Idx (ZReg 4) < 32) by (simpl; lia).
  assert (H3 : i32Bit <> i128Bit) by discriminate.
  assert (H4 : legal_shift (direction_of_insert SLI) i32Bit 0) by (simpl; lia).
  split; [exact (conj H1 (conj H2 (conj H3 H4)))|].
  exact (proj1 (insert_shift_round_trip SLI i32Bit (ZReg 3) (ZReg 4) 0 []
                  H1 H2) (conj H3 H4)).
Defined.

(** X4: each of the sixteen narrowing right shifts (sqshrunb to uqrshrnt)
    emits one word from which the element size, the shift amount, the
    mnemonic and both registers are read back, for element sizes of 8, 16 and
    32 bits and a shift of 1 up to the element width; with a 64-bit or 128-bit
    size or any other shift amount it aborts and emits nothing. *)
Theorem narrow_shift_round_trip m size zd zn Shift buf :
  0 <= Idx zd < 32 -> 0 <= Idx zn < 32 ->
  (size <> i128Bit /\ size <> i64Bit /\ legal_shift ShiftRight size Shift ->
   exists w,
     emits (narrow_shift m size zd zn Shift buf) buf w
     /\ decode_shift ShiftRight (unpred_shift_fields w) = Some (size, Shift)
     /\ narrow_shift_of_bits (bits 10 4 w) = Some m
     /\ bits 5 5 w = Idx zn /\ bits 0 5 w = Idx zd)
  /\ (size = i128Bit \/ size = i64Bit \/ ~ legal_shift ShiftRight size Shift ->
      aborts (narrow_shift m size zd zn Shift buf) buf).
Proof.
  intros Hzd Hzn. split.
  - intros (Hsize & Hsize' & Hlegal).
    destruct m; cbn [narrow_shift];
      unfold sqshrunb, sqshrunt, sqrshrunb, sqrshrunt, shrnb, shrnt, rshrnb,
        rshrnt, sqshrnb, sqshrnt, sqrshrnb, sqrshrnt, uqshrnb, uqshrnt,
        uqrshrnb, uqrshrnt;
      match goal with
      | |- context [SVE2BitwiseShiftRightNarrow size Shift ?opc ?U ?R ?T] =>
          destruct (SVE2BitwiseShiftRightNarrow_decode
                      size Shift opc U R T zn zd buf)
            as (w & Hw & Hdec & Hsel & Hn & Hd);
          [assumption | assumption | assumption | assumption
          | lia | lia | lia | lia | assumption |]
      end;
      exists w; repeat split; try assumption;
      rewrite Hsel; reflexivity.
  - intros Hbad.
    destruct m; cbn [narrow_shift];
      unfold sqshrunb, sqshrunt, sqrshrunb, sqrshrunt, shrnb, shrnt, rshrnb,
        rshrnt, sqshrnb, sqshrnt, sqrshrnb, sqrshrnt, uqshrnb, uqshrnt,
        uqrshrnb, uqrshrnt;
      apply SVE2BitwiseShiftRightNarrow_rejects; exact Hbad.
Qed.

Lemma narrow_shift_round_trip_witness :
  (0 <= Idx (ZReg 5) < 32 /\ 0 <= Idx (ZReg 6) < 32
   /\ i32Bit <> i128Bit /\ i32Bit <> i64Bit
   /\ legal_shift ShiftRight i32Bit 32)
  /\ exists w,
      emits (narrow_shift RSHRNT i32Bit (ZReg 5) (ZReg 6) 32 []) [] w
      /\ decode_shift ShiftRight (unpred_shift_fields w) = Some (i32Bit, 32)
      /\ narrow_shift_of_bits (bits 10 4 w) = Some RSHRNT
      /\ bits 5 5 w = Idx (ZReg 6) /\ bits 0 5 w = Idx (ZReg 5).
Proof.
  assert (H1 : 0 <= Idx (ZReg 5) < 32) by (simpl; lia).
  assert (H2 : 0 <= Idx (ZReg 6) < 32) by (simpl; lia).
  assert (H3 : i32Bit <> i128Bit) by discriminate.
  assert (H4 : i32Bit <> i64Bit) by discriminate.
  assert (H5 : legal_shift ShiftRight i32Bit 32) by (simpl; lia).
  split; [exact (conj H1 (conj H2 (conj H3 (conj H4 H5))))|].
  exact (proj1 (narrow_shift_round_trip RSHRNT i32Bit (ZReg 5) (ZReg 6) 32 []
                  H1 H2) (conj H3 (conj H4 H5))).
Defined.

(** X5: the widening left shifts (sshllb, sshllt, ushllb, ushllt) take the
    size of the result elements and encode the shift against the source
    elements, half as wide: the emitted word decodes, with the size/shift
    scheme of the other shifts, to the half size and the shift, for a shift
    of 0 up to the half width minus 1.  With an 8-bit or 128-bit size, or a
    shift of the half width or more, they abort and emit nothing. *)
Theorem long_shift_round_trip m size zd zn shift buf :
  0 <= Idx zd < 32 -> 0 <= Idx zn < 32 ->
  (forall h,
      half_size size = Some h /\ legal_shift ShiftLeft h shift ->
      exists w,
        emits (long_shift m size zd zn shift buf) buf w
        /\ decode_shift ShiftLeft (unpred_shift_fields w) = Some (h, shift)
        /\ long_shift_of_bits (bits 10 2 w) = Some m
        /\ bits 5 5 w = Idx zn /\ bits 0 5 w = Idx zd)
  /\ (half_size size = None
      \/ (exists h, half_size size = Some h /\ ~ legal_shift ShiftLeft h shift) ->
      aborts (long_shift m size zd zn shift buf) buf).
Proof.
  intros Hzd Hzn. split.
  - intros h [Hhalf Hlegal].
    destruct m; cbn [long_shift]; unfold sshllb, sshllt, ushllb, ushllt;
      match goal with
      | |- context [SVE2BitwiseShiftLeftLong size ?opc] =>
          destruct (SVE2BitwiseShiftLeftLong_decode size h opc zd zn shift buf)
            as (w & Hw & Hdec & Hopc & Hn & Hd);
          [assumption | assumption | assumption | eval_bin; lia | assumption |]
      end;
      exists w; repeat split; try assumption;
      rewrite Hopc; reflexivity.
  - intros Hbad.
    destruct m; cbn [long_shift]; unfold sshllb, sshllt, ushllb, ushllt;
      apply SVE2BitwiseShiftLeftLong_rejects; exact Hbad.
Qed.

Lemma long_shift_round_trip_witness :
  (0 <= Idx (ZReg 7) < 32 /\ 0 <= Idx (ZReg 8) < 32
   /\ half_size i64Bit = Some i32Bit /\ legal_shift ShiftLeft i32Bit 31)
  /\ exists w,
      emits (long_shift USHLLT i64Bit (ZReg 7) (ZReg 8) 31 []) [] w
      /\ decode_shift ShiftLeft (unpred_shift_fields w) = Some (i32Bit, 31)
      /\ long_shift_of_bits (bits 10 2 w) = Some USHLLT
      /\ bits 5 5 w = Idx (ZReg 8) /\ bits 0 5 w = Idx (ZReg 7).
Proof.
  assert (H1 : 0 <= Idx (ZReg 7) < 32) by (simpl; lia).
  assert (H2 : 0 <= Idx (ZReg 8) < 32) by (simpl; lia).
  assert (H3 : half_size i64Bit = Some i32Bit) by reflexivity.
  assert (H4 : legal_shift ShiftLeft i32Bit 31) by (simpl; lia).
  split; [exact (conj H1 (conj H2 (conj H3 H4)))|].
  exact (proj1 (long_shift_round_trip USHLLT i64Bit (ZReg 7) (ZReg 8) 31 []
                  H1 H2) i32Bit (conj H3 H4)).
Defined.

(** X6: the six saturating extract narrows (sqxtnb to sqxtunt) emit, for
    element sizes of 8, 16 and 32 bits, one word whose size marker decodes to
    the element size with a zero immediate field, and from which the mnemonic
    and both registers are read back; with a 64-bit or 128-bit size they
    abort and emit nothing. *)
Theorem extract_narrow_round_trip m size zd zn buf :
  0 <= Idx zd < 32 -> 0 <= Idx zn < 32 ->
  (size <> i128Bit /\ size <> i64Bit ->
   exists w,
     emits (extract_narrow m size zd zn buf) buf w
     /\ decode_size (bits 22 2 w) (bits 19 2 w) = Some size
     /\ bits 16 3 w = 0
     /\ extract_narrow_of_bits (bits 10 3 w) = Some m
     /\ bits 5 5 w = Idx zn /\ bits 0 5 w = Idx zd)
  /\ (size = i128Bit \/ size = i64Bit ->
      aborts (extract_narrow m size zd zn buf) buf).
Proof.
  intros Hzd Hzn. split.
  - intros [Hsize Hsize'].
    destruct m; cbn [extract_narrow];
      unfold sqxtnb, sqxtnt, uqxtnb, uqxtnt, sqxtunb, sqxtunt;
      match goal with
      | |- context [SVE2SaturatingExtractNarrow size ?opc ?T] =>
          destruct (SVE2SaturatingExtractNarrow_decode size opc T zn zd buf)
            as (w & Hw & Hdec & Himm & Hsel & Hn & Hd);
          [assumption | assumption | assumption | assumption
          | eval_bin; lia | lia |]
      end;
      exists w; repeat split; try assumption;
      rewrite Hsel; reflexivity.
  - intros Hbad.
    destruct m; cbn [extract_narrow];
      unfold sqxtnb, sqxtnt, uqxtnb, uqxtnt, sqxtunb, sqxtunt;
      apply SVE2SaturatingExtractNarrow_rejects; exact Hbad.
Qed.

Lemma extract_narrow_round_trip_witness :
  (0 <= Idx (ZReg 9) < 32 /\ 0 <= Idx (ZReg 10) < 32
   /\ i16Bit <> i128Bit /\ i16Bit <> i64Bit)
  /\ exists w,
      emits (extract_narrow SQXTUNT i16Bit (ZReg 9) (ZReg 10) []) [] w
      /\ decode_size (bits 22 2 w) (bits 19 2 w) = Some i16Bit
      /\ bits 16 3 w = 0
      /\ extract_narrow_of_bits (bits 10 3 w) = Some SQXTUNT
      /\ bits 5 5 w = Idx (ZReg 10) /\ bits 0 5 w = Idx (ZReg 9).
Proof.
  assert (H1 : 0 <= Idx (ZReg 9) < 32) by (simpl; lia).
  assert (H2 : 0 <= Idx (ZReg 10) < 32) by (simpl; lia).
  assert (H3 : i16Bit <> i128Bit) by discriminate.
  assert (H4 : i16Bit <> i64Bit) by discriminate.
  split; [exact (conj H1 (conj H2 (conj H3 H4)))|].
  exact (proj1 (extract_narrow_round_trip SQXTUNT i16Bit (ZReg 9) (ZReg 10) []
                  H1 H2) (conj H3 H4)).
Defined.

(** ** Signed immediates *)

Lemma land_ones_signed (k v : Z) :
  0 < k -> - 2 ^ (k - 1) <= v < 2 ^ (k - 1) ->
  Z.land v (Z.ones k) = if v <? 0 then v + 2 ^ k else v.
Proof.
  intros Hk Hv.
  assert (Hpow : 2 ^ k = 2 * 2 ^ (k - 1)).
  { rewrite <- Z.pow_succ_r by lia. f_equal. lia. }
  rewrite Z.land_ones by lia.
  destruct (Z.ltb_spec v 0).
  - symmetry. apply (Z.mod_unique v (2 ^ k) (-1)); lia.
  - apply Z.mod_small. lia.
Qed.

Lemma sext_land (k v : Z) :
  0 < k -> - 2 ^ (k - 1) <= v < 2 ^ (k - 1) ->
  sext k (Z.land v (Z.ones k)) = v.
Proof.
  intros Hk Hv.
  assert (Hpow : 2 ^ k = 2 * 2 ^ (k - 1)).
  { rewrite <- Z.pow_succ_r by lia. f_equal. lia. }
  rewrite land_ones_signed by assumption. unfold sext.
  destruct (Z.ltb_spec v 0).
  - destruct (Z.ltb_spec (v + 2 ^ k) (2 ^ (k - 1))); lia.
  - destruct (Z.ltb_spec v (2 ^ (k - 1))); lia.
Qed.

Lemma sext_field (k v : Z) :
  0 < k <= 32 -> - 2 ^ (k - 1) <= v < 2 ^ (k - 1) ->
  sext k (Z.land (u32 v) (Z.ones k)) = v.
Proof.
  intros Hk Hv. rewrite land_u32_low by lia. apply sext_land; lia.
Qed.

Lemma s32_small (x : Z) : 0 <= x < 2 ^ 31 -> s32 x = x.
Proof.
  intros Hx. unfold s32. rewrite u32_small by lia.
  destruct (Z.ltb_spec x (2 ^ 31)); lia.
Qed.

Lemma land_small (k x : Z) : 0 <= x < 2 ^ k -> Z.land x (Z.ones k) = x.
Proof.
  intros Hx.
  assert (0 <= k).
  { destruct (Z.ltb_spec k 0); [rewrite Z.pow_neg_r in Hx by lia; lia | lia]. }
  rewrite Z.land_ones by lia. apply Z.mod_small. exact Hx.
Qed.

Lemma split_low3 (x : Z) :
  0 <= x < 2 ^ 32 -> 8 * shr x 3 + Z.land x 7 = x.
Proof.
  intros Hx. rewrite shr_small by exact Hx.
  change 7 with (Z.ones 3).
  rewrite Z.shiftr_div_pow2, Z.land_ones by lia.
  change (2 ^ 3) with 8. symmetry. apply Z.div_mod. lia.
Qed.

(** ** index *)

Lemma SVEIndexGeneration_fields op size zd imm5 imm5b buf :
  size <> i128Bit -> 0 <= op < 4 -> 0 <= Idx zd < 32 ->
  exists w,
    emits (SVEIndexGeneration op size zd imm5 imm5b buf) buf w
    /\ bits 22 2 w = ToUnderlying size
    /\ bits 10 2 w = op
    /\ bits 5 5 w = Z.land (u32 imm5) (Z.ones 5)
    /\ bits 16 5 w = Z.land (u32 imm5b) (Z.ones 5)
    /\ bits 0 5 w = Idx zd.
Proof.
  intros Hsize Hop Hzd. unfold SVEIndexGeneration.
  rewrite assert_A_pass by (destruct size; try reflexivity; contradiction).
  unfold emits, dc32. eexists. split; [reflexivity|].
  change (Z.ones 5) with 31.
  destruct size; try contradiction; cbn [ToUnderlying];
    repeat split; fields.
Qed.

Lemma index_field_imm (v : Z) :
  -16 <= v <= 15 ->
  decode_index_operand false (Z.land (u32 v) (Z.ones 5)) = IndexImm v.
Proof.
  intros Hv. unfold decode_index_operand.
  rewrite sext_field by (cbn; lia). reflexivity.
Qed.

Lemma index_field_reg (r : Register) :
  0 <= Idx r < 32 ->
  decode_index_operand true (Z.land (u32 (s32 (Idx r))) (Z.ones 5)) = IndexReg r.
Proof.
  intros Hr. unfold decode_index_operand.
  rewrite s32_small
    by (split; [lia | apply Z.lt_trans with 32; [lia | reflexivity]]).
  rewrite u32_small
    by (split; [lia | apply Z.lt_trans with 32; [lia | reflexivity]]).
  rewrite land_small by lia. destruct r. reflexivity.
Qed.

Lemma index_check (v : Z) :
  -16 <= v <= 15 -> (v >=? -16) && (v <=? 15) = true.
Proof. intros Hv. apply andb_true_iff. lia. Qed.

Lemma index_check_false (v : Z) :
  ~ (-16 <= v <= 15) -> (v >=? -16) && (v <=? 15) = false.
Proof. intros Hv. apply andb_false_iff. lia. Qed.

Ltac unfold_index :=
  cbn [index]; unfold IndexImmImm.index, IndexRegImm.index, IndexImmReg.index,
    IndexRegReg.index.

(** X7: index, in each of its four forms, emits one word from which both
    operands are read back: bit 10 says whether the initial value is a
    register, bit 11 whether the increment is, and a five-bit field holds the
    register index or the immediate of -16 to 15 in two's complement.  With a
    128-bit size or an immediate outside -16 to 15 it aborts and emits
    nothing. *)
Theorem index_round_trip size zd initial increment buf :
  0 <= Idx zd < 32 ->
  (size <> i128Bit /\ index_operand_ok initial /\ index_operand_ok increment ->
   exists w,
     emits (index size zd initial increment buf) buf w
     /\ bits 22 2 w = ToUnderlying size
     /\ decode_index_operand (Z.testbit (bits 10 2 w) 0) (bits 5 5 w) = initial
     /\ decode_index_operand (Z.testbit (bits 10 2 w) 1) (bits 16 5 w) = increment
     /\ bits 0 5 w = Idx zd)
  /\ (size = i128Bit \/ index_imm_rejected initial \/ index_imm_rejected increment ->
      aborts (index size zd initial increment buf) buf).
Proof.
  intros Hzd. split.
  - intros (Hsize & Ha & Hb).
    destruct initial as [i | r], increment as [j | s];
      cbn [index_operand_ok] in Ha, Hb; unfold_index;
      rewrite ?assert_A_pass by (apply index_check; assumption);
      match goal with
      | |- context [SVEIndexGeneration ?op size zd ?x ?y] =>
          destruct (SVEIndexGeneration_fields op size zd x y buf)
            as (w & Hw & Hs & Hop & H5 & H16 & Hd);
          [assumption | eval_bin; lia | assumption |]
      end;
      exists w; rewrite Hop, H5, H16;
      (split; [exact Hw|]); (split; [exact Hs|]);
      (split; [|split; [|exact Hd]]);
      first [apply index_field_imm; assumption
            | apply index_field_reg; assumption].
  - intros Hbad.
    assert (Hprim : forall op x y, size = i128Bit ->
              aborts (SVEIndexGeneration op size zd x y buf) buf).
    { intros op x y ->. unfold SVEIndexGeneration.
      rewrite assert_A_fail by reflexivity. apply aborts_intro. }
    destruct initial as [i | r], increment as [j | s];
      cbn [index_imm_rejected] in Hbad; unfold_index.
    + destruct (Z.le_gt_cases (-16) i) as [Hi1|Hi1];
        [destruct (Z.le_gt_cases i 15) as [Hi2|Hi2]|];
        try (rewrite assert_A_fail by (apply index_check_false; lia);
             apply aborts_intro).
      rewrite assert_A_pass by (apply index_check; lia).
      destruct (Z.le_gt_cases (-16) j) as [Hj1|Hj1];
        [destruct (Z.le_gt_cases j 15) as [Hj2|Hj2]|];
        try (rewrite assert_A_fail by (apply index_check_false; lia);
             apply aborts_intro).
      rewrite assert_A_pass by (apply index_check; lia).
      apply Hprim. destruct Hbad as [H | [H | H]]; [exact H | lia | lia].
    + destruct (Z.le_gt_cases (-16) i) as [Hi1|Hi1];
        [destruct (Z.le_gt_cases i 15) as [Hi2|Hi2]|];
        try (rewrite assert_A_fail by (apply index_check_false; lia);
             apply aborts_intro).
      rewrite assert_A_pass by (apply index_check; lia).
      apply Hprim. destruct Hbad as [H | [H | H]]; [exact H | lia | contradiction].
    + destruct (Z.le_gt_cases (-16) j) as [Hj1|Hj1];
        [destruct (Z.le_gt_cases j 15) as [Hj2|Hj2]|];
        try (rewrite assert_A_fail by (apply index_check_false; lia);
             apply aborts_intro).
      rewrite assert_A_pass by (apply index_check; lia).
      apply Hprim. destruct Hbad as [H | [H | H]]; [exact H | contradiction | lia].
    + apply Hprim.
      destruct Hbad as [H | [H | H]]; [exact H | contradiction | contradiction].
Qed.

Lemma index_round_trip_witness :
  (0 <= Idx (ZReg 3) < 32
   /\ i16Bit <> i128Bit /\ index_operand_ok (IndexImm (-16))
   /\ index_operand_ok (IndexReg (Reg 30)))
  /\ exists w,
      emits (index i16Bit (ZReg 3) (IndexImm (-16)) (IndexReg (Reg 30)) []) [] w
      /\ bits 22 2 w = ToUnderlying i16Bit
      /\ decode_index_operand (Z.testbit (bits 10 2 w) 0) (bits 5 5 w)
         = IndexImm (-16)
      /\ decode_index_operand (Z.testbit (bits 10 2 w) 1) (bits 16 5 w)
         = IndexReg (Reg 30)
      /\ bits 0 5 w = Idx (ZReg 3).
Proof.
  assert (H1 : 0 <= Idx (ZReg 3) < 32) by (simpl; lia).
  assert (H2 : i16Bit <> i128Bit) by discriminate.
  assert (H3 : index_operand_ok (IndexImm (-16))) by (simpl; lia).
  assert (H4 : index_operand_ok (IndexReg (Reg 30))) by (simpl; lia).
  split; [exact (conj H1 (conj H2 (conj H3 H4)))|].
  exact (proj1 (index_round_trip i16Bit (ZReg 3) (IndexImm (-16))
                  (IndexReg (Reg 30)) [] H1) (conj H2 (conj H3 H4))).
Defined.

(** ** Stack frame operations *)

Lemma SVEStackFrameOperation_fields opc (rd rn : XRegister) imm buf :
  0 <= opc < 4 -> 0 <= Idx rd < 32 -> 0 <= Idx rn < 32 ->
  -32 <= imm <= 31 ->
  exists w,
    emits (SVEStackFrameOperation opc rd rn imm buf) buf w
    /\ bits 22 2 w = opc /\ bits 16 5 w = Idx rn
    /\ sext 6 (bits 5 6 w) = imm /\ bits 0 5 w = Idx rd.
Proof.
  intros Hopc Hrd Hrn Himm. unfold SVEStackFrameOperation.
  rewrite assert_AA_pass by (apply andb_true_iff; lia).
  unfold emits, dc32. eexists. split; [reflexivity|].
  repeat split; try (fields; fail).
  transitivity (sext 6 (Z.land (u32 imm) (Z.ones 6)));
    [|apply sext_field; cbn; lia].
  f_equal. change (Z.ones 6) with 63. fields.
Qed.

Lemma SVEStackFrameOperation_rejects opc (rd rn : XRegister) imm buf :
  ~ (-32 <= imm <= 31) ->
  aborts (SVEStackFrameOperation opc rd rn imm buf) buf.
Proof.
  intros Himm. unfold SVEStackFrameOperation.
  rewrite assert_AA_fail by (apply andb_false_iff; lia).
  apply aborts_intro.
Qed.

(** X8: addvl, addpl and rdvl emit one word from which the operation, the
    registers and the immediate of -32 to 31 (a six-bit two's complement
    field) are read back; rdvl puts the stack pointer in the field addvl and
    addpl use for their source register.  With an immediate outside -32 to 31
    each aborts and emits nothing. *)
Theorem stack_frame_round_trip (rsp rd rn : XRegister) imm buf :
  0 <= Idx rsp < 32 -> 0 <= Idx rd < 32 -> 0 <= Idx rn < 32 ->
  (-32 <= imm <= 31 ->
   (exists w,
      emits (addvl rd rn imm buf) buf w
      /\ bits 22 2 w = 0 /\ bits 16 5 w = Idx rn
      /\ sext 6 (bits 5 6 w) = imm /\ bits 0 5 w = Idx rd)
   /\ (exists w,
      emits (addpl rd rn imm buf) buf w
      /\ bits 22 2 w = 1 /\ bits 16 5 w = Idx rn
      /\ sext 6 (bits 5 6 w) = imm /\ bits 0 5 w = Idx rd)
   /\ (exists w,
      emits (rdvl rsp rd imm buf) buf w
      /\ bits 22 2 w = 2 /\ bits 16 5 w = Idx rsp
      /\ sext 6 (bits 5 6 w) = imm /\ bits 0 5 w = Idx rd))
  /\ (~ (-32 <= imm <= 31) ->
      aborts (addvl rd rn imm buf) buf
      /\ aborts (addpl rd rn imm buf) buf
      /\ aborts (rdvl rsp rd imm buf) buf).
Proof.
  intros Hrsp Hrd Hrn. split.
  - intros Himm. unfold addvl, addpl, rdvl.
    repeat split;
      apply SVEStackFrameOperation_fields; try assumption; eval_bin; lia.
  - intros Himm. unfold addvl, addpl, rdvl.
    repeat split; apply SVEStackFrameOperation_rejects; exact Himm.
Qed.

Lemma stack_frame_round_trip_witness :
  (0 <= Idx (XReg 31) < 32 /\ 0 <= Idx (XReg 0) < 32 /\ 0 <= Idx (XReg 1) < 32
   /\ -32 <= -32 <= 31)
  /\ (exists w,
        emits (addvl (XReg 0) (XReg 1) (-32) []) [] w
        /\ bits 22 2 w = 0 /\ bits 16 5 w = Idx (XReg 1)
        /\ sext 6 (bits 5 6 w) = -32 /\ bits 0 5 w = Idx (XReg 0))
  /\ (exists w,
        emits (rdvl (XReg 31) (XReg 0) (-32) []) [] w
        /\ bits 22 2 w = 2 /\ bits 16 5 w = Idx (XReg 31)
        /\ sext 6 (bits 5 6 w) = -32 /\ bits 0 5 w = Idx (XReg 0)).
Proof.
  assert (H1 : 0 <= Idx (XReg 31) < 32) by (simpl; lia).
  assert (H2 : 0 <= Idx (XReg 0) < 32) by (simpl; lia).
  assert (H3 : 0 <= Idx (XReg 1) < 32) by (simpl; lia).
  assert (H4 : -32 <= -32 <= 31) by lia.
  split; [exact (conj H1 (conj H2 (conj H3 H4)))|].
  pose proof (proj1 (stack_frame_round_trip (XReg 31) (XReg 0) (XReg 1) (-32) []
                       H1 H2 H3) H4) as (Ha & _ & Hc).
  exact (conj Ha Hc).
Defined.

(** ** ext *)

Lemma SVEPermuteVector_fields op0 zd zm Imm buf :
  0 <= op0 < 2 -> 0 <= Idx zd < 32 -> 0 <= Idx zm < 32 -> 0 <= Imm < 256 ->
  exists w,
    emits (SVEPermuteVector op0 zd zm Imm buf) buf w
    /\ bits 22 1 w = op0
    /\ 8 * bits 16 5 w + bits 10 3 w = Imm
    /\ bits 5 5 w = Idx zm /\ bits 0 5 w = Idx zd.
Proof.
  intros Hop Hzd Hzm Himm. unfold SVEPermuteVector.
  unfold emits, dc32. eexists. split; [reflexivity|].
  repeat split; try (fields; fail).
  transitivity (8 * shr Imm 3 + Z.land Imm 7); [|apply split_low3; lia].
  f_equal; [f_equal|]; fields.
Qed.

(** X9: ext emits one word from which the byte offset of 0 to 255 is read
    back as a five-bit high part and a three-bit low part, together with the
    form and the registers.  The destructive form aborts unless the
    destination equals the first source; the constructive form aborts unless
    its two sources pass the sequential-register check. *)
Theorem ext_round_trip (AreVectorsSequential : list ZRegister -> bool)
    zd zdn zn zn2 zm Imm buf :
  0 <= Idx zd < 32 -> 0 <= Idx zn < 32 -> 0 <= Idx zm < 32 -> 0 <= Imm < 256 ->
  (Idx zd = Idx zdn ->
   exists w,
     emits (ExtDestructive.ext zd zdn zm Imm buf) buf w
     /\ bits 22 1 w = 0
     /\ 8 * bits 16 5 w + bits 10 3 w = Imm
     /\ bits 5 5 w = Idx zm /\ bits 0 5 w = Idx zd)
  /\ (Idx zd <> Idx zdn -> aborts (ExtDestructive.ext zd zdn zm Imm buf) buf)
  /\ (AreVectorsSequential [zn; zn2] = true ->
      exists w,
        emits (ExtConstructive.ext AreVectorsSequential zd zn zn2 Imm buf) buf w
        /\ bits 22 1 w = 1
        /\ 8 * bits 16 5 w + bits 10 3 w = Imm
        /\ bits 5 5 w = Idx zn /\ bits 0 5 w = Idx zd)
  /\ (AreVectorsSequential [zn; zn2] = false ->
      aborts (ExtConstructive.ext AreVectorsSequential zd zn zn2 Imm buf) buf).
Proof.
  intros Hzd Hzn Hzm Himm.
  unfold ExtDestructive.ext, ExtConstructive.ext.
  split; [|split; [|split]].
  - intros Halias. rewrite assert_A_pass by (apply reg_eqb_true; exact Halias).
    apply SVEPermuteVector_fields; try assumption; lia.
  - intros Halias. rewrite assert_A_fail by (apply reg_eqb_false; exact Halias).
    apply aborts_intro.
  - intros Hseq. rewrite assert_A_pass by exact Hseq.
    apply SVEPermuteVector_fields; try assumption; lia.
  - intros Hseq. rewrite assert_A_fail by exact Hseq. apply aborts_intro.
Qed.

Lemma ext_round_trip_witness :
  (0 <= Idx (ZReg 4) < 32 /\ 0 <= Idx (ZReg 8) < 32 /\ 0 <= Idx (ZReg 5) < 32
   /\ 0 <= 255 < 256 /\ Idx (ZReg 4) = Idx (ZReg 4))
  /\ exists w,
      emits (ExtDestructive.ext (ZReg 4) (ZReg 4) (ZReg 5) 255 []) [] w
      /\ bits 22 1 w = 0
      /\ 8 * bits 16 5 w + bits 10 3 w = 255
      /\ bits 5 5 w = Idx (ZReg 5) /\ bits 0 5 w = Idx (ZReg 4).
Proof.
  assert (H1 : 0 <= Idx (ZReg 4) < 32) by (simpl; lia).
  assert (H2 : 0 <= Idx (ZReg 8) < 32) by (simpl; lia).
  assert (H3 : 0 <= Idx (ZReg 5) < 32) by (simpl; lia).
  assert (H4 : 0 <= 255 < 256) by lia.
  assert (H5 : Idx (ZReg 4) = Idx (ZReg 4)) by reflexivity.
  split; [exact (conj H1 (conj H2 (conj H3 (conj H4 H5))))|].
  exact (proj1 (ext_round_trip (fun _ => true) (ZReg 4) (ZReg 4) (ZReg 8)
                  (ZReg 9) (ZReg 5) 255 [] H1 H2 H3 H4) H5).
Defined.

(** ** dup_imm and mov_imm *)

Lemma SVEBroadcastImm_fields sh imm size zd buf :
  size <> i128Bit -> 0 <= sh < 2 -> 0 <= Idx zd < 32 ->
  exists w,
    emits (SVEBroadcastImm (bin "00") sh imm size zd buf) buf w
    /\ bits 22 2 w = ToUnderlying size
    /\ bits 13 1 w = sh
    /\ bits 5 8 w = Z.land imm (Z.ones 8)
    /\ bits 0 5 w = Idx zd.
Proof.
  intros Hsize Hsh Hzd. unfold SVEBroadcastImm.
  unfold emits, dc32. eexists. split; [reflexivity|].
  change (Z.ones 8) with 255.
  destruct size; try contradiction; cbn [ToUnderlying];
    repeat split; fields.
Qed.

(** X10: dup_imm, and mov_imm which forwards to it, emit one word from which
    the element size, the shift flag and the immediate of -128 to 127 (an
    eight-bit two's complement field) are read back.  They abort and emit
    nothing with a 128-bit size, an immediate outside -128 to 127, or the
    shift flag set for 8-bit elements. *)
Theorem dup_imm_round_trip size zd Value LSL8 buf :
  0 <= Idx zd < 32 ->
  (dup_imm_accepts size Value LSL8 ->
   exists w,
     emits (dup_imm size zd Value LSL8 buf) buf w
     /\ emits (mov_imm size zd Value LSL8 buf) buf w
     /\ bits 22 2 w = ToUnderlying size
     /\ bits 13 1 w = Z.b2z LSL8
     /\ sext 8 (bits 5 8 w) = Value
     /\ bits 0 5 w = Idx zd)
  /\ (~ dup_imm_accepts size Value LSL8 ->
      aborts (dup_imm size zd Value LSL8 buf) buf
      /\ aborts (mov_imm size zd Value LSL8 buf) buf).
Proof.
  intros Hzd. unfold mov_imm, dup_imm_accepts. split.
  - intros (Hsize & HValue & Hshift).
    destruct (SVEBroadcastImm_fields (Z.b2z LSL8) (u32 Value) size zd buf)
      as (w & Hw & Hs & Hsh & Himm & Hd);
      [assumption | destruct LSL8; cbn; lia | assumption |].
    assert (Hrun : dup_imm size zd Value LSL8 buf
                   = SVEBroadcastImm (bin "00") (Z.b2z LSL8) (u32 Value) size zd buf).
    { unfold dup_imm.
      rewrite assert_AA_pass by (destruct size; try reflexivity; contradiction).
      rewrite assert_AA_pass by (apply andb_true_iff; lia).
      destruct size; cbn [SubRegSize_eqb]; try reflexivity.
      rewrite Hshift by reflexivity. reflexivity. }
    exists w. rewrite Hrun.
    repeat split; try assumption.
    rewrite Himm. apply sext_field; cbn; lia.
  - intros Hbad.
    assert (Hab : aborts (dup_imm size zd Value LSL8 buf) buf).
    { unfold dup_imm.
      destruct size; cbn [SubRegSize_eqb negb];
        try (rewrite assert_AA_fail by reflexivity; apply aborts_intro);
        rewrite assert_AA_pass by reflexivity;
        (destruct (Z.le_gt_cases (-128) Value) as [Hlo|Hlo];
         [destruct (Z.le_gt_cases Value 127) as [Hhi|Hhi]|]);
        try (rewrite assert_AA_fail by (apply andb_false_iff; lia);
             apply aborts_intro);
        rewrite assert_AA_pass by (apply andb_true_iff; lia);
        try (exfalso; apply Hbad;
             repeat split; [discriminate | lia | lia | discriminate]).
      destruct LSL8.
      - rewrite assert_AA_fail by reflexivity. apply aborts_intro.
      - exfalso. apply Hbad. repeat split; [discriminate | lia | lia]. }
    exact (conj Hab Hab).
Qed.

Lemma dup_imm_round_trip_witness :
  (0 <= Idx (ZReg 2) < 32 /\ dup_imm_accepts i16Bit (-1) true)
  /\ exists w,
      emits (dup_imm i16Bit (ZReg 2) (-1) true []) [] w
      /\ emits (mov_imm i16Bit (ZReg 2) (-1) true []) [] w
      /\ bits 22 2 w = ToUnderlying i16Bit
      /\ bits 13 1 w = Z.b2z true
      /\ sext 8 (bits 5 8 w) = -1
      /\ bits 0 5 w = Idx (ZReg 2).
Proof.
  assert (H1 : 0 <= Idx (ZReg 2) < 32) by (simpl; lia).
  assert (H2 : dup_imm_accepts i16Bit (-1) true).
  { unfold dup_imm_accepts. split; [discriminate|]. split; [lia|]. discriminate. }
  split; [exact (conj H1 H2)|].
  exact (proj1 (dup_imm_round_trip i16Bit (ZReg 2) (-1) true [] H1) H2).
Defined.

(** ** ldr *)

Lemma SVEGatherAndUnsizedContiguous_fields op0 op2 imm9 (pt : PRegister)
    (rn : Register) buf :
  0 <= op0 < 4 -> 0 <= op2 < 8 -> 0 <= imm9 < 512 ->
  0 <= Idx pt < 32 -> 0 <= Idx rn < 32 ->
  exists w,
    emits (SVEGatherAndUnsizedContiguous op0 op2 imm9 pt rn buf) buf w
    /\ bits 23 2 w = op0 /\ bits 13 3 w = op2
    /\ 8 * bits 16 6 w + bits 10 3 w = imm9
    /\ bits 5 5 w = Idx rn /\ bits 0 5 w = Idx pt.
Proof.
  intros Hop0 Hop2 Himm Hpt Hrn. unfold SVEGatherAndUnsizedContiguous.
  unfold emits, dc32. eexists. split; [reflexivity|].
  repeat split; try (fields; fail).
  transitivity (8 * shr imm9 3 + Z.land imm9 7); [|apply split_low3; lia].
  f_equal; [f_equal|]; fields.
Qed.

Lemma ldr_imm9 (Imm : Z) :
  -256 <= Imm <= 255 ->
  0 <= Z.land Imm (bin "1'1111'1111") < 512
  /\ sext 9 (Z.land Imm (bin "1'1111'1111")) = Imm.
Proof.
  intros HImm. change (bin "1'1111'1111") with (Z.ones 9). split.
  - rewrite land_ones_signed by (cbn; lia).
    destruct (Z.ltb_spec Imm 0); cbn; lia.
  - apply sext_land; cbn; lia.
Qed.

(** X11: ldr of a predicate or of a vector register emits one word from which
    the kind of register, the registers and the offset of -256 to 255 are read
    back: the offset is a nine-bit two's complement number stored as a six-bit
    high part and a three-bit low part.  With an offset outside -256 to 255
    either form aborts and emits nothing. *)
Theorem ldr_round_trip (pt : PRegister) (zt : ZRegister) (rn : XRegister) Imm buf :
  0 <= Idx pt < 16 -> 0 <= Idx zt < 32 -> 0 <= Idx rn < 32 ->
  (-256 <= Imm <= 255 ->
   (exists w,
      emits (LdrPredicate.ldr pt rn Imm buf) buf w
      /\ bits 13 3 w = 0
      /\ sext 9 (8 * bits 16 6 w + bits 10 3 w) = Imm
      /\ bits 5 5 w = Idx rn /\ bits 0 5 w = Idx pt)
   /\ (exists w,
      emits (LdrVector.ldr zt rn Imm buf) buf w
      /\ bits 13 3 w = 2
      /\ sext 9 (8 * bits 16 6 w + bits 10 3 w) = Imm
      /\ bits 5 5 w = Idx rn /\ bits 0 5 w = Idx zt))
  /\ (~ (-256 <= Imm <= 255) ->
      aborts (LdrPredicate.ldr pt rn Imm buf) buf
      /\ aborts (LdrVector.ldr zt rn Imm buf) buf).
Proof.
  intros Hpt Hzt Hrn. unfold LdrPredicate.ldr, LdrVector.ldr. split.
  - intros HImm. destruct (ldr_imm9 Imm HImm) as [Hrange Hsext].
    rewrite !assert_AA_pass by (apply andb_true_iff; lia).
    split.
    + destruct (SVEGatherAndUnsizedContiguous_fields (bin "11") (bin "000")
                  (Z.land Imm (bin "1'1111'1111")) pt rn buf)
        as (w & Hw & _ & Hop2 & Himm9 & Hn & Ht);
        [eval_bin; lia | eval_bin; lia | exact Hrange | lia | exact Hrn |].
      exists w. rewrite Himm9. repeat split; assumption.
    + destruct (SVEGatherAndUnsizedContiguous_fields (bin "11") (bin "010")
                  (Z.land Imm (bin "1'1111'1111")) (PReg (Idx zt)) rn buf)
        as (w & Hw & _ & Hop2 & Himm9 & Hn & Ht);
        [eval_bin; lia | eval_bin; lia | exact Hrange | exact Hzt | exact Hrn |].
      exists w. rewrite Himm9. repeat split; assumption.
  - intros HImm.
    rewrite !assert_AA_fail by (apply andb_false_iff; lia).
    split; apply aborts_intro.
Qed.

Lemma ldr_round_trip_witness :
  (0 <= Idx (PReg 15) < 16 /\ 0 <= Idx (ZReg 31) < 32 /\ 0 <= Idx (XReg 7) < 32
   /\ -256 <= -1 <= 255)
  /\ (exists w,
        emits (LdrPredicate.ldr (PReg 15) (XReg 7) (-1) []) [] w
        /\ bits 13 3 w = 0
        /\ sext 9 (8 * bits 16 6 w + bits 10 3 w) = -1
        /\ bits 5 5 w = Idx (XReg 7) /\ bits 0 5 w = Idx (PReg 15))
  /\ (exists w,
        emits (LdrVector.ldr (ZReg 31) (XReg 7) (-1) []) [] w
        /\ bits 13 3 w = 2
        /\ sext 9 (8 * bits 16 6 w + bits 10 3 w) = -1
        /\ bits 5 5 w = Idx (XReg 7) /\ bits 0 5 w = Idx (ZReg 31)).
Proof.
  assert (H1 : 0 <= Idx (PReg 15) < 16) by (simpl; lia).
  assert (H2 : 0 <= Idx (ZReg 31) < 32) by (simpl; lia).
  assert (H3 : 0 <= Idx (XReg 7) < 32) by (simpl; lia).
  assert (H4 : -256 <= -1 <= 255) by lia.
  split; [exact (conj H1 (conj H2 (conj H3 H4)))|].
  exact (proj1 (ldr_round_trip (PReg 15) (ZReg 31) (XReg 7) (-1) [] H1 H2 H3) H4).
Defined.

(** ** Structured loads and stores *)

Lemma SVEContiguousMultipleStructures_fields (st : bool) msz opc imm4 zt
    (pg : PRegister) (rn : Register) buf :
  0 <= msz < 4 -> 0 <= opc < 4 ->
  0 <= Idx zt < 32 -> 0 <= Idx pg <= 7 -> 0 <= Idx rn < 32 ->
  exists w,
    emits (SVEContiguousMultipleStructures (struct_template st) msz opc imm4
             zt pg rn buf) buf w
    /\ bits 30 1 w = Z.b2z st
    /\ bits 23 2 w = msz /\ bits 21 2 w = opc
    /\ bits 16 4 w = Z.land imm4 (Z.ones 4)
    /\ bits 10 3 w = Idx pg
    /\ bits 5 5 w = Idx rn /\ bits 0 5 w = Idx zt.
Proof.
  intros Hmsz Hopc Hzt Hpg Hrn. unfold SVEContiguousMultipleStructures, Encode_rn.
  unfold emits, dc32. eexists. split; [reflexivity|].
  change (Z.ones 4) with 15. change 0xF with 15.
  destruct st; unfold struct_template, Z.b2z; repeat split; fields.
Qed.

Lemma struct_offset (N Imm : Z) :
  2 <= N <= 4 -> -8 * N <= Imm <= 7 * N -> Z.rem Imm N = 0 ->
  N * sext 4 (Z.land (u32 (Z.quot Imm N)) (Z.ones 4)) = Imm.
Proof.
  intros HN Hrange Hrem.
  pose proof (Z.quot_rem' Imm N) as Hqr. rewrite Hrem in Hqr.
  assert (Hq : -8 <= Z.quot Imm N <= 7) by nia.
  rewrite sext_field by (cbn; lia). lia.
Qed.

Lemma struct_check (N Imm : Z) :
  -8 * N <= Imm <= 7 * N /\ Z.rem Imm N = 0 ->
  (Imm >=? -8 * N) && (Imm <=? 7 * N) && (Z.rem Imm N =? 0) = true.
Proof.
  intros [Hrange Hrem]. rewrite !andb_true_iff. repeat split; lia.
Qed.

Lemma struct_check_false (N Imm : Z) :
  ~ (-8 * N <= Imm <= 7 * N /\ Z.rem Imm N = 0) ->
  (Imm >=? -8 * N) && (Imm <=? 7 * N) && (Z.rem Imm N =? 0) = false.
Proof.
  intros Hbad. rewrite !andb_false_iff.
  destruct (Z.eqb_spec (Z.rem Imm N) 0); [|right; reflexivity].
  left. lia.
Qed.

Section StructuredLoadStoreProperties.
Variable AreVectorsSequential : list ZRegister -> bool.

Ltac unfold_struct :=
  cbn [struct_mem struct_count struct_msz struct_is_store];
  unfold ld2b, ld3b, ld4b, ld2h, ld3h, ld4h, ld2w, ld3w, ld4w, ld2d, ld3d, ld4d,
    st2b, st3b, st4b, st2h, st3h, st4h, st2w, st3w, st4w, st2d, st3d, st4d.

Lemma struct_mem_body (st : bool) (N msz opc : Z) (regs : list ZRegister)
    msg1 msg2 zt (pg : PRegister) (rn : Register) Imm buf :
  2 <= N <= 4 -> 0 <= msz < 4 -> 0 <= opc < 4 ->
  0 <= Idx zt < 32 -> 0 <= Idx pg <= 7 -> 0 <= Idx rn < 32 ->
  -8 * N <= Imm <= 7 * N /\ Z.rem Imm N = 0 ->
  AreVectorsSequential regs = true ->
  exists w,
    emits ((LOGMAN_THROW_AA_FMT
              ((Imm >=? -8 * N) && (Imm <=? 7 * N) && (Z.rem Imm N =? 0)) msg1 ;;
            LOGMAN_THROW_A_FMT (AreVectorsSequential regs) msg2 ;;
            SVEContiguousMultipleStructures (struct_template st) msz opc
              (u32 (Z.quot Imm N)) zt pg rn) buf) buf w
    /\ bits 30 1 w = Z.b2z st
    /\ bits 23 2 w = msz /\ bits 21 2 w = opc
    /\ N * sext 4 (bits 16 4 w) = Imm
    /\ bits 10 3 w = Idx pg
    /\ bits 5 5 w = Idx rn /\ bits 0 5 w = Idx zt.
Proof.
  intros HN Hmsz Hopc Hzt Hpg Hrn HImm Hseq.
  rewrite assert_AA_pass by (apply struct_check; exact HImm).
  rewrite assert_A_pass by exact Hseq.
  destruct (SVEContiguousMultipleStructures_fields st msz opc
              (u32 (Z.quot Imm N)) zt pg rn buf)
    as (w & Hw & Hst & Hm & Ho & Hi & Hp & Hn & Ht); try assumption.
  exists w. rewrite Hi. repeat split; try assumption.
  apply struct_offset; tauto.
Qed.

Lemma struct_mem_body_rejects (Op N msz opc : Z) (regs : list ZRegister)
    msg1 msg2 zt (pg : PRegister) (rn : Register) Imm buf :
  ~ (-8 * N <= Imm <= 7 * N /\ Z.rem Imm N = 0)
  \/ AreVectorsSequential regs = false ->
  aborts ((LOGMAN_THROW_AA_FMT
             ((Imm >=? -8 * N) && (Imm <=? 7 * N) && (Z.rem Imm N =? 0)) msg1 ;;
           LOGMAN_THROW_A_FMT (AreVectorsSequential regs) msg2 ;;
           SVEContiguousMultipleStructures Op msz opc
             (u32 (Z.quot Imm N)) zt pg rn) buf) buf.
Proof.
  intros Hbad.
  destruct ((Imm >=? -8 * N) && (Imm <=? 7 * N) && (Z.rem Imm N =? 0)) eqn:E.
  - rewrite assert_AA_pass by reflexivity.
    destruct Hbad as [Hbad | Hbad].
    + rewrite struct_check_false in E by exact Hbad. discriminate E.
    + rewrite assert_A_fail by exact Hbad. apply aborts_intro.
  - rewrite assert_AA_fail by reflexivity. apply aborts_intro.
Qed.

(** X12: each of the 24 structured loads and stores (ld2b to ld4d, st2b to
    st4d) takes an offset that is a multiple of its register count N within
    -8N to 7N, and emits one word holding the offset divided by N as a
    four-bit two's complement field, the element size and N - 1 as the name
    says, the load/store bit, the governing predicate, the base register and
    the first register of the group.  It aborts and emits nothing when the
    offset is out of range or not a multiple of N, or when the register group
    fails the sequential-register check. *)
Theorem struct_mem_round_trip m zt1 zt2 zt3 zt4 (pg : PRegister)
    (rn : Register) Imm buf :
  0 <= Idx zt1 < 32 -> 0 <= Idx pg <= 7 -> 0 <= Idx rn < 32 ->
  ((-8 * struct_count m <= Imm <= 7 * struct_count m
    /\ Z.rem Imm (struct_count m) = 0)
   /\ AreVectorsSequential (struct_group m zt1 zt2 zt3 zt4) = true ->
   exists w,
     emits (struct_mem AreVectorsSequential m zt1 zt2 zt3 zt4 pg rn Imm buf) buf w
     /\ bits 30 1 w = Z.b2z (struct_is_store m)
     /\ bits 23 2 w = struct_msz m
     /\ bits 21 2 w = struct_count m - 1
     /\ struct_count m * sext 4 (bits 16 4 w) = Imm
     /\ bits 10 3 w = Idx pg
     /\ bits 5 5 w = Idx rn /\ bits 0 5 w = Idx zt1)
  /\ (~ (-8 * struct_count m <= Imm <= 7 * struct_count m
         /\ Z.rem Imm (struct_count m) = 0)
      \/ AreVectorsSequential (struct_group m zt1 zt2 zt3 zt4) = false ->
      aborts (struct_mem AreVectorsSequential m zt1 zt2 zt3 zt4 pg rn Imm buf) buf).
Proof.
  intros Hzt Hpg Hrn. split.
  - intros [HImm Hseq].
    destruct m; unfold struct_group in Hseq; unfold_struct;
      cbn [struct_count Z.to_nat Pos.to_nat Pos.iter_op Nat.add firstn] in *;
      match goal with
      | |- context [SVEContiguousMultipleStructures ?Op ?msz ?opc
                      (u32 (Z.quot Imm ?N)) zt1 ?p rn] =>
          match Op with
          | shl (bin "1010'0100'0000'0000'111") 13 =>
              apply (struct_mem_body false N msz opc _ _ _ zt1 p rn Imm buf)
          | shl (bin "1110'0100'0001'0000'111") 13 =>
              apply (struct_mem_body true N msz opc _ _ _ zt1 p rn Imm buf)
          end
      end;
      first [assumption | eval_bin; lia].
  - intros Hbad.
    destruct m; unfold struct_group in Hbad; unfold_struct;
      cbn [struct_count Z.to_nat Pos.to_nat Pos.iter_op Nat.add firstn] in *;
      match goal with
      | |- context [SVEContiguousMultipleStructures ?Op ?msz ?opc
                      (u32 (Z.quot Imm ?N)) zt1 ?p rn] =>
          apply (struct_mem_body_rejects Op N msz opc _ _ _ zt1 p rn Imm buf)
      end;
      exact Hbad.
Qed.
End StructuredLoadStoreProperties.

Lemma struct_mem_round_trip_witness :
  (0 <= Idx (ZReg 10) < 32 /\ 0 <= Idx (PReg 3) <= 7 /\ 0 <= Idx (Reg 20) < 32
   /\ (-8 * struct_count LD3W <= -24 <= 7 * struct_count LD3W
       /\ Z.rem (-24) (struct_count LD3W) = 0)
   /\ (fun _ : list ZRegister => true)
        (struct_group LD3W (ZReg 10) (ZReg 11) (ZReg 12) (ZReg 0)) = true)
  /\ exists w,
      emits (struct_mem (fun _ => true) LD3W (ZReg 10) (ZReg 11) (ZReg 12) (ZReg 0)
               (PReg 3) (Reg 20) (-24) []) [] w
      /\ bits 30 1 w = Z.b2z (struct_is_store LD3W)
      /\ bits 23 2 w = struct_msz LD3W
      /\ bits 21 2 w = struct_count LD3W - 1
      /\ struct_count LD3W * sext 4 (bits 16 4 w) = -24
      /\ bits 10 3 w = Idx (PReg 3)
      /\ bits 5 5 w = Idx (Reg 20) /\ bits 0 5 w = Idx (ZReg 10).
Proof.
  assert (H1 : 0 <= Idx (ZReg 10) < 32) by (simpl; lia).
  assert (H2 : 0 <= Idx (PReg 3) <= 7) by (simpl; lia).
  assert (H3 : 0 <= Idx (Reg 20) < 32) by (simpl; lia).
  assert (H4 : -8 * struct_count LD3W <= -24 <= 7 * struct_count LD3W
               /\ Z.rem (-24) (struct_count LD3W) = 0)
    by (split; [simpl; lia | reflexivity]).
  assert (H5 : (fun _ : list ZRegister => true)
                 (struct_group LD3W (ZReg 10) (ZReg 11) (ZReg 12) (ZReg 0)) = true)
    by reflexivity.
  split; [exact (conj H1 (conj H2 (conj H3 (conj H4 H5))))|].
  exact (proj1 (struct_mem_round_trip (fun _ => true) LD3W (ZReg 10) (ZReg 11)
                  (ZReg 12) (ZReg 0) (PReg 3) (Reg 20) (-24) [] H1 H2 H3)
           (conj H4 H5)).
Defined.

(** ** fcmla *)

(** X13: the indexed fcmla packs the element index and the register zm into
    one five-bit field whose split depends on the precision: for 16-bit
    elements an index of 0 to 3 above a register z0 to z7, for 32-bit
    elements an index of 0 to 1 above a register z0 to z15; precision,
    index, zm, rotation and the other registers are read back from the word.
    Any other size, a larger index or a higher zm makes it abort and emit
    nothing. *)
Theorem fcmla_indexed_round_trip (RotationToUnderlying : Rotation -> Z)
    size zda zn zm index rot buf :
  0 <= Idx zda < 32 -> 0 <= Idx zn < 32 -> 0 <= Idx zm -> 0 <= index ->
  0 <= RotationToUnderlying rot < 4 ->
  (fcmla_indexed_accepts size index zm ->
   exists w,
     emits (FcmlaIndexed.fcmla RotationToUnderlying size zda zn zm index rot buf)
       buf w
     /\ (if SubRegSize_eqb size i16Bit
         then bits 22 1 w = 0 /\ bits 19 2 w = index /\ bits 16 3 w = Idx zm
         else bits 22 1 w = 1 /\ bits 20 1 w = index /\ bits 16 4 w = Idx zm)
     /\ bits 10 2 w = RotationToUnderlying rot
     /\ bits 5 5 w = Idx zn /\ bits 0 5 w = Idx zda)
  /\ (~ fcmla_indexed_accepts size index zm ->
      aborts (FcmlaIndexed.fcmla RotationToUnderlying size zda zn zm index rot buf)
        buf).
Proof.
  intros Hzda Hzn Hzm Hindex Hrot.
  unfold fcmla_indexed_accepts, FcmlaIndexed.fcmla. split.
  - intros [(-> & Hi & Hm) | (-> & Hi & Hm)];
      cbn [SubRegSize_eqb orb negb Z.b2z];
      rewrite assert_AA_pass by reflexivity;
      run_emit;
      first [ rewrite (proj2 (Z.leb_le index 3)) by lia
            | rewrite (proj2 (Z.leb_le index 1)) by lia ];
      first [ rewrite (proj2 (Z.leb_le (Idx zm) 7)) by lia
            | rewrite (proj2 (Z.leb_le (Idx zm) 15)) by lia ];
      cbn beta iota; unfold emits, dc32;
      eexists; (split; [reflexivity|]);
      change (19 + 0) with 19; change (19 + 1) with 20;
      repeat split; fields.
  - intros Hbad.
    destruct size; cbn [SubRegSize_eqb orb negb Z.b2z];
      try (rewrite assert_AA_fail by reflexivity; apply aborts_intro);
      rewrite assert_AA_pass by reflexivity; run_emit.
    + destruct (Z.leb_spec index 3) as [Hi|Hi]; cbn beta iota;
        [|apply aborts_intro].
      destruct (Z.leb_spec (Idx zm) 7) as [Hm|Hm]; cbn beta iota;
        [|apply aborts_intro].
      exfalso. apply Hbad. left. repeat split; assumption.
    + destruct (Z.leb_spec index 1) as [Hi|Hi]; cbn beta iota;
        [|apply aborts_intro].
      destruct (Z.leb_spec (Idx zm) 15) as [Hm|Hm]; cbn beta iota;
        [|apply aborts_intro].
      exfalso. apply Hbad. right. repeat split; assumption.
Qed.

Lemma fcmla_indexed_round_trip_witness :
  (0 <= Idx (ZReg 1) < 32 /\ 0 <= Idx (ZReg 2) < 32 /\ 0 <= Idx (ZReg 7)
   /\ 0 <= 3 /\ 0 <= (fun _ : Rotation => 2) ROTATE_180 < 4
   /\ fcmla_indexed_accepts i16Bit 3 (ZReg 7))
  /\ exists w,
      emits (FcmlaIndexed.fcmla (fun _ => 2) i16Bit (ZReg 1) (ZReg 2) (ZReg 7) 3
               ROTATE_180 []) [] w
      /\ (if SubRegSize_eqb i16Bit i16Bit
          then bits 22 1 w = 0 /\ bits 19 2 w = 3 /\ bits 16 3 w = Idx (ZReg 7)
          else bits 22 1 w = 1 /\ bits 20 1 w = 3 /\ bits 16 4 w = Idx (ZReg 7))
      /\ bits 10 2 w = (fun _ : Rotation => 2) ROTATE_180
      /\ bits 5 5 w = Idx (ZReg 2) /\ bits 0 5 w = Idx (ZReg 1).
Proof.
  assert (H1 : 0 <= Idx (ZReg 1) < 32) by (simpl; lia).
  assert (H2 : 0 <= Idx (ZReg 2) < 32) by (simpl; lia).
  assert (H3 : 0 <= Idx (ZReg 7)) by (simpl; lia).
  assert (H4 : 0 <= 3) by lia.
  assert (H5 : 0 <= (fun _ : Rotation => 2) ROTATE_180 < 4) by (simpl; lia).
  assert (H6 : fcmla_indexed_accepts i16Bit 3 (ZReg 7)).
  { left. split; [reflexivity|]. simpl. lia. }
  split; [exact (conj H1 (conj H2 (conj H3 (conj H4 (conj H5 H6)))))|].
  exact (proj1 (fcmla_indexed_round_trip (fun _ => 2) i16Bit (ZReg 1) (ZReg 2)
                  (ZReg 7) 3 ROTATE_180 [] H1 H2 H3 H4 H5) H6).
Defined.

(** X14: the predicated fcmla takes every rotation, unlike fcadd: for 16-bit,
    32-bit and 64-bit elements and a governing predicate p0 to p7 it emits
    one word from which the size, the rotation, the predicate and the four
    registers are read back.  With an 8-bit or 128-bit size, or a predicate
    above p7, it aborts and emits nothing. *)
Theorem fcmla_predicated_round_trip (RotationToUnderlying : Rotation -> Z)
    size zda (pv : PRegisterMerge) zn zm rot buf :
  0 <= Idx zda < 32 -> 0 <= Idx zn < 32 -> 0 <= Idx zm < 32 -> 0 <= Idx pv ->
  0 <= RotationToUnderlying rot < 4 ->
  ((size = i16Bit \/ size = i32Bit \/ size = i64Bit) /\ Idx pv <= 7 ->
   exists w,
     emits (FcmlaPredicated.fcmla RotationToUnderlying size zda pv zn zm rot buf)
       buf w
     /\ bits 22 2 w = ToUnderlying size
     /\ bits 16 5 w = Idx zm
     /\ bits 13 2 w = RotationToUnderlying rot
     /\ bits 10 3 w = Idx pv
     /\ bits 5 5 w = Idx zn /\ bits 0 5 w = Idx zda)
  /\ (size = i8Bit \/ size = i128Bit \/ 7 < Idx pv ->
      aborts (FcmlaPredicated.fcmla RotationToUnderlying size zda pv zn zm rot buf)
        buf).
Proof.
  intros Hzda Hzn Hzm Hpv Hrot. unfold FcmlaPredicated.fcmla. split.
  - intros [Hsize Hle].
    rewrite assert_AA_pass
      by (destruct Hsize as [-> | [-> | ->]]; reflexivity).
    rewrite assert_A_pass
      by (unfold reg_leb; apply Z.leb_le; change (Idx (Merging p7)) with 7; lia).
    unfold emits, dc32. eexists. split; [reflexivity|].
    destruct Hsize as [-> | [-> | ->]]; cbn [ToUnderlying];
      repeat split; fields.
  - intros Hbad.
    destruct size; cbn [SubRegSize_eqb orb];
      try (rewrite assert_AA_fail by reflexivity; apply aborts_intro);
      rewrite assert_AA_pass by reflexivity;
      (destruct Hbad as [Hbad | [Hbad | Hbad]]; try discriminate Hbad);
      rewrite assert_A_fail
        by (unfold reg_leb; apply Z.leb_gt; change (Idx (Merging p7)) with 7; lia);
      apply aborts_intro.
Qed.

Lemma fcmla_predicated_round_trip_witness :
  (0 <= Idx (ZReg 1) < 32 /\ 0 <= Idx (ZReg 2) < 32 /\ 0 <= Idx (ZReg 3) < 32
   /\ 0 <= Idx (PRegMerge 7) /\ 0 <= (fun _ : Rotation => 0) ROTATE_0 < 4
   /\ (i64Bit = i16Bit \/ i64Bit = i32Bit \/ i64Bit = i64Bit)
   /\ Idx (PRegMerge 7) <= 7)
  /\ exists w,
      emits (FcmlaPredicated.fcmla (fun _ => 0) i64Bit (ZReg 1) (PRegMerge 7)
               (ZReg 2) (ZReg 3) ROTATE_0 []) [] w
      /\ bits 22 2 w = ToUnderlying i64Bit
      /\ bits 16 5 w = Idx (ZReg 3)
      /\ bits 13 2 w = (fun _ : Rotation => 0) ROTATE_0
      /\ bits 10 3 w = Idx (PRegMerge 7)
      /\ bits 5 5 w = Idx (ZReg 2) /\ bits 0 5 w = Idx (ZReg 1).
Proof.
  assert (H1 : 0 <= Idx (ZReg 1) < 32) by (simpl; lia).
  assert (H2 : 0 <= Idx (ZReg 2) < 32) by (simpl; lia).
  assert (H3 : 0 <= Idx (ZReg 3) < 32) by (simpl; lia).
  assert (H4 : 0 <= Idx (PRegMerge 7)) by (simpl; lia).
  assert (H5 : 0 <= (fun _ : Rotation => 0) ROTATE_0 < 4) by (simpl; lia).
  assert (H6 : i64Bit = i16Bit \/ i64Bit = i32Bit \/ i64Bit = i64Bit)
    by (right; right; reflexivity).
  assert (H7 : Idx (PRegMerge 7) <= 7) by (simpl; lia).
  split; [exact (conj H1 (conj H2 (conj H3 (conj H4 (conj H5 (conj H6 H7))))))|].
  exact (proj1 (fcmla_predicated_round_trip (fun _ => 0) i64Bit (ZReg 1)
                  (PRegMerge 7) (ZReg 2) (ZReg 3) ROTATE_0 [] H1 H2 H3 H4 H5)
           (conj H6 H7)).
Defined.

(** ** Conversions *)

Lemma convert_emits m zd dstsize (pg : PRegisterMerge) zn srcsize buf :
  0 <= Idx zd < 32 -> 0 <= Idx zn < 32 -> 0 <= Idx pg < 16 ->
  convert_accepts m dstsize srcsize = true ->
  exists w,
    emits (convert m zd dstsize pg zn srcsize buf) buf w
    /\ bits 16 8 w = convert_code m dstsize srcsize.
Proof.
  intros Hzd Hzn Hpg Hacc.
  destruct m, dstsize, srcsize; try discriminate Hacc; clear Hacc;
    cbn [convert]; unfold scvtf, ucvtf, fcvtzs, fcvtzu, SVEFloatConvertToInt;
    cbn [SubRegSize_eqb orb negb]; run_emit; unfold emits, dc32;
    eexists; (split; [reflexivity|]);
    match goal with
    | |- _ = ?c => let v := eval vm_compute in c in change c with v
    end;
    change (Idx (PRegisterMerge_to_PRegister pg)) with (Idx pg);
    fields.
Qed.

Lemma convert_rejects m zd dstsize (pg : PRegisterMerge) zn srcsize buf :
  convert_accepts m dstsize srcsize = false ->
  aborts (convert m zd dstsize pg zn srcsize buf) buf.
Proof.
  intros Hacc.
  destruct m, dstsize, srcsize; try discriminate Hacc; clear Hacc;
    cbn [convert]; unfold scvtf, ucvtf, fcvtzs, fcvtzu;
    cbn [SubRegSize_eqb orb negb]; run_emit; apply aborts_intro.
Qed.

Lemma convert_of_code_spec m dstsize srcsize :
  convert_accepts m dstsize srcsize = true ->
  convert_of_code (convert_code m dstsize srcsize) = Some (m, dstsize, srcsize).
Proof.
  intros Hacc.
  destruct m, dstsize, srcsize; try discriminate Hacc; vm_compute; reflexivity.
Qed.

(** X15: scvtf, ucvtf, fcvtzs and fcvtzu take a destination and a source size
    of 16, 32 or 64 bits, except that scvtf and ucvtf convert 16-bit integers
    only to half precision and fcvtzs and fcvtzu convert to 16-bit integers
    only from half precision; every other pair aborts and emits nothing.
    Among the accepted calls, bits 23:16 of the word determine the mnemonic
    and both sizes: no two conversions share an encoding. *)
Theorem convert_encoding_injective m zd dstsize (pg : PRegisterMerge) zn srcsize buf :
  0 <= Idx zd < 32 -> 0 <= Idx zn < 32 -> 0 <= Idx pg < 16 ->
  (convert_accepts m dstsize srcsize = true ->
   exists w,
     emits (convert m zd dstsize pg zn srcsize buf) buf w
     /\ forall m' zd' dstsize' (pg' : PRegisterMerge) zn' srcsize' buf' w',
          0 <= Idx zd' < 32 -> 0 <= Idx zn' < 32 -> 0 <= Idx pg' < 16 ->
          emits (convert m' zd' dstsize' pg' zn' srcsize' buf') buf' w' ->
          bits 16 8 w' = bits 16 8 w ->
          m' = m /\ dstsize' = dstsize /\ srcsize' = srcsize)
  /\ (convert_accepts m dstsize srcsize = false ->
      aborts (convert m zd dstsize pg zn srcsize buf) buf).
Proof.
  intros Hzd Hzn Hpg. split; [|apply convert_rejects].
  intros Hacc.
  destruct (convert_emits m zd dstsize pg zn srcsize buf Hzd Hzn Hpg Hacc)
    as (w & Hw & Hcode).
  exists w. split; [exact Hw|].
  intros m' zd' dstsize' pg' zn' srcsize' buf' w' Hzd' Hzn' Hpg' Hw' Hsame.
  destruct (convert_accepts m' dstsize' srcsize') eqn:Hacc'.
  - destruct (convert_emits m' zd' dstsize' pg' zn' srcsize' buf'
                Hzd' Hzn' Hpg' Hacc') as (v & Hv & Hcode').
    rewrite (emits_functional _ _ _ _ Hv Hw') in Hcode'.
    pose proof (convert_of_code_spec m dstsize srcsize Hacc) as H1.
    pose proof (convert_of_code_spec m' dstsize' srcsize' Hacc') as H2.
    rewrite <- Hcode' in H2. rewrite Hsame, Hcode in H2.
    rewrite H1 in H2. injection H2 as -> -> ->. repeat split.
  - destruct (convert_rejects m' zd' dstsize' pg' zn' srcsize' buf' Hacc')
      as (msg & Hstop).
    unfold emits in Hw'. rewrite Hstop in Hw'. discriminate Hw'.
Qed.

Lemma convert_encoding_injective_witness :
  (0 <= Idx (ZReg 1) < 32 /\ 0 <= Idx (ZReg 2) < 32 /\ 0 <= Idx (PRegMerge 3) < 16
   /\ convert_accepts FCVTZS i32Bit i64Bit = true)
  /\ exists w,
      emits (convert FCVTZS (ZReg 1) i32Bit (PRegMerge 3) (ZReg 2) i64Bit []) [] w
      /\ forall m' zd' dstsize' (pg' : PRegisterMerge) zn' srcsize' buf' w',
           0 <= Idx zd' < 32 -> 0 <= Idx zn' < 32 -> 0 <= Idx pg' < 16 ->
           emits (convert m' zd' dstsize' pg' zn' srcsize' buf') buf' w' ->
           bits 16 8 w' = bits 16 8 w ->
           m' = FCVTZS /\ dstsize' = i32Bit /\ srcsize' = i64Bit.
Proof.
  assert (H1 : 0 <= Idx (ZReg 1) < 32) by (simpl; lia).
  assert (H2 : 0 <= Idx (ZReg 2) < 32) by (simpl; lia).
  assert (H3 : 0 <= Idx (PRegMerge 3) < 16) by (simpl; lia).
  assert (H4 : convert_accepts FCVTZS i32Bit i64Bit = true) by reflexivity.
  split; [exact (conj H1 (conj H2 (conj H3 H4)))|].
  exact (proj1 (convert_encoding_injective FCVTZS (ZReg 1) i32Bit (PRegMerge 3)
                  (ZReg 2) i64Bit [] H1 H2 H3) H4).
Defined.

(** ** Unpredicated add and subtract *)

Lemma SVEIntegerAddSubUnpredicated_fields opc size zm zn zd buf :
  size <> i128Bit -> 0 <= opc < 8 ->
  0 <= Idx zm < 32 -> 0 <= Idx zn < 32 -> 0 <= Idx zd < 32 ->
  exists w,
    emits (SVEIntegerAddSubUnpredicated
             (shl (bin "0000'0100'0010'0000'000") 13) opc size zm zn zd buf) buf w
    /\ bits 22 2 w = ToUnderlying size /\ bits 16 5 w = Idx zm
    /\ bits 10 3 w = opc /\ bits 5 5 w = Idx zn /\ bits 0 5 w = Idx zd.
Proof.
  intros Hsize Hopc Hzm Hzn Hzd. unfold SVEIntegerAddSubUnpredicated.
  rewrite assert_AA_pass by (destruct size; try reflexivity; contradiction).
  unfold emits, dc32. eexists. split; [reflexivity|].
  pose proof (ToUnderlying_range size Hsize) as Hu.
  repeat split; fields.
Qed.

Ltac unfold_add_sub :=
  unfold AddSubUnpredicated.add, AddSubUnpredicated.sub,
    AddSubUnpredicated.sqadd, AddSubUnpredicated.uqadd,
    AddSubUnpredicated.sqsub, AddSubUnpredicated.uqsub.

(** X16: add, sub, sqadd, uqadd, sqsub and uqsub on vectors emit one word
    from which the mnemonic, the element size and the three registers are
    read back, for element sizes of 8 to 64 bits; with a 128-bit size they
    abort and emit nothing. *)
Theorem add_sub_round_trip m size zd zn zm buf :
  0 <= Idx zd < 32 -> 0 <= Idx zn < 32 -> 0 <= Idx zm < 32 ->
  (size <> i128Bit ->
   exists w,
     emits (add_sub m size zd zn zm buf) buf w
     /\ add_sub_of_bits (bits 10 3 w) = Some m
     /\ bits 22 2 w = ToUnderlying size
     /\ bits 16 5 w = Idx zm /\ bits 5 5 w = Idx zn /\ bits 0 5 w = Idx zd)
  /\ (size = i128Bit -> aborts (add_sub m size zd zn zm buf) buf).
Proof.
  intros Hzd Hzn Hzm. split.
  - intros Hsize.
    destruct m; cbn [add_sub]; unfold_add_sub;
      match goal with
      | |- context [SVEIntegerAddSubUnpredicated _ ?opc] =>
          destruct (SVEIntegerAddSubUnpredicated_fields opc size zm zn zd buf)
            as (w & Hw & Hs & Hm & Hopc & Hn & Hd);
          [assumption | eval_bin; lia | assumption | assumption | assumption |]
      end;
      exists w; rewrite Hopc; repeat split; assumption.
  - intros ->.
    destruct m; cbn [add_sub]; unfold_add_sub;
      unfold SVEIntegerAddSubUnpredicated;
      rewrite assert_AA_fail by reflexivity; apply aborts_intro.
Qed.

Lemma add_sub_round_trip_witness :
  (0 <= Idx (ZReg 0) < 32 /\ 0 <= Idx (ZReg 1) < 32 /\ 0 <= Idx (ZReg 2) < 32
   /\ i64Bit <> i128Bit)
  /\ exists w,
      emits (add_sub UQSUB i64Bit (ZReg 0) (ZReg 1) (ZReg 2) []) [] w
      /\ add_sub_of_bits (bits 10 3 w) = Some UQSUB
      /\ bits 22 2 w = ToUnderlying i64Bit
      /\ bits 16 5 w = Idx (ZReg 2) /\ bits 5 5 w = Idx (ZReg 1)
      /\ bits 0 5 w = Idx (ZReg 0).
Proof.
  assert (H1 : 0 <= Idx (ZReg 0) < 32) by (simpl; lia).
  assert (H2 : 0 <= Idx (ZReg 1) < 32) by (simpl; lia).
  assert (H3 : 0 <= Idx (ZReg 2) < 32) by (simpl; lia).
  assert (H4 : i64Bit <> i128Bit) by discriminate.
  split; [exact (conj H1 (conj H2 (conj H3 H4)))|].
  exact (proj1 (add_sub_round_trip UQSUB i64Bit (ZReg 0) (ZReg 1) (ZReg 2) []
                  H1 H2 H3) H4).
Defined.

(** ** Compares of two vectors *)

Lemma SVEIntegerCompareVector_fields op o2 ne size zm (pg : PRegister) zn
    (pd : PRegister) buf :
  size <> i128Bit -> 0 <= op < 2 -> 0 <= o2 < 4 -> 0 <= ne < 2 ->
  0 <= Idx zm < 32 -> 0 <= Idx pg <= 7 -> 0 <= Idx zn < 32 -> 0 <= Idx pd < 16 ->
  exists w,
    emits (SVEIntegerCompareVector op o2 ne size zm pg zn pd buf) buf w
    /\ bits 13 3 w = 4 * op + o2 /\ bits 4 1 w = ne
    /\ bits 22 2 w = ToUnderlying size /\ bits 16 5 w = Idx zm
    /\ bits 10 3 w = Idx pg /\ bits 5 5 w = Idx zn /\ bits 0 4 w = Idx pd.
Proof.
  intros Hsize Hop Ho2 Hne Hzm Hpg Hzn Hpd. unfold SVEIntegerCompareVector.
  rewrite assert_A_pass by (destruct size; try reflexivity; contradiction).
  rewrite assert_A_pass by (apply reg_leb_p7_true; lia).
  unfold emits, dc32. eexists. split; [reflexivity|].
  pose proof (ToUnderlying_range size Hsize) as Hu.
  split.
  { assert (Eop : op = 0 \/ op = 1) by lia.
    assert (Eo2 : o2 = 0 \/ o2 = 1 \/ o2 = 2 \/ o2 = 3) by lia.
    destruct Eop as [-> | ->], Eo2 as [-> | [-> | [-> | ->]]]; fields. }
  repeat split; fields.
Qed.

Ltac unfold_compare :=
  unfold CompareVectors.cmpeq, CompareVectors.cmpge, CompareVectors.cmpgt,
    CompareVectors.cmphi, CompareVectors.cmphs, CompareVectors.cmpne,
    CompareWide.cmpeq_wide, CompareWide.cmpgt_wide, CompareWide.cmpge_wide,
    CompareWide.cmphi_wide, CompareWide.cmphs_wide, CompareWide.cmplt_wide,
    CompareWide.cmple_wide, CompareWide.cmplo_wide, CompareWide.cmpls_wide,
    CompareWide.cmpne_wide.

(** X17: the sixteen integer compares of two vectors, six plain and ten wide,
    share one word layout and have pairwise distinct selectors: from the word
    of an accepted call (an accepted element size, a governing predicate p0
    to p7) the mnemonic is read back from bits 15:13 and bit 4, together with
    the size, the predicates and the registers. *)
Theorem integer_compare_round_trip m size (pd : PRegister) zd
    (pg : PRegisterZero) zn zm buf :
  is_integer_compare m = true -> governed_size_ok m size = true ->
  0 <= Idx pd < 16 -> 0 <= Idx pg <= 7 ->
  0 <= Idx zn < 32 -> 0 <= Idx zm < 32 ->
  exists w,
    emits (governed m size pd zd pg zn zm buf) buf w
    /\ integer_compare_of_bits (bits 13 3 w) (bits 4 1 w) = Some m
    /\ bits 22 2 w = ToUnderlying size /\ bits 16 5 w = Idx zm
    /\ bits 10 3 w = Idx pg /\ bits 5 5 w = Idx zn /\ bits 0 4 w = Idx pd.
Proof.
  intros Hm Hsize Hpd Hpg Hzn Hzm.
  assert (Hsize' : size <> i128Bit).
  { intros ->. destruct m; discriminate. }
  destruct m; try discriminate Hm; cbn [governed governed_size_ok] in *;
    unfold_compare; unfold SVEIntegerCompareVectorWide;
    rewrite ?assert_A_pass
      by (destruct size; try reflexivity; discriminate Hsize);
    match goal with
    | |- context [SVEIntegerCompareVector ?op ?o2 ?ne size zm ?p zn pd] =>
        destruct (SVEIntegerCompareVector_fields op o2 ne size zm p zn pd buf)
          as (w & Hw & Hsel & Hne & Hs & Hzm' & Hp & Hn & Hd);
        [assumption | eval_bin; lia | eval_bin; lia | lia
        | assumption | assumption | assumption | assumption |]
    end;
    exists w; rewrite Hsel, Hne; repeat split; assumption.
Qed.

Lemma integer_compare_round_trip_witness :
  (is_integer_compare CMPLO_WIDE = true
   /\ governed_size_ok CMPLO_WIDE i32Bit = true
   /\ 0 <= Idx (PReg 15) < 16 /\ 0 <= Idx (PRegZero 7) <= 7
   /\ 0 <= Idx (ZReg 1) < 32 /\ 0 <= Idx (ZReg 2) < 32)
  /\ exists w,
      emits (governed CMPLO_WIDE i32Bit (PReg 15) (ZReg 0) (PRegZero 7)
               (ZReg 1) (ZReg 2) []) [] w
      /\ integer_compare_of_bits (bits 13 3 w) (bits 4 1 w) = Some CMPLO_WIDE
      /\ bits 22 2 w = ToUnderlying i32Bit /\ bits 16 5 w = Idx (ZReg 2)
      /\ bits 10 3 w = Idx (PRegZero 7) /\ bits 5 5 w = Idx (ZReg 1)
      /\ bits 0 4 w = Idx (PReg 15).
Proof.
  assert (H1 : is_integer_compare CMPLO_WIDE = true) by reflexivity.
  assert (H2 : governed_size_ok CMPLO_WIDE i32Bit = true) by reflexivity.
  assert (H3 : 0 <= Idx (PReg 15) < 16) by (simpl; lia).
  assert (H4 : 0 <= Idx (PRegZero 7) <= 7) by (simpl; lia).
  assert (H5 : 0 <= Idx (ZReg 1) < 32) by (simpl; lia).
  assert (H6 : 0 <= Idx (ZReg 2) < 32) by (simpl; lia).
  split; [exact (conj H1 (conj H2 (conj H3 (conj H4 (conj H5 H6)))))|].
  exact (integer_compare_round_trip CMPLO_WIDE i32Bit (PReg 15) (ZReg 0)
           (PRegZero 7) (ZReg 1) (ZReg 2) [] H1 H2 H3 H4 H5 H6).
Defined.

Lemma SVEFloatCompareVector_fields op o2 o3 size zm (pg : PRegister) zn
    (pd : PRegister) buf :
  size <> i128Bit -> size <> i8Bit ->
  0 <= op < 2 -> 0 <= o2 < 2 -> 0 <= o3 < 2 ->
  0 <= Idx zm < 32 -> 0 <= Idx pg <= 7 -> 0 <= Idx zn < 32 -> 0 <= Idx pd < 16 ->
  exists w,
    emits (SVEFloatCompareVector op o2 o3 size zm pg zn pd buf) buf w
    /\ bits 15 1 w = op /\ bits 13 1 w = o2 /\ bits 4 1 w = o3
    /\ bits 22 2 w = ToUnderlying size /\ bits 16 5 w = Idx zm
    /\ bits 10 3 w = Idx pg /\ bits 5 5 w = Idx zn /\ bits 0 4 w = Idx pd.
Proof.
  intros Hsize Hsize' Hop Ho2 Ho3 Hzm Hpg Hzn Hpd. unfold SVEFloatCompareVector.
  rewrite assert_AA_pass by (destruct size; try reflexivity; contradiction).
  rewrite assert_AA_pass by (destruct size; try reflexivity; contradiction).
  rewrite assert_A_pass by (apply reg_leb_p7_true; lia).
  unfold emits, dc32. eexists. split; [reflexivity|].
  pose proof (ToUnderlying_range size Hsize) as Hu.
  repeat split; fields.
Qed.

Ltac unfold_float_compare :=
  unfold FloatCompareVectors.facle, FloatCompareVectors.faclt;
  unfold FloatCompareVectors.fcmeq, FloatCompareVectors.fcmgt,
    FloatCompareVectors.fcmge, FloatCompareVectors.fcmne,
    FloatCompareVectors.fcmuo, FloatCompareVectors.facge,
    FloatCompareVectors.facgt.

(** X18: the floating-point compares of two vectors emit one word from which
    the mnemonic, the size, the predicates and the registers are read back,
    except that facle and faclt have no encoding of their own: they emit the
    word of facge and facgt with the two source registers exchanged. *)
Theorem float_compare_round_trip m size (pd : PRegister) zd
    (pg : PRegisterZero) zn zm buf :
  is_float_compare m = true -> governed_size_ok m size = true ->
  0 <= Idx pd < 16 -> 0 <= Idx pg <= 7 ->
  0 <= Idx zn < 32 -> 0 <= Idx zm < 32 ->
  exists w,
    emits (governed m size pd zd pg zn zm buf) buf w
    /\ float_compare_of_bits (bits 15 1 w) (bits 13 1 w) (bits 4 1 w)
       = Some (float_compare_encoded m)
    /\ bits 22 2 w = ToUnderlying size
    /\ bits 16 5 w = (if float_compare_swapped m then Idx zn else Idx zm)
    /\ bits 5 5 w = (if float_compare_swapped m then Idx zm else Idx zn)
    /\ bits 10 3 w = Idx pg /\ bits 0 4 w = Idx pd.
Proof.
  intros Hm Hsize Hpd Hpg Hzn Hzm.
  assert (Hs1 : size <> i128Bit) by (intros ->; destruct m; discriminate).
  assert (Hs2 : size <> i8Bit) by (intros ->; destruct m; discriminate).
  destruct m; try discriminate Hm;
    cbn [governed float_compare_swapped float_compare_encoded];
    unfold_float_compare;
    match goal with
    | |- context [SVEFloatCompareVector ?op ?o2 ?o3 size ?a ?p ?b pd] =>
        destruct (SVEFloatCompareVector_fields op o2 o3 size a p b pd buf)
          as (w & Hw & Hop & Ho2 & Ho3 & Hs & Ha & Hp & Hb & Hd);
        [assumption | assumption | lia | lia | lia
        | assumption | assumption | assumption | assumption |]
    end;
    exists w; rewrite Hop, Ho2, Ho3; repeat split; assumption.
Qed.

Lemma float_compare_round_trip_witness :
  (is_float_compare FACLT = true /\ governed_size_ok FACLT i16Bit = true
   /\ 0 <= Idx (PReg 1) < 16 /\ 0 <= Idx (PRegZero 2) <= 7
   /\ 0 <= Idx (ZReg 3) < 32 /\ 0 <= Idx (ZReg 4) < 32)
  /\ exists w,
      emits (governed FACLT i16Bit (PReg 1) (ZReg 0) (PRegZero 2)
               (ZReg 3) (ZReg 4) []) [] w
      /\ float_compare_of_bits (bits 15 1 w) (bits 13 1 w) (bits 4 1 w)
         = Some (float_compare_encoded FACLT)
      /\ bits 22 2 w = ToUnderlying i16Bit
      /\ bits 16 5 w
         = (if float_compare_swapped FACLT then Idx (ZReg 3) else Idx (ZReg 4))
      /\ bits 5 5 w
         = (if float_compare_swapped FACLT then Idx (ZReg 4) else Idx (ZReg 3))
      /\ bits 10 3 w = Idx (PRegZero 2) /\ bits 0 4 w = Idx (PReg 1).
Proof.
  assert (H1 : is_float_compare FACLT = true) by reflexivity.
  assert (H2 : governed_size_ok FACLT i16Bit = true) by reflexivity.
  assert (H3 : 0 <= Idx (PReg 1) < 16) by (simpl; lia).
  assert (H4 : 0 <= Idx (PRegZero 2) <= 7) by (simpl; lia).
  assert (H5 : 0 <= Idx (ZReg 3) < 32) by (simpl; lia).
  assert (H6 : 0 <= Idx (ZReg 4) < 32) by (simpl; lia).
  split; [exact (conj H1 (conj H2 (conj H3 (conj H4 (conj H5 H6)))))|].
  exact (float_compare_round_trip FACLT i16Bit (PReg 1) (ZReg 0) (PRegZero 2)
           (ZReg 3) (ZReg 4) [] H1 H2 H3 H4 H5 H6).
Defined.

(** ** Integer compare with unsigned immediate *)

Lemma SVEIntegerCompareImm_fields lt ne imm7 size (pg : PRegister) zn
    (pd : PRegister) buf :
  size <> i128Bit -> 0 <= lt < 2 -> 0 <= ne < 2 -> 0 <= imm7 < 128 ->
  0 <= Idx pg < 16 -> 0 <= Idx zn < 32 -> 0 <= Idx pd < 16 ->
  exists w,
    emits (SVEIntegerCompareImm lt ne imm7 size pg zn pd buf) buf w
    /\ bits 14 7 w = imm7 /\ bits 22 2 w = ToUnderlying size
    /\ bits 5 5 w = Idx zn /\ bits 0 4 w = Idx pd
    /\ bits 4 1 w = ne
    /\ (Idx pg <= 7 -> bits 13 1 w = lt /\ bits 10 3 w = Idx pg).
Proof.
  intros Hsize Hlt Hne Himm Hpg Hzn Hpd. unfold SVEIntegerCompareImm.
  unfold emits, dc32. eexists. split; [reflexivity|].
  pose proof (ToUnderlying_range size Hsize) as Hu.
  repeat split; try (fields; fail); intros Hle; fields.
Qed.

Lemma lt_pg_alias (lt pg : Z) :
  0 <= lt < 2 -> 8 <= pg < 16 ->
  Z.lor (shl lt 13) (shl pg 10) = Z.lor (shl 1 13) (shl (pg - 8) 10).
Proof.
  intros Hlt Hpg.
  assert (Elt : lt = 0 \/ lt = 1) by lia.
  remember (pg - 8) as q eqn:Hq.
  assert (Epg : pg = q + 8) by lia. subst pg. clear Hq.
  destruct Elt as [-> | ->]; enumerate q 8%nat; reflexivity.
Qed.

Lemma SVEIntegerCompareImm_alias lt ne imm7 size (pg pg' : PRegister) zn
    (pd : PRegister) buf :
  0 <= lt < 2 -> 8 <= Idx pg < 16 -> Idx pg' = Idx pg - 8 ->
  SVEIntegerCompareImm lt ne imm7 size pg zn pd buf
  = SVEIntegerCompareImm 1 ne imm7 size pg' zn pd buf.
Proof.
  intros Hlt Hpg Hpg'. unfold SVEIntegerCompareImm.
  rewrite <- (Z.lor_assoc _ (shl lt 13) (shl (Idx pg) 10)).
  rewrite <- (Z.lor_assoc _ (shl 1 13) (shl (Idx pg') 10)).
  rewrite Hpg', (lt_pg_alias lt (Idx pg)) by assumption. reflexivity.
Qed.

Ltac unfold_unsigned_imm :=
  cbn [unsigned_compare_imm with_lt];
  unfold CompareUnsignedImm.cmphi, CompareUnsignedImm.cmphs,
    CompareUnsignedImm.cmplo, CompareUnsignedImm.cmpls.

(** X19: cmphi, cmphs, cmplo and cmpls with an immediate accept every
    predicate p0 to p15.  With an element size of 8 to 64 bits and an
    immediate below 128 they emit one word holding the immediate, the size
    and the registers; for p0 to p7 the mnemonic and the predicate are read
    back from it, while for p8 to p15 the word is exactly the one emitted for
    the predicate eight lower by the mnemonic that has bit 13 set (cmpls for
    cmphi and cmpls, cmplo for cmphs and cmplo).  With a 128-bit size or an
    immediate of 128 or more they abort and emit nothing. *)
Theorem unsigned_compare_imm_round_trip m size (pd : PRegister)
    (pg : PRegisterZero) zn imm buf :
  0 <= imm -> 0 <= Idx pd < 16 -> 0 <= Idx pg < 16 -> 0 <= Idx zn < 32 ->
  (size <> i128Bit /\ imm < 128 ->
   exists w,
     emits (unsigned_compare_imm m size pd pg zn imm buf) buf w
     /\ bits 14 7 w = imm /\ bits 22 2 w = ToUnderlying size
     /\ bits 5 5 w = Idx zn /\ bits 0 4 w = Idx pd
     /\ (Idx pg <= 7 ->
         unsigned_compare_imm_of_bits (bits 13 1 w) (bits 4 1 w) = Some m
         /\ bits 10 3 w = Idx pg)
     /\ (8 <= Idx pg ->
         emits (unsigned_compare_imm (with_lt m) size pd
                  (PRegZero (Idx pg - 8)) zn imm buf) buf w))
  /\ (size = i128Bit \/ 128 <= imm ->
      aborts (unsigned_compare_imm m size pd pg zn imm buf) buf).
Proof.
  intros Himm Hpd Hpg Hzn. split.
  - intros [Hsize Hlt].
    assert (Hrun : forall m' pg',
              unsigned_compare_imm m' size pd pg' zn imm buf
              = SVEIntegerCompareImm
                  (match m' with CMPLO_I | CMPLS_I => 1 | _ => 0 end)
                  (match m' with CMPHI_I | CMPLS_I => 1 | _ => 0 end)
                  imm size pg' zn pd buf).
    { intros m' pg'. destruct m'; unfold_unsigned_imm;
        rewrite assert_AA_pass by (destruct size; try reflexivity; contradiction);
        rewrite assert_AA_pass by (apply Z.ltb_lt; exact Hlt); reflexivity. }
    rewrite Hrun.
    destruct (SVEIntegerCompareImm_fields
                (match m with CMPLO_I | CMPLS_I => 1 | _ => 0 end)
                (match m with CMPHI_I | CMPLS_I => 1 | _ => 0 end)
                imm size pg zn pd buf)
      as (w & Hw & Hi & Hs & Hn & Hd & Hne & Hlow);
      try assumption; try (destruct m; lia); try lia.
    exists w. repeat split; try assumption.
    + destruct (Hlow H) as [Hl _]. rewrite Hl, Hne. destruct m; reflexivity.
    + apply Hlow. assumption.
    + unfold emits. rewrite Hrun. rewrite <- Hw.
      symmetry. rewrite SVEIntegerCompareImm_alias with (pg' := PReg (Idx pg - 8));
        [destruct m; reflexivity | destruct m; lia | | reflexivity].
      change (Idx (PRegisterZero_to_PRegister pg)) with (Idx pg). lia.
  - intros Hbad.
    destruct m; unfold_unsigned_imm;
      (destruct size; cbn [SubRegSize_eqb negb];
       try (rewrite assert_AA_fail by reflexivity; apply aborts_intro);
       rewrite assert_AA_pass by reflexivity;
       (destruct Hbad as [Hbad | Hbad]; [discriminate Hbad|]);
       rewrite assert_AA_fail by (apply Z.ltb_ge; exact Hbad);
       apply aborts_intro).
Qed.

Lemma unsigned_compare_imm_round_trip_witness :
  (0 <= 127 /\ 0 <= Idx (PReg 0) < 16 /\ 0 <= Idx (PRegZero 9) < 16
   /\ 0 <= Idx (ZReg 5) < 32 /\ i16Bit <> i128Bit /\ 127 < 128)
  /\ exists w,
      emits (unsigned_compare_imm CMPHS_I i16Bit (PReg 0) (PRegZero 9) (ZReg 5)
               127 []) [] w
      /\ bits 14 7 w = 127 /\ bits 22 2 w = ToUnderlying i16Bit
      /\ bits 5 5 w = Idx (ZReg 5) /\ bits 0 4 w = Idx (PReg 0)
      /\ (Idx (PRegZero 9) <= 7 ->
          unsigned_compare_imm_of_bits (bits 13 1 w) (bits 4 1 w) = Some CMPHS_I
          /\ bits 10 3 w = Idx (PRegZero 9))
      /\ (8 <= Idx (PRegZero 9) ->
          emits (unsigned_compare_imm (with_lt CMPHS_I) i16Bit (PReg 0)
                   (PRegZero (Idx (PRegZero 9) - 8)) (ZReg 5) 127 []) [] w).
Proof.
  assert (H1 : 0 <= 127) by lia.
  assert (H2 : 0 <= Idx (PReg 0) < 16) by (simpl; lia).
  assert (H3 : 0 <= Idx (PRegZero 9) < 16) by (simpl; lia).
  assert (H4 : 0 <= Idx (ZReg 5) < 32) by (simpl; lia).
  assert (H5 : i16Bit <> i128Bit) by discriminate.
  assert (H6 : 127 < 128) by lia.
  split; [exact (conj H1 (conj H2 (conj H3 (conj H4 (conj H5 H6)))))|].
  exact (proj1 (unsigned_compare_imm_round_trip CMPHS_I i16Bit (PReg 0)
                  (PRegZero 9) (ZReg 5) 127 [] H1 H2 H3 H4) (conj H5 H6)).
Defined.

(** ** Contiguous loads and stores of one register *)

Lemma SVEContiguousLoadImm_fields (st : bool) dtype Imm (pg : PRegister)
    (rn : Register) zt buf :
  0 <= dtype < 16 ->
  0 <= Idx pg <= 7 -> 0 <= Idx rn < 32 -> 0 <= Idx zt < 32 ->
  exists w,
    emits (SVEContiguousLoadImm (mem_imm_template st) dtype Imm pg rn zt buf) buf w
    /\ bits 30 1 w = Z.b2z st /\ bits 21 4 w = dtype
    /\ bits 16 4 w = Z.land Imm (Z.ones 4)
    /\ bits 10 3 w = Idx pg /\ bits 5 5 w = Idx rn /\ bits 0 5 w = Idx zt.
Proof.
  intros Hdtype Hpg Hrn Hzt. unfold SVEContiguousLoadImm, Encode_rn.
  unfold emits, dc32. eexists. split; [reflexivity|].
  change (Z.ones 4) with 15. change 0xF with 15.
  destruct st; unfold mem_imm_template, Z.b2z; repeat split; fields.
Qed.




(** The dtype a helper passes to the primitive, in its two addressing
    forms. *)
Lemma mem_scalar_imm_dtype h size zt (pg : PRegister) (rn : Register) Imm buf :
  mem_size_ok h size = true -> -8 <= Imm <= 7 ->
  exists dtype,
    0 <= dtype < 16
    /\ (h = LD1W ->
        dtype = if SubRegSize_eqb size i32Bit then bin "1011" else bin "1010")
    /\ mem_scalar_imm h size zt pg rn Imm buf
       = SVEContiguousLoadImm (mem_imm_template (mem_is_store h)) dtype (u32 Imm)
           (if mem_is_store h then pg else Zeroing pg) rn zt buf
    /\ forall (rm : Register),
        mem_scalar_scalar h size zt pg rn rm buf
        = SVEContiguousLoadStore (mem_scalar_template (mem_is_store h))
            (match h with LD1W => Z.lxor dtype 1 | _ => dtype end) rm
            (if mem_is_store h then pg else Zeroing pg) rn zt buf.
Proof.
  intros Hok HImm.
  assert (Hchk : (Imm >=? -8) && (Imm <=? 7) = true)
    by (apply andb_true_iff; split; lia).
  destruct h, size; try discriminate Hok;
    cbn [mem_scalar_imm mem_scalar_scalar mem_is_store]; unfold_mem;
    rewrite assert_AA_pass by exact Hchk;
    rewrite ?static_assert_pass by reflexivity;
    cbn [SubRegSize_eqb ToUnderlying];
    eexists;
    (split; [|split; [|split; [reflexivity | intros rm; reflexivity]]]);
    first [ vm_compute; split; [discriminate | reflexivity]
          | intros _; reflexivity
          | intros Hh; discriminate Hh ].
Qed.

(** X20: every contiguous load and store of one register in its
    scalar-plus-immediate form (ld1b to ld1d, st1b to st1d) emits, for an
    offset of -8 to 7, a size its static_assert admits and a governing
    predicate p0 to p7, one word holding the offset as a four-bit two's
    complement field, the load/store bit, the governing predicate, the base
    register and the data register. *)
Theorem mem_scalar_imm_round_trip h size zt (pg : PRegister) (rn : Register)
    Imm buf :
  mem_size_ok h size = true -> -8 <= Imm <= 7 ->
  0 <= Idx zt < 32 -> 0 <= Idx pg <= 7 -> 0 <= Idx rn < 32 ->
  exists w,
    emits (mem_scalar_imm h size zt pg rn Imm buf) buf w
    /\ bits 30 1 w = Z.b2z (mem_is_store h)
    /\ sext 4 (bits 16 4 w) = Imm
    /\ bits 10 3 w = Idx pg /\ bits 5 5 w = Idx rn /\ bits 0 5 w = Idx zt.
Proof.
  intros Hok HImm Hzt Hpg Hrn.
  destruct (mem_scalar_imm_dtype h size zt pg rn Imm buf Hok HImm)
    as (dtype & Hdtype & _ & Hrun & _).
  rewrite Hrun.
  destruct (SVEContiguousLoadImm_fields (mem_is_store h) dtype (u32 Imm)
              (if mem_is_store h then pg else Zeroing pg) rn zt buf)
    as (w & Hw & Hst & _ & Hi & Hp & Hn & Ht);
    try assumption; [destruct (mem_is_store h); exact Hpg|].
  exists w. rewrite Hi. repeat split; try assumption.
  - apply sext_field; cbn; lia.
  - rewrite Hp. destruct (mem_is_store h); reflexivity.
Qed.

Lemma mem_scalar_imm_round_trip_witness :
  (mem_size_ok LD1SH i32Bit = true /\ -8 <= -8 <= 7
   /\ 0 <= Idx (ZReg 9) < 32 /\ 0 <= Idx (PReg 6) <= 7 /\ 0 <= Idx (Reg 30) < 32)
  /\ exists w,
      emits (mem_scalar_imm LD1SH i32Bit (ZReg 9) (PReg 6) (Reg 30) (-8) []) [] w
      /\ bits 30 1 w = Z.b2z (mem_is_store LD1SH)
      /\ sext 4 (bits 16 4 w) = -8
      /\ bits 10 3 w = Idx (PReg 6) /\ bits 5 5 w = Idx (Reg 30)
      /\ bits 0 5 w = Idx (ZReg 9).
Proof.
  assert (H1 : mem_size_ok LD1SH i32Bit = true) by reflexivity.
  assert (H3 : -8 <= -8 <= 7) by lia.
  assert (H4 : 0 <= Idx (ZReg 9) < 32) by (simpl; lia).
  assert (H5 : 0 <= Idx (PReg 6) <= 7) by (simpl; lia).
  assert (H6 : 0 <= Idx (Reg 30) < 32) by (simpl; lia).
  split; [exact (conj H1 (conj H3 (conj H4 (conj H5 H6))))|].
  exact (mem_scalar_imm_round_trip LD1SH i32Bit (ZReg 9) (PReg 6) (Reg 30) (-8) []
           H1 H3 H4 H5 H6).
Defined.



(** ** Complex integer add *)

(** X22: cadd and sqcadd take only the rotations of 90 and 270 degrees and
    only a destination equal to the first source: then, for an element size
    of 8 to 64 bits, they emit one word from which the mnemonic, the size,
    the rotation and the registers are read back.  With a rotation of 0 or
    180 degrees, a destination different from the first source, or a 128-bit
    size they abort and emit nothing. *)
Theorem complex_add_round_trip m size zd zn zm rot buf :
  0 <= Idx zd < 32 -> 0 <= Idx zm < 32 ->
  (size <> i128Bit /\ Idx zd = Idx zn /\ (rot = ROTATE_90 \/ rot = ROTATE_270) ->
   exists w,
     emits (complex_add m size zd zn zm rot buf) buf w
     /\ complex_add_of_bits (bits 16 1 w) = Some m
     /\ rotation_of_bit (bits 10 1 w) = rot
     /\ bits 22 2 w = ToUnderlying size
     /\ bits 5 5 w = Idx zm /\ bits 0 5 w = Idx zd)
  /\ (size = i128Bit \/ Idx zd <> Idx zn \/ rot = ROTATE_0 \/ rot = ROTATE_180 ->
      aborts (complex_add m size zd zn zm rot buf) buf).
Proof.
  intros Hzd Hzm. split.
  - intros (Hsize & Halias & Hrot).
    pose proof (ToUnderlying_range size Hsize) as Hu.
    destruct m; cbn [complex_add]; unfold cadd, sqcadd, SVE2ComplexIntAdd;
      rewrite assert_A_pass by (destruct size; try reflexivity; contradiction);
      rewrite assert_A_pass by (apply reg_eqb_true; exact Halias);
      rewrite assert_A_pass by (destruct Hrot as [-> | ->]; reflexivity);
      unfold emits, dc32; eexists; (split; [reflexivity|]);
      (destruct Hrot as [-> | ->]; cbn [Rotation_eqb];
       repeat split; fields).
  - intros Hbad.
    destruct m; cbn [complex_add]; unfold cadd, sqcadd, SVE2ComplexIntAdd;
      (destruct (SubRegSize_eqb size i128Bit) eqn:Es; cbn [negb];
       [rewrite assert_A_fail by reflexivity; apply aborts_intro|];
       rewrite assert_A_pass by reflexivity;
       destruct (Z.eq_dec (Idx zd) (Idx zn)) as [Heq | Hne];
       [|rewrite assert_A_fail by (apply reg_eqb_false; exact Hne);
         apply aborts_intro];
       rewrite assert_A_pass by (apply reg_eqb_true; exact Heq);
       destruct Hbad as [-> | [Hbad | [-> | ->]]];
       [discriminate Es | contradiction | |];
       rewrite assert_A_fail by reflexivity; apply aborts_intro).
Qed.

Lemma complex_add_round_trip_witness :
  (0 <= Idx (ZReg 6) < 32 /\ 0 <= Idx (ZReg 7) < 32
   /\ i8Bit <> i128Bit /\ Idx (ZReg 6) = Idx (ZReg 6)
   /\ (ROTATE_270 = ROTATE_90 \/ ROTATE_270 = ROTATE_270))
  /\ exists w,
      emits (complex_add SQCADD i8Bit (ZReg 6) (ZReg 6) (ZReg 7) ROTATE_270 []) [] w
      /\ complex_add_of_bits (bits 16 1 w) = Some SQCADD
      /\ rotation_of_bit (bits 10 1 w) = ROTATE_270
      /\ bits 22 2 w = ToUnderlying i8Bit
      /\ bits 5 5 w = Idx (ZReg 7) /\ bits 0 5 w = Idx (ZReg 6).
Proof.
  assert (H1 : 0 <= Idx (ZReg 6) < 32) by (simpl; lia).
  assert (H2 : 0 <= Idx (ZReg 7) < 32) by (simpl; lia).
  assert (H3 : i8Bit <> i128Bit) by discriminate.
  assert (H4 : Idx (ZReg 6) = Idx (ZReg 6)) by reflexivity.
  assert (H5 : ROTATE_270 = ROTATE_90 \/ ROTATE_270 = ROTATE_270)
    by (right; reflexivity).
  split; [exact (conj H1 (conj H2 (conj H3 (conj H4 H5))))|].
  exact (proj1 (complex_add_round_trip SQCADD i8Bit (ZReg 6) (ZReg 6) (ZReg 7)
                  ROTATE_270 [] H1 H2) (conj H3 (conj H4 H5))).
Defined.

(** ** Add and subtract, narrow high part *)

(** X23: the eight narrowing add and subtract high-part mnemonics (addhnb to
    rsubhnt) take the size of the narrow result, 8, 16 or 32 bits, and store
    the size code plus one: the size field of the word names the source
    elements, twice as wide.  The mnemonic and the registers are read back
    from the word; with a 64-bit or 128-bit size they abort and emit
    nothing. *)
Theorem narrow_high_round_trip m size zd zn zm buf :
  0 <= Idx zd < 32 -> 0 <= Idx zn < 32 -> 0 <= Idx zm < 32 ->
  (size <> i64Bit /\ size <> i128Bit ->
   exists w,
     emits (narrow_high m size zd zn zm buf) buf w
     /\ narrow_high_of_bits (bits 10 3 w) = Some m
     /\ half_size (FromUnderlying (bits 22 2 w)) = Some size
     /\ bits 16 5 w = Idx zm /\ bits 5 5 w = Idx zn /\ bits 0 5 w = Idx zd)
  /\ (size = i64Bit \/ size = i128Bit ->
      aborts (narrow_high m size zd zn zm buf) buf).
Proof.
  intros Hzd Hzn Hzm. split.
  - intros [Hs1 Hs2].
    assert (Hprim : forall opc, 0 <= opc < 8 ->
              exists w,
                emits (SVE2IntegerAddSubNarrowHighPart size opc zd zn zm buf) buf w
                /\ bits 10 3 w = opc
                /\ bits 22 2 w = ToUnderlying size + 1
                /\ bits 16 5 w = Idx zm /\ bits 5 5 w = Idx zn
                /\ bits 0 5 w = Idx zd).
    { intros opc Hopc. unfold SVE2IntegerAddSubNarrowHighPart.
      rewrite assert_A_pass by (destruct size; try reflexivity; contradiction).
      unfold emits, dc32. eexists. split; [reflexivity|].
      assert (Hu : 0 <= ToUnderlying size + 1 < 4)
        by (destruct size; try contradiction; cbn; lia).
      repeat split; fields. }
    destruct m; cbn [narrow_high];
      unfold addhnb, addhnt, raddhnb, raddhnt, subhnb, subhnt, rsubhnb, rsubhnt;
      match goal with
      | |- context [SVE2IntegerAddSubNarrowHighPart size ?opc] =>
          destruct (Hprim opc) as (w & Hw & Hopc & Hs & Hm & Hn & Hd);
          [eval_bin; lia|]
      end;
      exists w; rewrite Hopc, Hs;
      (repeat split; try assumption; try reflexivity);
      destruct size; try contradiction; reflexivity.
  - intros Hbad.
    destruct m; cbn [narrow_high];
      unfold addhnb, addhnt, raddhnb, raddhnt, subhnb, subhnt, rsubhnb, rsubhnt,
        SVE2IntegerAddSubNarrowHighPart;
      (destruct Hbad as [-> | ->]; cbn [SubRegSize_eqb negb andb];
       rewrite assert_A_fail by reflexivity; apply aborts_intro).
Qed.

Lemma narrow_high_round_trip_witness :
  (0 <= Idx (ZReg 1) < 32 /\ 0 <= Idx (ZReg 2) < 32 /\ 0 <= Idx (ZReg 3) < 32
   /\ i32Bit <> i64Bit /\ i32Bit <> i128Bit)
  /\ exists w,
      emits (narrow_high RSUBHNT i32Bit (ZReg 1) (ZReg 2) (ZReg 3) []) [] w
      /\ narrow_high_of_bits (bits 10 3 w) = Some RSUBHNT
      /\ half_size (FromUnderlying (bits 22 2 w)) = Some i32Bit
      /\ bits 16 5 w = Idx (ZReg 3) /\ bits 5 5 w = Idx (ZReg 2)
      /\ bits 0 5 w = Idx (ZReg 1).
Proof.
  assert (H1 : 0 <= Idx (ZReg 1) < 32) by (simpl; lia).
  assert (H2 : 0 <= Idx (ZReg 2) < 32) by (simpl; lia).
  assert (H3 : 0 <= Idx (ZReg 3) < 32) by (simpl; lia).
  assert (H4 : i32Bit <> i64Bit) by discriminate.
  assert (H5 : i32Bit <> i128Bit) by discriminate.
  split; [exact (conj H1 (conj H2 (conj H3 (conj H4 H5))))|].
  exact (proj1 (narrow_high_round_trip RSUBHNT i32Bit (ZReg 1) (ZReg 2) (ZReg 3) []
                  H1 H2 H3) (conj H4 H5)).
Defined.

(** ** Add and subtract long with carry *)

(** X24: adclb, adclt, sbclb and sbclt take 32-bit or 64-bit elements only
    and emit one word whose bit 22 says which, from which the mnemonic (bit
    23 and bit 10) and the registers are read back; with any other size they
    abort and emit nothing. *)
Theorem carry_long_round_trip m size zda zn zm buf :
  0 <= Idx zda < 32 -> 0 <= Idx zn < 32 -> 0 <= Idx zm < 32 ->
  (size = i32Bit \/ size = i64Bit ->
   exists w,
     emits (carry_long m size zda zn zm buf) buf w
     /\ carry_long_of_bits (bits 23 1 w) (bits 10 1 w) = Some m
     /\ bits 22 1 w = (if SubRegSize_eqb size i64Bit then 1 else 0)
     /\ bits 16 5 w = Idx zm /\ bits 5 5 w = Idx zn /\ bits 0 5 w = Idx zda)
  /\ (size <> i32Bit /\ size <> i64Bit ->
      aborts (carry_long m size zda zn zm buf) buf).
Proof.
  intros Hzda Hzn Hzm. split.
  - intros Hsize.
    assert (Hprim : forall sizep1 T, 0 <= sizep1 < 2 -> 0 <= T < 2 ->
              exists w,
                emits (SVE2IntegerAddSubLongWithCarry size sizep1 T zda zn zm buf)
                  buf w
                /\ bits 23 1 w = sizep1 /\ bits 10 1 w = T
                /\ bits 22 1 w = (if SubRegSize_eqb size i64Bit then 1 else 0)
                /\ bits 16 5 w = Idx zm /\ bits 5 5 w = Idx zn
                /\ bits 0 5 w = Idx zda).
    { intros sizep1 T Hp HT. unfold SVE2IntegerAddSubLongWithCarry.
      destruct Hsize as [-> | ->]; cbn [SubRegSize_eqb orb];
        rewrite assert_A_pass by reflexivity;
        unfold emits, dc32; eexists; (split; [reflexivity|]);
        repeat split; fields. }
    destruct m; cbn [carry_long]; unfold adclb, adclt, sbclb, sbclt;
      match goal with
      | |- context [SVE2IntegerAddSubLongWithCarry size ?p ?T] =>
          destruct (Hprim p T) as (w & Hw & Hp & HT & Hs & Hm & Hn & Hd);
          [lia | lia |]
      end;
      exists w; rewrite Hp, HT; repeat split; assumption.
  - intros [Hs1 Hs2].
    destruct m; cbn [carry_long];
      unfold adclb, adclt, sbclb, sbclt, SVE2IntegerAddSubLongWithCarry;
      (destruct size; try contradiction; cbn [SubRegSize_eqb orb];
       rewrite assert_A_fail by reflexivity; apply aborts_intro).
Qed.

Lemma carry_long_round_trip_witness :
  (0 <= Idx (ZReg 1) < 32 /\ 0 <= Idx (ZReg 2) < 32 /\ 0 <= Idx (ZReg 3) < 32
   /\ (i64Bit = i32Bit \/ i64Bit = i64Bit))
  /\ exists w,
      emits (carry_long SBCLT i64Bit (ZReg 1) (ZReg 2) (ZReg 3) []) [] w
      /\ carry_long_of_bits (bits 23 1 w) (bits 10 1 w) = Some SBCLT
      /\ bits 22 1 w = (if SubRegSize_eqb i64Bit i64Bit then 1 else 0)
      /\ bits 16 5 w = Idx (ZReg 3) /\ bits 5 5 w = Idx (ZReg 2)
      /\ bits 0 5 w = Idx (ZReg 1).
Proof.
  assert (H1 : 0 <= Idx (ZReg 1) < 32) by (simpl; lia).
  assert (H2 : 0 <= Idx (ZReg 2) < 32) by (simpl; lia).
  assert (H3 : 0 <= Idx (ZReg 3) < 32) by (simpl; lia).
  assert (H4 : i64Bit = i32Bit \/ i64Bit = i64Bit) by (right; reflexivity).
  split; [exact (conj H1 (conj H2 (conj H3 H4)))|].
  exact (proj1 (carry_long_round_trip SBCLT i64Bit (ZReg 1) (ZReg 2) (ZReg 3) []
                  H1 H2 H3) H4).
Defined.

(** ** sel and mov *)

(** X25: sel emits, for an element size of 8 to 64 bits and any predicate p0
    to p15, one word from which the size, the predicate and the three
    registers are read back, and aborts on a 128-bit size; the predicated
    vector mov is sel with the destination as second source: both calls
    produce the same outcome. *)
Theorem sel_round_trip size zd (pv : PRegisterMerge) zn zm buf :
  0 <= Idx zd < 32 -> 0 <= Idx pv < 16 -> 0 <= Idx zn < 32 -> 0 <= Idx zm < 32 ->
  (size <> i128Bit ->
   exists w,
     emits (sel size zd pv zn zm buf) buf w
     /\ bits 22 2 w = ToUnderlying size /\ bits 16 5 w = Idx zm
     /\ bits 10 4 w = Idx pv /\ bits 5 5 w = Idx zn /\ bits 0 5 w = Idx zd)
  /\ (size = i128Bit -> aborts (sel size zd pv zn zm buf) buf)
  /\ mov size zd pv zn buf = sel size zd pv zn zd buf.
Proof.
  intros Hzd Hpv Hzn Hzm. split; [|split].
  - intros Hsize. unfold sel, SVESel, Encode_rn, Encode_rd.
    rewrite assert_AA_pass by (destruct size; try reflexivity; contradiction).
    unfold emits, dc32. eexists. split; [reflexivity|].
    pose proof (ToUnderlying_range size Hsize) as Hu.
    change (Idx (PRegisterMerge_to_PRegister pv)) with (Idx pv).
    repeat split; fields.
  - intros ->. unfold sel.
    rewrite assert_AA_fail by reflexivity. apply aborts_intro.
  - reflexivity.
Qed.

Lemma sel_round_trip_witness :
  (0 <= Idx (ZReg 1) < 32 /\ 0 <= Idx (PRegMerge 15) < 16
   /\ 0 <= Idx (ZReg 2) < 32 /\ 0 <= Idx (ZReg 3) < 32 /\ i8Bit <> i128Bit)
  /\ exists w,
      emits (sel i8Bit (ZReg 1) (PRegMerge 15) (ZReg 2) (ZReg 3) []) [] w
      /\ bits 22 2 w = ToUnderlying i8Bit /\ bits 16 5 w = Idx (ZReg 3)
      /\ bits 10 4 w = Idx (PRegMerge 15) /\ bits 5 5 w = Idx (ZReg 2)
      /\ bits 0 5 w = Idx (ZReg 1).
Proof.
  assert (H1 : 0 <= Idx (ZReg 1) < 32) by (simpl; lia).
  assert (H2 : 0 <= Idx (PRegMerge 15) < 16) by (simpl; lia).
  assert (H3 : 0 <= Idx (ZReg 2) < 32) by (simpl; lia).
  assert (H4 : 0 <= Idx (ZReg 3) < 32) by (simpl; lia).
  assert (H5 : i8Bit <> i128Bit) by discriminate.
  split; [exact (conj H1 (conj H2 (conj H3 (conj H4 H5))))|].
  exact (proj1 (sel_round_trip i8Bit (ZReg 1) (PRegMerge 15) (ZReg 2) (ZReg 3) []
                  H1 H2 H3 H4) H5).
Defined.

(** * Destructive forms: the aliasing assertions *)

(** An assertion ahead of an emitter that aborts leaves the call aborting:
    the assertion fails, or the rest runs on the buffer as it was. *)
Lemma assert_A_then_aborts (pred : bool) (msg : string) (k : Emit unit)
    (buf : CodeBuffer) :
  aborts (k buf) buf -> aborts ((LOGMAN_THROW_A_FMT pred msg ;; k) buf) buf.
Proof.
  intros Hk. destruct pred.
  - rewrite assert_A_pass by reflexivity. exact Hk.
  - rewrite assert_A_fail by reflexivity. apply aborts_intro.
Qed.

Lemma assert_AA_then_aborts (pred : bool) (msg : string) (k : Emit unit)
    (buf : CodeBuffer) :
  aborts (k buf) buf -> aborts ((LOGMAN_THROW_AA_FMT pred msg ;; k) buf) buf.
Proof.
  intros Hk. destruct pred.
  - rewrite assert_AA_pass by reflexivity. exact Hk.
  - rewrite assert_AA_fail by reflexivity. apply aborts_intro.
Qed.

(** The aliasing assertion itself, on two registers of one class. *)
Lemma alias_assert_aborts {R : Type} `{HasIdx R} (a b : R) (msg : string)
    (k : Emit unit) (buf : CodeBuffer) :
  Idx a <> Idx b ->
  aborts ((LOGMAN_THROW_A_FMT (reg_eqb a b) msg ;; k) buf) buf.
Proof.
  intros Hne. rewrite assert_A_fail by (apply reg_eqb_false; exact Hne).
  apply aborts_intro.
Qed.

Ltac unfold_destructive :=
  unfold
    AddSubPredicated.add, AddSubPredicated.sub, AddSubPredicated.subr,
    MinMaxDifferencePredicated.smax, MinMaxDifferencePredicated.umax,
    MinMaxDifferencePredicated.smin, MinMaxDifferencePredicated.umin,
    MinMaxDifferencePredicated.sabd, MinMaxDifferencePredicated.uabd,
    MulDivPredicated.mul, MulDivPredicated.smulh, MulDivPredicated.umulh,
    MulDivPredicated.sdiv, MulDivPredicated.udiv, MulDivPredicated.sdivr,
    MulDivPredicated.udivr, LogicalPredicated.orr, LogicalPredicated.eor,
    LogicalPredicated.and_, LogicalPredicated.bic,
    ShiftByWidePredicated.asr_wide, ShiftByWidePredicated.lsr_wide,
    ShiftByWidePredicated.lsl_wide, BitwiseTernary.eor3, BitwiseTernary.bsl,
    BitwiseTernary.bcax, BitwiseTernary.bsl1n, BitwiseTernary.bsl2n,
    BitwiseTernary.nbsl, FloatPairwise.faddp, FloatPairwise.fmaxnmp,
    FloatPairwise.fminnmp, FloatPairwise.fmaxp, FloatPairwise.fminp,
    HalvingPredicated.shadd, HalvingPredicated.uhadd,
    HalvingPredicated.shsub, HalvingPredicated.uhsub,
    HalvingPredicated.srhadd, HalvingPredicated.urhadd,
    HalvingPredicated.shsubr, HalvingPredicated.uhsubr, IntegerPairwise.addp,
    IntegerPairwise.smaxp, IntegerPairwise.umaxp, IntegerPairwise.sminp,
    IntegerPairwise.uminp, SaturatingAddSubPredicated.sqadd,
    SaturatingAddSubPredicated.uqadd, SaturatingAddSubPredicated.sqsub,
    SaturatingAddSubPredicated.uqsub, SaturatingAddSubPredicated.suqadd,
    SaturatingAddSubPredicated.usqadd, SaturatingAddSubPredicated.sqsubr,
    SaturatingAddSubPredicated.uqsubr, FloatArithmeticPredicated.fadd,
    FloatArithmeticPredicated.fsub, FloatArithmeticPredicated.fmul,
    FloatArithmeticPredicated.fsubr, FloatArithmeticPredicated.fmaxnm,
    FloatArithmeticPredicated.fminnm, FloatArithmeticPredicated.fmax,
    FloatArithmeticPredicated.fmin, FloatArithmeticPredicated.fabd,
    FloatArithmeticPredicated.fscale, FloatArithmeticPredicated.fmulx,
    FloatArithmeticPredicated.fdivr, FloatArithmeticPredicated.fdiv, ftmad,
    fadda, SpliceDestructive.splice, ConditionalBroadcast.clasta,
    ConditionalBroadcast.clastb, ConditionalExtractSimd.clasta,
    ConditionalExtractSimd.clastb, ConditionalExtractGeneral.clasta,
    ConditionalExtractGeneral.clastb, brkn, brkns, pnext, pfirst,
    ExtDestructive.ext, cadd, sqcadd;
  unfold
    SVEFloatPairwiseArithmetic, SVE2IntegerHalvingPredicated,
    SVEIntegerPairwiseArithmetic, SVEFloatArithmeticPredicated,
    SVEAddSubVectorsPredicated, SVEIntegerMulDivVectorsPredicated,
    SVE2IntegerSaturatingAddSub, SVEBitwiseShiftByWideElementPredicated,
    SVE2ComplexIntAdd, SVEFPSerialReductionPredicated.

(** Walk down the assertions of an emitter to the one on the operand pair. *)
Ltac alias_abort Hne :=
  unfold_destructive; cbv zeta;
  repeat first
    [ apply alias_assert_aborts; exact Hne
    | apply assert_A_then_aborts
    | apply assert_AA_then_aborts ].

Lemma merging_alias m size zd pg zn zm buf :
  Idx zd <> Idx zn -> aborts (merging m size zd pg zn zm buf) buf.
Proof.
  intros Hne.
  destruct m as [m | m | m | m | m | m | m | m | m | m | m]; destruct m;
    cbn [merging shift_vec_pred AddSubPredicated.run MinMaxDifferencePredicated.run
         MulDivPredicated.run LogicalPredicated.run ShiftByWidePredicated.run
         FloatPairwise.run HalvingPredicated.run IntegerPairwise.run
         SaturatingAddSubPredicated.run FloatArithmeticPredicated.run];
    first [ apply SVEBitwiseShiftbyVector_alias; exact Hne
          | alias_abort Hne ].
Qed.

Lemma ternary_alias m zd zdn zm zk buf :
  Idx zd <> Idx zdn -> aborts (BitwiseTernary.run m zd zdn zm zk buf) buf.
Proof.
  intros Hne. destruct m; cbn [BitwiseTernary.run]; alias_abort Hne.
Qed.

Lemma complex_add_alias m size zd zn zm rot buf :
  Idx zd <> Idx zn -> aborts (complex_add m size zd zn zm rot buf) buf.
Proof.
  intros Hne. destruct m; cbn [complex_add]; alias_abort Hne.
Qed.

Lemma clast_vector_alias m size zd pg zn zm buf :
  Idx zd <> Idx zn -> aborts (clast_vector m size zd pg zn zm buf) buf.
Proof.
  intros Hne. destruct m; cbn [clast_vector]; alias_abort Hne.
Qed.

Lemma clast_simd_alias m size vd pg vn zm buf :
  Idx vd <> Idx vn -> aborts (clast_simd m size vd pg vn zm buf) buf.
Proof.
  intros Hne. destruct m; cbn [clast_simd]; alias_abort Hne.
Qed.

Lemma clast_general_alias m size rd pg rn zm buf :
  Idx rd <> Idx rn -> aborts (clast_general m size rd pg rn zm buf) buf.
Proof.
  intros Hne. destruct m; cbn [clast_general]; alias_abort Hne.
Qed.

Lemma break_next_alias m pd pg pn pm buf :
  Idx pd <> Idx pm -> aborts (break_next m pd pg pn pm buf) buf.
Proof.
  intros Hne. destruct m; cbn [break_next]; alias_abort Hne.
Qed.

(** With the pair naming one register the calls go through: one call of each
    kind, with the word it appends. *)
Lemma aliased_calls_emit :
  emits (run_form
           (MergingForm (AddSub AddSubPredicated.ADD) i8Bit (ZReg 0)
              (PRegMerge 0) (ZReg 0) (ZReg 1))
           []) [] 0x04000020
  /\ emits (run_form
              (MergingForm (MinMaxDifference MinMaxDifferencePredicated.SMAX)
                 i32Bit (ZReg 0) (PRegMerge 0) (ZReg 0) (ZReg 1))
              []) [] 0x04880020
  /\ emits (run_form
              (MergingForm (MulDiv MulDivPredicated.SDIV) i32Bit (ZReg 0)
                 (PRegMerge 0) (ZReg 0) (ZReg 1))
              []) [] 0x04940020
  /\ emits (run_form
              (MergingForm (Logical LogicalPredicated.ORR) i8Bit (ZReg 0)
                 (PRegMerge 0) (ZReg 0) (ZReg 1))
              []) [] 0x04180020
  /\ emits (run_form
              (MergingForm (ShiftByVector LSL_V) i8Bit (ZReg 0) (PRegMerge 0)
                 (ZReg 0) (ZReg 1))
              []) [] 0x04138020
  /\ emits (run_form
              (MergingForm (ShiftByWide ShiftByWidePredicated.LSL_WIDE) i8Bit
                 (ZReg 0) (PRegMerge 0) (ZReg 0) (ZReg 1))
              []) [] 0x041B8020
  /\ emits (run_form
              (MergingForm (FloatPairwiseOp FloatPairwise.FADDP) i32Bit
                 (ZReg 0) (PRegMerge 0) (ZReg 0) (ZReg 1))
              []) [] 0x64908020
  /\ emits (run_form
              (MergingForm (Halving HalvingPredicated.SHADD) i8Bit (ZReg 0)
                 (PRegMerge 0) (ZReg 0) (ZReg 1))
              []) [] 0x44108020
  /\ emits (run_form
              (MergingForm (IntegerPairwiseOp IntegerPairwise.ADDP) i8Bit
                 (ZReg 0) (PRegMerge 0) (ZReg 0) (ZReg 1))
              []) [] 0x4411A020
  /\ emits (run_form
              (MergingForm
                 (SaturatingAddSub SaturatingAddSubPredicated.SQADD) i8Bit
                 (ZReg 0) (PRegMerge 0) (ZReg 0) (ZReg 1))
              []) [] 0x44188020
  /\ emits (run_form
              (MergingForm (FloatArithmetic FloatArithmeticPredicated.FADD)
                 i32Bit (ZReg 0) (PRegMerge 0) (ZReg 0) (ZReg 1))
              []) [] 0x65808020
  /\ emits (run_form
              (ShiftImmediateForm LSR i32Bit (ZReg 0) (PRegMerge 0) (ZReg 0)
                 17)
              []) [] 0x044181E0
  /\ emits (run_form
              (FcaddForm i32Bit (ZReg 0) (PRegMerge 0) (ZReg 0) (ZReg 1)
                 ROTATE_90)
              []) [] 0x64808020
  /\ emits (run_form
              (FtmadForm i32Bit (ZReg 0) (ZReg 0) (ZReg 1) 3)
              []) [] 0x65938020
  /\ emits (run_form
              (ComplexAddForm CADD i8Bit (ZReg 0) (ZReg 0) (ZReg 1) ROTATE_90)
              []) [] 0x4500D820
  /\ emits (run_form
              (TernaryForm BitwiseTernary.EOR3 (ZReg 0) (ZReg 0) (ZReg 1)
                 (ZReg 2))
              []) [] 0x04213840
  /\ emits (run_form
              (ExtForm (ZReg 0) (ZReg 0) (ZReg 1) 0)
              []) [] 0x05200020
  /\ emits (run_form
              (SpliceForm i8Bit (ZReg 0) (PReg 0) (ZReg 0) (ZReg 1))
              []) [] 0x052C8020
  /\ emits (run_form
              (ClastVectorForm CLASTA i8Bit (ZReg 0) (PReg 0) (ZReg 0)
                 (ZReg 1))
              []) [] 0x05288020
  /\ emits (run_form
              (ClastSimdForm CLASTA i8Bit (VReg 0) (PReg 0) (VReg 0) (ZReg 1))
              []) [] 0x052A8020
  /\ emits (run_form
              (ClastGeneralForm CLASTA i8Bit (Reg 0) (PReg 0) (Reg 0)
                 (ZReg 1))
              []) [] 0x0530A020
  /\ emits (run_form
              (FaddaForm i32Bit (VReg 0) (PReg 0) (VReg 0) (ZReg 1))
              []) [] 0x65982020
  /\ emits (run_form
              (BreakNextForm BRKN (PReg 0) (PRegZero 0) (PReg 1) (PReg 0))
              []) [] 0x25184020
  /\ emits (run_form
              (PnextForm i8Bit (PReg 0) (PReg 0) (PReg 0))
              []) [] 0x2519C400
  /\ emits (run_form
              (PfirstForm (PReg 0) (PReg 0) (PReg 0))
              []) [] 0x2558C000.
Proof.
  repeat apply conj; reflexivity.
Qed.

(** C7: every destructive-form mnemonic aborts, the buffer holding no new
    word, when the two operands that have to name one register differ.  The
    forms are all the mnemonics of SVEOps.inl that assert such a pair: the
    predicated shifts by immediate (zd, zdn), by vector and by wide elements
    (zd, zn), fcadd, ftmad, cadd and sqcadd (zd, zn), the predicated integer
    add/subtract, min/max/difference, multiply/divide, halving, pairwise and
    saturating arithmetic, the predicated bitwise logical operations, the
    predicated and the pairwise floating-point arithmetic, the bitwise
    ternary operations eor3 to nbsl, the destructive ext and splice,
    clasta/clastb on a vector, a SIMD&FP scalar and a general register,
    fadda (vd, vn), brkn/brkns (pd, pm), pnext and pfirst (pd, pn). *)
Theorem destructive_alias_enforced (c : DestructiveForm) (buf : CodeBuffer) :
  fst (aliased_operands c) <> snd (aliased_operands c) ->
  aborts (run_form c buf) buf.
Proof.
  intros Hne.
  destruct c; cbn [aliased_operands fst snd run_form] in *.
  - apply merging_alias. exact Hne.
  - destruct m; apply SVEBitWiseShiftImmediatePred_alias; exact Hne.
  - apply fcadd_alias. exact Hne.
  - alias_abort Hne.
  - apply complex_add_alias. exact Hne.
  - apply ternary_alias. exact Hne.
  - alias_abort Hne.
  - alias_abort Hne.
  - apply clast_vector_alias. exact Hne.
  - apply clast_simd_alias. exact Hne.
  - apply clast_general_alias. exact Hne.
  - alias_abort Hne.
  - apply break_next_alias. exact Hne.
  - alias_abort Hne.
  - alias_abort Hne.
Qed.

Lemma destructive_alias_enforced_witness :
  fst (aliased_operands
         (MergingForm (MinMaxDifference MinMaxDifferencePredicated.SMAX) i32Bit
            (ZReg 0) (PRegMerge 0) (ZReg 1) (ZReg 2)))
    <> snd (aliased_operands
              (MergingForm (MinMaxDifference MinMaxDifferencePredicated.SMAX) i32Bit
                 (ZReg 0) (PRegMerge 0) (ZReg 1) (ZReg 2)))
  /\ aborts
       (run_form
          (MergingForm (MinMaxDifference MinMaxDifferencePredicated.SMAX) i32Bit
             (ZReg 0) (PRegMerge 0) (ZReg 1) (ZReg 2))
          [0xD503201F])
       [0xD503201F].
Proof.
  assert (Hne : fst (aliased_operands
                       (MergingForm (MinMaxDifference MinMaxDifferencePredicated.SMAX)
                          i32Bit (ZReg 0) (PRegMerge 0) (ZReg 1) (ZReg 2)))
                <> snd (aliased_operands
                          (MergingForm (MinMaxDifference MinMaxDifferencePredicated.SMAX)
                             i32Bit (ZReg 0) (PRegMerge 0) (ZReg 1) (ZReg 2))))
    by (simpl; lia).
  split; [exact Hne|].
  exact (destructive_alias_enforced _ _ Hne).
Defined.
